(* ===== verification/_CoqProject ===== *)
-Q . S2P
Prelude.v
Slices.v
GoError.v
GoTime.v
GoText.v
GoPath.v
IO.v
Crypto.v
Format.v
Chunks.v
ChunkSpec.v
Pb.v
Errors.v
Client.v
Keytype.v
Aead.v
Signing.v
Secret.v
SecretStore.v
Invocation.v
Minting.v
Admin.v
Enums.v
Nix.v
NixCodec.v
Methods.v
Kem.v
Spiffe.v
Program.v
Http.v
CmdSign.v
ExSecrets.v
ExWeb.v
Cbor.v
Sealed.v
SealedLemmas.v
SealedFlow.v
ExCourier.v
ExTelemetry.v
SealedProps.v
Stream.v
StreamAgree.v
ExStreamFile.v
StreamLemmas.v
KemLemmas.v
StreamSafety.v
StreamFaults.v
StreamReaders.v
StreamSteps.v
StreamProps.v
StreamAgreeProps.v
StreamFaultProps.v
ClientProps.v
ServiceProps.v
ProgramProps.v
WebProps.v
SpiffeProps.v
CourierProps.v
TelemetryProps.v
StreamFileProps.v
NixLemmas.v
NixProps.v
Concrete.v
SealedConcrete.v
StreamWitnesses.v
StreamFaultWitnesses.v
ClientWitnesses.v
ServiceWitnesses.v
ProgramWitnesses.v
NixWitnesses.v
SealedWitnesses.v
SpiffeWitnesses.v
StreamFileWitnesses.v
CourierWitnesses.v
TelemetryWitnesses.v
