(* ===== verification/Prelude.v ===== *)
(** * A verification of basil-go

    basil-go is the Go client of the Basil secrets broker. Four packages work
    without each other or in one direction only:
    - [stream] (src/stream) encrypts and decrypts containers of authenticated
      chunks on the caller's machine, under a symmetric key or, for an ML-KEM
      recipient, under a key the broker can recover;
    - [basil] (src/basil) is the client of the broker's gRPC services over a Unix
      socket; [stream] calls it in one place, the recovery of a content key
      through the broker ([BrokerCEKRecovery] calls [UnwrapEnvelope]);
    - [sealedinvocation] (src/sealedinvocation) builds COSE requests that are
      signed and sealed for the broker, and opens its responses;
    - [spiffe] (src/spiffe) is the client of the broker's SPIFFE Workload API, a
      wrapper of go-spiffe's.
    The command src/cmd/basil-sign and the programs of src/examples compose them.

    ** Files

    Shared: this file (bytes, integers at their width, Go's results, list
    lemmas, automation, the hint databases [basil]), [GoError] (Go's error
    values, [errors.Is] and [errors.As]), [IO] (the state-and-error monad of
    [stream] and [sealedinvocation]: the caller's reader and writer, the random
    source, the buffers a call must wipe, and whatever lies behind a key
    recovery), [Program] (the monad of a command: its output, its errors, its
    exit status), and the standard library's [GoTime] (instants, durations,
    RFC 3339), [GoText] (UTF-8, [json.Valid], [bytes.TrimSpace], hexadecimal,
    base64), [GoPath] ([filepath.Join]) and [Slices] (slices as windows on
    shared arrays, with [append]).

    Package [stream]:
    - [Crypto]: the primitives, as an interface with the laws of documented
      behaviour (lengths, and that opening inverts sealing);
    - [Format] is format.go: constants, suites, the fixed header and its parser,
      the additional data of a chunk and of a wrapped key, nonces, key derivation;
    - [Chunks] is the lower half of stream.go: [readFull], the record readers,
      [writeChunks] and [readChunks];
    - [Kem] is kem.go: wrapping, the two recoveries behind the interface
      [CEKRecovery], and the KEM header;
    - [Stream] is the upper half of stream.go: [EncryptAEAD], [DecryptAEAD],
      [EncryptMLKEM], [DecryptMLKEM];
    - [ChunkSpec] states what the record part of a container is as a function of
      the payload, and proves that the loops implement it; [StreamLemmas],
      [KemLemmas] and [StreamSafety] lift this to the entry points;
      [StreamSteps] is [writeChunks] as a step relation, whose paths are the
      function's runs; [StreamAgree] compares two runs by a relation on worlds
      that every operation preserves; [StreamFaults] follows the calls a run makes
      of the reader, the writer and the random source, and [StreamReaders] the
      encryption with a reader of any kind; [StreamProps], [StreamAgreeProps] and
      [StreamFaultProps] have the properties.

    Package [basil]:
    - [Pb]: the messages and stub methods of src/internal/pb the client uses;
    - [Errors] is errors.go, [Client] is client.go with the gRPC connection as an
      interface ([Grpc]) and the monad [rpc] of a call, [Keytype] keytype.go,
      [Aead] aead.go, [Signing] signing.go, [Secret] secret.go, [Invocation]
      invocation.go, [Minting] minting.go, [Admin] admin.go; [Enums] has the
      enumerations' tables and [String] methods;
    - [Nix] is nix_cache.go and [NixCodec] nix_cache_codec.go, the strict
      protobuf codec, over [protowire] and [proto] as an interface; [NixLemmas]
      states what a well-formed message is;
    - [Methods] states the contract of all unary methods at once, [SecretStore] the
      store of versioned values a broker serves and what its methods return then;
    - [Methods], [Enums], [ClientProps], [ServiceProps] and [NixProps] have the
      properties.

    Package [sealedinvocation]: [Cbor] is the interface of the CBOR library, on
    trees of values; [Sealed] is sealedinvocation.go; [SealedLemmas] and
    [SealedFlow] follow a message from its construction to its opening;
    [SealedProps] has the properties.

    Package [spiffe]: [Spiffe] is spiffe.go, on a heap of option arrays and the
    timers that run; [SpiffeProps] has the properties.

    Programs: [CmdSign] is cmd/basil-sign; [ExSecrets] secrets-and-aead, [ExWeb]
    web-service, over the multiplexer of [net/http] in [Http], [ExStreamFile]
    stream-file-encryption, [ExCourier] nats-cose-courier, [ExTelemetry]
    cose-nats-telemetry; [ProgramProps] (the first two), [WebProps],
    [StreamFileProps], [CourierProps] and [TelemetryProps] have their properties.

    [Concrete] and [SealedConcrete] instantiate the interfaces with small
    computable functions and prove the laws the theorems assume, so that those
    hold together; the files ending in [Witnesses] run the theorems on them.

    ** Correspondence

    Definitions have the names of the code. Where package [basil] names a client
    type like the message it is made from, the message keeps the name (it is in
    [Pb]) and the client's type has the name given in the comment above it. A
    method of [Client] takes the client and the context first and is a
    computation in [rpc]: it may fail with an error, and passes the state [B] of
    everything outside the process along. A Go [(T, error)] of which the value
    is only read without an error is a [result]. A [[]byte] is a list of bytes;
    where the code tells nil from empty it is an option; where it appends to a
    slice it was handed, the slice is a window on an array of the heap. Loops are
    fixpoints with the loop's variables as arguments. A command is a computation
    in [prog]; a line it prints is its format with the operands.

    ** What the theorems show

    - Containers: what is encrypted is decrypted to the same payload, for every
      suite, chunk size, and split of the input by the reader (C1, C3), and is
      the container the format defines (C24, C26). On any input whatever,
      what a decryptor writes is a prefix, at a chunk boundary, of the payload of
      an honest sender's stream, and success means all of it, unless a record
      was forged (C2, C4); the additional data binds suite, stream, position,
      end and length (C27), and no nonce is used twice at any moment of any run
      (C5). The reader accepts exactly the well-formed record sequences (C23)
      and always returns (C25). Every buffer that held a key is zero when a call
      returns, but for the content key of [EncryptAEAD], which a failing call
      leaves behind, and a key of a wrong length from the broker (C15); a
      call refused for its arguments touches nothing (C13). Two runs on the same
      bytes do the same, however their readers split them (C10), and so do a decryption with the private key and one through the
      broker that holds it (C11). Whatever the reader, the writer or the random
      source reports to the package is the result, a failing draw of circl's is
      the error of a bad public key, and a success met no fault (C28). With a
      reader of any kind, the reads decide what a successful encryption is worth:
      one that delivers more after a read without bytes has its container refused
      by the decryptor, whatever the suite (C40). [EncryptAEAD_stalled_reader],
      [suite_confusion] and [kem_header_roundtrip] add a reader that
      never delivers, containers of the other kind, and the KEM header.
    - Sealed invocations: a request opens for the broker to what was asked (C7), a
      response for the client to what was answered (C8); whatever is accepted is
      signed, correlated with the request, in its window, and authentic (C6,
      C38), and no message is taken for another (C9).
    - The client: each of its 39 unary methods is one call, encoded and decoded as
      the table [encode] and [decode] of [Methods] says (C12); error
      normalisation (C29), dialing (C30), claim documents (C31), token validation (C36), the event stream
      (C37), the names of the enumerations (C39); [envelope_roundtrip],
      [ListCatalog_spec], [ImportSet_spec] and [invocation_closed] describe
      further methods.
    - Nix cache keys: the strict codec accepts exactly the well-formed messages of
      its schema (C14); [size_maxima], [request_validation],
      [SignNixCacheFingerprint_checked] and [nix_key_methods_checked] show that
      the size limits are its maxima and that what reaches or leaves the broker
      is validated.
    - The Workload API: its calls (C33), and an endpoint that options cannot move
      (C34, C35, which also shows what is written into the caller's slice).
    - The programs, from end to end: the courier passes only on an answer verified
      at the time it came (C17), passes against an honest bridge (C16), and its
      retry loop ends and delivers (C32); files survive encryption with a local key and with the
      broker's, and tampering is detected (C18); the credentials are
      minted for the keys of their kinds and stored for their owner alone, and
      admit the telemetry, which passes only when the message verified and its
      tampered copy did not (C19);
      secrets-and-aead and basil-sign pass exactly when the broker gave the answers they
      look for, and do against an honest one (C20, C22; for C20 one that
      answers the eight calls before the deadline, which is not taken for granted); web-service hands
      out the broker's tokens to the requests meant for it, and no other request
      reaches the broker (C21).

    ** Fuel

    [writeChunks_loop] and [readChunks_loop] take one unit a chunk, [readFull_loop]
    one unit a read, [drain] and [Events] one unit a message, [preflight_loop] one
    unit a field, [json_scan] one unit a token, [retry_loop] one unit a request,
    [copyN] one unit a piece. The theorems either ask for a bound in the length of
    the input (at most one chunk per byte of payload, or one record per byte of
    container; 134 requests, since each one that fails is followed by a pause of
    150 ms within 20 s) and prove that the call then returns, or hold for every
    fuel; running out is the error [OutOfFuel], which is no Go value, so that no
    theorem about an error is met by it. [readFull], [preflightNixCacheProto],
    [json_Valid] and [generateFile] fix their own fuel, and [json_scan_fuel],
    [preflight_terminates] and [copyN_ok] show it is never what decides.

    ** Assumptions

    No axiom is used. What is not in src/ is a class with its operations, and a
    second class or a record with the documented laws the theorems need:
    [Platform] (readers, writers, randomness), [Crypto], [Circl] (ML-KEM),
    [Cose] (X25519, Ed25519, SHA3, HKDF), [Cbor], [GrpcStatus], [Grpc],
    [Protobuf], [Protoimpl], [WellKnown], [JsonEncoder] and [GoValues], [Cancellation],
    [WorkloadApi], [GoRuntime] (how [append] grows), and for the programs
    [Files], [Disk], [Nats], [NatsBus], [NKeys], [GoCose] and [MapRange]. No
    theorem about a package assumes that a primitive is secure: authenticity is
    stated relative to the event that a record was forged. The two programs that
    tamper with their own messages assume that the one change they make is
    detected ([flip_detected], [signature_flipped]).

    ** Not modelled

    The reflection and registration code generated by protoc; the server side
    of the stubs; the constant content-subtype of the strict codec; locations and
    monotonic readings of times; data races (a [WatchStream] closed from another
    goroutine); the parsing of flags by cmd/basil-sign; the HTTP server behind
    [http.ListenAndServe], which hands the requests to the multiplexer, and the
    bytes of the answers the multiplexer makes itself; failing reads of regular
    files and reconnections of NATS clients. *)

From stdpp Require Export base tactics numbers list option strings.
From stdpp Require countable.
From Stdlib Require Export Init.Byte Strings.Byte ZArith Lia.

#[export] Set Warnings "-clear-no-such-hyp".
#[global] Open Scope Z_scope.

(** ** Bytes

    A Go [byte] is a [Byte.byte]; a Go [[]byte] and a Go [string] are both a
    [list byte] (a Go string is an arbitrary byte sequence). *)

Abbreviation byte := Byte.byte.
Abbreviation bytes := (list Byte.byte).

#[global] Instance byte_eq_dec : EqDecision byte := Byte.byte_eq_dec.
#[global] Instance byte_inhabited : Inhabited byte := populate x00.

Definition byte_val (b : byte) : Z := Z.of_N (Byte.to_N b).

(** Go's conversion [byte(z)]: the value modulo 256. *)
Definition byte_of (z : Z) : byte :=
  match Byte.of_N (Z.to_N (z `mod` 256)) with Some b => b | None => x00 end.

(** A literal of the source as bytes. *)
Definition str (s : string) : bytes := String.list_byte_of_string s.

Lemma str_inj s1 s2 : str s1 = str s2 -> s1 = s2.
Proof.
  intros H. apply (f_equal String.string_of_list_byte) in H.
  unfold str in H. by rewrite !String.string_of_list_byte_of_string in H.
Qed.

(** Go's [len] on slices and strings, an [int]. *)
Definition len {A} (l : list A) : Z := Z.of_nat (length l).

(** [l[a:b]] for constant bounds that are in range. *)
Definition slice {A} (a b : nat) (l : list A) : list A := take (b - a)%nat (drop a l).

Lemma byte_val_range b : 0 <= byte_val b < 256.
Proof.
  unfold byte_val. pose proof (Byte.to_N_bounded b). lia.
Qed.

Lemma byte_val_of z : byte_val (byte_of z) = z `mod` 256.
Proof.
  unfold byte_val, byte_of.
  pose proof (Z.mod_pos_bound z 256 ltac:(lia)) as Hm.
  destruct (Byte.of_N (Z.to_N (z `mod` 256))) as [b|] eqn:E.
  - apply Byte.to_of_N in E. rewrite E. lia.
  - apply Byte.of_N_None_iff in E. lia.
Qed.

#[global] Instance byte_val_inj : Inj (=) (=) byte_val.
Proof.
  intros b c H. unfold byte_val in H. apply N2Z.inj in H.
  pose proof (Byte.of_to_N b) as Hb. pose proof (Byte.of_to_N c) as Hc.
  rewrite H in Hb. congruence.
Qed.

Lemma byte_of_val b : byte_of (byte_val b) = b.
Proof.
  apply (inj byte_val). rewrite byte_val_of.
  pose proof (byte_val_range b). rewrite Z.mod_small; lia.
Qed.

#[global] Instance byte_countable : countable.Countable byte :=
  countable.inj_countable' byte_val byte_of byte_of_val.

(** ** Big-endian integers

    [be_put n z] is what [binary.BigEndian.PutUint16/32/64] writes for the
    low [8 n] bits of [z]; [be_get] is [binary.BigEndian.Uint16/32/64]. *)

Fixpoint be_put (n : nat) (z : Z) : bytes :=
  match n with
  | O => []
  | S m => byte_of (Z.shiftr z (8 * Z.of_nat m)) :: be_put m z
  end.

Fixpoint be_get_acc (acc : Z) (l : bytes) : Z :=
  match l with
  | [] => acc
  | b :: l => be_get_acc (acc * 256 + byte_val b) l
  end.

Definition be_get (l : bytes) : Z := be_get_acc 0 l.

Arguments be_put : simpl never.

Lemma be_put_S n z : be_put (S n) z = byte_of (Z.shiftr z (8 * Z.of_nat n)) :: be_put n z.
Proof. reflexivity. Qed.

Lemma length_be_put n z : length (be_put n z) = n.
Proof. induction n as [|n IH]; [done|]. rewrite be_put_S. simpl. by rewrite IH. Qed.

Lemma be_get_acc_app acc l1 l2 :
  be_get_acc acc (l1 ++ l2) = be_get_acc (be_get_acc acc l1) l2.
Proof. revert acc. induction l1; simpl; auto. Qed.

Lemma be_get_put_acc n acc z :
  be_get_acc acc (be_put n z) = acc * 256 ^ Z.of_nat n + z `mod` 256 ^ Z.of_nat n.
Proof.
  revert acc. induction n as [|n IH]; intros acc.
  - change (Z.of_nat 0) with 0. rewrite Z.pow_0_r, Z.mod_1_r. simpl. lia.
  - rewrite be_put_S. cbn [be_get_acc]. rewrite IH, byte_val_of.
    rewrite Z.shiftr_div_pow2 by lia.
    replace (2 ^ (8 * Z.of_nat n)) with (256 ^ Z.of_nat n)
      by (rewrite Z.pow_mul_r by lia; reflexivity).
    rewrite Nat2Z.inj_succ, Z.pow_succ_r by lia.
    set (p := 256 ^ Z.of_nat n).
    assert (0 < p) by (apply Z.pow_pos_nonneg; lia).
    rewrite (Z.mul_comm 256 p), Z.rem_mul_r by lia. lia.
Qed.

Lemma be_get_put n z : 0 <= z < 256 ^ Z.of_nat n -> be_get (be_put n z) = z.
Proof. intros H. unfold be_get. rewrite be_get_put_acc, Z.mod_small; lia. Qed.

Lemma be_get_acc_bound l acc :
  0 <= acc -> acc * 256 ^ len l <= be_get_acc acc l < (acc + 1) * 256 ^ len l.
Proof.
  revert acc. induction l as [|b l IH]; intros acc Ha; unfold len; cbn [length be_get_acc].
  - change (Z.of_nat 0) with 0. rewrite Z.pow_0_r. lia.
  - pose proof (byte_val_range b).
    specialize (IH (acc * 256 + byte_val b) ltac:(lia)). unfold len in IH.
    rewrite Nat2Z.inj_succ, Z.pow_succ_r by lia.
    assert (0 < 256 ^ Z.of_nat (length l)) by (apply Z.pow_pos_nonneg; lia).
    nia.
Qed.

Lemma be_get_bound l : 0 <= be_get l < 256 ^ len l.
Proof. pose proof (be_get_acc_bound l 0 ltac:(lia)). unfold be_get. lia. Qed.

Lemma be_put_inj n z1 z2 :
  0 <= z1 < 256 ^ Z.of_nat n -> 0 <= z2 < 256 ^ Z.of_nat n ->
  be_put n z1 = be_put n z2 -> z1 = z2.
Proof. intros H1 H2 E. apply (f_equal be_get) in E. rewrite !be_get_put in E; auto. Qed.

Lemma be_put_mod n z : be_put n (z `mod` 256 ^ Z.of_nat n) = be_put n z.
Proof.
  assert (Hgen : forall m, (m <= n)%nat -> be_put m (z `mod` 256 ^ Z.of_nat n) = be_put m z).
  { induction m as [|m IH]; intros Hm; [done|]. rewrite !be_put_S, IH by lia. f_equal.
    apply (inj byte_val). rewrite !byte_val_of.
    replace (256 ^ Z.of_nat n) with (2 ^ (8 * Z.of_nat n))
      by (rewrite Z.pow_mul_r by lia; reflexivity).
    change 256 with (2 ^ 8). rewrite <-!Z.land_ones by lia.
    apply Z.bits_inj'. intros i Hi. rewrite !Z.land_spec, !Z.shiftr_spec by lia.
    rewrite Z.land_spec. destruct (decide (i < 8)) as [Hlt|Hge].
    - rewrite (Z.ones_spec_low (8 * Z.of_nat n)) by lia. by rewrite andb_true_r.
    - rewrite (Z.ones_spec_high 8) by lia. by rewrite !andb_false_r. }
  auto.
Qed.

Lemma be_get_acc_inj l1 l2 acc1 acc2 :
  length l1 = length l2 -> 0 <= acc1 -> 0 <= acc2 ->
  be_get_acc acc1 l1 = be_get_acc acc2 l2 -> acc1 = acc2 /\ l1 = l2.
Proof.
  revert l2 acc1 acc2.
  induction l1 as [|b l1 IH]; intros [|c l2] acc1 acc2 Hl H1 H2; simpl in *; try lia; [done|].
  pose proof (byte_val_range b). pose proof (byte_val_range c).
  intros E. apply IH in E as [E ->]; [|lia..].
  assert (acc1 = acc2 /\ byte_val b = byte_val c) as [-> Hbc] by lia.
  by apply (inj byte_val) in Hbc as ->.
Qed.

Lemma be_put_get n l : length l = n -> be_put n (be_get l) = l.
Proof.
  intros Hn. pose proof (be_get_bound l) as Hb. unfold len in Hb. rewrite Hn in Hb.
  assert (be_get (be_put n (be_get l)) = be_get l) as E by (apply be_get_put; auto).
  apply be_get_acc_inj in E as [_ E]; rewrite ?length_be_put; auto; lia.
Qed.

Lemma take_be_put n z (l : bytes) : take n (be_put n z ++ l) = be_put n z.
Proof. apply take_app_length'. by rewrite length_be_put. Qed.

Lemma drop_be_put n z (l : bytes) : drop n (be_put n z ++ l) = l.
Proof. apply drop_app_length'. by rewrite length_be_put. Qed.

(** ** Unsigned wrap-around *)

Definition wrapu (w z : Z) : Z := z `mod` 2 ^ w.

Lemma wrapu_small w z : 0 <= z < 2 ^ w -> wrapu w z = z.
Proof. intros. apply Z.mod_small; auto. Qed.

Lemma wrapu_range w z : 0 <= w -> 0 <= wrapu w z < 2 ^ w.
Proof. intros. apply Z.mod_pos_bound. apply Z.pow_pos_nonneg; lia. Qed.

(** Two's complement at [w] bits: the value a signed [w]-bit variable holds. *)
Definition wraps (w z : Z) : Z := (z + 2 ^ (w - 1)) `mod` 2 ^ w - 2 ^ (w - 1).

Lemma wraps_small w z : 0 < w -> - 2 ^ (w - 1) <= z < 2 ^ (w - 1) -> wraps w z = z.
Proof.
  intros Hw Hz. unfold wraps.
  assert (2 ^ w = 2 * 2 ^ (w - 1)) as E
    by (rewrite <- Z.pow_succ_r by lia; f_equal; lia).
  rewrite Z.mod_small; lia.
Qed.

(** ** Results: Go's [(T, error)] where the value is only read when the error
    is nil. *)

Inductive result (E A : Type) : Type :=
| Ok (a : A)
| Err (e : E).
Arguments Ok {E A} _.
Arguments Err {E A} _.

#[global] Instance result_ret {E} : MRet (result E) := fun A a => Ok a.
#[global] Instance result_bind {E} : MBind (result E) := fun A B k m =>
  match m with Ok a => k a | Err e => Err e end.

Definition is_ok {E A} (r : result E A) : bool :=
  match r with Ok _ => true | Err _ => false end.

Lemma result_bind_Ok {E A B} (m : result E A) (k : A -> result E B) b :
  (m ≫= k) = Ok b <-> exists a, m = Ok a /\ k a = Ok b.
Proof. destruct m; simpl; split; naive_solver. Qed.

(** ** Lists *)

Lemma len_nonneg {A} (l : list A) : 0 <= len l.
Proof. unfold len. lia. Qed.

Lemma len_app {A} (l1 l2 : list A) : len (l1 ++ l2) = len l1 + len l2.
Proof. unfold len. rewrite length_app. lia. Qed.

Lemma len_nil {A} : len (@nil A) = 0.
Proof. reflexivity. Qed.

Lemma len_cons {A} (x : A) l : len (x :: l) = len l + 1.
Proof. unfold len. cbn [length]. lia. Qed.

Lemma len_drop_le {A} n (l : list A) : len (drop n l) <= len l.
Proof. unfold len. rewrite length_drop. lia. Qed.

Lemma slice_app_skip {A} (a b : nat) (l1 l2 : list A) :
  length l1 = a -> slice a b (l1 ++ l2) = take (b - a) l2.
Proof. intros <-. unfold slice. by rewrite drop_app_length. Qed.

(** Two lists with the same length prefix split the same way. *)
Lemma app_split_eq {A} (a1 a2 b1 b2 : list A) :
  length a1 = length a2 -> a1 ++ b1 = a2 ++ b2 -> a1 = a2 /\ b1 = b2.
Proof. intros Hl E. by apply app_inj_1 in E. Qed.

Lemma prefix_app_cases {A} (p l1 l2 : list A) :
  p `prefix_of` l1 ++ l2 ->
  p `prefix_of` l1 \/ exists q, p = l1 ++ q /\ q `prefix_of` l2.
Proof.
  revert p. induction l1 as [|x l1 IH]; intros p Hp.
  - right. by exists p.
  - destruct p as [|y p]; [left; apply prefix_nil|].
    apply prefix_cons_inv_1 in Hp as Hx. apply prefix_cons_inv_2 in Hp as Hp. subst y.
    destruct (IH p Hp) as [H|(q & -> & Hq)].
    + left. by apply prefix_cons.
    + right. exists q. eauto.
Qed.

(** ** Automation *)

Create HintDb basil.
Create Rewrite HintDb basil.

#[export] Hint Rewrite @len_app @len_nil @len_cons : basil.
#[export] Hint Rewrite length_be_put @length_app @length_take @length_drop
  @length_replicate : basil.
#[export] Hint Resolve len_nonneg byte_val_range : basil.

(** Normalise lengths, then linear arithmetic. *)
Ltac len_solve :=
  unfold len in *; autorewrite with basil in *; simpl length in *; lia.

(** Split the next monadic step in [H]. *)
Ltac case_step H :=
  match type of H with
  | context [match ?x with _ => _ end] =>
      let E := fresh "E" in destruct x eqn:E; simplify_eq/=
  end.
