(* ===== verification/Slices.v ===== *)
(** Go slices over a heap of backing arrays: what [append] writes and where.
    The packages under [src/] that only build values use lists; this file is for
    the code that appends to a slice it was handed, where the spare capacity of
    the caller's array matters. *)

From S2P Require Import Prelude.

(** A slice header: the backing array, the offset, the length and the capacity. *)
Record goslice := mkSlice { sl_array : nat; sl_off : nat; sl_len : nat; sl_cap : nat }.

#[global] Instance goslice_eq_dec : EqDecision goslice.
Proof. solve_decision. Defined.

Definition nil_slice : goslice := mkSlice 0 0 0 0.

(** A heap: array [i] is the [i]-th one allocated. *)
Abbreviation heap A := (list (list A)).

(** The runtime: the spare capacity a growing slice of [n] elements gets. *)
Class GoRuntime := { growslice_spare : nat -> nat }.

(** The elements of a slice. *)
Definition read {A} (h : heap A) (s : goslice) : list A :=
  take (sl_len s) (drop (sl_off s) (default [] (h !! sl_array s))).

Section append.
Context {A : Type} (zero : A).

(** [append(s, xs...)]. With room in the capacity the elements go into the
    backing array of [s], behind its length; else into a new array, whose
    capacity the runtime rounds up, here by any function [spare]. *)
Definition append (spare : nat -> nat) (s : goslice) (xs : list A) (h : heap A)
    : goslice * heap A :=
  if decide (xs = []) then (s, h) else
  let n := (sl_len s + length xs)%nat in
  if decide (n <= sl_cap s)%nat then
    (mkSlice (sl_array s) (sl_off s) n (sl_cap s),
     alter (list_inserts (sl_off s + sl_len s) xs) (sl_array s) h)
  else
    (mkSlice (length h) 0 n (n + spare n),
     h ++ [read h s ++ xs ++ replicate (spare n) zero]).

(** A variadic call [f(x1, ..., xn)] builds a slice of its own; without
    arguments the slice is nil. *)
Definition variadic (xs : list A) (h : heap A) : goslice * heap A :=
  if decide (xs = []) then (nil_slice, h)
  else (mkSlice (length h) 0 (length xs) (length xs), h ++ [xs]).
End append.

(** ** Well-formed slices *)

(** The window of the capacity lies inside an allocated array. *)
Definition slice_wf {A} (h : heap A) (s : goslice) : Prop :=
  (sl_len s <= sl_cap s)%nat /\
  (sl_cap s = 0%nat \/
   exists a, h !! sl_array s = Some a /\ (sl_off s + sl_cap s <= length a)%nat).

(** The content of a cell. *)
Definition cell {A} (h : heap A) (a i : nat) : option A := h !! a ≫= (.!! i).

Section lemmas.
Context {A : Type} {zero : A}.
Implicit Types (h : heap A) (s : goslice) (xs : list A).

Lemma slice_wf_nil h : slice_wf h nil_slice.
Proof. split; [done|]. by left. Qed.

Lemma read_empty h s : sl_len s = 0%nat -> read h s = [].
Proof. unfold read. by intros ->. Qed.

Lemma length_read h s : slice_wf h s -> length (read h s) = sl_len s.
Proof.
  intros [Hl [Hc|(a & Ha & Hc)]]; unfold read.
  - replace (sl_len s) with 0%nat by lia. done.
  - rewrite Ha. cbn. rewrite length_take, length_drop. lia.
Qed.

(** Where the appended elements are: [append] returns a well-formed slice
    whose elements are the old ones followed by the new ones. *)
Lemma append_spec spare s xs h s' h' :
  slice_wf h s -> append zero spare s xs h = (s', h') ->
  slice_wf h' s' /\ read h' s' = read h s ++ xs /\ sl_len s' = (sl_len s + length xs)%nat.
Proof.
  intros Hwf E. unfold append in E. case_decide as Hx.
  { injection E as <- <-. subst xs. rewrite app_nil_r. split_and!; [done|done|simpl; lia]. }
  assert (0 < length xs)%nat by (destruct xs; [done|simpl; lia]).
  case_decide as Hc; injection E as <- <-.
  - destruct Hwf as [Hl [H0|(a & Ha & Hr)]]; [lia|].
    split_and!; [|unfold read; cbn [sl_array sl_off sl_len]|done].
    + split; [simpl; lia|]. right. exists (list_inserts (sl_off s + sl_len s) xs a).
      cbn [sl_array sl_off sl_cap]. rewrite list_lookup_alter, decide_True, Ha by done.
      cbn. by rewrite length_inserts.
    + rewrite list_lookup_alter, decide_True, Ha by done. cbn.
      apply list_eq. intros i. destruct (decide (i < sl_len s + length xs)%nat) as [Hi|Hi].
      * rewrite lookup_take_lt, lookup_drop by lia.
        destruct (decide (i < sl_len s)%nat) as [Hi'|Hi'].
        -- rewrite list_lookup_inserts_lt by lia.
           rewrite lookup_app_l by (rewrite length_take, length_drop; lia).
           by rewrite lookup_take_lt, lookup_drop by lia.
        -- rewrite list_lookup_inserts by lia.
           rewrite lookup_app_r by (rewrite length_take, length_drop; lia).
           f_equal. rewrite length_take, length_drop. lia.
      * rewrite lookup_take_ge by lia. symmetry. apply lookup_ge_None_2.
        rewrite length_app, length_take, length_drop. lia.
  - pose proof (length_read h s Hwf) as Hr.
    split_and!; [|unfold read at 1; cbn [sl_array sl_off sl_len]|done].
    + split; [simpl; lia|]. right. eexists. cbn [sl_array sl_off sl_cap].
      rewrite lookup_app_r by lia. rewrite Nat.sub_diag. split; [done|].
      rewrite !length_app, length_replicate, Hr. lia.
    + rewrite lookup_app_r, Nat.sub_diag by lia. cbn. rewrite drop_0.
      rewrite app_assoc. apply take_app_length'. rewrite length_app. lia.
Qed.

(** What [append] leaves alone: every existing cell but those of the new
    elements, when these fit. *)
Lemma append_keeps spare s xs h s' h' a i :
  append zero spare s xs h = (s', h') -> (a < length h)%nat ->
  (a <> sl_array s \/ i < sl_off s + sl_len s \/ sl_off s + sl_len s + length xs <= i)%nat ->
  cell h' a i = cell h a i.
Proof.
  intros E Ha Hi. unfold append in E. case_decide; [by injection E as <- <-|].
  case_decide as Hc; injection E as <- <-; unfold cell; [|by rewrite lookup_app_l by lia].
  rewrite list_lookup_alter. case_decide as Hs; [|done].
  subst a. destruct (lookup_lt_is_Some_2 _ _ Ha) as [l ->]. cbn.
  destruct (decide (i < sl_off s + sl_len s)%nat).
  - by rewrite list_lookup_inserts_lt by lia.
  - by rewrite list_lookup_inserts_ge by lia.
Qed.

(** Without enough spare capacity [append] leaves every array alone. *)
Lemma append_moves spare s xs h s' h' :
  append zero spare s xs h = (s', h') -> (sl_cap s < sl_len s + length xs)%nat ->
  h `prefix_of` h'.
Proof.
  intros E Hc. unfold append in E. case_decide; [injection E as <- <-; done|].
  rewrite decide_False in E by lia. injection E as <- <-. by eexists.
Qed.

(** With enough of it the elements behind the length are replaced. *)
Lemma append_overwrites spare s xs h s' h' i x :
  slice_wf h s -> append zero spare s xs h = (s', h') ->
  (sl_len s + length xs <= sl_cap s)%nat -> xs !! i = Some x ->
  cell h' (sl_array s) (sl_off s + sl_len s + i) = Some x.
Proof.
  intros [Hl Hw] E Hc Hx. unfold append in E.
  rewrite decide_False in E by (by intros ->).
  rewrite decide_True in E by done. injection E as <- <-.
  apply lookup_lt_Some in Hx as Hi.
  destruct Hw as [H0|(a & Ha & Hr)]; [lia|]. unfold cell.
  rewrite list_lookup_alter, decide_True, Ha by done. cbn. rewrite list_lookup_inserts by lia.
  rewrite <-Hx. f_equal. lia.
Qed.

(** A later heap that keeps the old arrays reads the same through an old slice. *)
Lemma read_prefix h h' s : slice_wf h s -> h `prefix_of` h' -> read h' s = read h s.
Proof.
  intros [Hl [H0|(a & Ha & _)]] [k ->]; unfold read.
  - replace (sl_len s) with 0%nat by lia. done.
  - by rewrite lookup_app_l, Ha by (apply (lookup_lt_Some _ _ _ Ha)).
Qed.

(** A slice that shares nothing with the arrays of [h0]. *)
Definition private (h0 : heap A) (s : goslice) : Prop :=
  sl_cap s = 0%nat \/ (length h0 <= sl_array s)%nat.

(** Appending to such a slice leaves those arrays alone. *)
Lemma append_private spare h0 s xs h s' h' :
  h0 `prefix_of` h -> private h0 s -> append zero spare s xs h = (s', h') ->
  h0 `prefix_of` h' /\ private h0 s'.
Proof.
  intros [k ->] Hs E. unfold append in E. case_decide as Hx.
  { injection E as <- <-. split; [by eexists|done]. }
  assert (0 < length xs)%nat by (destruct xs; [done|simpl; lia]).
  case_decide; injection E as <- <-; unfold private; simpl.
  - destruct Hs as [?|Ha]; [lia|]. split; [|by right].
    rewrite alter_app_r_alt by done. by eexists.
  - rewrite <-app_assoc, length_app. split; [by eexists|right; lia].
Qed.

Lemma append_length spare s xs h s' h' :
  append zero spare s xs h = (s', h') -> (length h <= length h')%nat.
Proof.
  intros E. unfold append in E. repeat case_decide; injection E as <- <-;
    rewrite ?length_alter, ?length_app; lia.
Qed.

Lemma variadic_spec xs h s h' :
  variadic xs h = (s, h') ->
  slice_wf h' s /\ read h' s = xs /\ sl_len s = length xs /\ h `prefix_of` h'.
Proof.
  unfold variadic. case_decide as Hx; intros [= <- <-].
  - subst. split_and!; [apply slice_wf_nil|done|done|done].
  - split_and!.
    + split; [done|]. right. eexists. simpl. rewrite lookup_app_r, Nat.sub_diag by lia.
      split; [done|lia].
    + unfold read. simpl. rewrite lookup_app_r, Nat.sub_diag by lia. cbn. apply take_ge. lia.
    + done.
    + by eexists.
Qed.
End lemmas.
