(* ===== verification/GoError.v ===== *)
(** Go's [error] interface as the packages under [src/] use it: sentinels made
    by [errors.New], values made by [fmt.Errorf] with and without a wrapped
    cause, [io.EOF], the client's typed [StatusError], a gRPC status error, and
    errors that come from outside the code (a caller's reader, writer or
    callback, the operating system).  [Panicked] and
    [OutOfFuel] are the model's own markers: of a panic, and of a loop that ran out of fuel, which
    no operation returns when its fuel covers its input.  The file also models [errors.Is] and
    [errors.As] for [*StatusError] ([basil/errors.go], [AsStatusError]). *)

From S2P Require Import Prelude.

(** An operand of a [fmt.Errorf] call. *)
Inductive arg := AInt (z : Z) | AStr (s : bytes) | ABool (b : bool) | AType (t : string) | ABad.

#[global] Instance arg_eq_dec : EqDecision arg.
Proof. solve_decision. Defined.

(** [basil.StatusError], errors.go. *)
Record StatusError := mkStatusError {
  Code : Z;
  Reason : bytes;
  Op : bytes;
  Message : bytes;
}.

#[global] Instance StatusError_eq_dec : EqDecision StatusError.
Proof. solve_decision. Defined.

(** [pb.BrokerErrorInfo]: the broker's machine-readable status detail. *)
Record BrokerErrorInfo := mkBrokerErrorInfo {
  BrokerErrorInfo_reason : bytes;
  BrokerErrorInfo_op : bytes;
}.

#[global] Instance BrokerErrorInfo_eq_dec : EqDecision BrokerErrorInfo.
Proof. solve_decision. Defined.

(** An entry of [st.Details()]: a decoded message, of which the
    client only recognises one type. *)
Inductive detail := DBrokerErrorInfo (i : BrokerErrorInfo) | DOther (id : N).

#[global] Instance detail_eq_dec : EqDecision detail.
Proof. solve_decision. Defined.

(** A [*status.Status] of google.golang.org/grpc/status. *)
Record Status := mkStatus {
  st_Code : Z;
  st_Message : bytes;
  st_Details : list detail;
}.

#[global] Instance Status_eq_dec : EqDecision Status.
Proof. solve_decision. Defined.

Inductive error :=
| EOF                                                   (* io.EOF *)
| Sentinel (msg : string)                               (* errors.New(msg), one per variable *)
| Errorf (fmt : string) (args : list arg)               (* fmt.Errorf without %w *)
| Wrapf (fmt : string) (args : list arg) (cause : error) (* fmt.Errorf with one %w *)
| EStatusError (e : StatusError)                        (* *basil.StatusError *)
| EGrpc (st : Status)                                   (* an error made from a gRPC status *)
| Foreign (id : N)                                      (* any other error value *)
| Panicked (msg : string)                               (* no Go value: the call panicked *)
| OutOfFuel.                                            (* no Go value: a loop's fuel ran out *)

#[global] Instance error_eq_dec : EqDecision error.
Proof. solve_decision. Defined.

(** [errors.Unwrap]. *)
Definition Unwrap (e : error) : option error :=
  match e with Wrapf _ _ c => Some c | _ => None end.

(** [errors.Is(err, target)] for comparable targets: [target] occurs in the
    [Unwrap] chain of [err]. *)
Fixpoint Is (err target : error) : bool :=
  bool_decide (err = target) ||
  match err with Wrapf _ _ c => Is c target | _ => false end.

(** [errors.As(err, &se)] for a [*basil.StatusError]: the first one in the chain. *)
Fixpoint As_StatusError (err : error) : option StatusError :=
  match err with
  | EStatusError se => Some se
  | Wrapf _ _ c => As_StatusError c
  | _ => None
  end.

Lemma Is_refl e : Is e e = true.
Proof. destruct e; cbn [Is]; by rewrite bool_decide_eq_true_2. Qed.

Lemma Is_wrap fmt args c t : Is c t = true -> Is (Wrapf fmt args c) t = true.
Proof. intros H. simpl. rewrite H. apply orb_true_r. Qed.

#[export] Hint Resolve Is_refl Is_wrap : basil.
