(* ===== verification/GoTime.v ===== *)
(** Package [time] as the code uses it: instants, durations, and their
    arithmetic at the width of the runtime's representation. *)

From Stdlib Require Import Floats.SpecFloat.
From S2P Require Import Prelude.

(** A [time.Duration] is its int64 of nanoseconds. A [time.Time] is the int64 of
    seconds since the start of year 1 and the nanoseconds within the second, as
    package [time] keeps it; location and monotonic reading are left out. *)

Definition Second : Z := 1000000000.
Definition Minute : Z := 60 * Second.

Record Time := mkTime { t_sec : Z; t_nsec : Z }.

#[global] Instance Time_eq_dec : EqDecision Time.
Proof. solve_decision. Defined.

Definition zeroTime : Time := mkTime 0 0.
Definition unixToInternal : Z := 62135596800.

Definition IsZero (t : Time) : bool := bool_decide (t_sec t = 0) && bool_decide (t_nsec t = 0).

(** [time.Unix(sec, 0).UTC()] and [(t Time) Unix()]: sums of int64. *)
Definition time_Unix (sec : Z) : Time := mkTime (wraps 64 (sec + unixToInternal)) 0.
Definition Time_Unix (t : Time) : Z := wraps 64 (t_sec t - unixToInternal).

(** [(t Time) Add(d)]: the seconds saturate. *)
Definition addSec (sec d : Z) : Z :=
  let sum := wraps 64 (sec + d) in
  if bool_decide (bool_decide (sum > sec) = bool_decide (d > 0)) then sum
  else if decide (d > 0) then 2 ^ 63 - 1 else - (2 ^ 63 - 1).

Definition Time_Add (t : Time) (d : Z) : Time :=
  let dsec := Z.quot d Second in
  let nsec := t_nsec t + Z.rem d Second in
  let '(dsec, nsec) :=
    if decide (nsec >= Second) then (dsec + 1, nsec - Second)
    else if decide (nsec < 0) then (dsec - 1, nsec + Second)
    else (dsec, nsec) in
  mkTime (addSec (t_sec t) dsec) nsec.

(** [int64(d.Seconds())]: the quotient and the remainder by a second are
    converted to float64, divided and added, and the sum is truncated. *)
Definition float64 (z : Z) : spec_float := binary_normalize 53 1024 z 0 false.

Definition Duration_Seconds64 (d : Z) : spec_float :=
  SFadd 53 1024 (float64 (Z.quot d Second))
    (SFdiv 53 1024 (float64 (Z.rem d Second)) (float64 Second)).

Definition float_to_int64 (f : spec_float) : Z :=
  match f with
  | S754_finite s m e =>
      let n := if decide (0 <= e) then Z.pos m * 2 ^ e else Z.pos m / 2 ^ (- e) in
      if s then - n else n
  | _ => 0
  end.

Definition int64_Seconds (d : Z) : Z := float_to_int64 (Duration_Seconds64 d).

(** The int64 sums do not wrap for the times the calendar needs. *)
Lemma Time_Unix_small t : 0 <= t_sec t < 2 ^ 62 -> Time_Unix t = t_sec t - unixToInternal.
Proof. intros H. unfold Time_Unix, unixToInternal. apply wraps_small; lia. Qed.

Lemma addSec_small s d : 0 <= s < 2 ^ 62 -> - 2 ^ 35 <= d < 2 ^ 35 -> addSec s d = s + d.
Proof.
  intros Hs Hd. unfold addSec. rewrite wraps_small by lia.
  rewrite bool_decide_eq_true_2; [done|]. repeat case_bool_decide; lia.
Qed.

(** The nanoseconds since year 1. *)
Definition nanos (t : Time) : Z := t_sec t * Second + t_nsec t.

Lemma Time_Add_small t d : 0 <= t_sec t < 2 ^ 62 -> 0 <= t_nsec t < Second -> - 2 ^ 63 <= d < 2 ^ 63 ->
  t_sec (Time_Add t d) = (nanos t + d) / Second.
Proof.
  intros Hs Hn Hd. unfold Time_Add, nanos. pose proof (Z.quot_rem' d Second) as Hq.
  assert (- Second < Z.rem d Second < Second) as Hr.
  { destruct (decide (0 <= d)); [pose proof (Z.rem_bound_pos d Second)|
      pose proof (Z.rem_bound_pos (- d) Second); rewrite Z.rem_opp_l in * by (unfold Second; lia)];
      unfold Second in *; lia. }
  assert (- 2 ^ 34 <= Z.quot d Second < 2 ^ 34) as Hqd by (unfold Second in *; lia).
  unfold Second in *.
  repeat case_decide; cbn [t_sec]; rewrite addSec_small by lia;
    (apply Z.div_unique_pos with (r := t_nsec t + Z.rem d 1000000000 -
       if decide (t_nsec t + Z.rem d 1000000000 >= 1000000000) then 1000000000
       else if decide (t_nsec t + Z.rem d 1000000000 < 0) then -1000000000 else 0));
    repeat case_decide; lia.
Qed.

(** [(t Time) Before(u)] *)
Definition Before (t u : Time) : bool :=
  bool_decide (t_sec t < t_sec u \/ (t_sec t = t_sec u /\ t_nsec t < t_nsec u)).

(** An instant of the calendar, its nanoseconds within the second. *)
Definition calendar (t : Time) : Prop := 0 <= t_sec t < 2 ^ 62 /\ 0 <= t_nsec t < Second.

Lemma Time_Add_nanos t d : calendar t -> - 2 ^ 63 <= d < 2 ^ 63 ->
  nanos (Time_Add t d) = nanos t + d /\ 0 <= t_nsec (Time_Add t d) < Second.
Proof.
  intros [Hs Hn] Hd. unfold Time_Add, nanos. pose proof (Z.quot_rem' d Second) as Hq.
  assert (- Second < Z.rem d Second < Second) as Hr.
  { destruct (decide (0 <= d)); [pose proof (Z.rem_bound_pos d Second)|
      pose proof (Z.rem_bound_pos (- d) Second); rewrite Z.rem_opp_l in * by (unfold Second; lia)];
      unfold Second in *; lia. }
  assert (- 2 ^ 34 <= Z.quot d Second < 2 ^ 34) as Hqd by (unfold Second in *; lia).
  unfold Second in *.
  repeat case_decide; cbn [t_sec t_nsec]; rewrite addSec_small by lia; lia.
Qed.

Lemma Before_nanos t u : 0 <= t_nsec t < Second -> 0 <= t_nsec u < Second ->
  Before t u = bool_decide (nanos t < nanos u).
Proof.
  intros Ht Hu. unfold Before, nanos, Second in *. apply bool_decide_ext. lia.
Qed.

Example seconds_1 : int64_Seconds Minute = 60 /\ int64_Seconds (5 * Minute) = 300.
Proof. split; vm_compute; reflexivity. Qed.
Example seconds_2 : int64_Seconds 1999999999 = 1 /\ int64_Seconds (-1999999999) = -1.
Proof. split; vm_compute; reflexivity. Qed.
(** Rounding to float64 may carry into the next second. *)
Example seconds_3 : int64_Seconds (9000000000 * Second + 999999999) = 9000000001.
Proof. vm_compute. reflexivity. Qed.

(** ** [t.UTC().Format(time.RFC3339)]

    The calendar date is computed as package [time] does, from the days since
    the first of March of a year that is a multiple of 400. *)

Definition absoluteYears : Z := 292277022400.
Definition internalToAbsolute : Z := (absoluteYears * 146097 / 400 + 306) * 86400.

(** [absDays.split] and [absYday.split]: year, month and day of the month. *)
Definition civil (days : Z) : Z * Z * Z :=
  let d := 4 * days + 3 in
  let century := d / 146097 in
  let cd := Z.lor (d `mod` 146097) 3 in
  let cyear := cd / 1461 in
  let ayday := cd `mod` 1461 / 4 in
  let d := 5 * ayday + 461 in
  let amonth := d / 153 in
  let year := century * 100 - absoluteYears + cyear in
  let mday := d `mod` 153 / 5 + 1 in
  if decide (amonth > 12) then (year + 1, amonth - 12, mday) else (year, amonth, mday).

(** [appendInt(x, width)] *)
Fixpoint decimal (fuel : nat) (z : Z) (acc : bytes) : bytes :=
  match fuel with
  | O => acc
  | S fuel =>
      let acc := byte_of (48 + z `mod` 10) :: acc in
      if decide (z < 10) then acc else decimal fuel (z / 10) acc
  end.

Definition appendInt (x : Z) (width : nat) : bytes :=
  let l := decimal 20 (Z.abs x) [] in
  (if decide (x < 0) then str "-" else []) ++ replicate (width - length l) x30 ++ l.

Definition Format_RFC3339 (t : Time) : bytes :=
  let abs := wrapu 64 (t_sec t + internalToAbsolute) in
  let '(year, month, day) := civil (abs / 86400) in
  let second := abs `mod` 86400 in
  appendInt year 4 ++ str "-" ++ appendInt month 2 ++ str "-" ++ appendInt day 2 ++ str "T" ++
  appendInt (second / 3600) 2 ++ str ":" ++ appendInt (second `mod` 3600 / 60) 2 ++ str ":" ++
  appendInt (second `mod` 60) 2 ++ str "Z".

Example RFC3339_1 : Format_RFC3339 (time_Unix 1709209845) = str "2024-02-29T12:30:45Z".
Proof. vm_compute. reflexivity. Qed.
Example RFC3339_2 : Format_RFC3339 zeroTime = str "0001-01-01T00:00:00Z" /\
  Format_RFC3339 (time_Unix (-2203891201)) = str "1900-02-28T23:59:59Z" /\
  Format_RFC3339 (time_Unix 253402300800) = str "10000-01-01T00:00:00Z" /\
  Format_RFC3339 (mkTime (-1) 0) = str "0000-12-31T23:59:59Z".
Proof. split_and!; vm_compute; reflexivity. Qed.
