(* ===== verification/GoText.v ===== *)
(** The standard library on texts: [utf8.Valid], [json.Valid],
    [bytes.TrimSpace], [strings.Contains], hexadecimal and base64. *)

From S2P Require Import Prelude GoError.

(** ** strings

    [HasPrefix s p] is [strings.HasPrefix], [Contains s sub] is
    [strings.Contains]. *)

Definition HasPrefix (s p : bytes) : bool := bool_decide (take (length p) s = p).

Fixpoint Contains (s sub : bytes) : bool :=
  HasPrefix s sub || match s with [] => false | _ :: s => Contains s sub end.

Lemma HasPrefix_app p l : HasPrefix (p ++ l) p = true.
Proof. unfold HasPrefix. by rewrite take_app_length, bool_decide_eq_true_2. Qed.

Lemma Contains_app s1 sub s2 : Contains (s1 ++ sub ++ s2) sub = true.
Proof.
  assert (forall s, HasPrefix s sub = true -> Contains s sub = true) as Hp
    by (intros [|b s] H; cbn [Contains]; by rewrite H).
  induction s1 as [|b s1 IH]; [apply Hp; exact (HasPrefix_app sub s2)|].
  cbn [app Contains]. by rewrite IH, orb_true_r.
Qed.

Lemma Contains_iff s sub : Contains s sub = true <-> exists s1 s2, s = s1 ++ sub ++ s2.
Proof.
  split; [|by intros (s1 & s2 & ->); apply Contains_app].
  induction s as [|b s IH]; cbn [Contains].
  - rewrite orb_false_r. unfold HasPrefix. intros H%bool_decide_eq_true_1.
    rewrite take_nil in H. subst sub. by exists [], [].
  - intros [H|H]%orb_true_iff.
    + apply bool_decide_eq_true_1 in H. exists [], (drop (length sub) (b :: s)).
      rewrite <-(take_drop (length sub) (b :: s)) at 1. by rewrite H.
    + destruct (IH H) as (s1 & s2 & ->). by exists (b :: s1), s2.
Qed.

(** ** unicode/utf8

    [utf8_Valid] is [utf8.Valid] (and [ValidString]): the well-formed sequences
    of the Unicode standard, table 3-7. *)

Definition in_range (lo hi : Z) (b : byte) : bool := (lo <=? byte_val b) && (byte_val b <=? hi).

Fixpoint utf8_Valid (l : bytes) : bool :=
  match l with
  | [] => true
  | a :: l1 =>
      if in_range 0 0x7F a then utf8_Valid l1 else
      match l1 with
      | [] => false
      | b :: l2 =>
          if in_range 0xC2 0xDF a then in_range 0x80 0xBF b && utf8_Valid l2 else
          match l2 with
          | [] => false
          | c :: l3 =>
              if in_range 0xE0 0xEF a then
                in_range (if byte_val a =? 0xE0 then 0xA0 else 0x80)
                         (if byte_val a =? 0xED then 0x9F else 0xBF) b &&
                in_range 0x80 0xBF c && utf8_Valid l3
              else
              match l3 with
              | [] => false
              | d :: l4 =>
                  in_range 0xF0 0xF4 a &&
                  in_range (if byte_val a =? 0xF0 then 0x90 else 0x80)
                           (if byte_val a =? 0xF4 then 0x8F else 0xBF) b &&
                  in_range 0x80 0xBF c && in_range 0x80 0xBF d && utf8_Valid l4
              end
          end
      end
  end.

(** ** encoding/json

    [json_Valid] is [json.Valid]: one JSON value of RFC 8259, between optional
    white space, nested at most 10000 deep; string contents are not required
    to be UTF-8. *)

Definition json_space (b : byte) : bool := bool_decide (b ∈ [x20; x09; x0a; x0d]).

Fixpoint skip_space (l : bytes) : bytes :=
  match l with
  | b :: l' => if json_space b then skip_space l' else l
  | [] => []
  end.

Definition digit (b : byte) : bool := (48 <=? byte_val b) && (byte_val b <=? 57).
Definition hex_digit (b : byte) : bool :=
  digit b || ((65 <=? byte_val b) && (byte_val b <=? 70)) || ((97 <=? byte_val b) && (byte_val b <=? 102)).

Fixpoint skip_digits (l : bytes) : bytes :=
  match l with
  | b :: l' => if digit b then skip_digits l' else l
  | [] => []
  end.

(** One or more digits. *)
Definition digits1 (l : bytes) : option bytes :=
  match l with
  | b :: l' => if digit b then Some (skip_digits l') else None
  | [] => None
  end.

(** The rest of a string literal, behind its opening quote. *)
Fixpoint json_string (l : bytes) : option bytes :=
  match l with
  | [] => None
  | b :: l =>
      if decide (b = x22) then Some l
      else if decide (b = x5c) then
        match l with
        | [] => None
        | e :: l' =>
            if decide (e ∈ str "bfnrt\/" ++ [x22]) then json_string l'
            else if decide (e = x75) then
              match l' with
              | h1 :: h2 :: h3 :: h4 :: l'' =>
                  if hex_digit h1 && hex_digit h2 && hex_digit h3 && hex_digit h4
                  then json_string l'' else None
              | _ => None
              end
            else None
        end
      else if byte_val b <? 0x20 then None
      else json_string l
  end.

Definition json_exponent (l : bytes) : option bytes :=
  match l with
  | b :: l' =>
      if decide (b = x65 \/ b = x45) then
        match l' with
        | s :: l'' => if decide (s = x2b \/ s = x2d) then digits1 l'' else digits1 l'
        | [] => None
        end
      else Some l
  | [] => Some []
  end.

Definition json_fraction (l : bytes) : option bytes :=
  match l with
  | b :: l' => if decide (b = x2e) then digits1 l' ≫= json_exponent else json_exponent l
  | [] => Some []
  end.

Definition json_number (l : bytes) : option bytes :=
  let l := match l with b :: l' => if decide (b = x2d) then l' else l | [] => [] end in
  match l with
  | [] => None
  | b :: l' =>
      if decide (b = x30) then json_fraction l'
      else if digit b then json_fraction (skip_digits l')
      else None
  end.

Definition json_literal (lit l : bytes) : option bytes :=
  if decide (take (length lit) l = lit) then Some (drop (length lit) l) else None.

Definition maxNestingDepth : Z := 10000.

(** A value, the members of an object behind its brace, or the elements of an
    array behind its bracket; every call consumes a byte. *)
Inductive json_mode := JValue | JMembers | JElements.

Fixpoint json_scan (fuel : nat) (depth : Z) (mode : json_mode) (l : bytes) : option bytes :=
  match fuel with
  | O => None
  | S fuel =>
      match mode with
      | JValue =>
          match skip_space l with
          | [] => None
          | b :: l' =>
              if decide (b = x7b) then
                if maxNestingDepth <=? depth then None
                else match skip_space l' with
                     | c :: l'' => if decide (c = x7d) then Some l'' else json_scan fuel (depth + 1) JMembers l'
                     | [] => None
                     end
              else if decide (b = x5b) then
                if maxNestingDepth <=? depth then None
                else match skip_space l' with
                     | c :: l'' => if decide (c = x5d) then Some l'' else json_scan fuel (depth + 1) JElements l'
                     | [] => None
                     end
              else if decide (b = x22) then json_string l'
              else if decide (b = x74) then json_literal (str "rue") l'
              else if decide (b = x66) then json_literal (str "alse") l'
              else if decide (b = x6e) then json_literal (str "ull") l'
              else json_number (b :: l')
          end
      | JMembers =>
          match skip_space l with
          | b :: l' =>
              if decide (b = x22) then
                l1 ← json_string l';
                match skip_space l1 with
                | c :: l2 =>
                    if decide (c = x3a) then
                      l3 ← json_scan fuel depth JValue l2;
                      match skip_space l3 with
                      | d :: l4 =>
                          if decide (d = x2c) then json_scan fuel depth JMembers l4
                          else if decide (d = x7d) then Some l4 else None
                      | [] => None
                      end
                    else None
                | [] => None
                end
              else None
          | [] => None
          end
      | JElements =>
          l3 ← json_scan fuel depth JValue l;
          match skip_space l3 with
          | d :: l4 =>
              if decide (d = x2c) then json_scan fuel depth JElements l4
              else if decide (d = x5d) then Some l4 else None
          | [] => None
          end
      end
  end.

Definition json_Valid (data : bytes) : bool :=
  match json_scan (2 * length data + 2) 0 JValue data with
  | Some rest => bool_decide (skip_space rest = [])
  | None => false
  end.

(** ** bytes

    [TrimSpace] drops, at both ends, the characters [unicode.IsSpace] names, by
    their UTF-8 encodings. *)

Definition space_encodings : list bytes :=
  map (fun b => [b]) [x09; x0a; x0b; x0c; x0d; x20] ++
  [[xc2; x85]; [xc2; xa0]; [xe1; x9a; x80]] ++
  map (fun i => [xe2; x80; byte_of (0x80 + Z.of_nat i)]) (seq 0 11) ++
  [[xe2; x80; xa8]; [xe2; x80; xa9]; [xe2; x80; xaf]; [xe2; x81; x9f]; [xe3; x80; x80]].

(** The length of the first of [encs] in front of [l]. *)
Definition leading (encs : list bytes) (l : bytes) : option nat :=
  length <$> list_find (fun e => take (length e) l = e) encs ≫= fun p => Some p.2.

Fixpoint trim_front (fuel : nat) (encs : list bytes) (l : bytes) : bytes :=
  match fuel with
  | O => l
  | S fuel =>
      match leading encs l with
      | Some n => trim_front fuel encs (drop n l)
      | None => l
      end
  end.

Definition TrimSpace (s : bytes) : bytes :=
  let s := trim_front (length s) space_encodings s in
  rev (trim_front (length s) (map (@rev byte) space_encodings) (rev s)).

(** ** The scanner's fuel

    Everything the scanner does consumes input, so its fuel is never what
    decides. *)

Lemma skip_space_length l : (length (skip_space l) <= length l)%nat.
Proof. induction l as [|b l IH]; simpl; [lia|]. case_match; simpl; lia. Qed.

Lemma skip_digits_length l : (length (skip_digits l) <= length l)%nat.
Proof. induction l as [|b l IH]; simpl; [lia|]. case_match; simpl; lia. Qed.

Lemma digits1_length l r : digits1 l = Some r -> (length r < length l)%nat.
Proof.
  destruct l as [|b l]; simpl; [done|]. case_match; [|done]. intros [= <-].
  pose proof (skip_digits_length l). lia.
Qed.

Lemma json_exponent_length l r : json_exponent l = Some r -> (length r <= length l)%nat.
Proof.
  destruct l as [|b l]; simpl; [by intros [= <-]|]. case_decide; [|intros [= <-]; done].
  destruct l as [|c l]; [done|]. case_decide; intros E%digits1_length; simpl in *; lia.
Qed.

Lemma json_fraction_length l r : json_fraction l = Some r -> (length r <= length l)%nat.
Proof.
  destruct l as [|b l]; [by intros [= <-]|]. cbn [json_fraction]. case_decide.
  - intros (l' & H1%digits1_length & H2%json_exponent_length)%bind_Some. simpl. lia.
  - apply json_exponent_length.
Qed.

Lemma json_number_length l r : json_number l = Some r -> (length r < length l)%nat.
Proof.
  destruct l as [|b l]; [done|]. unfold json_number.
  assert (forall l0, match l0 with [] => None | b :: l' => if decide (b = x30) then json_fraction l'
    else if digit b then json_fraction (skip_digits l') else None end = Some r ->
    (length r < length l0)%nat) as H.
  { intros [|c l0]; [done|]. case_decide; [intros E%json_fraction_length; simpl; lia|].
    case_match; [|done]. intros H1%json_fraction_length. pose proof (skip_digits_length l0). simpl. lia. }
  case_decide; intros E; [apply (H l) in E|apply (H (b :: l)) in E]; simpl in *; lia.
Qed.

Lemma json_literal_length lit l r : json_literal lit l = Some r -> (length r <= length l)%nat.
Proof. unfold json_literal. case_decide; [|done]. intros [= <-]. rewrite length_drop. lia. Qed.

Lemma json_string_length l r : json_string l = Some r -> (length r < length l)%nat.
Proof.
  revert r. induction l as [l IH] using (induction_ltof1 _ (@length _)); unfold ltof in IH. intros r.
  destruct l as [|b l]; [done|]. cbn [json_string]. case_decide; [intros [= <-]; simpl; lia|].
  case_decide.
  - destruct l as [|e l]; [done|]. case_decide.
    + intros E%IH; simpl in *; lia.
    + case_decide; [|done]. destruct l as [|h1 [|h2 [|h3 [|h4 l]]]]; try done.
      case_match; [|done]. intros E%IH; simpl in *; lia.
  - case_match; [done|]. intros E%IH; simpl in *; lia.
Qed.

Lemma json_scan_length fuel d m l r : json_scan fuel d m l = Some r -> (length r < length l)%nat.
Proof.
  revert d m l r. induction fuel as [|fuel IH]; intros d m l r; [done|]. cbn [json_scan].
  pose proof (skip_space_length l) as Hl.
  destruct m.
  - destruct (skip_space l) as [|b l']; [done|]. simpl in Hl.
    case_decide; [|case_decide; [|case_decide; [|case_decide; [|case_decide; [|case_decide]]]]].
    1,2: case_match; [done|]; pose proof (skip_space_length l') as Hl';
      destruct (skip_space l') as [|c l'']; [done|]; simpl in Hl';
      case_decide; [intros [= <-]; lia|]; intros E%IH; lia.
    + intros E%json_string_length. lia.
    + intros E%json_literal_length. lia.
    + intros E%json_literal_length. lia.
    + intros E%json_literal_length. lia.
    + intros E%json_number_length. simpl in E. lia.
  - destruct (skip_space l) as [|b l']; [done|]. simpl in Hl. case_decide; [|done].
    intros (l1 & H1%json_string_length & E)%bind_Some.
    pose proof (skip_space_length l1). destruct (skip_space l1) as [|c l2]; [done|].
    case_decide; [|done]. apply bind_Some in E as (l3 & H3%IH & E).
    pose proof (skip_space_length l3). destruct (skip_space l3) as [|e l4]; [done|]. simpl in *.
    case_decide; [apply IH in E; lia|]. case_decide; [|done]. injection E as <-. lia.
  - intros (l3 & H3%IH & E)%bind_Some.
    pose proof (skip_space_length l3). destruct (skip_space l3) as [|e l4]; [done|]. simpl in *.
    case_decide; [apply IH in E; lia|]. case_decide; [|done]. injection E as <-. lia.
Qed.

Definition json_measure (m : json_mode) (l : bytes) : nat :=
  (2 * length l + match m with JElements => 1 | _ => 0 end)%nat.

Lemma json_scan_fuel f1 f2 d m l : (json_measure m l < f1)%nat -> (json_measure m l < f2)%nat ->
  json_scan f1 d m l = json_scan f2 d m l.
Proof.
  revert f2 d m l. induction f1 as [|f1 IH]; intros f2 d m l H1 H2; [lia|].
  destruct f2 as [|f2]; [lia|]. cbn [json_scan]. unfold json_measure in *.
  pose proof (skip_space_length l) as Hl.
  destruct m.
  - destruct (skip_space l) as [|b l']; [done|]. simpl in Hl.
    repeat case_decide; try done; (case_match; [done|]); destruct (skip_space l') as [|c l''];
      try done; case_decide; try done; apply IH; simpl in *; lia.
  - destruct (skip_space l) as [|b l']; [done|]. simpl in Hl. case_decide; [|done].
    destruct (json_string l') as [l1|] eqn:E1; [|done]. apply json_string_length in E1. simpl.
    pose proof (skip_space_length l1). destruct (skip_space l1) as [|c l2]; [done|]. simpl in *.
    case_decide; [|done]. rewrite (IH f2 d JValue l2) by lia.
    destruct (json_scan f2 d JValue l2) as [l3|] eqn:E3; [|done]. apply json_scan_length in E3. simpl.
    pose proof (skip_space_length l3). destruct (skip_space l3) as [|e l4]; [done|]. simpl in *.
    repeat case_decide; try done. apply IH; simpl; lia.
  - rewrite (IH f2 d JValue l) by lia.
    destruct (json_scan f2 d JValue l) as [l3|] eqn:E3; [|done]. apply json_scan_length in E3. simpl.
    pose proof (skip_space_length l3). destruct (skip_space l3) as [|e l4]; [done|]. simpl in *.
    repeat case_decide; try done. apply IH; simpl; lia.
Qed.

(** ** Trimming *)

Definition is_space (e : bytes) : Prop := e ∈ space_encodings.

(** No encoding of [encs] is empty or starts another one. *)
Definition prefix_code (encs : list bytes) : bool :=
  forallb (fun e => bool_decide (e <> []) &&
    forallb (fun f => bool_decide (e = f) || negb (bool_decide (take (length e) f = e))) encs) encs.

Lemma prefix_code_nonempty encs e : prefix_code encs = true -> e ∈ encs -> e <> [].
Proof.
  intros H He. apply list_elem_of_In in He. unfold prefix_code in H. rewrite forallb_forall in H.
  specialize (H e He). apply andb_prop in H as [H _]. by apply bool_decide_eq_true in H.
Qed.

Lemma prefix_code_unique encs e f l : prefix_code encs = true -> e ∈ encs -> f ∈ encs ->
  e `prefix_of` l -> f `prefix_of` l -> e = f.
Proof.
  intros H He Hf Pe Pf. apply list_elem_of_In in He, Hf. unfold prefix_code in H.
  rewrite forallb_forall in H.
  assert (forall e f, In e encs -> In f encs -> take (length e) f = e -> e = f) as Hone.
  { intros e0 f0 He0 Hf0 E. specialize (H e0 He0). apply andb_prop in H as [_ H].
    rewrite forallb_forall in H. specialize (H f0 Hf0). apply orb_prop in H as [H|H];
      [by apply bool_decide_eq_true in H|]. by rewrite E, bool_decide_eq_true_2 in H. }
  destruct Pe as [k1 ->], Pf as [k2 E].
  destruct (decide (length e <= length f)%nat).
  - apply Hone; [done..|]. apply (f_equal (take (length e))) in E.
    rewrite take_app_length, take_app_le in E by lia. done.
  - symmetry. apply Hone; [done..|]. apply (f_equal (take (length f))) in E.
    rewrite take_app_length, take_app_le in E by lia. done.
Qed.

Lemma leading_Some encs l n : leading encs l = Some n ->
  exists e, e ∈ encs /\ length e = n /\ l = e ++ drop n l.
Proof.
  unfold leading. intros H. apply fmap_Some in H as (e & H & ->).
  apply bind_Some in H as ([i e'] & H & [= ->]). apply list_find_Some in H as (Hi & He & _).
  exists e. split; [by eapply list_elem_of_lookup_2|]. split; [done|].
  simpl in He. rewrite <-He at 1. by rewrite take_drop.
Qed.

Lemma leading_None encs l : leading encs l = None -> forall e, e ∈ encs -> ~ e `prefix_of` l.
Proof.
  unfold leading. intros H e He [k ->]. apply fmap_None in H.
  destruct (list_find_elem_of (fun e0 => take (length e0) (e ++ k) = e0) encs e He) as [p Hp].
  { apply take_app_length. }
  by rewrite Hp in H.
Qed.

Lemma leading_app encs e l : prefix_code encs = true -> e ∈ encs ->
  leading encs (e ++ l) = Some (length e).
Proof.
  intros Hc He. destruct (leading encs (e ++ l)) as [n|] eqn:E.
  - apply leading_Some in E as (f & Hf & <- & E). f_equal. f_equal.
    eapply prefix_code_unique; [exact Hc|exact Hf|exact He| |by eexists]. rewrite E. by eexists.
  - exfalso. eapply leading_None; [exact E|exact He|]. by eexists.
Qed.

Lemma trim_front_spec encs fuel l : exists pre, l = concat pre ++ trim_front fuel encs l /\
  Forall (fun e => e ∈ encs) pre.
Proof.
  revert l. induction fuel as [|fuel IH]; intros l; simpl; [by exists []|].
  destruct (leading encs l) as [n|] eqn:E; [|by exists []].
  apply leading_Some in E as (e & He & <- & E). destruct (IH (drop (length e) l)) as (pre & E1 & Hp).
  exists (e :: pre). split; [|by constructor]. simpl. by rewrite <-app_assoc, <-E1.
Qed.

Lemma trim_front_app encs fuel pre l : prefix_code encs = true -> Forall (fun e => e ∈ encs) pre ->
  leading encs l = None -> (length (concat pre) <= fuel)%nat ->
  trim_front fuel encs (concat pre ++ l) = l.
Proof.
  intros Hc Hp Hl. revert fuel. induction Hp as [|e pre He Hp IH]; intros fuel Hf; simpl.
  - destruct fuel as [|fuel]; [done|]. simpl. by rewrite Hl.
  - pose proof (prefix_code_nonempty _ _ Hc He) as Hn. simpl in Hf. rewrite length_app in Hf.
    destruct e as [|b e]; [done|]. destruct fuel as [|fuel]; [simpl in Hf; lia|].
    cbn [trim_front]. rewrite <-app_assoc, leading_app by done. rewrite drop_app_length.
    apply IH. simpl in Hf. lia.
Qed.

Lemma rev_concat (ps : list bytes) : rev (concat ps) = concat (rev (map (@rev byte) ps)).
Proof.
  induction ps as [|p ps IH]; [done|]. simpl. rewrite rev_app_distr, IH, concat_app. simpl.
  by rewrite app_nil_r.
Qed.

Lemma space_codes : prefix_code space_encodings = true /\
  prefix_code (map (@rev byte) space_encodings) = true.
Proof. split; vm_compute; reflexivity. Qed.

Lemma Forall_rev_encodings ps encs : Forall (fun e : bytes => e ∈ encs) ps ->
  Forall (fun e => e ∈ map (@rev byte) encs) (rev (map (@rev byte) ps)).
Proof.
  intros H. apply Forall_rev, Forall_map. eapply Forall_impl; [exact H|]. intros e He.
  by apply list_elem_of_fmap_2.
Qed.

(** What [TrimSpace] returns: the rest of the input between white space. *)
Lemma TrimSpace_spec s : exists pre post, s = concat pre ++ TrimSpace s ++ concat post /\
  Forall is_space pre /\ Forall is_space post.
Proof.
  unfold TrimSpace. destruct (trim_front_spec space_encodings (length s) s) as (pre & E1 & Hp).
  set (t := trim_front _ _ s) in *.
  destruct (trim_front_spec (map (@rev byte) space_encodings) (length t) (rev t)) as (post & E2 & Hq).
  exists pre, (rev (map (@rev byte) post)). split_and!; [|done|].
  - rewrite E1 at 1. f_equal. apply (f_equal (@rev byte)) in E2.
    rewrite rev_involutive, rev_app_distr, rev_concat in E2. done.
  - apply Forall_rev_encodings in Hq. rewrite map_map in Hq.
    erewrite map_ext in Hq; [|intros; apply rev_involutive]. by rewrite map_id in Hq.
Qed.

(** A text that neither starts nor ends with white space is all that is left. *)
Lemma TrimSpace_app pre doc post : Forall is_space pre -> Forall is_space post -> doc <> [] ->
  leading space_encodings doc = None ->
  leading space_encodings (doc ++ concat post) = None ->
  leading (map (@rev byte) space_encodings) (rev doc) = None ->
  TrimSpace (concat pre ++ doc ++ concat post) = doc.
Proof.
  intros Hp Hq Hd H1 H2 H3. unfold TrimSpace. destruct space_codes as [C1 C2].
  rewrite (trim_front_app _ _ pre) by (rewrite ?length_app; auto; lia).
  rewrite rev_app_distr, rev_concat.
  rewrite (trim_front_app _ _ _ (rev doc)); auto using Forall_rev_encodings.
  - apply rev_involutive.
  - rewrite <-rev_concat, length_rev, length_app. lia.
Qed.

Lemma leading_head encs b l : forallb (fun e => bool_decide (e <> []) &&
    negb (bool_decide (head e = Some b))) encs = true -> leading encs (b :: l) = None.
Proof.
  intros H. destruct (leading encs (b :: l)) as [n|] eqn:E; [|done].
  apply leading_Some in E as (e & He & _ & E). apply list_elem_of_In in He.
  rewrite forallb_forall in H. specialize (H e He). apply andb_prop in H as [Hn Hh].
  destruct e as [|b' e]; [by apply bool_decide_eq_true in Hn|]. injection E as <- _.
  by rewrite bool_decide_eq_true_2 in Hh.
Qed.

(** A braced text keeps its braces. *)
Lemma TrimSpace_braced pre l post : Forall is_space pre -> Forall is_space post ->
  TrimSpace (concat pre ++ (x7b :: l ++ [x7d]) ++ concat post) = x7b :: l ++ [x7d].
Proof.
  intros Hp Hq.
  assert (forall m, leading space_encodings (x7b :: m) = None) as Hl.
  { intros m. apply leading_head. vm_compute. reflexivity. }
  apply TrimSpace_app; [done..|apply Hl|apply Hl|].
  cbn [rev]. rewrite rev_app_distr. apply leading_head. vm_compute. reflexivity.
Qed.

(** ** Evaluation *)

Definition quoted (s : string) : bytes := [x22] ++ str s ++ [x22].

Example json_valid_1 : json_Valid (str "{" ++ quoted "a" ++ str ": [1, -2.5e+3, true, null, {}], " ++
  quoted "b" ++ str " : " ++ quoted "\u00e9\n" ++ str "}") = true.
Proof. vm_compute. reflexivity. Qed.
Example json_invalid_1 : json_Valid (str "{" ++ quoted "a" ++ str ": 01}") = false.
Proof. vm_compute. reflexivity. Qed.
Example json_invalid_2 : json_Valid (str "{" ++ quoted "a" ++ str ":1,}") = false.
Proof. vm_compute. reflexivity. Qed.
Example json_invalid_3 : json_Valid (str "{} x") = false.
Proof. vm_compute. reflexivity. Qed.
Example trim_1 : TrimSpace ([x0b; xc2; xa0; x20] ++ str "a b" ++ [xe2; x80; x83; x0a]) = str "a b".
Proof. vm_compute. reflexivity. Qed.

(** ** encoding/hex and encoding/base64 *)

Definition hex_value (b : byte) : option Z :=
  let z := byte_val b in
  if (48 <=? z) && (z <=? 57) then Some (z - 48)
  else if (97 <=? z) && (z <=? 102) then Some (z - 87)
  else if (65 <=? z) && (z <=? 70) then Some (z - 55)
  else None.

Definition hex_ErrLength : error := Sentinel "encoding/hex: odd length hex string".
Definition hex_InvalidByte (b : byte) : error :=
  Errorf "encoding/hex: invalid byte: %#U" [AInt (byte_val b)].

(** [hex.DecodeString] *)
Fixpoint hex_DecodeString (s : bytes) : result error bytes :=
  match s with
  | [] => Ok []
  | [p] => match hex_value p with None => Err (hex_InvalidByte p) | Some _ => Err hex_ErrLength end
  | p :: q :: s =>
      match hex_value p, hex_value q with
      | None, _ => Err (hex_InvalidByte p)
      | _, None => Err (hex_InvalidByte q)
      | Some a, Some b => rest ← hex_DecodeString s; Ok (byte_of (a * 16 + b) :: rest)
      end
  end.

(** [hex.EncodeToString] *)
Definition hex_digit_of (z : Z) : byte := byte_of (if z <? 10 then 48 + z else 87 + z).
Definition hex_EncodeToString (l : bytes) : bytes :=
  concat (map (fun b => [hex_digit_of (byte_val b / 16); hex_digit_of (byte_val b mod 16)]) l).

(** [base64.StdEncoding] and [base64.RawURLEncoding], [EncodeToString]: the
    digits 62 and 63, and whether the last group is padded. *)
Definition base64_digit (url : bool) (z : Z) : byte :=
  byte_of (if z <? 26 then 65 + z else if z <? 52 then 71 + z else if z <? 62 then z - 4
           else if z =? 62 then (if url then 45 else 43) else (if url then 95 else 47)).

Fixpoint base64 (url : bool) (l : bytes) : bytes :=
  let d := base64_digit url in
  let pad := if url then [] else str "=" in
  match l with
  | [] => []
  | [a] => let n := byte_val a * 2 ^ 16 in
      [d (n / 2 ^ 18); d (n / 2 ^ 12 mod 64)] ++ pad ++ pad
  | [a; b] => let n := byte_val a * 2 ^ 16 + byte_val b * 2 ^ 8 in
      [d (n / 2 ^ 18); d (n / 2 ^ 12 mod 64); d (n / 2 ^ 6 mod 64)] ++ pad
  | a :: b :: c :: l => let n := byte_val a * 2 ^ 16 + byte_val b * 2 ^ 8 + byte_val c in
      [d (n / 2 ^ 18); d (n / 2 ^ 12 mod 64); d (n / 2 ^ 6 mod 64); d (n mod 64)] ++ base64 url l
  end.

Definition base64_StdEncoding : bytes -> bytes := base64 false.
Definition base64_RawURLEncoding : bytes -> bytes := base64 true.

Example base64_1 : base64_StdEncoding (str "foob") = str "Zm9vYg==".
Proof. vm_compute. reflexivity. Qed.
Example base64_2 : base64_RawURLEncoding [xfb; xff] = str "-_8" /\ base64_StdEncoding [xfb; xff] = str "+/8=".
Proof. split; vm_compute; reflexivity. Qed.

Lemma hex_value_digit z : 0 <= z < 16 -> hex_value (hex_digit_of z) = Some z.
Proof.
  intros H. assert (Forall (fun z => hex_value (hex_digit_of z) = Some z) (map Z.of_nat (seq 0 16))) as Hf.
  { repeat constructor. }
  rewrite Forall_forall in Hf. apply Hf. apply list_elem_of_In, in_map_iff.
  exists (Z.to_nat z). split; [lia|]. apply in_seq. lia.
Qed.

Lemma hex_Decode_Encode l : hex_DecodeString (hex_EncodeToString l) = Ok l.
Proof.
  induction l as [|b l IH]; [done|]. pose proof (byte_val_range b).
  unfold hex_EncodeToString in *. cbn [map concat app hex_DecodeString].
  rewrite !hex_value_digit by (first [apply Z.mod_pos_bound; lia|split; [apply Z.div_pos; lia|apply Z.div_lt_upper_bound; lia]]).
  rewrite IH. cbn. do 2 f_equal.
  transitivity (byte_of (byte_val b)); [|apply byte_of_val]. f_equal.
  rewrite (Z.div_mod (byte_val b) 16) at 3 by lia. lia.
Qed.
