(* ===== verification/GoPath.v ===== *)
(** [path/filepath] on Unix: [Clean] and [Join]. *)

From S2P Require Import Prelude.

Definition slash : byte := x2f.

Fixpoint split_slash (l : bytes) : list bytes :=
  match l with
  | [] => [[]]
  | b :: l =>
      if decide (b = slash) then [] :: split_slash l
      else match split_slash l with
           | [] => [[b]]
           | x :: xs => (b :: x) :: xs
           end
  end.

(** One component of a path, on the reversed list of those kept so far: empty
    ones and dots are dropped, dot-dots cancel the component before them. *)
Definition clean_step (rooted : bool) (kept : list bytes) (comp : bytes) : list bytes :=
  if decide (comp = [] \/ comp = str ".") then kept
  else if decide (comp = str "..") then
    match kept with
    | top :: rest => if decide (top = str "..") then comp :: kept else rest
    | [] => if rooted then [] else [comp]
    end
  else comp :: kept.

Fixpoint join_slash (l : list bytes) : bytes :=
  match l with
  | [] => []
  | [x] => x
  | x :: xs => x ++ slash :: join_slash xs
  end.

Definition Clean (path : bytes) : bytes :=
  if decide (path = []) then str "." else
  let rooted := bool_decide (head path = Some slash) in
  let body := join_slash (rev (foldl (clean_step rooted) [] (split_slash path))) in
  if rooted then slash :: body else if decide (body = []) then str "." else body.

(** [filepath.Join(dir, name)] *)
Definition Join (dir name : bytes) : bytes :=
  if decide (dir = []) then (if decide (name = []) then [] else Clean name)
  else if decide (name = []) then Clean dir
  else Clean (dir ++ slash :: name).

(** A name that is one component of its own. *)
Definition simple (name : bytes) : Prop :=
  name <> [] /\ name <> str "." /\ name <> str ".." /\ slash ∉ name.

#[global] Instance simple_dec name : Decision (simple name).
Proof. unfold simple. apply _. Defined.

Lemma split_slash_nonempty l : split_slash l <> [].
Proof. destruct l as [|b l]; [done|]. cbn [split_slash]. case_decide; [done|]. by destruct (split_slash l). Qed.

Lemma split_slash_simple name : slash ∉ name -> split_slash name = [name].
Proof.
  induction name as [|b name IH]; [done|]. intros H. cbn [split_slash].
  apply not_elem_of_cons in H as [Hb Hn]. rewrite decide_False by done. by rewrite IH.
Qed.

Lemma split_slash_app dir name : slash ∉ name ->
  split_slash (dir ++ slash :: name) = split_slash dir ++ [name].
Proof.
  intros Hn. induction dir as [|b dir IH]; cbn [app split_slash].
  - by rewrite decide_True, split_slash_simple.
  - rewrite IH. case_decide; [done|]. destruct (split_slash dir) as [|x xs] eqn:E; [|done].
    by destruct (split_slash_nonempty dir).
Qed.

Lemma join_slash_snoc l : exists p, forall name, join_slash (l ++ [name]) = p ++ name.
Proof.
  induction l as [|x l [p IH]]; [by exists []|]. exists (x ++ slash :: p). intros n.
  destruct l as [|y l]; cbn [app join_slash].
  - specialize (IH n). cbn in IH. rewrite <-app_assoc. cbn [app]. by rewrite <-IH.
  - rewrite <-app_assoc. cbn [app]. do 2 f_equal. exact (IH n).
Qed.

Lemma clean_step_simple rooted kept name : simple name -> clean_step rooted kept name = name :: kept.
Proof.
  intros (H1 & H2 & H3 & _). unfold clean_step. rewrite decide_False by tauto. by rewrite decide_False.
Qed.

(** The files of a directory have the path of the directory and then their name. *)
Lemma Join_simple dir : exists p, forall name, simple name -> Join dir name = p ++ name.
Proof.
  unfold Join. destruct (decide (dir = [])) as [->|Hd].
  - exists []. intros name (H1 & H2 & H3 & H4). rewrite decide_False by done.
    unfold Clean. rewrite decide_False by done. rewrite split_slash_simple by done. cbn [foldl].
    rewrite clean_step_simple by done. cbn [rev app join_slash].
    rewrite bool_decide_eq_false_2; [by rewrite decide_False|].
    destruct name as [|b name]; [done|]. intros [= ->]. by apply H4, elem_of_cons; left.
  - set (rooted := bool_decide (head dir = Some slash)).
    destruct (join_slash_snoc (rev (foldl (clean_step rooted) [] (split_slash dir)))) as [p Hp].
    exists (if rooted then slash :: p else p). intros name Hs. pose proof Hs as (H1 & H2 & H3 & H4).
    rewrite decide_False by done. unfold Clean. rewrite decide_False by (by destruct dir).
    assert (head (dir ++ slash :: name) = head dir) as -> by (by destruct dir).
    fold rooted. rewrite split_slash_app by done. rewrite foldl_app. cbn [foldl].
    rewrite clean_step_simple by done. cbn [rev]. rewrite Hp.
    destruct rooted; [done|]. rewrite decide_False; [done|]. intros E. by apply app_eq_nil in E as [_ E].
Qed.

(** So two names never meet in the same file. *)
Lemma Join_inj dir a b : simple a -> simple b -> Join dir a = Join dir b -> a = b.
Proof.
  intros Ha Hb E. destruct (Join_simple dir) as [p Hp]. rewrite !Hp in E by done. by apply app_inv_head in E.
Qed.

Example Join_1 : Join (str "/tmp/./x/../y/") (str "plain.bin") = str "/tmp/y/plain.bin".
Proof. vm_compute. reflexivity. Qed.
Example Join_2 : Join (str "../a//b") (str "c") = str "../a/b/c" /\ Join (str "/..") (str "c") = str "/c" /\
  Join (str "x/..") (str ".") = str ".".
Proof. split_and!; vm_compute; reflexivity. Qed.
