(* ===== verification/IO.v ===== *)
(** The effects of package [stream]: the caller's [io.Reader] and [io.Writer],
    [crypto/rand], and the secret buffers a call owns, as a state-and-error
    monad; the contracts the [io] package documents for readers and writers,
    which the theorems of the stream files assume of the caller's values. *)

From S2P Require Import Prelude GoError.

(** ** The platform

    One type each for the caller's reader, writer and the random source; [X] is
    everything else a call can reach (the broker, for a recovery through it).
    [Read r n] is [src.Read(p)] for a [p] of length [n]: the bytes stored into
    [p], the error, and the reader afterwards. [Write w p] is [dst.Write(p)];
    the code ignores the returned count. [rand_Read g n] is
    [crypto/rand.Read(buf)] for a [buf] of length [n]. *)

Class Platform (X : Type) := {
  R : Type;
  W : Type;
  G : Type;
  Read : R -> nat -> bytes * option error * R;
  Write : W -> bytes -> option error * W;
  written : W -> bytes;
  rand_Read : G -> nat -> bytes * option error * G;
}.

(** [written w] is the bytes the writer has accepted so far. The laws are the
    documented contracts: a [Write] that returns fewer bytes than it was given
    returns an error ([io.Writer]), and [crypto/rand.Read] fills its buffer
    when it returns no error. *)
Class PlatformLaws {X : Type} (P : Platform X) := {
  Write_contract : forall w p e w', Write w p = (e, w') ->
    exists q, written w' = written w ++ q /\ q `prefix_of` p /\ (e = None -> q = p);
  rand_Read_length : forall g n b g', rand_Read g n = (b, None, g') -> length b = n;
}.

Section io.
Context {X : Type} {P : Platform X}.

Record world := World {
  w_src : R;
  w_dst : W;
  w_rng : G;
  w_secrets : list bytes;
  w_ext : X;
}.

Definition io (A : Type) : Type := world -> result error A * world.

#[global] Instance io_ret : MRet io := fun A a w => (Ok a, w).
#[global] Instance io_bind : MBind io := fun A B k m w =>
  match m w with
  | (Ok a, w') => k a w'
  | (Err e, w') => (Err e, w')
  end.

Definition fail {A} (e : error) : io A := fun w => (Err e, w).

(** [if err != nil { return err }] around a pure fallible call. *)
Definition lift {A} (r : result error A) : io A := fun w => (r, w).

(** [if _, err := dst.Write(p); err != nil { return err }] *)
Definition dst_Write (p : bytes) : io unit := fun w =>
  let '(e, d) := Write (w_dst w) p in
  (match e with None => Ok () | Some e => Err e end,
   World (w_src w) d (w_rng w) (w_secrets w) (w_ext w)).

(** A buffer whose [wipe] is deferred: [k := ...; defer wipe(k); body]. The
    buffer is one of the call's secrets while [body] runs, and holds zeroes
    after it, whatever [body] returned. *)
Definition wipe (b : bytes) : bytes := replicate (length b) x00.

Definition add_secret (k : bytes) (w : world) : world :=
  World (w_src w) (w_dst w) (w_rng w) (w_secrets w ++ [k]) (w_ext w).
Definition wipe_secret (i : nat) (w : world) : world :=
  World (w_src w) (w_dst w) (w_rng w) (alter wipe i (w_secrets w)) (w_ext w).

Definition with_wiped {A} (k : bytes) (body : io A) : io A := fun w =>
  let '(r, w') := body (add_secret k w) in
  (r, wipe_secret (length (w_secrets w)) w').

(** A buffer the call fills with a key and has no deferred [wipe] for. *)
Definition keep_secret (k : bytes) : io unit := fun w => (Ok (), add_secret k w).

Lemma with_wiped_run {A} k (body : io A) w r w' :
  body (add_secret k w) = (r, w') ->
  with_wiped k body w = (r, wipe_secret (length (w_secrets w)) w').
Proof. unfold with_wiped. by intros ->. Qed.

Lemma with_wiped_inv {A} k (body : io A) w r w' :
  with_wiped k body w = (r, w') ->
  exists w1, body (add_secret k w) = (r, w1) /\
    w' = wipe_secret (length (w_secrets w)) w1.
Proof. unfold with_wiped. destruct (body _) as [r1 w1]. intros [= <- <-]. eauto. Qed.

(** *** Wiping discipline: every secret buffer a computation adds is zeroed
    when it returns, and it leaves the earlier ones alone; a successful
    one has added (and wiped) exactly [n] of them. *)

Definition zeroed (b : bytes) : Prop := Forall (fun x => x = x00) b.

Definition wipes {A} (n : nat) (m : io A) : Prop := forall w r w', m w = (r, w') ->
  exists more, w_secrets w' = w_secrets w ++ more /\ Forall zeroed more /\
    (is_ok r = true -> length more = n).

Lemma zeroed_wipe b : zeroed (wipe b).
Proof. apply Forall_replicate. done. Qed.

Lemma wipes_pure {A} (m : io A) :
  (forall w, w_secrets (m w).2 = w_secrets w) -> wipes 0 m.
Proof. intros H w r w' E. exists []. specialize (H w). rewrite E in H. by rewrite app_nil_r. Qed.

Lemma wipes_ret {A} (a : A) : wipes 0 (mret a).
Proof. by apply wipes_pure. Qed.

Lemma wipes_fail {A} n e : wipes n (@fail A e).
Proof. intros w r w' [= <- <-]. exists []. by rewrite app_nil_r. Qed.

Lemma wipes_lift {A} (r : result error A) : wipes 0 (lift r).
Proof. by apply wipes_pure. Qed.

Lemma wipes_bind {A B} n1 n2 (m : io A) (k : A -> io B) :
  wipes n1 m -> (forall a, wipes n2 (k a)) -> wipes (n1 + n2) (m ≫= k).
Proof.
  intros Hm Hk w r w' E. unfold mbind, io_bind in E.
  destruct (m w) as [[a|e] w1] eqn:E1; apply Hm in E1 as (m1 & H1 & Z1 & L1).
  - apply Hk in E as (m2 & H2 & Z2 & L2). exists (m1 ++ m2).
    rewrite H2, H1, <-app_assoc, length_app. split_and!; [done|by apply Forall_app_2|].
    intros Hr. by rewrite L1, L2.
  - injection E as <- <-. exists m1. done.
Qed.

(** The step that adds no secret: the common case of the above. *)
Lemma wipes_step {A B} n (m : io A) (k : A -> io B) :
  wipes 0 m -> (forall a, wipes n (k a)) -> wipes n (m ≫= k).
Proof. apply (wipes_bind 0). Qed.

Lemma wipes_with_wiped {A} n k (m : io A) : wipes n m -> wipes (S n) (with_wiped k m).
Proof.
  intros Hm w r w' E. apply with_wiped_inv in E as (w1 & E & ->).
  apply Hm in E as (more & H & Z & L). exists (wipe k :: more).
  simpl. rewrite H. simpl. rewrite <-app_assoc. simpl.
  rewrite alter_app_r_alt by lia. rewrite Nat.sub_diag. simpl.
  split; [done|]. split; [constructor; [apply zeroed_wipe|done]|]. auto.
Qed.

Lemma wipes_dst_Write p : wipes 0 (dst_Write p).
Proof. apply wipes_pure. intros w. unfold dst_Write. by destruct (Write _ _). Qed.

(** *** Sequencing *)

Lemma io_bind_Ok {A B} (m : io A) (k : A -> io B) w a w' :
  m w = (Ok a, w') -> (m ≫= k) w = k a w'.
Proof. unfold mbind, io_bind. by intros ->. Qed.

Lemma io_bind_Err {A B} (m : io A) (k : A -> io B) w e w' :
  m w = (Err e, w') -> (m ≫= k) w = (Err e, w').
Proof. unfold mbind, io_bind. by intros ->. Qed.

Lemma io_bind_inv {A B} (m : io A) (k : A -> io B) w r w'' :
  (m ≫= k) w = (r, w'') ->
  (exists a w', m w = (Ok a, w') /\ k a w' = (r, w'')) \/
  (exists e, m w = (Err e, w'') /\ r = Err e).
Proof.
  unfold mbind, io_bind. destruct (m w) as [[a|e] w1] eqn:E; [eauto 10|].
  intros [= <- <-]. eauto.
Qed.

Lemma io_bind_ext {A B} (m : io A) (k1 k2 : A -> io B) w :
  (forall a w1, k1 a w1 = k2 a w1) -> (m ≫= k1) w = (m ≫= k2) w.
Proof. intros H. unfold mbind, io_bind. destruct (m w) as [[] ?]; auto. Qed.

Lemma io_lift_Ok {A B} (x : A) (k : A -> io B) w : (lift (Ok x) ≫= k) w = k x w.
Proof. reflexivity. Qed.

Lemma io_lift_Err {A B} e (k : A -> io B) w : (lift (Err e) ≫= k) w = (Err e, w).
Proof. reflexivity. Qed.

Lemma io_ret_bind {A B} (x : A) (k : A -> io B) w : (mret x ≫= k) w = k x w.
Proof. reflexivity. Qed.

(** ** Conforming readers *)

(** A reader that holds exactly the bytes [bs]: whatever buffer it is given,
    it delivers a prefix of them, with progress until they are exhausted,
    and reports [io.EOF] only then (with the last bytes or alone), and again
    on every later call; it never fails. [holds] is the reader's own
    invariant, so this is the greatest such relation. *)
Definition conforming (holds : R -> bytes -> Prop) : Prop :=
  forall r bs n, holds r bs -> (0 < n)%nat ->
  exists d rest e r',
    Read r n = (d, e, r') /\ bs = d ++ rest /\ (length d <= n)%nat /\ holds r' rest /\
    ((e = None /\ d <> []) \/ (e = Some EOF /\ rest = [])).

Definition delivers (r : R) (bs : bytes) : Prop :=
  exists holds, conforming holds /\ holds r bs.

Lemma delivers_step r bs n :
  delivers r bs -> (0 < n)%nat ->
  exists d rest e r',
    Read r n = (d, e, r') /\ bs = d ++ rest /\ (length d <= n)%nat /\ delivers r' rest /\
    ((e = None /\ d <> []) \/ (e = Some EOF /\ rest = [])).
Proof.
  intros (holds & Hc & Hr) Hn.
  destruct (Hc r bs n Hr Hn) as (d & rest & e & r' & H1 & H2 & H3 & H4 & H5).
  exists d, rest, e, r'. repeat split; auto. by exists holds.
Qed.

(** ** Writers that do not fail *)

Definition reliable (d : W) : Prop :=
  exists ok : W -> Prop, ok d /\
    forall d p, ok d -> exists d', Write d p = (None, d') /\ ok d'.

Lemma reliable_step `{!PlatformLaws P} d p :
  reliable d ->
  exists d', Write d p = (None, d') /\ reliable d' /\ written d' = written d ++ p.
Proof.
  intros (ok & Hd & Hok). destruct (Hok d p Hd) as (d' & E & Hd').
  exists d'. split; [done|]. split; [by exists ok|].
  destruct (Write_contract _ _ _ _ E) as (q & -> & _ & Hq). by rewrite Hq.
Qed.

(** [rand.Read] never fails from here on. *)
Definition entropic (g : G) : Prop :=
  exists ok : G -> Prop, ok g /\
    forall g n, ok g -> exists b g', rand_Read g n = (b, None, g') /\ ok g'.

Lemma entropic_step `{!PlatformLaws P} g n :
  entropic g ->
  exists b g', rand_Read g n = (b, None, g') /\ entropic g' /\ length b = n.
Proof.
  intros (ok & Hg & Hok). destruct (Hok g n Hg) as (b & g' & E & Hg').
  exists b, g'. split; [done|]. split; [by exists ok|]. by eapply rand_Read_length.
Qed.
End io.

Arguments io {X P} A.
Arguments world {X} P.

(** Run the first step of the goal's monadic program by the equation [E] for it. *)
Ltac io_run E := first [ rewrite (io_bind_Ok _ _ _ _ _ E) | rewrite (io_bind_Err _ _ _ _ _ E) ].

(** Split [H : (m ≫= k) w = (r, w')] into the successful first step, with its
    equation, and the failing one. *)
Tactic Notation "io_inv" hyp(H) "as" simple_intropattern(p) :=
  apply io_bind_inv in H; destruct H as p.

#[export] Hint Rewrite @io_lift_Ok @io_lift_Err @io_ret_bind : basil.

#[export] Hint Resolve wipes_ret wipes_fail wipes_lift wipes_with_wiped wipes_dst_Write
  wipes_step : basil.

(** Wiping of a straight-line program: through binds, tests and destructured
    results, to the steps of the hint database. *)
Ltac wipes_auto :=
  repeat first
    [ progress intros
    | progress cbv zeta
    | solve [auto with basil]
    | apply wipes_with_wiped
    | apply wipes_step
    | case_decide
    | case_match ].
