(* ===== verification/Crypto.v ===== *)
(** The cryptographic primitives package [stream] calls ([crypto/aes],
    [crypto/cipher], [chacha20poly1305], [crypto/hkdf]), as an interface: what
    each call takes and returns, and the documented behaviour the code relies
    on.  No strength assumption is made here. *)

From S2P Require Import Prelude.

Class Crypto := {
  Block : Type;                                        (* cipher.Block *)
  AEAD : Type;                                         (* cipher.AEAD *)
  aes_NewCipher : bytes -> option Block;               (* key *)
  cipher_NewGCM : Block -> option AEAD;
  chacha20poly1305_New : bytes -> option AEAD;         (* key *)
  Seal : AEAD -> bytes -> bytes -> bytes -> bytes;     (* nonce, plaintext, aad *)
  Open : AEAD -> bytes -> bytes -> bytes -> option bytes; (* nonce, ciphertext, aad *)
  hkdf_sha256_Key : bytes -> bytes -> bytes -> Z -> option bytes; (* secret, salt, info, length *)
}.

(** 32-byte keys are accepted; [Open] inverts [Seal] under the same nonce and
    additional data; the tag is 16 bytes; HKDF-SHA256 yields the 32 bytes asked
    for. *)
Class CryptoLaws (C : Crypto) := {
  aes_gcm_32 : forall key, length key = 32%nat ->
    exists b a, aes_NewCipher key = Some b /\ cipher_NewGCM b = Some a;
  chacha_32 : forall key, length key = 32%nat ->
    exists a, chacha20poly1305_New key = Some a;
  Open_Seal : forall a nonce pt aad, length nonce = 12%nat ->
    Open a nonce (Seal a nonce pt aad) aad = Some pt;
  Seal_length : forall a nonce pt aad, length nonce = 12%nat ->
    length (Seal a nonce pt aad) = (length pt + 16)%nat;
  hkdf_32 : forall secret salt info,
    exists okm, hkdf_sha256_Key secret salt info 32 = Some okm /\ length okm = 32%nat;
}.
