(* ===== verification/Format.v ===== *)
(** Package [stream], file [format.go]: the container format.  Constants and
    sentinel errors, the suite tables, the fixed header and its parser, the
    per-chunk additional data and nonce, the key derivation and the chunk AEAD. *)

From S2P Require Import Prelude GoError Crypto.

(** ** Constants *)

Definition FormatVersion : byte := x01.
Definition FixedHeaderLen : Z := 61.
Definition TagLen : Z := 16.
Definition NonceLen : Z := 12.
Definition CEKLen : Z := 32.
Definition StreamIDLen : Z := 16.
Definition StreamSaltLen : Z := 32.
Definition DefaultChunkSize : Z := 64 * 1024.
Definition MaxChunkSize : Z := 1024 * 1024.

Definition magic : bytes := str "BSLSTR".
Definition chunkAADMagic : bytes := str "BSLA".
Definition cekWrapAADMagic : bytes := str "BSLK".
Definition streamCEKLabel : bytes := str "basil-stream-cek-v1".

(** ** Suites *)

Definition Suite : Type := byte.
Definition SuiteAES256GCM : Suite := x01.
Definition SuiteChaCha20Poly1305 : Suite := x02.
Definition SuiteMLKEM512 : Suite := x03.
Definition SuiteMLKEM768 : Suite := x04.
Definition SuiteMLKEM1024 : Suite := x05.

(** ** Sentinel errors *)

Definition ErrBadMagic := Sentinel "basil/stream: bad stream magic".
Definition ErrUnsupportedVersion := Sentinel "basil/stream: unsupported stream format version".
Definition ErrUnsupportedSuite := Sentinel "basil/stream: unsupported stream suite id".
Definition ErrReservedFlags := Sentinel "basil/stream: reserved header flags must be zero".
Definition ErrShortHeader := Sentinel "basil/stream: truncated or malformed stream header".
Definition ErrBadChunkSize := Sentinel "basil/stream: invalid chunk size".
Definition ErrChunkTooLarge := Sentinel "basil/stream: chunk record too large".
Definition ErrSuiteMismatch := Sentinel "basil/stream: stream suite mismatch".
Definition ErrBadPublicKey := Sentinel "basil/stream: invalid ML-KEM public key".
Definition ErrBadCEKLength := Sentinel "basil/stream: invalid content-encryption key length".
Definition ErrBadKEMCiphertext := Sentinel "basil/stream: invalid ML-KEM ciphertext".
Definition ErrTruncated := Sentinel "basil/stream: stream truncated: missing final chunk".
Definition ErrAuthFailed := Sentinel "basil/stream: stream authentication failed".
Definition ErrKDFFailed := Sentinel "basil/stream: key derivation failed".
Definition ErrSealFailed := Sentinel "basil/stream: seal failed".

(** ** The suite tables

    Each [switch] returns its value and a boolean that is false in the default
    case: an option. The three tables compare [Suite(suiteID)] with the named
    constants. *)

Inductive chunkAEAD := aeadAES256GCM | aeadChaCha20Poly1305.

#[global] Instance chunkAEAD_eq_dec : EqDecision chunkAEAD.
Proof. solve_decision. Defined.

Definition chunkAEADForSuite (suiteID : byte) : option chunkAEAD :=
  if decide (suiteID = SuiteAES256GCM \/ suiteID = SuiteMLKEM512 \/
             suiteID = SuiteMLKEM768 \/ suiteID = SuiteMLKEM1024) then Some aeadAES256GCM
  else if decide (suiteID = SuiteChaCha20Poly1305) then Some aeadChaCha20Poly1305
  else None.

Definition mlKemCiphertextLen (suiteID : byte) : option Z :=
  if decide (suiteID = SuiteMLKEM512) then Some 768
  else if decide (suiteID = SuiteMLKEM768) then Some 1088
  else if decide (suiteID = SuiteMLKEM1024) then Some 1568
  else None.

Definition kemToken (suiteID : byte) : option bytes :=
  if decide (suiteID = SuiteMLKEM512) then Some (str "ml-kem-512")
  else if decide (suiteID = SuiteMLKEM768) then Some (str "ml-kem-768")
  else if decide (suiteID = SuiteMLKEM1024) then Some (str "ml-kem-1024")
  else None.

(** ** The fixed header *)

Record streamHeader := mkHeader {
  suiteID : byte;
  chunkSize : Z;          (* uint32 *)
  streamID : bytes;       (* [16]byte *)
  streamSalt : bytes;     (* [32]byte *)
}.

(** The field ranges: the array lengths and the chunk sizes the parser admits. *)
Record header_wf (h : streamHeader) : Prop := {
  wf_suite : is_Some (chunkAEADForSuite (suiteID h));
  wf_chunkSize : 1 <= chunkSize h <= MaxChunkSize;
  wf_streamID : length (streamID h) = 16%nat;
  wf_streamSalt : length (streamSalt h) = 32%nat;
}.

Definition writeFixedHeader (out : bytes) (suiteID : byte) (chunkSize : Z)
    (streamID streamSalt : bytes) : bytes :=
  let out := out ++ magic in
  let out := out ++ [FormatVersion] in
  let out := out ++ [suiteID] in
  let out := out ++ [x00] in
  let out := out ++ be_put 4 chunkSize in
  let out := out ++ streamID in
  out ++ streamSalt.

Definition parseFixedHeader (buf : bytes) : result error streamHeader :=
  if decide (len buf < FixedHeaderLen) then Err ErrShortHeader else
  if decide (slice 0 6 buf <> magic) then Err ErrBadMagic else
  let version := nth 6 buf x00 in
  if decide (version <> FormatVersion) then
    Err (Wrapf "%w: %d" [AInt (byte_val version)] ErrUnsupportedVersion) else
  let suiteID := nth 7 buf x00 in
  if decide (nth 8 buf x00 <> x00) then Err ErrReservedFlags else
  match chunkAEADForSuite suiteID with
  | None => Err (Wrapf "%w: %d" [AInt (byte_val suiteID)] ErrUnsupportedSuite)
  | Some _ =>
      let chunkSize := be_get (slice 9 13 buf) in
      if decide (chunkSize < 1 \/ chunkSize > MaxChunkSize) then
        Err (Wrapf "%w: %d (must be 1..=%d)" [AInt chunkSize; AInt MaxChunkSize] ErrBadChunkSize)
      else Ok (mkHeader suiteID chunkSize (slice 13 29 buf) (slice 29 61 buf))
  end.

(** ** Additional data and nonce *)

Definition bool_byte (b : bool) : byte := if b then x01 else x00.

Definition buildChunkAAD (suiteID : byte) (streamID : bytes) (chunkIndex : Z) (isFinal : bool)
    (chunkPlaintextLen chunkSize : Z) : bytes :=
  chunkAADMagic ++ [FormatVersion] ++ [suiteID] ++ streamID ++ be_put 8 chunkIndex ++
  [bool_byte isFinal] ++ be_put 4 chunkPlaintextLen ++ be_put 4 chunkSize.

Definition buildCEKWrapAAD (suiteID : byte) (streamID : bytes) : bytes :=
  cekWrapAADMagic ++ [FormatVersion] ++ [suiteID] ++ streamID.

Definition chunkNonce (chunkIndex : Z) : bytes :=
  replicate 4 x00 ++ be_put 8 chunkIndex.

(** ** Keys and the chunk AEAD *)

Section crypto.
Context `{C : Crypto}.

Definition deriveMessageKey (streamSalt cek : bytes) (suiteID : byte) (streamID : bytes)
    : result error bytes :=
  let info := streamCEKLabel ++ [suiteID] ++ streamID in
  match hkdf_sha256_Key cek streamSalt info CEKLen with
  | None => Err ErrKDFFailed
  | Some okm => Ok okm
  end.

Definition newAEAD (alg : chunkAEAD) (key : bytes) : result error AEAD :=
  match alg with
  | aeadAES256GCM =>
      match aes_NewCipher key with
      | None => Err ErrSealFailed
      | Some block =>
          match cipher_NewGCM block with
          | None => Err ErrSealFailed
          | Some gcm => Ok gcm
          end
      end
  | aeadChaCha20Poly1305 =>
      match chacha20poly1305_New key with
      | None => Err ErrSealFailed
      | Some aead => Ok aead
      end
  end.

Definition aeadSeal (alg : chunkAEAD) (key nonce plaintext aad : bytes) : result error bytes :=
  aead ← newAEAD alg key; Ok (Seal aead nonce plaintext aad).

Definition aeadOpen (alg : chunkAEAD) (key nonce ciphertext aad : bytes) : result error bytes :=
  match newAEAD alg key with
  | Err _ => Err ErrAuthFailed
  | Ok aead =>
      match Open aead nonce ciphertext aad with
      | None => Err ErrAuthFailed
      | Some pt => Ok pt
      end
  end.
End crypto.

(** ** Suites: lemmas *)

Lemma mlkem_suite s n : mlKemCiphertextLen s = Some n ->
  (s = SuiteMLKEM512 /\ n = 768) \/ (s = SuiteMLKEM768 /\ n = 1088) \/
  (s = SuiteMLKEM1024 /\ n = 1568).
Proof. unfold mlKemCiphertextLen. repeat case_decide; naive_solver. Qed.

Lemma mlkem_chunkAEAD s n : mlKemCiphertextLen s = Some n ->
  chunkAEADForSuite s = Some aeadAES256GCM.
Proof. intros [[-> _]|[[-> _]|[-> _]]]%mlkem_suite; reflexivity. Qed.

Lemma mlkem_token s n : mlKemCiphertextLen s = Some n -> is_Some (kemToken s).
Proof. intros [[-> _]|[[-> _]|[-> _]]]%mlkem_suite; eexists; reflexivity. Qed.

(** The suites a container may name are partitioned between the two decrypt
    entry points: the ML-KEM table and the AEAD check disagree on every one. *)
Lemma suite_partition s : is_Some (chunkAEADForSuite s) ->
  (is_Some (mlKemCiphertextLen s) <-> s <> SuiteAES256GCM /\ s <> SuiteChaCha20Poly1305).
Proof.
  unfold chunkAEADForSuite, mlKemCiphertextLen.
  intros [a Ha]. repeat case_decide; destruct_or?; subst; split;
    solve [ naive_solver | intros [? ?]; eauto ].
Qed.

(** ** The header *)

Lemma length_writeFixedHeader s cs id salt :
  length id = 16%nat -> length salt = 32%nat ->
  length (writeFixedHeader [] s cs id salt) = 61%nat.
Proof. intros H1 H2. unfold writeFixedHeader. autorewrite with basil. rewrite H1, H2. reflexivity. Qed.

Lemma writeFixedHeader_eq s cs id salt :
  writeFixedHeader [] s cs id salt =
    (magic ++ [FormatVersion; s; x00]) ++ be_put 4 cs ++ id ++ salt.
Proof. unfold writeFixedHeader. cbv zeta. by rewrite app_nil_l, <-!app_assoc. Qed.

(** The four fields at their offsets. *)
Lemma header_slices (pre sz id salt rest : bytes) :
  length pre = 9%nat -> length sz = 4%nat -> length id = 16%nat -> length salt = 32%nat ->
  let buf := pre ++ sz ++ id ++ salt ++ rest in
  take 9 buf = pre /\ slice 9 13 buf = sz /\ slice 13 29 buf = id /\ slice 29 61 buf = salt.
Proof.
  intros H1 H2 H3 H4 buf. unfold slice, buf.
  split; [by apply take_app_length'|].
  rewrite (drop_app_length' pre) by done.
  split; [by apply take_app_length'|].
  rewrite (app_assoc pre sz), (drop_app_length' (pre ++ sz))
    by (rewrite length_app; lia).
  split; [by apply take_app_length'|].
  rewrite (app_assoc (pre ++ sz) id), (drop_app_length' ((pre ++ sz) ++ id))
    by (rewrite !length_app; lia).
  by apply take_app_length'.
Qed.

(** A byte string of at least 61 bytes splits into the header's fields. *)
Lemma header_split (buf : bytes) : 61 <= len buf ->
  take 61 buf = take 9 buf ++ slice 9 13 buf ++ slice 13 29 buf ++ slice 29 61 buf.
Proof.
  intros H. unfold slice. cbn [Nat.sub].
  assert (Htd : forall (a b : nat) (l : bytes), take (a + b) l = take a l ++ take b (drop a l))
    by (intros a b l; by rewrite take_take_drop).
  change 61%nat with (9 + (4 + (16 + 32)))%nat. rewrite !Htd, !drop_drop. reflexivity.
Qed.

Lemma prefix9_split (buf : bytes) : 9 <= len buf ->
  take 9 buf = slice 0 6 buf ++ [nth 6 buf x00; nth 7 buf x00; nth 8 buf x00].
Proof.
  intros H. do 9 (destruct buf as [|? buf]; [unfold len in H; simpl in H; lia|]). reflexivity.
Qed.

(** Parsing what the writer wrote gives the header back, whatever follows. *)
Lemma parse_write h rest : header_wf h ->
  parseFixedHeader
    (writeFixedHeader [] (suiteID h) (chunkSize h) (streamID h) (streamSalt h) ++ rest) = Ok h.
Proof.
  intros [[a Ha] Hc Hi Hs]. rewrite writeFixedHeader_eq.
  set (pre := magic ++ [FormatVersion; suiteID h; x00]). rewrite <-!app_assoc.
  destruct (header_slices pre (be_put 4 (chunkSize h)) (streamID h) (streamSalt h) rest)
    as (_ & E1 & E2 & E3); auto using length_be_put.
  unfold parseFixedHeader. rewrite decide_False.
  2: { unfold pre, len. rewrite !length_app, length_be_put, Hi, Hs. unfold FixedHeaderLen.
       simpl. lia. }
  rewrite decide_False by (intros H; apply H; reflexivity).
  change (nth 6 _ x00) with FormatVersion. rewrite decide_False by auto.
  change (nth 8 _ x00) with x00. rewrite decide_False by auto.
  change (nth 7 _ x00) with (suiteID h). rewrite Ha.
  rewrite E1, E2, E3, be_get_put by (unfold MaxChunkSize in *; simpl; lia).
  rewrite decide_False by lia. by destruct h.
Qed.

(** A header the parser accepts is well formed, and its 61 bytes are the ones
    the writer produces for it: one byte string per header. *)
Lemma parse_inv buf h : parseFixedHeader buf = Ok h ->
  header_wf h /\ 61 <= len buf /\
  take 61 buf =
    writeFixedHeader [] (suiteID h) (chunkSize h) (streamID h) (streamSalt h).
Proof.
  unfold parseFixedHeader.
  case_decide as Hlen; [done|]. unfold FixedHeaderLen in Hlen.
  case_decide as Hm; [done|]. case_decide as Hv; [done|]. case_decide as Hr; [done|].
  destruct (chunkAEADForSuite (nth 7 buf x00)) as [a|] eqn:Ha; [|done].
  case_decide as Hc; [done|]. intros [= <-]. simpl.
  assert (forall a b : nat, (a <= b <= 61)%nat -> length (slice a b buf) = (b - a)%nat) as Hsl.
  { intros i j Hij. unfold slice. rewrite length_take, length_drop. unfold len in Hlen. lia. }
  split; [split; simpl; [by rewrite Ha|lia|by apply Hsl; lia|by apply Hsl; lia]|].
  split; [lia|].
  rewrite header_split, prefix9_split by lia.
  rewrite Hm, Hv, Hr, writeFixedHeader_eq.
  rewrite be_put_get by (apply (Hsl 9%nat 13%nat); lia). reflexivity.
Qed.

(** ** Additional data and nonce: lengths and injectivity *)

Lemma length_buildChunkAAD s id i f n cs : length id = 16%nat ->
  length (buildChunkAAD s id i f n cs) = 39%nat.
Proof. intros H. unfold buildChunkAAD. autorewrite with basil. rewrite H. reflexivity. Qed.

Lemma length_buildCEKWrapAAD s id : length id = 16%nat ->
  length (buildCEKWrapAAD s id) = 22%nat.
Proof. intros H. unfold buildCEKWrapAAD. autorewrite with basil. rewrite H. reflexivity. Qed.

Lemma length_chunkNonce i : length (chunkNonce i) = 12%nat.
Proof. reflexivity. Qed.

Lemma bool_byte_inj b1 b2 : bool_byte b1 = bool_byte b2 -> b1 = b2.
Proof. by destruct b1, b2. Qed.

Lemma buildChunkAAD_inj s1 id1 i1 f1 n1 cs1 s2 id2 i2 f2 n2 cs2 :
  length id1 = 16%nat -> length id2 = 16%nat ->
  0 <= i1 < 2 ^ 64 -> 0 <= i2 < 2 ^ 64 -> 0 <= n1 < 2 ^ 32 -> 0 <= n2 < 2 ^ 32 ->
  0 <= cs1 < 2 ^ 32 -> 0 <= cs2 < 2 ^ 32 ->
  buildChunkAAD s1 id1 i1 f1 n1 cs1 = buildChunkAAD s2 id2 i2 f2 n2 cs2 ->
  s1 = s2 /\ id1 = id2 /\ i1 = i2 /\ f1 = f2 /\ n1 = n2 /\ cs1 = cs2.
Proof.
  intros L1 L2 Hi1 Hi2 Hn1 Hn2 Hc1 Hc2 E. unfold buildChunkAAD in E.
  apply app_split_eq in E as [_ E]; [|done].
  apply app_split_eq in E as [_ E]; [|done].
  apply app_split_eq in E as [Es E]; [|done]. injection Es as ->.
  apply app_split_eq in E as [-> E]; [|congruence].
  apply app_split_eq in E as [Ei E]; [|by rewrite !length_be_put].
  apply app_split_eq in E as [Ef E]; [|done]. injection Ef as Ef%bool_byte_inj.
  apply app_split_eq in E as [En Ec]; [|by rewrite !length_be_put].
  apply be_put_inj in Ei, En, Ec; simpl; auto with lia.
Qed.

Lemma chunkNonce_inj i1 i2 :
  0 <= i1 < 2 ^ 64 -> 0 <= i2 < 2 ^ 64 -> chunkNonce i1 = chunkNonce i2 -> i1 = i2.
Proof.
  intros H1 H2 E. unfold chunkNonce in E. apply app_split_eq in E as [_ E]; [|done].
  by apply be_put_inj in E.
Qed.

(** ** Sealing and opening *)

Section crypto_laws.
Context {C : Crypto} {CL : CryptoLaws C}.

Lemma newAEAD_32 alg key : length key = 32%nat -> exists a, newAEAD alg key = Ok a.
Proof.
  intros Hk. destruct alg; simpl.
  - destruct (aes_gcm_32 key Hk) as (b & a & -> & ->). eauto.
  - destruct (chacha_32 key Hk) as (a & ->). eauto.
Qed.

Lemma deriveMessageKey_ok salt cek s id :
  exists k, deriveMessageKey salt cek s id = Ok k /\ length k = 32%nat.
Proof.
  unfold deriveMessageKey, CEKLen.
  destruct (hkdf_32 cek salt (streamCEKLabel ++ [s] ++ id)) as (k & -> & Hk). eauto.
Qed.

Lemma aeadSeal_ok alg key nonce pt aad :
  length key = 32%nat -> length nonce = 12%nat ->
  exists ct, aeadSeal alg key nonce pt aad = Ok ct /\ length ct = (length pt + 16)%nat /\
    aeadOpen alg key nonce ct aad = Ok pt.
Proof.
  intros Hk Hn. unfold aeadSeal, aeadOpen.
  destruct (newAEAD_32 alg key Hk) as (a & ->). simpl.
  exists (Seal a nonce pt aad).
  rewrite Open_Seal by done. auto using Seal_length.
Qed.

(** Every failure of [aeadOpen] is [ErrAuthFailed]. *)
Lemma aeadOpen_err alg key nonce ct aad e :
  aeadOpen alg key nonce ct aad = Err e -> e = ErrAuthFailed.
Proof. unfold aeadOpen. repeat case_match; naive_solver. Qed.
End crypto_laws.
