(* ===== verification/Chunks.v ===== *)
(** Package [stream], file [stream.go]: the framing helpers and the two chunk
    loops, [writeChunks] and [readChunks].  The loops take fuel, one unit per
    chunk; the theorems state how much is enough. *)

From S2P Require Import Prelude GoError IO Crypto Format.

(** [chunkCrypto]: the crypto context of one stream. *)
Record chunkCrypto := mkChunkCrypto {
  cc_suiteID : byte;
  cc_chunkAEAD : chunkAEAD;
  cc_chunkSize : Z;        (* int *)
  cc_streamID : bytes;     (* *[16]byte *)
  cc_messageKey : bytes;
}.

Section chunks.
Context {X : Type} {P : Platform X} {C : Crypto}.

(** [readFull(src, buf)] on a [buf] with [want] bytes left to fill. Each turn
    of the loop stores at least one byte or returns, so [want] turns do. *)
Fixpoint readFull_loop (fuel want : nat) (src : R) : bytes * option error * R :=
  match want, fuel with
  | O, _ => ([], None, src)
  | S _, O => ([], Some OutOfFuel, src)
  | S _, S fuel =>
      let '(d, err, src) := Read src want in
      match err with
      | Some e => (d, if decide (e = EOF) then None else Some e, src)
      | None =>
          if decide (d = []) then ([], None, src)
          else let '(d', err, src) := readFull_loop fuel (want - length d) src in
               (d ++ d', err, src)
      end
  end.

(** The filled prefix of a fresh buffer of length [n]; no caller looks at the
    buffer when [readFull] returns an error. *)
Definition readFull (n : Z) : io bytes := fun w =>
  let '(d, err, src) := readFull_loop (Z.to_nat n) (Z.to_nat n) (w_src w) in
  (match err with None => Ok d | Some e => Err e end,
   World src (w_dst w) (w_rng w) (w_secrets w) (w_ext w)).

(** [readLenPrefix]: [None] is the clean end of stream, [(0, false, nil)]. *)
Definition readLenPrefix : io (option Z) :=
  buf ← readFull 4;
  if decide (len buf = 0) then mret None
  else if decide (len buf = 4) then mret (Some (be_get buf))
  else fail ErrTruncated.

Definition readRecordExact (n : Z) : io bytes :=
  buf ← readFull n;
  if decide (len buf <> n) then fail ErrTruncated else mret buf.

Definition readRecord (length : Z) (maxRecord : Z) : io bytes :=
  if decide (length > maxRecord) then fail ErrChunkTooLarge
  else readRecordExact length.

Definition readFixedHeader : io streamHeader :=
  buf ← readFull FixedHeaderLen;
  if decide (len buf <> FixedHeaderLen) then fail ErrShortHeader
  else lift (parseFixedHeader buf).

(** The additional data of chunk [index], whose plaintext has [ptLen] bytes. *)
Definition chunk_aad (c : chunkCrypto) (index : Z) (isFinal : bool) (ptLen : Z) : bytes :=
  buildChunkAAD (cc_suiteID c) (cc_streamID c) index isFinal
    (wrapu 32 ptLen) (wrapu 32 (cc_chunkSize c)).

(** The [for] loop of [writeChunks]; [current] is [current[:have]]. *)
Fixpoint writeChunks_loop (fuel : nat) (c : chunkCrypto) (current : bytes) (index : Z) : io unit :=
  match fuel with
  | O => fail OutOfFuel
  | S fuel =>
      next ← readFull (cc_chunkSize c);
      let isFinal := bool_decide (len next = 0) in
      let aad := chunk_aad c index isFinal (len current) in
      let nonce := chunkNonce index in
      record ← lift (aeadSeal (cc_chunkAEAD c) (cc_messageKey c) nonce current aad);
      dst_Write (be_put 4 (len record));;
      dst_Write record;;
      let index := wrapu 64 (index + 1) in
      if isFinal then mret () else writeChunks_loop fuel c next index
  end.

Definition writeChunks (fuel : nat) (header : bytes) (c : chunkCrypto) : io unit :=
  dst_Write header;;
  current ← readFull (cc_chunkSize c);
  writeChunks_loop fuel c current 0.

(** The [for] loop of [readChunks]. *)
Fixpoint readChunks_loop (fuel : nat) (c : chunkCrypto) (current : bytes) (index : Z) : io unit :=
  match fuel with
  | O => fail OutOfFuel
  | S fuel =>
      nextLen ← readLenPrefix;
      let isFinal := match nextLen with None => true | Some _ => false end in
      if decide (len current < TagLen) then fail ErrAuthFailed else
      let ptLen := len current - TagLen in
      let aad := chunk_aad c index isFinal ptLen in
      let nonce := chunkNonce index in
      plaintext ← lift (aeadOpen (cc_chunkAEAD c) (cc_messageKey c) nonce current aad);
      if decide (isFinal = false /\ ptLen <> cc_chunkSize c) then fail ErrAuthFailed else
      dst_Write plaintext;;
      match nextLen with
      | None => mret ()
      | Some nextLen =>
          let index := wrapu 64 (index + 1) in
          current ← readRecord nextLen (cc_chunkSize c + TagLen);
          readChunks_loop fuel c current index
      end
  end.

Definition readChunks (fuel : nat) (c : chunkCrypto) : io unit :=
  firstLen ← readLenPrefix;
  match firstLen with
  | None => fail ErrTruncated
  | Some firstLen =>
      current ← readRecord firstLen (cc_chunkSize c + TagLen);
      readChunks_loop fuel c current 0
  end.
End chunks.

(** ** Reading helpers on a conforming reader *)

(** [w] with its source replaced, and with [p] appended to its destination:
    the only ways the chunk loops change the world. *)
Definition set_src {X : Type} {P : Platform X} (w : world P) (r : R) : world P :=
  World r (w_dst w) (w_rng w) (w_secrets w) (w_ext w).
Definition set_dst {X : Type} {P : Platform X} (w : world P) (d : W) : world P :=
  World (w_src w) d (w_rng w) (w_secrets w) (w_ext w).

Section reading.
Context {X : Type} {P : Platform X}.

(** The fuel of [readFull] covers every reader, conforming or not. *)
Lemma readFull_loop_fuel fuel want r :
  (want <= fuel)%nat -> readFull_loop fuel want r = readFull_loop want want r.
Proof.
  revert fuel r. induction want as [want IH] using lt_wf_ind. intros fuel r Hf.
  destruct want as [|want]; [by destruct fuel|]. destruct fuel as [|fuel]; [lia|].
  cbn [readFull_loop]. destruct (Read r (S want)) as [[d e] r'].
  destruct e; [done|]. case_decide as Hd; [done|].
  assert (0 < length d)%nat by (destruct d; [done|simpl; lia]).
  by rewrite (IH (S want - length d)%nat ltac:(lia) fuel),
    (IH (S want - length d)%nat ltac:(lia) want) by lia.
Qed.

Lemma readFull_loop_no_fuel_error want r d r' :
  (forall r n, (Read r n).1.2 <> Some OutOfFuel) ->
  readFull_loop want want r <> (d, Some OutOfFuel, r').
Proof.
  intros Hr. revert r d r'. induction want as [want IH] using lt_wf_ind. intros r d r'.
  destruct want as [|want]; [done|]. cbn [readFull_loop].
  pose proof (Hr r (S want)) as Hrd.
  destruct (Read r (S want)) as [[b e] r1]. simpl in Hrd.
  destruct e as [e|]; [case_decide; naive_solver|].
  case_decide as Hb; [done|].
  assert (0 < length b)%nat by (destruct b; [done|simpl; lia]).
  rewrite readFull_loop_fuel by lia.
  destruct (readFull_loop _ _ r1) as [[d2 e2] r2] eqn:E. intros [= <- -> ->].
  by apply IH in E; [|lia].
Qed.

Lemma readFull_loop_delivers want r bs :
  delivers r bs ->
  exists r', readFull_loop want want r = (take want bs, None, r') /\ delivers r' (drop want bs).
Proof.
  revert r bs. induction want as [want IH] using lt_wf_ind. intros r bs Hd.
  destruct want as [|want]; [exists r; by rewrite drop_0|].
  destruct (delivers_step r bs (S want) Hd ltac:(lia))
    as (d & rest & e & r' & HR & -> & Hlen & Hd' & He).
  cbn [readFull_loop]. rewrite HR.
  destruct He as [[-> Hne]|[-> ->]].
  - rewrite decide_False by done.
    assert (0 < length d)%nat by (destruct d; [done|simpl; lia]).
    rewrite readFull_loop_fuel by lia.
    destruct (IH (S want - length d)%nat ltac:(lia) r' rest Hd') as (r2 & -> & Hd2).
    exists r2. rewrite take_app_ge, drop_app_ge by lia. auto.
  - rewrite decide_True by done. exists r'. rewrite app_nil_r.
    rewrite take_ge, drop_ge by lia. auto.
Qed.

Lemma readFull_delivers n w bs : 0 <= n ->
  delivers (w_src w) bs ->
  exists r', readFull n w = (Ok (take (Z.to_nat n) bs), set_src w r') /\
    delivers r' (drop (Z.to_nat n) bs).
Proof.
  intros Hn Hd. unfold readFull.
  destruct (readFull_loop_delivers (Z.to_nat n) _ _ Hd) as (r' & -> & Hd'). eauto.
Qed.

(** What [readLenPrefix] finds in front of [bs]. *)
Definition len_prefix (bs : bytes) : result error (option Z) :=
  if decide (bs = []) then Ok None
  else if decide (len bs < 4) then Err ErrTruncated
  else Ok (Some (be_get (take 4 bs))).

Lemma readLenPrefix_delivers w bs :
  delivers (w_src w) bs ->
  exists r', readLenPrefix w = (len_prefix bs, set_src w r') /\ delivers r' (drop 4 bs).
Proof.
  intros Hd. unfold readLenPrefix.
  destruct (readFull_delivers 4 w bs ltac:(lia) Hd) as (r' & E & Hd'). io_run E.
  change (Z.to_nat 4) with 4%nat in *. exists r'. split; [|done].
  unfold len_prefix, mret, io_ret, fail, len. rewrite length_take.
  destruct (decide (bs = [])) as [->|Hne]; [done|].
  assert (0 < length bs)%nat by (destruct bs; [done|simpl; lia]).
  repeat case_decide; first [done | lia].
Qed.

(** What [readRecord] finds for a length prefix [n]. *)
Definition record_at (n maxRecord : Z) (bs : bytes) : result error bytes :=
  if decide (n > maxRecord) then Err ErrChunkTooLarge
  else if decide (len bs < n) then Err ErrTruncated
  else Ok (take (Z.to_nat n) bs).

Lemma readRecord_delivers n m w bs : 0 <= n ->
  delivers (w_src w) bs ->
  exists r', readRecord n m w = (record_at n m bs, set_src w r') /\
    (n <= m -> delivers r' (drop (Z.to_nat n) bs)).
Proof.
  intros Hn Hd. unfold readRecord, record_at.
  case_decide.
  { exists (w_src w). split; [by destruct w|lia]. }
  unfold readRecordExact.
  destruct (readFull_delivers n w bs Hn Hd) as (r' & E & Hd'). io_run E.
  exists r'. split; [|done]. unfold mret, io_ret, fail, len. rewrite length_take.
  repeat case_decide; first [done | lia].
Qed.
End reading.

Section writing.
Context {X : Type} {P : Platform X} {PL : PlatformLaws P}.

Lemma dst_Write_reliable w p :
  reliable (w_dst w) ->
  exists d', dst_Write p w = (Ok (), set_dst w d') /\ reliable d' /\
    written d' = written (w_dst w) ++ p.
Proof.
  intros Hr. destruct (reliable_step _ p Hr) as (d' & E & Hr' & Hw).
  exists d'. unfold dst_Write. by rewrite E.
Qed.

(** Any writer: what reaches it is a prefix of [p], all of it on success. *)
Lemma dst_Write_any w p :
  exists r d' q, dst_Write p w = (r, set_dst w d') /\
    written d' = written (w_dst w) ++ q /\ q `prefix_of` p /\ (r = Ok () -> q = p).
Proof.
  unfold dst_Write. destruct (Write (w_dst w) p) as [e d'] eqn:E.
  destruct (Write_contract _ _ _ _ E) as (q & Hw & Hp & Hq).
  eexists _, d', q. split; [done|]. repeat split; auto. destruct e; naive_solver.
Qed.
End writing.
