(* ===== verification/ChunkSpec.v ===== *)
(** The specification of the chunk loops of [stream.go] and the proof that
    [writeChunks] and [readChunks] meet it: what a container's record part is,
    as a function of the payload; that the writer produces it; that the reader
    accepts exactly the well-framed sequences of records that open; that what
    it releases is a prefix of what an honest sender sealed. *)

From S2P Require Import Prelude GoError IO Crypto Format Chunks.

(** ** The reference definitions *)

(** [chunking n cs bs]: [cs] is [bs] cut into chunks of [n] bytes, the last one
    of at most [n], and empty only for the empty payload. *)
Inductive chunking (n : nat) : list bytes -> bytes -> Prop :=
| chunking_last pt : (length pt <= n)%nat -> chunking n [pt] pt
| chunking_more c cs bs :
    length c = n -> bs <> [] -> chunking n cs bs -> chunking n (c :: cs) (c ++ bs).

(** One record on the wire, and the record part of a container. *)
Definition frame_record (r : bytes) : bytes := be_put 4 (len r) ++ r.
Definition frame (recs : list bytes) : bytes := concat (map frame_record recs).

Section spec.
Context {X : Type} {P : Platform X} {C : Crypto}.

(** The records of the chunks [cs], the first of which has index [i]. *)
Fixpoint seal_records (a : AEAD) (c : chunkCrypto) (i : Z) (cs : list bytes) : list bytes :=
  match cs with
  | [] => []
  | pt :: cs =>
      Seal a (chunkNonce i) pt (chunk_aad c i (bool_decide (cs = [])) (len pt))
      :: seal_records a c (wrapu 64 (i + 1)) cs
  end.

(** [c]'s AEAD opens [rec] as chunk [i], final or not, to [pt]. *)
Definition opens_as (c : chunkCrypto) (i : Z) (isFinal : bool) (rec pt : bytes) : Prop :=
  aeadOpen (cc_chunkAEAD c) (cc_messageKey c) (chunkNonce i) rec
    (chunk_aad c i isFinal (len rec - TagLen)) = Ok pt.

(** The record sequences a reader of the format accepts from index [i], with
    the payload they carry. *)
Inductive opens (c : chunkCrypto) : Z -> list bytes -> bytes -> Prop :=
| opens_last i rec pt :
    TagLen <= len rec <= cc_chunkSize c + TagLen ->
    opens_as c i true rec pt -> opens c i [rec] pt
| opens_more i rec pt recs out :
    len rec = cc_chunkSize c + TagLen ->
    opens_as c i false rec pt -> opens c (wrapu 64 (i + 1)) recs out ->
    opens c i (rec :: recs) (pt ++ out).

(** The records the framing of [bs] exposes to a reader, up to the first
    malformed one. *)
Fixpoint records_fuel (fuel : nat) (maxRecord : Z) (bs : bytes) : list bytes :=
  match fuel with
  | O => []
  | S fuel =>
      match len_prefix bs with
      | Ok (Some n) =>
          match record_at n maxRecord (drop 4 bs) with
          | Ok rec => rec :: records_fuel fuel maxRecord (drop (Z.to_nat n) (drop 4 bs))
          | Err _ => []
          end
      | _ => []
      end
  end.

Definition records (maxRecord : Z) (bs : bytes) : list bytes :=
  records_fuel (length bs) maxRecord bs.

(** A sender's stream: its crypto context and its chunks. *)
Definition session : Type := chunkCrypto * list bytes.

(** [s] sealed the plaintext [pt] under [nonce] and [aad]. *)
Definition sealed_by (s : session) (nonce aad pt : bytes) : Prop :=
  exists j : nat, s.2 !! j = Some pt /\ nonce = chunkNonce (wrapu 64 (Z.of_nat j)) /\
    aad = chunk_aad s.1 (wrapu 64 (Z.of_nat j)) (bool_decide (S j = length s.2)) (len pt).

(** No record of [input] opens under [c]'s key, at the place where it stands,
    unless one of [sessions] sealed that plaintext under that nonce and that
    additional data: the AEAD's integrity, for the attempts a reader of
    [input] can make. *)
Definition unforged (c : chunkCrypto) (sessions : list session) (input : bytes) : Prop :=
  forall i rec isFinal pt,
    records (cc_chunkSize c + TagLen) input !! i = Some rec ->
    opens_as c (wrapu 64 (Z.of_nat i)) isFinal rec pt ->
    exists s, s ∈ sessions /\
      sealed_by s (chunkNonce (wrapu 64 (Z.of_nat i)))
        (chunk_aad c (wrapu 64 (Z.of_nat i)) isFinal (len rec - TagLen)) pt.
End spec.

(** A context whose fields are in range. *)
Record context_wf (c : chunkCrypto) : Prop := {
  wf_cc_chunkSize : 1 <= cc_chunkSize c <= MaxChunkSize;
  wf_cc_streamID : length (cc_streamID c) = 16%nat;
}.

(** A session of the format: a well-formed context and the chunking of a payload. *)
Definition session_wf (s : session) : Prop :=
  context_wf s.1 /\ len s.2 < 2 ^ 64 /\
  exists pt, chunking (Z.to_nat (cc_chunkSize s.1)) s.2 pt.

(** ** Chunkings *)

Lemma chunking_exists n bs : (0 < n)%nat -> exists cs, chunking n cs bs /\ (length cs <= S (length bs))%nat.
Proof.
  intros Hn. induction bs as [bs IH] using (induction_ltof1 _ (@length _)); unfold ltof in IH.
  destruct (decide (length bs <= n)%nat) as [Hle|Hgt].
  - exists [bs]. split; [by constructor|simpl; lia].
  - destruct (IH (drop n bs)) as (cs & Hcs & Hl); [rewrite length_drop; lia|].
    rewrite length_drop in Hl. exists (take n bs :: cs). split; [|simpl; lia].
    rewrite <-(take_drop n bs) at 2. constructor; auto.
    + rewrite length_take. lia.
    + intros E. apply (f_equal length) in E. rewrite length_drop in E. simpl in E. lia.
Qed.

Lemma chunking_concat n cs bs : chunking n cs bs -> concat cs = bs.
Proof. induction 1; simpl; [by rewrite app_nil_r|congruence]. Qed.

Lemma chunking_take_drop n cs bs : chunking n cs bs ->
  (cs = [bs] /\ (length bs <= n)%nat) \/
  exists cs', cs = take n bs :: cs' /\ length (take n bs) = n /\ drop n bs <> [] /\
    chunking n cs' (drop n bs).
Proof.
  intros [pt Hp|c cs' bs' Hc Hne Hch]; [by left|right].
  exists cs'. rewrite take_app_length', drop_app_length' by done. auto.
Qed.

Lemma chunking_not_nil n cs bs : chunking n cs bs -> cs <> [].
Proof. by destruct 1. Qed.

Lemma chunking_unique n cs1 cs2 bs : (0 < n)%nat ->
  chunking n cs1 bs -> chunking n cs2 bs -> cs1 = cs2.
Proof.
  intros Hn H1. revert cs2. induction H1 as [pt Hl|c cs bs Hl Hne H1 IH]; intros cs2 H2;
    apply chunking_take_drop in H2 as [[-> Hl2]|(cs' & -> & Hl2 & Hne2 & H2)]; try done.
  - by rewrite drop_ge in Hne2.
  - exfalso. rewrite length_app in Hl2. destruct bs; [done|simpl in Hl2; lia].
  - rewrite take_app_length', drop_app_length' in * by done. f_equal. auto.
Qed.

(** The head chunk, and the look-ahead that tells whether it is the last one. *)
Lemma chunking_step n pt cs bs : (0 < n)%nat -> chunking n (pt :: cs) bs ->
  pt = take n bs /\
  bool_decide (len (take n (drop n bs)) = 0) = bool_decide (cs = []).
Proof.
  intros Hn Hch.
  apply chunking_take_drop in Hch as [[[= -> ->] Hl]|(cs' & [= -> ->] & Hl & Hne & Hch)].
  - by rewrite take_ge, drop_ge, take_nil by done.
  - split; [done|]. apply chunking_not_nil in Hch.
    rewrite !bool_decide_eq_false_2; [done|done|]. unfold len. rewrite length_take.
    assert (0 < length (drop n bs))%nat by (destruct (drop n bs); [done|simpl; lia]). lia.
Qed.

Lemma chunking_lengths n cs bs : chunking n cs bs ->
  Forall (fun pt => (length pt <= n)%nat) cs.
Proof. induction 1; repeat constructor; auto; lia. Qed.

(** ** Framing *)

Lemma frame_nil : frame [] = [].
Proof. reflexivity. Qed.

Lemma frame_cons r recs : frame (r :: recs) = be_put 4 (len r) ++ r ++ frame recs.
Proof. unfold frame. cbn [map concat]. unfold frame_record at 1. by rewrite <-app_assoc. Qed.

Lemma len_prefix_frame r recs : len r < 2 ^ 32 ->
  len_prefix (frame (r :: recs)) = Ok (Some (len r)).
Proof.
  intros Hr. rewrite frame_cons. unfold len_prefix.
  rewrite decide_False by (intros E; apply (f_equal length) in E;
    rewrite !length_app, length_be_put in E; simpl in E; lia).
  rewrite decide_False by (unfold len; rewrite !length_app, length_be_put; lia).
  rewrite take_be_put.
  rewrite be_get_put; [done|]. pose proof (len_nonneg r). simpl. lia.
Qed.

Lemma drop4_frame r recs : drop 4 (frame (r :: recs)) = r ++ frame recs.
Proof. rewrite frame_cons. apply drop_be_put. Qed.

Lemma record_at_app r rest m : len r <= m -> record_at (len r) m (r ++ rest) = Ok r.
Proof.
  intros H. unfold record_at. rewrite decide_False by lia.
  rewrite decide_False by len_solve. unfold len. rewrite Nat2Z.id.
  by rewrite take_app_length.
Qed.

(** A length prefix and the record it announces, read back as a frame. *)
Lemma frame_inv bs n m rec :
  len_prefix bs = Ok (Some n) -> record_at n m (drop 4 bs) = Ok rec ->
  0 <= n <= m /\ len rec = n /\
  bs = be_put 4 (len rec) ++ rec ++ drop (Z.to_nat n) (drop 4 bs).
Proof.
  unfold len_prefix, record_at. repeat case_decide; try done.
  intros [= Hn] [= <-].
  pose proof (be_get_bound (take 4 bs)) as Hb. unfold len in *.
  assert (length (take 4 bs) = 4%nat) as H4 by (rewrite length_take; lia).
  rewrite length_drop in *. rewrite length_take, length_drop.
  split; [lia|]. split; [lia|].
  rewrite (take_drop (Z.to_nat n)).
  replace (Z.of_nat (Z.to_nat n `min` (length bs - 4))) with n by lia.
  rewrite <-Hn, be_put_get by done. by rewrite take_drop.
Qed.

(** ** Writing *)

Section write.
Context {X : Type} {P : Platform X} {PL : PlatformLaws P} {C : Crypto}.

Lemma seal_records_length a c i cs : length (seal_records a c i cs) = length cs.
Proof. revert i. induction cs; simpl; auto. Qed.

Lemma writeChunks_loop_ok fuel c a cs bs i w :
  newAEAD (cc_chunkAEAD c) (cc_messageKey c) = Ok a ->
  1 <= cc_chunkSize c ->
  chunking (Z.to_nat (cc_chunkSize c)) cs bs ->
  (length cs <= fuel)%nat ->
  delivers (w_src w) (drop (Z.to_nat (cc_chunkSize c)) bs) ->
  reliable (w_dst w) ->
  exists r d, writeChunks_loop fuel c (take (Z.to_nat (cc_chunkSize c)) bs) i w =
      (Ok (), set_dst (set_src w r) d) /\ reliable d /\
    written d = written (w_dst w) ++ frame (seal_records a c i cs).
Proof.
  intros Ha Hcs. set (n := Z.to_nat (cc_chunkSize c)).
  revert fuel bs i w. induction cs as [|pt cs IH]; intros fuel bs i w Hch Hf Hr Hd.
  { by apply chunking_not_nil in Hch. }
  destruct fuel as [|fuel]; [simpl in Hf; lia|]. cbn [writeChunks_loop].
  destruct (readFull_delivers (cc_chunkSize c) w _ ltac:(lia) Hr) as (r & E & Hr').
  io_run E. fold n in Hr' |- *. cbv zeta.
  set (fin := bool_decide (len (take n (drop n bs)) = 0)).
  assert (pt = take n bs /\ fin = bool_decide (cs = [])) as [-> Hfin].
  { apply chunking_step; [lia|done]. }
  unfold aeadSeal. rewrite Ha. cbn [mbind result_bind]. rewrite io_lift_Ok.
  set (rec := Seal a _ _ _).
  destruct (dst_Write_reliable (set_src w r) (be_put 4 (len rec)) Hd) as (d1 & E1 & Hd1 & W1).
  destruct (dst_Write_reliable (set_dst (set_src w r) d1) rec Hd1) as (d2 & E2 & Hd2 & W2).
  io_run E1. io_run E2. cbn in W1, W2.
  assert (Hout : frame (seal_records a c i (take n bs :: cs)) =
    be_put 4 (len rec) ++ rec ++ frame (seal_records a c (wrapu 64 (i + 1)) cs)).
  { cbn [seal_records]. rewrite frame_cons. unfold rec. by rewrite Hfin. }
  apply chunking_take_drop in Hch as [[[= _ ->] Hl]|(cs' & [= ->] & Hl & Hne & Hch)].
  - rewrite Hfin, bool_decide_eq_true_2 by done. exists r, d2. split; [done|].
    split; [done|]. rewrite Hout, W2, W1. cbn [seal_records]. by rewrite frame_nil, app_nil_r, <-!app_assoc.
  - rewrite Hfin, bool_decide_eq_false_2 by (by apply chunking_not_nil in Hch).
    destruct (IH fuel (drop n bs) (wrapu 64 (i + 1))
        (set_dst (set_dst (set_src w r) d1) d2))
      as (r3 & d3 & E3 & Hd3 & W3); auto; [simpl in Hf; lia|].
    exists r3, d3. rewrite E3. split; [done|]. split; [done|].
    rewrite W3, Hout. cbn [set_dst w_dst]. by rewrite W2, W1, <-!app_assoc.
Qed.

Lemma writeChunks_ok fuel header c a cs bs w :
  newAEAD (cc_chunkAEAD c) (cc_messageKey c) = Ok a ->
  1 <= cc_chunkSize c ->
  chunking (Z.to_nat (cc_chunkSize c)) cs bs ->
  (length cs <= fuel)%nat ->
  delivers (w_src w) bs -> reliable (w_dst w) ->
  exists r d, writeChunks fuel header c w = (Ok (), set_dst (set_src w r) d) /\ reliable d /\
    written d = written (w_dst w) ++ header ++ frame (seal_records a c 0 cs).
Proof.
  intros Ha Hcs Hch Hf Hr Hd. unfold writeChunks.
  destruct (dst_Write_reliable w header Hd) as (d1 & E1 & Hd1 & W1). io_run E1.
  destruct (readFull_delivers (cc_chunkSize c) (set_dst w d1) bs ltac:(lia) Hr)
    as (r2 & E2 & Hr2). io_run E2.
  destruct (writeChunks_loop_ok fuel c a cs bs 0 (set_src (set_dst w d1) r2))
    as (r3 & d3 & E3 & Hd3 & W3); auto.
  exists r3, d3. rewrite E3. split; [done|]. split; [done|].
  rewrite W3. cbn [set_src set_dst w_dst]. by rewrite W1, <-app_assoc.
Qed.
End write.

(** ** Reading *)

Section read.
Context {X : Type} {P : Platform X} {PL : PlatformLaws P} {C : Crypto}.

Lemma len_prefix_nil : len_prefix [] = Ok None.
Proof. reflexivity. Qed.

Lemma opens_record_bound c i rec recs out :
  opens c i (rec :: recs) out -> TagLen <= len rec <= cc_chunkSize c + TagLen \/
    len rec = cc_chunkSize c + TagLen.
Proof. inversion 1; subst; auto. Qed.

Lemma readChunks_loop_complete fuel c rec recs out i w :
  1 <= cc_chunkSize c <= MaxChunkSize ->
  opens c i (rec :: recs) out ->
  (length (rec :: recs) <= fuel)%nat ->
  delivers (w_src w) (frame recs) -> reliable (w_dst w) ->
  exists r d, readChunks_loop fuel c rec i w = (Ok (), set_dst (set_src w r) d) /\
    reliable d /\ written d = written (w_dst w) ++ out.
Proof.
  intros Hcs. unfold MaxChunkSize in Hcs. revert fuel rec i out w.
  induction recs as [|rec' recs IH]; intros fuel rec i out w Ho Hf Hr Hd;
    (destruct fuel as [|fuel]; [simpl in Hf; lia|]); cbn [readChunks_loop];
    destruct (readLenPrefix_delivers w _ Hr) as (r1 & E1 & Hr1).
  - rewrite frame_nil, len_prefix_nil in E1. io_run E1.
    inversion Ho as [? ? ? Hlen Hopen|? ? ? ? ? ? ? Hrest]; subst; [|inversion Hrest].
    rewrite decide_False by (unfold TagLen in *; lia). cbv zeta.
    red in Hopen. rewrite Hopen, io_lift_Ok, decide_False by naive_solver.
    destruct (dst_Write_reliable (set_src w r1) out Hd) as (d2 & E2 & Hd2 & W2). io_run E2.
    exists r1, d2. auto.
  - inversion Ho as [|? ? pt ? out' Hlen Hopen Hrest]; subst.
    pose proof (opens_record_bound _ _ _ _ _ Hrest) as Hb. unfold TagLen in *.
    rewrite len_prefix_frame in E1 by lia. io_run E1. cbv zeta.
    rewrite decide_False by (unfold TagLen in *; lia).
    red in Hopen. unfold TagLen in *. rewrite Hopen, io_lift_Ok, decide_False by lia.
    destruct (dst_Write_reliable (set_src w r1) pt Hd) as (d2 & E2 & Hd2 & W2). io_run E2.
    rewrite drop4_frame in Hr1.
    destruct (readRecord_delivers (len rec') (cc_chunkSize c + 16)
      (set_dst (set_src w r1) d2) _ (len_nonneg _) Hr1) as (r3 & E3 & Hr3).
    rewrite record_at_app in E3 by lia. io_run E3.
    specialize (Hr3 ltac:(lia)). unfold len in Hr3. rewrite Nat2Z.id, drop_app_length in Hr3.
    destruct (IH fuel rec' _ out' (set_src (set_dst (set_src w r1) d2) r3) Hrest)
      as (r4 & d4 & E4 & Hd4 & W4); auto; [simpl in *; lia|].
    exists r4, d4. rewrite E4. split; [done|]. split; [done|]. rewrite W4.
    cbn [set_src set_dst w_dst]. by rewrite W2, <-app_assoc.
Qed.

Lemma readChunks_complete fuel c recs out w :
  1 <= cc_chunkSize c <= MaxChunkSize ->
  opens c 0 recs out -> (length recs <= fuel)%nat ->
  delivers (w_src w) (frame recs) -> reliable (w_dst w) ->
  exists r d, readChunks fuel c w = (Ok (), set_dst (set_src w r) d) /\
    reliable d /\ written d = written (w_dst w) ++ out.
Proof.
  intros Hcs Ho Hf Hr Hd. unfold readChunks.
  destruct recs as [|rec recs]; [inversion Ho|].
  pose proof (opens_record_bound _ _ _ _ _ Ho) as Hb.
  unfold TagLen, MaxChunkSize in *.
  destruct (readLenPrefix_delivers w _ Hr) as (r1 & E1 & Hr1).
  rewrite len_prefix_frame in E1 by lia. io_run E1. rewrite drop4_frame in Hr1.
  destruct (readRecord_delivers (len rec) (cc_chunkSize c + 16)
    (set_src w r1) _ (len_nonneg _) Hr1) as (r2 & E2 & Hr2).
  rewrite record_at_app in E2 by lia. unfold TagLen. io_run E2.
  specialize (Hr2 ltac:(lia)). unfold len in Hr2. rewrite Nat2Z.id, drop_app_length in Hr2.
  destruct (readChunks_loop_complete fuel c rec recs out 0 (set_src (set_src w r1) r2))
    as (r3 & d3 & E3 & H3); auto.
  exists r3, d3. by rewrite E3.
Qed.

(** A step of the reading loop on a conforming reader and any writer: either
    it ends, or it goes on with the next record; [pt] is what it released. *)
Lemma readChunks_loop_sound fuel c rec i w w' rest :
  delivers (w_src w) rest -> len rec <= cc_chunkSize c + TagLen ->
  readChunks_loop fuel c rec i w = (Ok (), w') ->
  exists recs out, rest = frame recs /\ opens c i (rec :: recs) out /\
    written (w_dst w') = written (w_dst w) ++ out.
Proof.
  revert rec i w rest. induction fuel as [|fuel IH]; intros rec i w rest Hr Hb E; [done|].
  cbn [readChunks_loop] in E.
  destruct (readLenPrefix_delivers w _ Hr) as (r1 & E1 & Hr1).
  io_inv E as [(np & w1 & EA & E)|(e & _ & [=])]. rewrite E1 in EA. injection EA as En <-.
  case_decide as Ht; [done|].
  io_inv E as [(pt & w2 & EB & E)|(e & _ & [=])]. unfold lift in EB. injection EB as Hopen <-.
  case_decide as Hfin; [done|].
  io_inv E as [(u & w3 & EC & E)|(e & _ & [=])].
  destruct (dst_Write_any (set_src w r1) pt) as (rr & d & q & Ew & Hw & _ & Hq).
  rewrite Ew in EC. injection EC as -> <-. destruct u. rewrite (Hq eq_refl) in Hw.
  destruct np as [n|].
  - io_inv E as [(rec' & w4 & ED & E)|(e & _ & [=])].
    assert (0 <= n) as Hn.
    { unfold len_prefix in En. repeat case_decide; simplify_eq. apply be_get_bound. }
    destruct (readRecord_delivers n (cc_chunkSize c + TagLen) (set_dst (set_src w r1) d)
      _ Hn Hr1) as (r2 & E2 & Hr2). rewrite E2 in ED. injection ED as Hrec <-.
    destruct (frame_inv _ _ _ _ En Hrec) as (Hnm & Hrn & Hrest).
    eapply IH in E as (recs & out & Hf & Ho & W); [|apply Hr2; lia|lia].
    exists (rec' :: recs), (pt ++ out). rewrite frame_cons, <-Hf. split; [done|].
    split; [|rewrite W; cbn [set_src set_dst w_dst] in *; by rewrite Hw, <-app_assoc].
    constructor; auto. destruct (decide (len rec - TagLen = cc_chunkSize c)); [lia|].
    by destruct Hfin.
  - injection E as <-. exists [], pt. unfold len_prefix in En.
    repeat case_decide; simplify_eq. split; [done|]. split; [|exact Hw].
    constructor; [lia|done].
Qed.

Lemma readChunks_sound fuel c w w' input :
  delivers (w_src w) input ->
  readChunks fuel c w = (Ok (), w') ->
  exists recs out, input = frame recs /\ opens c 0 recs out /\
    written (w_dst w') = written (w_dst w) ++ out.
Proof.
  intros Hr E. unfold readChunks in E.
  destruct (readLenPrefix_delivers w _ Hr) as (r1 & E1 & Hr1).
  io_inv E as [(np & w1 & EA & E)|(e & _ & [=])]. rewrite E1 in EA. injection EA as En <-.
  destruct np as [n|]; [|done].
  io_inv E as [(rec & w4 & ED & E)|(e & _ & [=])].
  assert (0 <= n) as Hn.
  { unfold len_prefix in En. repeat case_decide; simplify_eq. apply be_get_bound. }
  destruct (readRecord_delivers n (cc_chunkSize c + TagLen) (set_src w r1) _ Hn Hr1)
    as (r2 & E2 & Hr2). rewrite E2 in ED. injection ED as Hrec <-.
  destruct (frame_inv _ _ _ _ En Hrec) as (Hnm & Hrn & Hrest).
  eapply readChunks_loop_sound in E as (recs & out & Hf & Ho & W); [|apply Hr2; lia|lia].
  exists (rec :: recs), out. by rewrite frame_cons, <-Hf.
Qed.
End read.

(** ** Sealed records open again *)

Lemma wrapu_succ k : wrapu 64 (wrapu 64 (Z.of_nat k) + 1) = wrapu 64 (Z.of_nat (S k)).
Proof. unfold wrapu. rewrite Zplus_mod_idemp_l. f_equal. lia. Qed.

Section roundtrip.
Context {C : Crypto} {CL : CryptoLaws C}.

Lemma seal_opens_as c a i f pt :
  newAEAD (cc_chunkAEAD c) (cc_messageKey c) = Ok a ->
  opens_as c i f (Seal a (chunkNonce i) pt (chunk_aad c i f (len pt))) pt.
Proof.
  intros Ha. red. unfold aeadOpen. rewrite Ha.
  replace (len _ - TagLen) with (len pt).
  - by rewrite Open_Seal by apply length_chunkNonce.
  - unfold len. rewrite Seal_length by apply length_chunkNonce. unfold TagLen. lia.
Qed.

Lemma seal_records_open c a cs bs i :
  newAEAD (cc_chunkAEAD c) (cc_messageKey c) = Ok a ->
  1 <= cc_chunkSize c ->
  chunking (Z.to_nat (cc_chunkSize c)) cs bs ->
  opens c i (seal_records a c i cs) bs.
Proof.
  intros Ha Hc Hch. revert i. induction Hch as [pt Hl|ch cs bs Hl Hne Hch IH]; intros i;
    cbn [seal_records].
  - rewrite bool_decide_eq_true_2 by done.
    apply opens_last; [|by apply seal_opens_as].
    unfold len. rewrite Seal_length by apply length_chunkNonce. unfold TagLen. lia.
  - rewrite bool_decide_eq_false_2 by (by apply chunking_not_nil in Hch).
    apply opens_more; [|by apply seal_opens_as|done].
    unfold len. rewrite Seal_length by apply length_chunkNonce. unfold TagLen. lia.
Qed.
End roundtrip.

(** ** The framing of an input *)

Section frames.
Lemma records_fuel_enough fuel m bs : (length bs <= fuel)%nat ->
  records_fuel fuel m bs = records m bs.
Proof.
  unfold records. remember (length bs) as n eqn:Hn.
  revert fuel bs Hn. induction n as [n IH] using lt_wf_ind. intros fuel bs -> Hf.
  assert (forall f, (length bs <= f)%nat -> records_fuel f m bs =
    match len_prefix bs with
    | Ok (Some n) => match record_at n m (drop 4 bs) with
        | Ok rec => rec :: records m (drop (Z.to_nat n) (drop 4 bs))
        | Err _ => [] end
    | _ => [] end) as Hstep.
  { intros f Hlf. destruct f as [|f].
    { destruct bs; [done|simpl in Hlf; lia]. }
    cbn [records_fuel]. destruct (len_prefix bs) as [[x|]|] eqn:E; try done.
    destruct (record_at _ _ _) as [rec|] eqn:Er; [|done]. f_equal.
    assert (length bs <> 0)%nat by (intros H0; destruct bs; simpl in *; done).
    unfold len_prefix in E. repeat case_decide; simplify_eq. unfold len in *.
    unfold records. set (bs' := drop _ (drop 4 bs)).
    assert (length bs' < length bs)%nat as Hlt by (unfold bs'; rewrite !length_drop; lia).
    apply (IH (length bs') Hlt f bs' eq_refl). lia. }
  by rewrite !Hstep by lia.
Qed.

Lemma records_nil m : records m [] = [].
Proof. reflexivity. Qed.

Lemma records_step m bs n rec :
  len_prefix bs = Ok (Some n) -> record_at n m (drop 4 bs) = Ok rec ->
  records m bs = rec :: records m (drop (Z.to_nat n) (drop 4 bs)).
Proof.
  intros E1 E2. rewrite <-(records_fuel_enough (S (length bs)) m bs) by lia. cbn [records_fuel].
  rewrite E1, E2. f_equal. apply records_fuel_enough. rewrite !length_drop. lia.
Qed.
End frames.

(** ** Termination and authenticity of the reader *)

Section read_safe.
Context {X : Type} {P : Platform X} {PL : PlatformLaws P} {C : Crypto}.

(** The prefix-and-record step shared by the two places that read a record. *)
Lemma next_record_delivers n m w bs :
  len_prefix bs = Ok (Some n) -> delivers (w_src w) (drop 4 bs) ->
  exists r', readRecord n m w = (record_at n m (drop 4 bs), set_src w r') /\
    forall rec, record_at n m (drop 4 bs) = Ok rec ->
      len rec <= m /\ delivers r' (drop (Z.to_nat n) (drop 4 bs)) /\
      records m bs = rec :: records m (drop (Z.to_nat n) (drop 4 bs)) /\
      (length (drop (Z.to_nat n) (drop 4 bs)) < length bs)%nat.
Proof.
  intros En Hr. assert (0 <= n /\ (0 < length bs)%nat) as [Hn Hl].
  { unfold len_prefix in En. repeat case_decide; simplify_eq. split; [apply be_get_bound|].
    destruct bs; [done|simpl; lia]. }
  destruct (readRecord_delivers n m w _ Hn Hr) as (r' & E & Hr').
  exists r'. split; [done|]. intros rec Hrec.
  destruct (frame_inv _ _ _ _ En Hrec) as (Hnm & Hrn & _).
  split; [lia|]. split; [apply Hr'; lia|]. split; [by apply records_step|].
  rewrite !length_drop. lia.
Qed.

Lemma readChunks_loop_terminates fuel c rec i w w' rest :
  delivers (w_src w) rest -> reliable (w_dst w) -> (length rest < fuel)%nat ->
  readChunks_loop fuel c rec i w <> (Err OutOfFuel, w').
Proof.
  revert rec i w rest. induction fuel as [|fuel IH]; intros rec i w rest Hr Hd Hf E; [lia|].
  cbn [readChunks_loop] in E.
  destruct (readLenPrefix_delivers w _ Hr) as (r1 & E1 & Hr1).
  io_inv E as [(np & w1 & EA & E)|(e & EA & [= <-])]; rewrite E1 in EA; injection EA as En <-.
  2: { unfold len_prefix in En. repeat case_decide; done. }
  case_decide as Ht; [done|].
  io_inv E as [(pt & w2 & EB & E)|(e & EB & [= <-])]; unfold lift in EB; injection EB as Hopen <-.
  2: { by apply aeadOpen_err in Hopen. }
  case_decide as Hfin; [done|].
  destruct (dst_Write_reliable (set_src w r1) pt Hd) as (d2 & E2 & Hd2 & _).
  rewrite (io_bind_Ok _ _ _ _ _ E2) in E.
  destruct np as [n|]; [|done].
  destruct (next_record_delivers n (cc_chunkSize c + TagLen) (set_dst (set_src w r1) d2) rest
    En Hr1) as (r3 & E3 & Hr3).
  io_inv E as [(rec' & w4 & ED & E)|(e & ED & [= <-])]; rewrite E3 in ED; injection ED as Hrec <-.
  - destruct (Hr3 _ Hrec) as (_ & Hdel & _ & Hlt). eapply IH in E; eauto. lia.
  - unfold record_at in Hrec. repeat case_decide; done.
Qed.

Lemma readChunks_terminates fuel c w w' input :
  delivers (w_src w) input -> reliable (w_dst w) -> (length input <= fuel)%nat ->
  readChunks fuel c w <> (Err OutOfFuel, w').
Proof.
  intros Hr Hd Hf E. unfold readChunks in E.
  destruct (readLenPrefix_delivers w _ Hr) as (r1 & E1 & Hr1).
  io_inv E as [(np & w1 & EA & E)|(e & EA & [= <-])]; rewrite E1 in EA; injection EA as En <-.
  2: { unfold len_prefix in En. repeat case_decide; done. }
  destruct np as [n|]; [|done].
  destruct (next_record_delivers n (cc_chunkSize c + TagLen) (set_src w r1) input En Hr1)
    as (r3 & E3 & Hr3).
  io_inv E as [(rec' & w4 & ED & E)|(e & ED & [= <-])]; rewrite E3 in ED; injection ED as Hrec <-.
  - destruct (Hr3 _ Hrec) as (_ & Hdel & _ & Hlt).
    eapply readChunks_loop_terminates in E; eauto. lia.
  - unfold record_at in Hrec. repeat case_decide; done.
Qed.

(** The records at and after index [k] only open as the chunks [cs] of one
    sender: then what is released is a prefix of them, and all of them when
    the loop succeeds. *)
Lemma readChunks_loop_safe fuel c rec (k : nat) w res w' rest cs :
  delivers (w_src w) rest ->
  (forall j rc fin pt,
    (rec :: records (cc_chunkSize c + TagLen) rest) !! j = Some rc ->
    opens_as c (wrapu 64 (Z.of_nat (k + j))) fin rc pt ->
    cs !! (k + j)%nat = Some pt /\ fin = bool_decide (S (k + j) = length cs)) ->
  readChunks_loop fuel c rec (wrapu 64 (Z.of_nat k)) w = (res, w') ->
  exists rel, written (w_dst w') = written (w_dst w) ++ rel /\
    rel `prefix_of` concat (drop k cs) /\
    (res = Ok () -> rel = concat (drop k cs) /\ (k < length cs)%nat).
Proof.
  revert rec k w rest. induction fuel as [|fuel IH]; intros rec k w rest Hr Hgood E.
  { injection E as <- <-. exists []. rewrite app_nil_r. split_and!; [done|apply prefix_nil|done]. }
  assert (forall (w0 : world P) (e : error), w_dst w0 = w_dst w -> exists rel,
    written (w_dst w0) = written (w_dst w) ++ rel /\
    rel `prefix_of` concat (drop k cs) /\
    (@Err _ unit e = Ok () -> rel = concat (drop k cs) /\ (k < length cs)%nat)) as Hstop.
  { intros w0 e ->. exists []. rewrite app_nil_r. split_and!; [done|apply prefix_nil|done]. }
  cbn [readChunks_loop] in E.
  destruct (readLenPrefix_delivers w _ Hr) as (r1 & E1 & Hr1).
  io_inv E as [(np & w1 & EA & E)|(e & EA & ->)]; rewrite E1 in EA; injection EA as En <-;
    [|by apply Hstop].
  case_decide as Ht; [injection E as <- <-; by apply Hstop|].
  io_inv E as [(pt & w2 & EB & E)|(e & EB & ->)]; unfold lift in EB; injection EB as Hopen <-;
    [|by apply Hstop].
  case_decide as Hfin; [injection E as <- <-; by apply Hstop|].
  destruct (Hgood 0%nat rec _ pt eq_refl ltac:(rewrite Nat.add_0_r; exact Hopen)) as [Hpt Hf].
  rewrite Nat.add_0_r in Hpt, Hf.
  assert (concat (drop k cs) = pt ++ concat (drop (S k) cs)) as Hcat
    by (by rewrite (drop_S _ _ _ Hpt)).
  assert (k < length cs)%nat as Hk by (by apply lookup_lt_Some in Hpt).
  destruct (dst_Write_any (set_src w r1) pt) as (rr & d & q & Ew & Hw & Hpre & Hq).
  io_inv E as [(u & w3 & EC & E)|(e & EC & ->)]; rewrite Ew in EC; injection EC as -> <-.
  2: { exists q. split; [exact Hw|]. split; [|done]. rewrite Hcat. by apply prefix_app_r. }
  destruct u. rewrite (Hq eq_refl) in Hw. cbn [set_src w_dst] in Hw.
  destruct np as [n|].
  - destruct (next_record_delivers n (cc_chunkSize c + TagLen) (set_dst (set_src w r1) d) rest
      En Hr1) as (r3 & E3 & Hr3).
    io_inv E as [(rec' & w4 & ED & E)|(e & ED & ->)]; rewrite E3 in ED; injection ED as Hrec <-.
    2: { exists pt. split; [exact Hw|]. split; [|done]. rewrite Hcat. by apply prefix_app_r. }
    destruct (Hr3 _ Hrec) as (_ & Hdel & Hrecs & _).
    rewrite wrapu_succ in E. eapply IH in E as (rel & W & Hp & Hok); [|exact Hdel|].
    + exists (pt ++ rel). rewrite W. cbn [set_src set_dst w_dst]. rewrite Hw, <-app_assoc, Hcat.
      split; [done|]. split; [by apply prefix_app|]. intros Hres.
      destruct (Hok Hres) as [-> _]. done.
    + intros j rc fin pt' Hj Ho. rewrite <-Hrecs in Hj.
      replace (S k + j)%nat with (k + S j)%nat in * by lia. by apply (Hgood (S j) rc).
  - injection E as <- <-. exists pt. cbn [set_dst w_dst].
    symmetry in Hf. apply bool_decide_eq_true in Hf.
    rewrite (drop_ge cs (S k)) in Hcat by lia. cbn in Hcat. rewrite app_nil_r in Hcat.
    rewrite Hcat. auto.
Qed.
End read_safe.
