(* ===== verification/Pb.v ===== *)
(** The protobuf messages the client exchanges with the broker
    ([internal/pb/broker.pb.go], [nix_cache.pb.go]) and the RPCs of its stubs
    ([broker_grpc.pb.go], [nix_cache_grpc.pb.go]).  A scalar field is its
    value, an enum its int32, a message pointer or a field with presence
    ([optional]) an option, a [oneof] a sum; fields no client method reads are
    left out. A [[]byte] field without presence is the bytes: on
    the wire, nil and empty are the same. *)

From S2P Require Import Prelude.

(** ** AeadService *)

Record CiphertextEnvelope := mkCiphertextEnvelope {
  CiphertextEnvelope_Alg : Z;
  CiphertextEnvelope_KeyVersion : Z;
  CiphertextEnvelope_Nonce : bytes;
  CiphertextEnvelope_Ciphertext : bytes;
}.

Record KemEnvelope := mkKemEnvelope {
  KemEnvelope_KemAlgorithm : Z;
  KemEnvelope_EnvelopeAlgorithm : Z;
  KemEnvelope_KeyVersion : Z;
  KemEnvelope_EncapsulatedKey : bytes;
  KemEnvelope_Nonce : bytes;
  KemEnvelope_Ciphertext : bytes;
}.

Record EncryptRequest := mkEncryptRequest {
  EncryptRequest_KeyId : bytes;
  EncryptRequest_Algorithm : Z;
  EncryptRequest_Plaintext : bytes;
  EncryptRequest_Aad : option bytes;
}.
Record EncryptResponse := mkEncryptResponse {
  EncryptResponse_Envelope : option CiphertextEnvelope;
}.

Record DecryptRequest := mkDecryptRequest {
  DecryptRequest_KeyId : bytes;
  DecryptRequest_Envelope : option CiphertextEnvelope;
  DecryptRequest_Aad : option bytes;
}.
Record DecryptResponse := mkDecryptResponse { DecryptResponse_Plaintext : bytes }.

Record WrapEnvelopeRequest := mkWrapEnvelopeRequest {
  WrapEnvelopeRequest_KeyId : bytes;
  WrapEnvelopeRequest_KemAlgorithm : Z;
  WrapEnvelopeRequest_EnvelopeAlgorithm : Z;
  WrapEnvelopeRequest_Plaintext : bytes;
  WrapEnvelopeRequest_Aad : option bytes;
}.
Record WrapEnvelopeResponse := mkWrapEnvelopeResponse {
  WrapEnvelopeResponse_Envelope : option KemEnvelope;
}.

Record UnwrapEnvelopeRequest := mkUnwrapEnvelopeRequest {
  UnwrapEnvelopeRequest_KeyId : bytes;
  UnwrapEnvelopeRequest_Envelope : option KemEnvelope;
  UnwrapEnvelopeRequest_Aad : option bytes;
}.
Record UnwrapEnvelopeResponse := mkUnwrapEnvelopeResponse {
  UnwrapEnvelopeResponse_Plaintext : bytes;
}.

Record UnsealCoseRequest := mkUnsealCoseRequest {
  UnsealCoseRequest_KeyId : bytes;
  UnsealCoseRequest_CoseEncrypt : bytes;
  UnsealCoseRequest_ExternalAad : option bytes;
}.
Record UnsealCoseResponse := mkUnsealCoseResponse { UnsealCoseResponse_Plaintext : bytes }.

(** ** SigningService *)

Inductive KeyMaterial_oneof := KeyMaterial_Ed25519Seed (b : bytes) | KeyMaterial_Pkcs8Der (b : bytes).
Record KeyMaterial := mkKeyMaterial { KeyMaterial_Material : option KeyMaterial_oneof }.

Record NewKeyRequest := mkNewKeyRequest {
  NewKeyRequest_KeyId : bytes;
  NewKeyRequest_KeyType : Z;
}.
Record NewKeyResponse := mkNewKeyResponse {
  NewKeyResponse_KeyId : bytes;
  NewKeyResponse_PublicKey : bytes;
}.
Record ImportRequest := mkImportRequest {
  ImportRequest_KeyId : bytes;
  ImportRequest_KeyType : Z;
  ImportRequest_Material : option KeyMaterial;
}.
Record ImportEntry := mkImportEntry {
  ImportEntry_KeyId : bytes;
  ImportEntry_KeyType : Z;
  ImportEntry_Material : option KeyMaterial;
}.
Record ImportSetRequest := mkImportSetRequest { ImportSetRequest_Entries : list ImportEntry }.
Record ImportedKey := mkImportedKey {
  ImportedKey_KeyId : bytes;
  ImportedKey_PublicKey : bytes;
}.
Record ImportSetResponse := mkImportSetResponse { ImportSetResponse_Keys : list ImportedKey }.
Record SignRequest := mkSignRequest {
  SignRequest_KeyId : bytes;
  SignRequest_Message : bytes;
  SignRequest_Algorithm : Z;
}.
Record SignResponse := mkSignResponse { SignResponse_Signature : bytes }.
Record VerifyRequest := mkVerifyRequest {
  VerifyRequest_KeyId : bytes;
  VerifyRequest_Message : bytes;
  VerifyRequest_Signature : bytes;
  VerifyRequest_Algorithm : Z;
}.
Record VerifyResponse := mkVerifyResponse { VerifyResponse_Valid : bool }.
Record GetPublicKeyRequest := mkGetPublicKeyRequest {
  GetPublicKeyRequest_KeyId : bytes;
  GetPublicKeyRequest_Version : option Z;
}.
Record GetPublicKeyResponse := mkGetPublicKeyResponse {
  GetPublicKeyResponse_KeyId : bytes;
  GetPublicKeyResponse_KeyType : Z;
  GetPublicKeyResponse_PublicKey : bytes;
  GetPublicKeyResponse_Version : Z;
}.

(** ** SecretService *)

Record GetSecretRequest := mkGetSecretRequest {
  GetSecretRequest_SecretId : bytes;
  GetSecretRequest_Version : option Z;
}.
Record GetSecretResponse := mkGetSecretResponse {
  GetSecretResponse_Value : bytes;
  GetSecretResponse_Version : Z;
}.
Record SetSecretRequest := mkSetSecretRequest {
  SetSecretRequest_SecretId : bytes;
  SetSecretRequest_Value : bytes;
}.
Record SetSecretResponse := mkSetSecretResponse { SetSecretResponse_Version : Z }.
Record RotateSecretRequest := mkRotateSecretRequest { RotateSecretRequest_SecretId : bytes }.
Record RotateSecretResponse := mkRotateSecretResponse { RotateSecretResponse_Version : Z }.
Record ListCatalogRequest := mkListCatalogRequest { ListCatalogRequest_Prefix : option bytes }.
Record CatalogEntry := mkCatalogEntry {
  CatalogEntry_Name : bytes;
  CatalogEntry_Kind : Z;
  CatalogEntry_KeyType : option Z;
  CatalogEntry_LatestVersion : Z;
}.

(** ** InvocationService *)

Record GetInvocationCapabilitiesRequest := mkGetInvocationCapabilitiesRequest {}.
Record GetInvocationCapabilitiesResponse := mkGetInvocationCapabilitiesResponse {
  GetInvocationCapabilitiesResponse_ListenerProfile : Z;
  GetInvocationCapabilitiesResponse_RequireChallenge : bool;
  GetInvocationCapabilitiesResponse_CourierProtocolVersion : Z;
}.
Record GetInvocationChallengeRequest := mkGetInvocationChallengeRequest {
  GetInvocationChallengeRequest_Jkt : bytes;
  GetInvocationChallengeRequest_CourierObservedSource : option bytes;
}.
Record GetInvocationChallengeResponse := mkGetInvocationChallengeResponse {
  GetInvocationChallengeResponse_Challenge : bytes;
  GetInvocationChallengeResponse_Generation : Z;
  GetInvocationChallengeResponse_ExpiresAtUnix : Z;
}.

(** ** NixCacheService *)

Record DescribeNixCacheKeyRequest := mkDescribeNixCacheKeyRequest {
  DescribeNixCacheKeyRequest_KeyId : bytes;
  DescribeNixCacheKeyRequest_BatchId : bytes;
  DescribeNixCacheKeyRequest_RequestId : bytes;
}.
Record DescribeNixCacheKeyResponse := mkDescribeNixCacheKeyResponse {
  DescribeNixCacheKeyResponse_KeyName : bytes;
  DescribeNixCacheKeyResponse_PublicKey : bytes;
  DescribeNixCacheKeyResponse_BackendVersion : Z;
  DescribeNixCacheKeyResponse_BatchId : bytes;
  DescribeNixCacheKeyResponse_RequestId : bytes;
}.
Record EnrollNixCacheKeyRequest := mkEnrollNixCacheKeyRequest {
  EnrollNixCacheKeyRequest_KeyId : bytes;
  EnrollNixCacheKeyRequest_BatchId : bytes;
  EnrollNixCacheKeyRequest_RequestId : bytes;
}.
Record EnrollNixCacheKeyResponse := mkEnrollNixCacheKeyResponse {
  EnrollNixCacheKeyResponse_KeyName : bytes;
  EnrollNixCacheKeyResponse_PublicKey : bytes;
  EnrollNixCacheKeyResponse_BackendVersion : Z;
  EnrollNixCacheKeyResponse_Disposition : Z;
  EnrollNixCacheKeyResponse_BatchId : bytes;
  EnrollNixCacheKeyResponse_RequestId : bytes;
}.
Record SignNixCacheFingerprintRequest := mkSignNixCacheFingerprintRequest {
  SignNixCacheFingerprintRequest_KeyId : bytes;
  SignNixCacheFingerprintRequest_Profile : bytes;
  SignNixCacheFingerprintRequest_Fingerprint : bytes;
  SignNixCacheFingerprintRequest_BatchId : bytes;
  SignNixCacheFingerprintRequest_RequestId : bytes;
}.
Record SignNixCacheFingerprintResponse := mkSignNixCacheFingerprintResponse {
  SignNixCacheFingerprintResponse_KeyName : bytes;
  SignNixCacheFingerprintResponse_PublicKey : bytes;
  SignNixCacheFingerprintResponse_BackendVersion : Z;
  SignNixCacheFingerprintResponse_Signature : bytes;
  SignNixCacheFingerprintResponse_BatchId : bytes;
  SignNixCacheFingerprintResponse_RequestId : bytes;
}.

(** ** Well-known types

    [durationpb.Duration] and [timestamppb.Timestamp]. *)

Record pbDuration := mkDuration { Duration_Seconds : Z; Duration_Nanos : Z }.
Record pbTimestamp := mkTimestamp { Timestamp_Seconds : Z; Timestamp_Nanos : Z }.

(** ** MintingService and NatsService *)

Record CredentialResponse := mkCredentialResponse {
  CredentialResponse_Token : bytes;
  CredentialResponse_ExpiresAt : option pbTimestamp;
}.
Record MintJwtRequest := mkMintJwtRequest {
  MintJwtRequest_KeyId : bytes;
  MintJwtRequest_Subject : option bytes;
  MintJwtRequest_Ttl : option pbDuration;
  MintJwtRequest_ExtraClaimsJson : bytes;
}.
Record MintNatsUserRequest := mkMintNatsUserRequest {
  MintNatsUserRequest_KeyId : bytes;
  MintNatsUserRequest_SubjectUserNkey : bytes;
  MintNatsUserRequest_Name : bytes;
  MintNatsUserRequest_Ttl : option pbDuration;
  MintNatsUserRequest_PubAllow : list bytes;
  MintNatsUserRequest_PubDeny : list bytes;
  MintNatsUserRequest_SubAllow : list bytes;
  MintNatsUserRequest_SubDeny : list bytes;
  MintNatsUserRequest_IssuerAccount : option bytes;
}.
Record MintNatsAccountRequest := mkMintNatsAccountRequest {
  MintNatsAccountRequest_KeyId : bytes;
  MintNatsAccountRequest_SubjectAccountNkey : bytes;
  MintNatsAccountRequest_Name : bytes;
  MintNatsAccountRequest_Ttl : option pbDuration;
  MintNatsAccountRequest_SigningKeys : list bytes;
}.
Record MintNatsOperatorRequest := mkMintNatsOperatorRequest {
  MintNatsOperatorRequest_KeyId : bytes;
  MintNatsOperatorRequest_SubjectOperatorNkey : option bytes;
  MintNatsOperatorRequest_Name : bytes;
  MintNatsOperatorRequest_Ttl : option pbDuration;
  MintNatsOperatorRequest_SigningKeys : list bytes;
  MintNatsOperatorRequest_AccountServerUrl : option bytes;
  MintNatsOperatorRequest_SystemAccount : option bytes;
}.
Record MintNatsSignerRequest := mkMintNatsSignerRequest {
  MintNatsSignerRequest_KeyId : bytes;
  MintNatsSignerRequest_SubjectNkey : bytes;
  MintNatsSignerRequest_Name : bytes;
  MintNatsSignerRequest_Ttl : option pbDuration;
}.
Record MintNatsServerRequest := mkMintNatsServerRequest {
  MintNatsServerRequest_KeyId : bytes;
  MintNatsServerRequest_SubjectServerNkey : bytes;
  MintNatsServerRequest_Name : bytes;
  MintNatsServerRequest_Ttl : option pbDuration;
}.
Record MintNatsCurveRequest := mkMintNatsCurveRequest {
  MintNatsCurveRequest_KeyId : bytes;
  MintNatsCurveRequest_SubjectCurveNkey : bytes;
  MintNatsCurveRequest_Name : bytes;
  MintNatsCurveRequest_Ttl : option pbDuration;
}.
Record EncryptNatsCurveRequest := mkEncryptNatsCurveRequest {
  EncryptNatsCurveRequest_KeyId : bytes;
  EncryptNatsCurveRequest_RecipientPublicXkey : bytes;
  EncryptNatsCurveRequest_Plaintext : bytes;
}.
Record EncryptNatsCurveResponse := mkEncryptNatsCurveResponse {
  EncryptNatsCurveResponse_Ciphertext : bytes;
}.
Record DecryptNatsCurveRequest := mkDecryptNatsCurveRequest {
  DecryptNatsCurveRequest_KeyId : bytes;
  DecryptNatsCurveRequest_SenderPublicXkey : bytes;
  DecryptNatsCurveRequest_Ciphertext : bytes;
}.
Record DecryptNatsCurveResponse := mkDecryptNatsCurveResponse {
  DecryptNatsCurveResponse_Plaintext : bytes;
}.
Record SignNatsJwtRequest := mkSignNatsJwtRequest {
  SignNatsJwtRequest_KeyId : bytes;
  SignNatsJwtRequest_ClaimsJson : bytes;
  SignNatsJwtRequest_ExpectedType : Z;
  SignNatsJwtRequest_Ttl : option pbDuration;
  SignNatsJwtRequest_ExpiresAt : option pbTimestamp;
  SignNatsJwtRequest_IssuedAt : option pbTimestamp;
  SignNatsJwtRequest_JtiMode : Z;
}.
Inductive AllowedNatsSigner_oneof := AllowedNatsSigner_KeyId (s : bytes) | AllowedNatsSigner_NatsPublicKey (s : bytes).
Record AllowedNatsSigner := mkAllowedNatsSigner {
  AllowedNatsSigner_Signer : option AllowedNatsSigner_oneof;
}.
Record ValidateNatsJwtRequest := mkValidateNatsJwtRequest {
  ValidateNatsJwtRequest_Jwt : bytes;
  ValidateNatsJwtRequest_AllowedSigners : list AllowedNatsSigner;
  ValidateNatsJwtRequest_ExpectedType : Z;
}.
Record ValidateNatsJwtResponse := mkValidateNatsJwtResponse {
  ValidateNatsJwtResponse_Valid : bool;
  ValidateNatsJwtResponse_Reason : Z;
  ValidateNatsJwtResponse_Subject : bytes;
  ValidateNatsJwtResponse_Issuer : bytes;
  ValidateNatsJwtResponse_MatchedSignerKeyId : bytes;
  ValidateNatsJwtResponse_JwtType : Z;
  ValidateNatsJwtResponse_ExpiresAtUnix : Z;
  ValidateNatsJwtResponse_IssuedAtUnix : Z;
}.
Record IssueCertificateRequest := mkIssueCertificateRequest {
  IssueCertificateRequest_IssuerKeyId : bytes;
  IssueCertificateRequest_CommonName : bytes;
  IssueCertificateRequest_DnsSans : list bytes;
  IssueCertificateRequest_IpSans : list bytes;
  IssueCertificateRequest_Ttl : option pbDuration;
}.
Record IssueCertificateResponse := mkIssueCertificateResponse {
  IssueCertificateResponse_CertChainDer : list bytes;
  IssueCertificateResponse_PrivateKeyDer : bytes;
  IssueCertificateResponse_CaChainDer : list bytes;
}.
(** ** AdminService *)

Record StatusRequest := mkStatusRequest {}.
Record StatusResponse := mkStatusResponse {
  StatusResponse_Backend : bytes;
  StatusResponse_Version : bytes;
  StatusResponse_Protocol : Z;
}.
Record HealthRequest := mkHealthRequest {}.
Record HealthResponse := mkHealthResponse {
  HealthResponse_Alive : bool;
  HealthResponse_Version : bytes;
}.
Record ReadinessRequest := mkReadinessRequest {}.
Record ReadinessResponse := mkReadinessResponse {
  ReadinessResponse_Ready : bool;
  ReadinessResponse_Reason : Z;
  ReadinessResponse_Generation : Z;
  ReadinessResponse_KeysTotal : Z;
  ReadinessResponse_KeysPresent : Z;
  ReadinessResponse_KeysRequiredMissing : Z;
  ReadinessResponse_KeysOptionalMissing : Z;
}.
Record ReloadRequest := mkReloadRequest {
  ReloadRequest_Check : bool;
}.
Record ReloadRejection := mkReloadRejection {
  ReloadRejection_Reason : bytes;
  ReloadRejection_Message : bytes;
}.
Record ReloadResponse := mkReloadResponse {
  ReloadResponse_Applied : bool;
  ReloadResponse_Checked : bool;
  ReloadResponse_PreviousGeneration : Z;
  ReloadResponse_NewGeneration : Z;
  ReloadResponse_KeyCount : Z;
  ReloadResponse_GrantCount : Z;
  ReloadResponse_Rejection : option ReloadRejection;
}.
Record ExplainRequest := mkExplainRequest {
  ExplainRequest_Subject : bytes;
  ExplainRequest_Op : bytes;
  ExplainRequest_Key : bytes;
}.
Record MatchedRule := mkMatchedRule {
  MatchedRule_Rule : bytes;
  MatchedRule_Via : bytes;
  MatchedRule_Action : bytes;
  MatchedRule_Target : bytes;
  MatchedRule_Subject : bytes;
}.
Record ExplainResponse := mkExplainResponse {
  ExplainResponse_Subject : bytes;
  ExplainResponse_Op : bytes;
  ExplainResponse_Key : bytes;
  ExplainResponse_Decision : Z;
  ExplainResponse_Via : bytes;
  ExplainResponse_Reason : bytes;
  ExplainResponse_MatchedRule : option MatchedRule;
}.
Record RevokeRequest := mkRevokeRequest {
  RevokeRequest_TrustDomain : bytes;
  RevokeRequest_Jti : bytes;
  RevokeRequest_ExpiresAtUnix : Z;
}.
Record RevokeResponse := mkRevokeResponse {
  RevokeResponse_TrustDomain : bytes;
  RevokeResponse_Jti : bytes;
  RevokeResponse_ExpiresAtUnix : Z;
  RevokeResponse_Persisted : bool;
}.
Record WatchRequest := mkWatchRequest {
  WatchRequest_Kinds : list Z;
}.
Record KeyRotated := mkKeyRotated {
  KeyRotated_KeyId : bytes;
  KeyRotated_NewVersion : Z;
}.
Record BundleChanged := mkBundleChanged {
  BundleChanged_TrustDomain : bytes;
}.
Record Revoked := mkRevoked {
  Revoked_TrustDomain : bytes;
  Revoked_Id : bytes;
}.
Inductive Event_oneof := Event_KeyRotated (d : KeyRotated) | Event_BundleChanged (d : BundleChanged) | Event_Revoked (d : Revoked).
Record Event := mkEvent {
  Event_Kind : Z;
  Event_At : option pbTimestamp;
  Event_Detail : option Event_oneof;
}.

(** ** The RPCs

    One constructor per unary stub method ([c.cc.Invoke] with that method's
    full name, request and response types) and per server-streaming one. *)

Inductive method : Type -> Type -> Type :=
| AeadService_Encrypt : method EncryptRequest EncryptResponse
| AeadService_Decrypt : method DecryptRequest DecryptResponse
| AeadService_WrapEnvelope : method WrapEnvelopeRequest WrapEnvelopeResponse
| AeadService_UnwrapEnvelope : method UnwrapEnvelopeRequest UnwrapEnvelopeResponse
| AeadService_UnsealCose : method UnsealCoseRequest UnsealCoseResponse
| SigningService_NewKey : method NewKeyRequest NewKeyResponse
| SigningService_Import : method ImportRequest NewKeyResponse
| SigningService_ImportSet : method ImportSetRequest ImportSetResponse
| SigningService_Sign : method SignRequest SignResponse
| SigningService_Verify : method VerifyRequest VerifyResponse
| SigningService_GetPublicKey : method GetPublicKeyRequest GetPublicKeyResponse
| SecretService_GetSecret : method GetSecretRequest GetSecretResponse
| SecretService_SetSecret : method SetSecretRequest SetSecretResponse
| SecretService_RotateSecret : method RotateSecretRequest RotateSecretResponse
| InvocationService_GetInvocationCapabilities :
    method GetInvocationCapabilitiesRequest GetInvocationCapabilitiesResponse
| InvocationService_GetInvocationChallenge :
    method GetInvocationChallengeRequest GetInvocationChallengeResponse
| NixCacheService_DescribeNixCacheKey :
    method DescribeNixCacheKeyRequest DescribeNixCacheKeyResponse
| NixCacheService_EnrollNixCacheKey :
    method EnrollNixCacheKeyRequest EnrollNixCacheKeyResponse
| NixCacheService_SignNixCacheFingerprint :
    method SignNixCacheFingerprintRequest SignNixCacheFingerprintResponse
| MintingService_MintJwt : method MintJwtRequest CredentialResponse
| MintingService_IssueCertificate : method IssueCertificateRequest IssueCertificateResponse
| NatsService_MintNatsUser : method MintNatsUserRequest CredentialResponse
| NatsService_MintNatsAccount : method MintNatsAccountRequest CredentialResponse
| NatsService_MintNatsOperator : method MintNatsOperatorRequest CredentialResponse
| NatsService_MintNatsSigner : method MintNatsSignerRequest CredentialResponse
| NatsService_MintNatsServer : method MintNatsServerRequest CredentialResponse
| NatsService_MintNatsCurve : method MintNatsCurveRequest CredentialResponse
| NatsService_EncryptNatsCurve : method EncryptNatsCurveRequest EncryptNatsCurveResponse
| NatsService_DecryptNatsCurve : method DecryptNatsCurveRequest DecryptNatsCurveResponse
| NatsService_SignNatsJwt : method SignNatsJwtRequest CredentialResponse
| NatsService_ValidateNatsJwt : method ValidateNatsJwtRequest ValidateNatsJwtResponse
| AdminService_Status : method StatusRequest StatusResponse
| AdminService_Health : method HealthRequest HealthResponse
| AdminService_Readiness : method ReadinessRequest ReadinessResponse
| AdminService_Reload : method ReloadRequest ReloadResponse
| AdminService_Explain : method ExplainRequest ExplainResponse
| AdminService_Revoke : method RevokeRequest RevokeResponse.

Inductive stream_method : Type -> Type -> Type :=
| SecretService_ListCatalog : stream_method ListCatalogRequest CatalogEntry
| AdminService_Watch : stream_method WatchRequest Event.
