(* ===== verification/Errors.v ===== *)
(** [basil/errors.go]: normalising a gRPC error into a typed [StatusError]. *)

From S2P Require Import Prelude GoError.

(** ** google.golang.org/grpc/status, as the code uses it

    [status_FromError] is [status.FromError]; [error_text] is [err.Error()];
    [code_String] is [codes.Code.String]. *)
Class GrpcStatus := {
  status_FromError : error -> Status * bool;
  error_text : error -> bytes;
  code_String : Z -> bytes;
}.

(** [(e *StatusError) GRPCStatus()] is [status.New(e.Code, e.Message)], a status
    with no details. *)
Definition GRPCStatus (e : StatusError) : Status := mkStatus (Code e) (Message e) [].

(** The first error of the [Unwrap] chain that carries a gRPC status, in the
    sense of the interface [GRPCStatus() *status.Status]. *)
Fixpoint chain_status (e : error) : option Status :=
  match e with
  | EGrpc st => Some st
  | EStatusError se => Some (GRPCStatus se)
  | Wrapf _ _ c => chain_status c
  | _ => None
  end.

(** The documented behaviour of [status.FromError]: the status of an error that
    carries one; for an error that wraps such a one, its code and details with
    the whole error's text as the message; false otherwise. *)
Class GrpcStatusLaws (S : GrpcStatus) := {
  FromError_direct : forall e st, chain_status e = Some st -> Unwrap e = None ->
    status_FromError e = (st, true);
  FromError_wrapped : forall e st, chain_status e = Some st -> is_Some (Unwrap e) ->
    status_FromError e = (mkStatus (st_Code st) (error_text e) (st_Details st), true);
  FromError_other : forall e, chain_status e = None -> (status_FromError e).2 = false;
}.

Section errors.
Context `{GS : GrpcStatus}.

(** [(e *StatusError) Error()]. *)
Definition StatusError_Error (e : StatusError) : bytes :=
  str "basil: " ++ code_String (Code e) ++ str " [" ++ Reason e ++ str "/" ++ Op e ++
  str "]: " ++ Message e.

Definition AsStatusError (err : error) : option StatusError := As_StatusError err.

(** The loop over [st.Details()]: the first [BrokerErrorInfo] fills in the
    reason and the operation. *)
Fixpoint fill_details (se : StatusError) (ds : list detail) : StatusError :=
  match ds with
  | [] => se
  | DBrokerErrorInfo info :: _ =>
      mkStatusError (Code se) (BrokerErrorInfo_reason info) (BrokerErrorInfo_op info) (Message se)
  | DOther _ :: ds => fill_details se ds
  end.

Definition FromError (err : option error) : option error :=
  match err with
  | None => None
  | Some err =>
      let '(st, ok) := status_FromError err in
      if negb ok then Some err
      else Some (EStatusError
        (fill_details (mkStatusError (st_Code st) [] [] (st_Message st)) (st_Details st)))
  end.

(** [statusError(err)] on the non-nil errors it is called with. *)
Definition statusError (err : error) : error := default err (FromError (Some err)).
End errors.

(** ** Lemmas *)

Fixpoint first_info (ds : list detail) : option BrokerErrorInfo :=
  match ds with
  | [] => None
  | DBrokerErrorInfo i :: _ => Some i
  | DOther _ :: ds => first_info ds
  end.

(** The typed error a status stands for. *)
Definition status_error_of (st : Status) : StatusError :=
  mkStatusError (st_Code st)
    (from_option BrokerErrorInfo_reason [] (first_info (st_Details st)))
    (from_option BrokerErrorInfo_op [] (first_info (st_Details st)))
    (st_Message st).

Lemma fill_details_eq c m ds :
  fill_details (mkStatusError c [] [] m) ds = status_error_of (mkStatus c m ds).
Proof. induction ds as [|[i|id] ds IH]; [done|done|]. simpl. by rewrite IH. Qed.

Section laws.
Context {GS : GrpcStatus} {GSL : GrpcStatusLaws GS}.

Lemma statusError_direct e st :
  chain_status e = Some st -> Unwrap e = None ->
  statusError e = EStatusError (status_error_of st).
Proof.
  intros H1 H2. unfold statusError, FromError. rewrite (FromError_direct _ _ H1 H2). simpl.
  rewrite fill_details_eq. by destruct st.
Qed.

Lemma statusError_grpc st : statusError (EGrpc st) = EStatusError (status_error_of st).
Proof. by apply statusError_direct. Qed.

Lemma statusError_wrapped e st :
  chain_status e = Some st -> is_Some (Unwrap e) ->
  statusError e =
    EStatusError (status_error_of (mkStatus (st_Code st) (error_text e) (st_Details st))).
Proof.
  intros H1 H2. unfold statusError, FromError. rewrite (FromError_wrapped _ _ H1 H2). simpl.
  by rewrite fill_details_eq.
Qed.

Lemma statusError_other e : chain_status e = None -> statusError e = e.
Proof.
  intros H. unfold statusError, FromError. pose proof (FromError_other _ H) as E.
  destruct (status_FromError e) as [st ok]. simpl in E. by subst.
Qed.
End laws.
