(* ===== verification/Client.v ===== *)
(** [basil/client.go]: dialing the broker, the connection options, and the
    deadline every RPC runs under; the gRPC connection as an interface. *)

From S2P Require Import Prelude GoTime GoError Errors Pb.

(** ** Contexts

    Of a [context.Context] the client only looks at its deadline (a time, in
    nanoseconds). [context_WithTimeout now ctx d] is [context.WithTimeout]. *)

Record context := mkContext { Deadline : option Z }.

Definition context_WithTimeout (now : Z) (ctx : context) (d : Z) : context :=
  mkContext (Some (match Deadline ctx with
                   | Some t => Z.min t (now + d)
                   | None => now + d
                   end)).

(** ** Dial options *)

Inductive DialOption :=
| WithTransportCredentials (insecure : bool)
| WithAuthority (authority : bytes)
| WithContextDialer (network address : bytes)
| OtherDialOption (id : N).

#[global] Instance DialOption_eq_dec : EqDecision DialOption.
Proof. solve_decision. Defined.

(** ** What a list of options comes to

    grpc-go and go-spiffe apply options in order: the last one of a kind wins. *)

Definition last_of {O A} (f : O -> option A) (opts : list O) : option A :=
  foldl (fun acc o => match f o with Some a => Some a | None => acc end) None opts.

Lemma last_of_app {O A} (f : O -> option A) opts fixed :
  last_of f (opts ++ fixed) =
    foldl (fun acc o => match f o with Some a => Some a | None => acc end) (last_of f opts) fixed.
Proof. apply foldl_app. Qed.

Definition authority_of (o : DialOption) : option bytes :=
  match o with WithAuthority a => Some a | _ => None end.

(** ** Call options

    The options the client passes to a stub method; [ForceCodec_nixCacheProto]
    is [grpc.ForceCodec(nixCacheProtoCodec{})]. *)

Inductive CallOption :=
| ForceCodec_nixCacheProto
| MaxCallSendMsgSize (n : Z)
| MaxCallRecvMsgSize (n : Z).

#[global] Instance CallOption_eq_dec : EqDecision CallOption.
Proof. solve_decision. Defined.

(** ** The connection

    [B] is everything outside the process: the broker and the clock. [NewClient]
    is [grpc.NewClient]; [Invoke] is a unary [ClientConn.Invoke] behind a
    stub method; [NewStream] and [Recv] are a server stream. *)

Class Grpc := {
  B : Type;
  Conn : Type;
  Stream : Type -> Type;
  now : B -> Z;
  NewClient : bytes -> list DialOption -> result error Conn;
  Conn_Close : Conn -> option error;
  Invoke : forall {Req Resp}, method Req Resp -> Conn -> context -> Req -> list CallOption -> B ->
    result error Resp * B;
  NewStream : forall {Req Ev}, stream_method Req Ev -> Conn -> context -> Req -> B ->
    result error (Stream Ev) * B;
  Recv : forall {Ev}, Stream Ev -> B -> result error (Ev * Stream Ev) * B;
}.

Definition DefaultTimeout : Z := 30 * Second.

Section client.
Context `{Gr : Grpc} `{GS : GrpcStatus}.

Record Client := mkClient { conn : Conn; timeout : Z }.

Record config := mkConfig { cfg_timeout : Z; cfg_dialOptions : list DialOption }.

(** [type Option func(c *config)]. *)
Definition Option : Type := config -> config.

Definition WithTimeout (d : Z) : Option := fun c => mkConfig d (cfg_dialOptions c).
Definition WithDialOptions (opts : list DialOption) : Option := fun c =>
  mkConfig (cfg_timeout c) (cfg_dialOptions c ++ opts).

Definition Dial (socketPath : bytes) (opts : list Option) : result error Client :=
  if decide (socketPath = []) then Err (Errorf "basil: empty socket path" []) else
  let cfg := foldl (fun cfg (opt : Option) => opt cfg) (mkConfig DefaultTimeout []) opts in
  let dialOpts := cfg_dialOptions cfg ++
    [WithTransportCredentials true; WithAuthority (str "localhost");
     WithContextDialer (str "unix") socketPath] in
  match NewClient (str "passthrough:///" ++ socketPath) dialOpts with
  | Err err => Err (Wrapf "basil: dial %q: %w" [AStr socketPath] err)
  | Ok conn => Ok (mkClient conn (cfg_timeout cfg))
  end.

Definition Close (c : Client) : option error := Conn_Close (conn c).

(** ** Calls *)

Definition rpc (A : Type) : Type := B -> result error A * B.

#[global] Instance rpc_ret : MRet rpc := fun A a b => (Ok a, b).
#[global] Instance rpc_bind : MBind rpc := fun A A' k m b =>
  match m b with
  | (Ok a, b') => k a b'
  | (Err e, b') => (Err e, b')
  end.
Definition rpc_fail {A} (e : error) : rpc A := fun b => (Err e, b).

(** [ctx, cancel := c.withTimeout(ctx)]. *)
Definition withTimeout (c : Client) (ctx : context) : rpc context := fun b =>
  (Ok (if decide (timeout c <= 0) then ctx
       else match Deadline ctx with
            | Some _ => ctx
            | None => context_WithTimeout (now b) ctx (timeout c)
            end), b).

(** [resp, err := stub.Method(ctx, req, opts...); if err != nil { return statusError(err) }]. *)
Definition call_with {Req Resp} (opts : list CallOption) (m : method Req Resp) (c : Client)
    (ctx : context) (req : Req) : rpc Resp :=
  fun b => match Invoke m (conn c) ctx req opts b with
           | (Ok resp, b') => (Ok resp, b')
           | (Err err, b') => (Err (statusError err), b')
           end.

Definition call {Req Resp} (m : method Req Resp) (c : Client) (ctx : context) (req : Req) : rpc Resp :=
  call_with [] m c ctx req.

(** The same around a streaming stub method. *)
Definition open_stream {Req Ev} (m : stream_method Req Ev) (c : Client) (ctx : context)
    (req : Req) : rpc (Stream Ev) :=
  fun b => match NewStream m (conn c) ctx req b with
           | (Ok stream, b') => (Ok stream, b')
           | (Err err, b') => (Err (statusError err), b')
           end.

Lemma rpc_bind_Ok {A A'} (m : rpc A) (k : A -> rpc A') b a b' :
  m b = (Ok a, b') -> (m ≫= k) b = k a b'.
Proof. unfold mbind, rpc_bind. by intros ->. Qed.

Lemma rpc_bind_Err {A A'} (m : rpc A) (k : A -> rpc A') b e b' :
  m b = (Err e, b') -> (m ≫= k) b = (Err e, b').
Proof. unfold mbind, rpc_bind. by intros ->. Qed.

(** The context an RPC runs under. *)
Definition effective (c : Client) (ctx : context) (b : B) : context :=
  if decide (timeout c <= 0) then ctx
  else match Deadline ctx with
       | Some _ => ctx
       | None => context_WithTimeout (now b) ctx (timeout c)
       end.

Lemma withTimeout_eq c ctx b : withTimeout c ctx b = (Ok (effective c ctx b), b).
Proof. reflexivity. Qed.

(** The shape of every unary method: deadline, RPC, conversion. *)
Lemma unary_with_eq {Req Resp A} opts (m : method Req Resp) c ctx req (k : Resp -> rpc A) b :
  (ctx ← withTimeout c ctx; resp ← call_with opts m c ctx req; k resp) b =
  match Invoke m (conn c) (effective c ctx b) req opts b with
  | (Ok resp, b') => k resp b'
  | (Err err, b') => (Err (statusError err), b')
  end.
Proof.
  rewrite (rpc_bind_Ok _ _ _ _ _ (withTimeout_eq c ctx b)).
  unfold mbind, rpc_bind, call_with. by destruct (Invoke _ _ _ _ _ _) as [[] ?].
Qed.

Lemma unary_eq {Req Resp A} (m : method Req Resp) c ctx req (k : Resp -> rpc A) b :
  (ctx ← withTimeout c ctx; resp ← call m c ctx req; k resp) b =
  match Invoke m (conn c) (effective c ctx b) req [] b with
  | (Ok resp, b') => k resp b'
  | (Err err, b') => (Err (statusError err), b')
  end.
Proof. apply unary_with_eq. Qed.
(** ** Server streams *)

(** [s] delivers the messages [evs] in this order and then reports [last]. *)
Inductive yields {Ev} : Stream Ev -> B -> list Ev -> error -> B -> Prop :=
| yields_end s b last b' : Recv s b = (Err last, b') -> yields s b [] last b'
| yields_more s b e s' b1 evs last b' :
    Recv s b = (Ok (e, s'), b1) -> yields s' b1 evs last b' -> yields s b (e :: evs) last b'.
End client.

Arguments rpc {Gr} A.
Arguments Client {Gr}.

Ltac rpc_run E := first [ rewrite (rpc_bind_Ok _ _ _ _ _ E) | rewrite (rpc_bind_Err _ _ _ _ _ E) ].
