(* ===== verification/Keytype.v ===== *)
(** [basil/keytype.go]: the key types and signing algorithms of the wire. *)

From S2P Require Import Prelude Pb.

Definition KeyTypeUnspecified := 0.
Definition KeyTypeEd25519 := 1.
Definition KeyTypeEd25519NKey := 2.
Definition KeyTypeRSA2048 := 3.
Definition KeyTypeECDSAP256 := 10.
Definition KeyTypeECDSAP384 := 11.
Definition KeyTypeECDSAP521 := 12.
Definition KeyTypeMLDSA44 := 4.
Definition KeyTypeMLDSA65 := 5.
Definition KeyTypeMLDSA87 := 6.
Definition KeyTypeMLKEM512 := 7.
Definition KeyTypeMLKEM768 := 8.
Definition KeyTypeMLKEM1024 := 9.

(** The wire's enum, [internal/pb]. *)
Definition pb_KEY_TYPE_UNSPECIFIED := 0.
Definition pb_KEY_TYPE_ED25519 := 1.
Definition pb_KEY_TYPE_ED25519_NKEY := 2.
Definition pb_KEY_TYPE_RSA_2048 := 3.
Definition pb_KEY_TYPE_ECDSA_P256 := 10.
Definition pb_KEY_TYPE_ECDSA_P384 := 11.
Definition pb_KEY_TYPE_ECDSA_P521 := 12.
Definition pb_KEY_TYPE_ML_DSA_44 := 4.
Definition pb_KEY_TYPE_ML_DSA_65 := 5.
Definition pb_KEY_TYPE_ML_DSA_87 := 6.
Definition pb_KEY_TYPE_ML_KEM_512 := 7.
Definition pb_KEY_TYPE_ML_KEM_768 := 8.
Definition pb_KEY_TYPE_ML_KEM_1024 := 9.

(** [keyTypeFromProto]: the listed wire values convert, any other is unspecified. *)
Definition keyTypeFromProto (v : Z) : Z :=
  if bool_decide (v ∈ [pb_KEY_TYPE_ED25519; pb_KEY_TYPE_ED25519_NKEY; pb_KEY_TYPE_RSA_2048;
    pb_KEY_TYPE_ECDSA_P256; pb_KEY_TYPE_ECDSA_P384; pb_KEY_TYPE_ECDSA_P521;
    pb_KEY_TYPE_ML_DSA_44; pb_KEY_TYPE_ML_DSA_65; pb_KEY_TYPE_ML_DSA_87;
    pb_KEY_TYPE_ML_KEM_512; pb_KEY_TYPE_ML_KEM_768; pb_KEY_TYPE_ML_KEM_1024])
  then v else KeyTypeUnspecified.

(** [keyTypeToProto]: a conversion between int32 enums. *)
Definition keyTypeToProto (k : Z) : Z := k.

Definition SigningAlgorithmUnspecified := 0.
Definition SigningAlgorithmEd25519 := 1.
Definition SigningAlgorithmEd25519NKey := 2.
Definition SigningAlgorithmRS256 := 3.
Definition SigningAlgorithmES256 := 7.
Definition SigningAlgorithmMLDSA44 := 4.
Definition SigningAlgorithmMLDSA65 := 5.
Definition SigningAlgorithmMLDSA87 := 6.

(** The wire values are exactly 1 to 12, each kept. *)
Lemma keyTypeFromProto_eq v :
  keyTypeFromProto v = if decide (1 <= v <= 12) then v else 0.
Proof.
  unfold keyTypeFromProto.
  case_bool_decide as H; case_decide as H'; try done; exfalso; revert H;
    change (v ∈ _) with (v ∈ [1; 2; 3; 10; 11; 12; 4; 5; 6; 7; 8; 9]);
    rewrite list_elem_of_In; simpl; lia.
Qed.
