(* ===== verification/Aead.v ===== *)
(** [basil/aead.go]: encryption, envelope wrapping and COSE unsealing through
    the broker.  An [aad] is an option: nil and an empty slice differ there. *)

From S2P Require Import Prelude GoError Errors Pb Client.

Definition AeadAlgorithmUnspecified := 0.
Definition AeadAlgorithmChaCha20Poly1305 := 1.
Definition AeadAlgorithmAES256GCM := 2.

Definition KemAlgorithmUnspecified := 0.
Definition KemAlgorithmMLKEM512 := 1.
Definition KemAlgorithmMLKEM768 := 2.
Definition KemAlgorithmMLKEM1024 := 3.
Definition KemAlgorithmX25519 := 4.

Definition EnvelopeAlgorithmUnspecified := 0.
Definition EnvelopeAlgorithmAES256GCM := 1.
Definition EnvelopeAlgorithmChaCha20Poly1305 := 2.

(** [basil.Ciphertext] *)
Record Ciphertext := mkCiphertext {
  ct_Algorithm : Z;
  ct_KeyVersion : Z;
  ct_Nonce : bytes;
  ct_Bytes : bytes;
}.

(** [basil.KemEnvelope] *)
Record Envelope := mkEnvelope {
  env_KemAlgorithm : Z;
  env_EnvelopeAlgorithm : Z;
  env_KeyVersion : Z;
  env_EncapsulatedKey : bytes;
  env_Nonce : bytes;
  env_Bytes : bytes;
}.

Definition ciphertextToProto (c : option Ciphertext) : option CiphertextEnvelope :=
  match c with
  | None => None
  | Some c => Some (mkCiphertextEnvelope (ct_Algorithm c) (ct_KeyVersion c) (ct_Nonce c) (ct_Bytes c))
  end.

Definition kemEnvelopeToProto (e : option Envelope) : option KemEnvelope :=
  match e with
  | None => None
  | Some e => Some (mkKemEnvelope (env_KemAlgorithm e) (env_EnvelopeAlgorithm e)
      (env_KeyVersion e) (env_EncapsulatedKey e) (env_Nonce e) (env_Bytes e))
  end.

Section aead.
Context `{Gr : Grpc} `{GS : GrpcStatus}.

Definition Encrypt (c : Client) (ctx : context) (keyID : bytes) (alg : Z)
    (plaintext : bytes) (aad : option bytes) : rpc Ciphertext :=
  ctx ← withTimeout c ctx;
  resp ← call AeadService_Encrypt c ctx (mkEncryptRequest keyID alg plaintext aad);
  match EncryptResponse_Envelope resp with
  | None => rpc_fail (Errorf
      "basil: encrypt succeeded but the response carried no ciphertext envelope" [])
  | Some env => mret (mkCiphertext (CiphertextEnvelope_Alg env) (CiphertextEnvelope_KeyVersion env)
      (CiphertextEnvelope_Nonce env) (CiphertextEnvelope_Ciphertext env))
  end.

Definition Decrypt (c : Client) (ctx : context) (keyID : bytes) (ct : option Ciphertext)
    (aad : option bytes) : rpc bytes :=
  ctx ← withTimeout c ctx;
  resp ← call AeadService_Decrypt c ctx (mkDecryptRequest keyID (ciphertextToProto ct) aad);
  mret (DecryptResponse_Plaintext resp).

Definition WrapEnvelope (c : Client) (ctx : context) (keyID : bytes) (kem env : Z)
    (plaintext : bytes) (aad : option bytes) : rpc Envelope :=
  ctx ← withTimeout c ctx;
  resp ← call AeadService_WrapEnvelope c ctx (mkWrapEnvelopeRequest keyID kem env plaintext aad);
  match WrapEnvelopeResponse_Envelope resp with
  | None => rpc_fail (Errorf
      "basil: wrap envelope succeeded but the response carried no KEM envelope" [])
  | Some envelope => mret (mkEnvelope (KemEnvelope_KemAlgorithm envelope)
      (KemEnvelope_EnvelopeAlgorithm envelope) (KemEnvelope_KeyVersion envelope)
      (KemEnvelope_EncapsulatedKey envelope) (KemEnvelope_Nonce envelope)
      (KemEnvelope_Ciphertext envelope))
  end.

Definition UnwrapEnvelope (c : Client) (ctx : context) (keyID : bytes) (env : option Envelope)
    (aad : option bytes) : rpc bytes :=
  ctx ← withTimeout c ctx;
  resp ← call AeadService_UnwrapEnvelope c ctx
    (mkUnwrapEnvelopeRequest keyID (kemEnvelopeToProto env) aad);
  mret (UnwrapEnvelopeResponse_Plaintext resp).

Definition UnsealCose (c : Client) (ctx : context) (keyID coseEncrypt : bytes)
    (externalAAD : option bytes) : rpc bytes :=
  ctx ← withTimeout c ctx;
  resp ← call AeadService_UnsealCose c ctx (mkUnsealCoseRequest keyID coseEncrypt externalAAD);
  mret (UnsealCoseResponse_Plaintext resp).
End aead.
