(* ===== verification/Signing.v ===== *)
(** [basil/signing.go]: signatures and the key life cycle. *)

From S2P Require Import Prelude GoError Errors Pb Client Keytype.

(** [basil.PublicKey] *)
Record PublicKey := mkPublicKey {
  pk_KeyID : bytes;
  pk_KeyType : Z;
  pk_Bytes : bytes;
  pk_Version : Z;
}.

(** [basil.KeyHandle] *)
Record KeyHandle := mkKeyHandle { kh_KeyID : bytes; kh_PublicKey : bytes }.

(** The sealed interface [basil.KeyMaterial]: its two implementations. *)
Inductive Material := ed25519SeedMaterial (seed : bytes) | pkcs8DERMaterial (der : bytes).

Definition Ed25519SeedMaterial (seed : bytes) : Material := ed25519SeedMaterial seed.
Definition PKCS8DERMaterial (der : bytes) : Material := pkcs8DERMaterial der.

Definition material_toProto (m : Material) : KeyMaterial :=
  match m with
  | ed25519SeedMaterial m => mkKeyMaterial (Some (KeyMaterial_Ed25519Seed m))
  | pkcs8DERMaterial m => mkKeyMaterial (Some (KeyMaterial_Pkcs8Der m))
  end.

(** [basil.ImportEntry] *)
Record Entry := mkEntry {
  entry_KeyID : bytes;
  entry_KeyType : Z;
  entry_Material : option Material;
}.

(** The request-building loop of [ImportSet], from index [i]. *)
Fixpoint import_entries (i : Z) (entries : list Entry) : result error (list ImportEntry) :=
  match entries with
  | [] => Ok []
  | e :: entries =>
      match entry_Material e with
      | None => Err (Errorf "basil: ImportSet entry %d (%q) requires non-nil key material"
          [AInt i; AStr (entry_KeyID e)])
      | Some m =>
          rest ← import_entries (i + 1) entries;
          Ok (mkImportEntry (entry_KeyID e) (keyTypeToProto (entry_KeyType e))
                (Some (material_toProto m)) :: rest)
      end
  end.

Section signing.
Context `{Gr : Grpc} `{GS : GrpcStatus}.

Definition SignWithAlgorithm (c : Client) (ctx : context) (keyID message : bytes) (alg : Z)
    : rpc bytes :=
  ctx ← withTimeout c ctx;
  resp ← call SigningService_Sign c ctx (mkSignRequest keyID message alg);
  mret (SignResponse_Signature resp).

Definition Sign (c : Client) (ctx : context) (keyID message : bytes) : rpc bytes :=
  SignWithAlgorithm c ctx keyID message SigningAlgorithmUnspecified.

Definition VerifyWithAlgorithm (c : Client) (ctx : context) (keyID message signature : bytes)
    (alg : Z) : rpc bool :=
  ctx ← withTimeout c ctx;
  resp ← call SigningService_Verify c ctx (mkVerifyRequest keyID message signature alg);
  mret (VerifyResponse_Valid resp).

Definition Verify (c : Client) (ctx : context) (keyID message signature : bytes) : rpc bool :=
  VerifyWithAlgorithm c ctx keyID message signature SigningAlgorithmUnspecified.

Definition GetPublicKey (c : Client) (ctx : context) (keyID : bytes) (version : option Z)
    : rpc PublicKey :=
  ctx ← withTimeout c ctx;
  resp ← call SigningService_GetPublicKey c ctx (mkGetPublicKeyRequest keyID version);
  mret (mkPublicKey (GetPublicKeyResponse_KeyId resp)
    (keyTypeFromProto (GetPublicKeyResponse_KeyType resp))
    (GetPublicKeyResponse_PublicKey resp) (GetPublicKeyResponse_Version resp)).

Definition NewKey (c : Client) (ctx : context) (keyID : bytes) (keyType : Z) : rpc KeyHandle :=
  ctx ← withTimeout c ctx;
  resp ← call SigningService_NewKey c ctx (mkNewKeyRequest keyID (keyTypeToProto keyType));
  mret (mkKeyHandle (NewKeyResponse_KeyId resp) (NewKeyResponse_PublicKey resp)).

Definition Import (c : Client) (ctx : context) (keyID : bytes) (keyType : Z)
    (material : option Material) : rpc KeyHandle :=
  match material with
  | None => rpc_fail (Errorf "basil: Import requires non-nil key material" [])
  | Some material =>
      ctx ← withTimeout c ctx;
      resp ← call SigningService_Import c ctx
        (mkImportRequest keyID (keyTypeToProto keyType) (Some (material_toProto material)));
      mret (mkKeyHandle (NewKeyResponse_KeyId resp) (NewKeyResponse_PublicKey resp))
  end.

Definition ImportSet (c : Client) (ctx : context) (entries : list Entry) : rpc (list KeyHandle) :=
  match import_entries 0 entries with
  | Err e => rpc_fail e
  | Ok pbEntries =>
      ctx ← withTimeout c ctx;
      resp ← call SigningService_ImportSet c ctx (mkImportSetRequest pbEntries);
      mret ((fun k => mkKeyHandle (ImportedKey_KeyId k) (ImportedKey_PublicKey k))
            <$> ImportSetResponse_Keys resp)
  end.
End signing.
