(* ===== verification/Secret.v ===== *)
(** [basil/secret.go]: secrets and the catalog listing. *)

From S2P Require Import Prelude GoError Errors Pb Client Keytype.

Definition CatalogKindUnspecified : Z := 0.
Definition CatalogKindSigning : Z := 1.
Definition CatalogKindValue : Z := 2.
Definition CatalogKindEncryption : Z := 3.

(** [basil.Secret] *)
Record Secret := mkSecret { secret_Value : bytes; secret_Version : Z }.

(** [basil.CatalogEntry] *)
Record Catalog := mkCatalog {
  cat_Name : bytes;
  cat_Kind : Z;
  cat_KeyType : option Z;
  cat_LatestVersion : Z;
}.

Definition catalogEntryFromProto (e : CatalogEntry) : Catalog :=
  mkCatalog (CatalogEntry_Name e) (CatalogEntry_Kind e)
    (keyTypeFromProto <$> CatalogEntry_KeyType e) (CatalogEntry_LatestVersion e).

Section secret.
Context `{Gr : Grpc} `{GS : GrpcStatus}.

Definition GetSecret (c : Client) (ctx : context) (secretID : bytes) (version : option Z)
    : rpc Secret :=
  ctx ← withTimeout c ctx;
  resp ← call SecretService_GetSecret c ctx (mkGetSecretRequest secretID version);
  mret (mkSecret (GetSecretResponse_Value resp) (GetSecretResponse_Version resp)).

Definition SetSecret (c : Client) (ctx : context) (secretID value : bytes) : rpc Z :=
  ctx ← withTimeout c ctx;
  resp ← call SecretService_SetSecret c ctx (mkSetSecretRequest secretID value);
  mret (SetSecretResponse_Version resp).

Definition RotateSecret (c : Client) (ctx : context) (secretID : bytes) : rpc Z :=
  ctx ← withTimeout c ctx;
  resp ← call SecretService_RotateSecret c ctx (mkRotateSecretRequest secretID);
  mret (RotateSecretResponse_Version resp).

(** The receive loop of [ListCatalog], with one unit of fuel per message. *)
Fixpoint drain (fuel : nat) (entries : list Catalog) (stream : Stream CatalogEntry)
    : rpc (list Catalog) := fun b =>
  match fuel with
  | O => (Err OutOfFuel, b)
  | S fuel =>
      match Recv stream b with
      | (Err err, b) => if Is err EOF then (Ok entries, b) else (Err (statusError err), b)
      | (Ok (e, stream), b) => drain fuel (entries ++ [catalogEntryFromProto e]) stream b
      end
  end.

Definition ListCatalog (fuel : nat) (c : Client) (ctx : context) (prefix : option bytes)
    : rpc (list Catalog) :=
  ctx ← withTimeout c ctx;
  stream ← open_stream SecretService_ListCatalog c ctx (mkListCatalogRequest prefix);
  drain fuel [] stream.
End secret.
