(* ===== verification/SecretStore.v ===== *)
(** What a broker that answers promises of its secret service, as operations on a
    store of versioned values, and what follows for the client's methods. *)

From stdpp Require Import gmap.
From S2P Require Import Prelude GoError Errors Pb Client Secret.

(** ** The abstract store *)

(** The versions of each secret, oldest first; the first has number 1. *)
Abbreviation store := (gmap bytes (list bytes)).

Definition versions (st : store) (id : bytes) : list bytes := default [] (st !! id).

(** The value of a version, or of the latest. *)
Definition lookup_version (st : store) (id : bytes) (version : option Z) : option Secret :=
  match version with
  | None => (fun v => mkSecret v (len (versions st id))) <$> last (versions st id)
  | Some n => if decide (1 <= n) then (fun v => mkSecret v n) <$> versions st id !! Z.to_nat (n - 1) else None
  end.

Definition push (st : store) (id v : bytes) : store := <[id := versions st id ++ [v]]> st.

Lemma versions_push st id v id' :
  versions (push st id v) id' = if decide (id = id') then versions st id' ++ [v] else versions st id'.
Proof.
  unfold push, versions. case_decide as H; [subst; by rewrite lookup_insert_eq|by rewrite lookup_insert_ne].
Qed.

Lemma lookup_latest st id v : last (versions st id) = Some v ->
  lookup_version st id None = Some (mkSecret v (len (versions st id))).
Proof. unfold lookup_version. by intros ->. Qed.

(** ** The client's methods *)

Section client.
Context {Gr : Grpc} {GS : GrpcStatus}.

(** A broker, reached through [c], that serves the store. No call is sure to be
    answered: a broker is away, a deadline passes, a version counter of 32 bits
    runs out. So [holds n ctx b st] says that [st] is the content at [b] and that the
    next [n] calls under [ctx] will be answered; each answered call uses one up, and
    nothing is promised of a call when none is left. *)
Class SecretService (c : Client) (holds : nat -> context -> B -> store -> Prop) := {
  serves_set : forall n ctx id v b st, holds (S n) ctx b st -> exists b',
    Invoke SecretService_SetSecret (conn c) ctx (mkSetSecretRequest id v) [] b =
      (Ok (mkSetSecretResponse (len (versions st id) + 1)), b') /\ holds n ctx b' (push st id v);
  serves_get : forall n ctx id version b st, holds (S n) ctx b st -> exists b', holds n ctx b' st /\
    match lookup_version st id version with
    | Some s => Invoke SecretService_GetSecret (conn c) ctx (mkGetSecretRequest id version) [] b =
        (Ok (mkGetSecretResponse (secret_Value s) (secret_Version s)), b')
    | None => exists err, Invoke SecretService_GetSecret (conn c) ctx (mkGetSecretRequest id version) [] b = (Err err, b')
    end;
  serves_rotate : forall n ctx id b st, holds (S n) ctx b st -> exists b',
    if decide (versions st id = []) then
      holds n ctx b' st /\
      exists err, Invoke SecretService_RotateSecret (conn c) ctx (mkRotateSecretRequest id) [] b = (Err err, b')
    else exists fresh, last (versions st id) <> Some fresh /\ holds n ctx b' (push st id fresh) /\
      Invoke SecretService_RotateSecret (conn c) ctx (mkRotateSecretRequest id) [] b =
        (Ok (mkRotateSecretResponse (len (versions st id) + 1)), b');
}.

Context (c : Client) (holds : nat -> context -> B -> store -> Prop) {Sv : SecretService c holds}.

(** Under a context that has a deadline, which is then the one of the call. *)
Context (ctx : context) (Hctx : forall b, effective c ctx b = ctx).

Lemma SetSecret_serves n id v b st : holds (S n) ctx b st -> exists b',
  SetSecret c ctx id v b = (Ok (len (versions st id) + 1), b') /\ holds n ctx b' (push st id v).
Proof.
  intros H. unfold SetSecret. rewrite unary_eq, Hctx.
  destruct (serves_set n ctx id v b st H) as (b' & -> & Hb). eauto.
Qed.

Lemma GetSecret_serves n id version b st : holds (S n) ctx b st -> exists b', holds n ctx b' st /\
  match lookup_version st id version with
  | Some s => GetSecret c ctx id version b = (Ok s, b')
  | None => exists err, GetSecret c ctx id version b = (Err err, b')
  end.
Proof.
  intros H. unfold GetSecret. rewrite unary_eq, Hctx.
  destruct (serves_get n ctx id version b st H) as (b' & Hb & E). exists b'. split; [done|].
  destruct (lookup_version st id version) as [[]|]; [by rewrite E|]. destruct E as (err & ->). eauto.
Qed.

Lemma RotateSecret_serves n id b st : holds (S n) ctx b st -> exists b',
  if decide (versions st id = []) then
    holds n ctx b' st /\ exists err, RotateSecret c ctx id b = (Err err, b')
  else exists fresh, last (versions st id) <> Some fresh /\ holds n ctx b' (push st id fresh) /\
    RotateSecret c ctx id b = (Ok (len (versions st id) + 1), b').
Proof.
  intros H. unfold RotateSecret. rewrite unary_eq, Hctx.
  destruct (serves_rotate n ctx id b st H) as (b' & E). exists b'.
  case_decide; [destruct E as (Hb & err & ->); eauto|]. destruct E as (fresh & Hf & Hb & ->). eauto.
Qed.
End client.
