(* ===== verification/Invocation.v ===== *)
(** [basil/invocation.go]: the invocation listener's capabilities and the
    freshness challenges of sealed invocations. *)

From S2P Require Import Prelude GoError Errors Pb Client.

Definition InvocationChallengeLen : Z := 32.
Definition ReasonChallengeIssuanceDeclined : bytes := str "CHALLENGE_ISSUANCE_DECLINED".

Definition InvocationListenerHost := 1.
Definition InvocationListenerCourier := 3.

(** The wire's [ListenerProfile]. *)
Definition ListenerProfile_UNSPECIFIED := 0.
Definition ListenerProfile_HOST := 1.
Definition ListenerProfile_COURIER := 3.

Record InvocationCapabilities := mkInvocationCapabilities {
  ic_ListenerProfile : Z;
  ic_RequireChallenge : bool;
  ic_CourierProtocolVersion : Z;
}.

Record InvocationChallenge := mkInvocationChallenge {
  ich_Challenge : bytes;       (* [32]byte *)
  ich_Generation : Z;
  ich_ExpiresAtUnix : Z;
}.

Section invocation.
Context `{Gr : Grpc} `{GS : GrpcStatus}.

Definition GetInvocationCapabilities (c : Client) (ctx : context) : rpc InvocationCapabilities :=
  ctx ← withTimeout c ctx;
  resp ← call InvocationService_GetInvocationCapabilities c ctx mkGetInvocationCapabilitiesRequest;
  let p := GetInvocationCapabilitiesResponse_ListenerProfile resp in
  let ok profile := mret (mkInvocationCapabilities profile
    (GetInvocationCapabilitiesResponse_RequireChallenge resp)
    (GetInvocationCapabilitiesResponse_CourierProtocolVersion resp)) in
  if decide (p = ListenerProfile_HOST) then ok InvocationListenerHost
  else if decide (p = ListenerProfile_COURIER) then ok InvocationListenerCourier
  else if decide (p = ListenerProfile_UNSPECIFIED) then
    rpc_fail (Errorf "basil: broker returned an unspecified invocation listener profile" [])
  else rpc_fail (Errorf "basil: broker returned unknown invocation listener profile %d" [AInt p]).

Definition GetInvocationChallenge (c : Client) (ctx : context) (jkt courierObservedSource : bytes)
    : rpc InvocationChallenge :=
  if decide (len jkt <> InvocationChallengeLen) then
    rpc_fail (Errorf "basil: jkt must be exactly %d bytes, got %d"
      [AInt InvocationChallengeLen; AInt (len jkt)])
  else
  ctx ← withTimeout c ctx;
  let source := if decide (courierObservedSource = []) then None else Some courierObservedSource in
  resp ← call InvocationService_GetInvocationChallenge c ctx
    (mkGetInvocationChallengeRequest jkt source);
  let challenge := GetInvocationChallengeResponse_Challenge resp in
  if decide (len challenge <> InvocationChallengeLen) then
    rpc_fail (Errorf "basil: freshness challenge must be exactly %d bytes, got %d"
      [AInt InvocationChallengeLen; AInt (len challenge)])
  else mret (mkInvocationChallenge challenge (GetInvocationChallengeResponse_Generation resp)
    (GetInvocationChallengeResponse_ExpiresAtUnix resp)).
End invocation.
