(* ===== verification/Minting.v ===== *)
(** [basil/minting.go]: credentials minted by the broker, NATS tokens and curve
    boxes, certificates; the conversions of durations, times and claim
    documents on the way. *)

From S2P Require Import Prelude GoTime GoText GoError Errors Pb Client.

(** ** Well-known types *)

(** [durationpb.New], [timestamppb.New] and [AsTime]. *)
Class WellKnown := {
  durationpb_New : Z -> pbDuration;
  timestamppb_New : Time -> pbTimestamp;
  AsTime : pbTimestamp -> Time;
}.

(** The message denotes the value it was made from. *)
Class WellKnownLaws (WK : WellKnown) := {
  durationpb_New_denotes d : - 2 ^ 63 <= d < 2 ^ 63 ->
    Duration_Seconds (durationpb_New d) * Second + Duration_Nanos (durationpb_New d) = d;
  AsTime_New t : - 2 ^ 63 <= t_sec t < 2 ^ 63 -> 0 <= t_nsec t < Second ->
    AsTime (timestamppb_New t) = t;
}.

(** ** Claim documents

    A Go [any]: the three types the code recognises, or any other value, which
    [json.Marshal] may encode; the nil [any] is [None]. *)

Class JsonEncoder := {
  Value : Type;
  json_Marshal : Value -> result error bytes;
}.

Inductive any `{JsonEncoder} :=
| AnyRawMessage (v : bytes)
| AnyBytes (v : bytes)
| AnyString (v : bytes)
| AnyOther (v : Value).

(** ** Requests and results *)

Definition NatsJwtTypeUnspecified : Z := 0.
Definition NatsJwtTypeUser : Z := 1.
Definition NatsJwtTypeAccount : Z := 2.
Definition NatsJwtTypeOperator : Z := 3.
Definition NatsJwtTypeSigner : Z := 4.
Definition NatsJwtTypeServer : Z := 5.
Definition NatsJwtTypeCurve : Z := 6.

Definition NatsJtiModeRequireValid : Z := 0.
Definition NatsJtiModeRewrite : Z := 1.

Definition NatsJwtValidationReasonUnknown : Z := 0.
Definition NatsJwtValidationReasonValid : Z := 1.
Definition NatsJwtValidationReasonMalformed : Z := 2.
Definition NatsJwtValidationReasonBadSignature : Z := 3.
Definition NatsJwtValidationReasonUnknownSigner : Z := 4.
Definition NatsJwtValidationReasonExpired : Z := 5.
Definition NatsJwtValidationReasonNotYetValid : Z := 6.
Definition NatsJwtValidationReasonWrongType : Z := 7.

Record Credential := mkCredential { cred_Token : bytes; cred_ExpiresAt : Time }.

Record JwtRequest `{JsonEncoder} := mkJwtRequest {
  jr_KeyID : bytes;
  jr_Subject : bytes;
  jr_TTL : Z;
  jr_Claims : option any;
}.

Record NatsUserRequest := mkNatsUserRequest {
  nu_KeyID : bytes;
  nu_SubjectUserNKey : bytes;
  nu_Name : bytes;
  nu_TTL : Z;
  nu_PubAllow : list bytes;
  nu_PubDeny : list bytes;
  nu_SubAllow : list bytes;
  nu_SubDeny : list bytes;
  nu_IssuerAccount : bytes;
}.

Record NatsAccountRequest := mkNatsAccountRequest {
  na_KeyID : bytes;
  na_SubjectAccountNKey : bytes;
  na_Name : bytes;
  na_TTL : Z;
  na_SigningKeys : list bytes;
}.

Record NatsOperatorRequest := mkNatsOperatorRequest {
  no_KeyID : bytes;
  no_SubjectOperatorNKey : bytes;
  no_Name : bytes;
  no_TTL : Z;
  no_SigningKeys : list bytes;
  no_AccountServerURL : bytes;
  no_SystemAccount : bytes;
}.

Record NatsSignerRequest := mkNatsSignerRequest {
  ns_KeyID : bytes;
  ns_SubjectNKey : bytes;
  ns_Name : bytes;
  ns_TTL : Z;
}.

Record NatsServerRequest := mkNatsServerRequest {
  nv_KeyID : bytes;
  nv_SubjectServerNKey : bytes;
  nv_Name : bytes;
  nv_TTL : Z;
}.

Record NatsCurveRequest := mkNatsCurveRequest {
  nc_KeyID : bytes;
  nc_SubjectCurveNKey : bytes;
  nc_Name : bytes;
  nc_TTL : Z;
}.

Record NatsCurveEncryptRequest := mkNatsCurveEncryptRequest {
  ce_KeyID : bytes;
  ce_RecipientPublicXKey : bytes;
  ce_Plaintext : bytes;
}.

Record NatsCurveDecryptRequest := mkNatsCurveDecryptRequest {
  cd_KeyID : bytes;
  cd_SenderPublicXKey : bytes;
  cd_Ciphertext : bytes;
}.

Record NatsJwtRequest `{JsonEncoder} := mkNatsJwtRequest {
  nj_KeyID : bytes;
  nj_Claims : option any;
  nj_ExpectedType : Z;
  nj_TTL : Z;
  nj_ExpiresAt : Time;
  nj_IssuedAt : Time;
  nj_JtiMode : Z;
}.

Record AllowedSigner := mkAllowedSigner { signer_keyID : bytes; signer_natsPublicKey : bytes }.

Definition AllowedSignerKeyID (keyID : bytes) : AllowedSigner := mkAllowedSigner keyID [].
Definition AllowedSignerNatsPublicKey (publicKey : bytes) : AllowedSigner :=
  mkAllowedSigner [] publicKey.

(** [basil.ValidateNatsJwtRequest] *)
Record ValidateRequest := mkValidateRequest {
  vr_JWT : bytes;
  vr_AllowedSigners : list AllowedSigner;
  vr_ExpectedType : Z;
}.

Record NatsJwtValidation := mkNatsJwtValidation {
  nv_Valid : bool;
  nv_Reason : Z;
  nv_Subject : bytes;
  nv_Issuer : bytes;
  nv_MatchedSignerKeyID : bytes;
  nv_JWTType : Z;
  nv_ExpiresAt : Time;
  nv_IssuedAt : Time;
}.

Record CertificateRequest := mkCertificateRequest {
  cr_IssuerKeyID : bytes;
  cr_CommonName : bytes;
  cr_DNSSANs : list bytes;
  cr_IPSANs : list bytes;
  cr_TTL : Z;
}.

Record Certificate := mkCertificate {
  CertChainDER : list bytes;
  PrivateKeyDER : bytes;
  CAChainDER : list bytes;
}.

Arguments AnyRawMessage {_}.
Arguments AnyBytes {_}.
Arguments AnyString {_}.
Arguments AnyOther {_}.
Arguments mkJwtRequest {_}.
Arguments mkNatsJwtRequest {_}.

(** ** Conversions *)

(** The code's [if s != "" { req.Field = &s }]. *)
Definition nonEmpty (s : bytes) : option bytes := if decide (s = []) then None else Some s.

Definition AllowedSigner_toProto (s : AllowedSigner) : result error AllowedNatsSigner :=
  if decide (signer_keyID s <> []) then
    Ok (mkAllowedNatsSigner (Some (AllowedNatsSigner_KeyId (signer_keyID s))))
  else if decide (signer_natsPublicKey s = []) then
    Err (Errorf "allowed signer must be constructed with AllowedSignerKeyID or AllowedSignerNatsPublicKey" [])
  else Ok (mkAllowedNatsSigner (Some (AllowedNatsSigner_NatsPublicKey (signer_natsPublicKey s)))).

(** The loop of [ValidateNatsJwt] over the request's signers. *)
Fixpoint allowed_signers (signers : list AllowedSigner) : result error (list AllowedNatsSigner) :=
  match signers with
  | [] => Ok []
  | signer :: signers =>
      match AllowedSigner_toProto signer with
      | Err err => Err err
      | Ok protoSigner => rest ← allowed_signers signers; Ok (protoSigner :: rest)
      end
  end.

(** [exp] and [iat] are uint64 values. *)
Definition natsJwtValidationFromProto (r : ValidateNatsJwtResponse) : NatsJwtValidation :=
  let exp := ValidateNatsJwtResponse_ExpiresAtUnix r in
  let iat := ValidateNatsJwtResponse_IssuedAtUnix r in
  mkNatsJwtValidation (ValidateNatsJwtResponse_Valid r) (ValidateNatsJwtResponse_Reason r)
    (ValidateNatsJwtResponse_Subject r) (ValidateNatsJwtResponse_Issuer r)
    (ValidateNatsJwtResponse_MatchedSignerKeyId r) (ValidateNatsJwtResponse_JwtType r)
    (if decide (exp <> 0) then time_Unix (wraps 64 exp) else zeroTime)
    (if decide (iat <> 0) then time_Unix (wraps 64 iat) else zeroTime).

Section conversions.
Context `{WK : WellKnown} `{JE : JsonEncoder}.

Definition durationOrNil (d : Z) : option pbDuration :=
  if decide (d <= 0) then None else Some (durationpb_New d).

Definition timestampOrNil (t : Time) : option pbTimestamp :=
  if IsZero t then None else Some (timestamppb_New t).

Definition credentialFromProto (r : CredentialResponse) : Credential :=
  mkCredential (CredentialResponse_Token r)
    (match CredentialResponse_ExpiresAt r with
     | Some ts => AsTime ts
     | None => zeroTime
     end).

Definition objectJSON (value : option any) (label : string) : result error bytes :=
  match value with
  | None => Err (Errorf "basil: invalid %s: missing JSON object" [AStr (str label)])
  | Some value =>
      let encoded :=
        match value with
        | AnyRawMessage v | AnyBytes v | AnyString v => Ok v
        | AnyOther v =>
            match json_Marshal v with
            | Err err => Err (Wrapf "basil: invalid %s: %w" [AStr (str label)] err)
            | Ok encoded => Ok encoded
            end
        end in
      match encoded with
      | Err err => Err err
      | Ok raw =>
          let raw := TrimSpace raw in
          if decide (len raw = 0) then
            Err (Errorf "basil: invalid %s: missing JSON object" [AStr (str label)])
          else if negb (json_Valid raw) then
            Err (Errorf "basil: invalid %s: malformed JSON" [AStr (str label)])
          else if decide (head raw <> Some x7b) then
            Err (Errorf "basil: invalid %s: expected JSON object" [AStr (str label)])
          else Ok raw
      end
  end.

(** The nil slice, like the empty one, sends no claims. *)
Definition optionalObjectJSON (value : option any) (label : string) : result error bytes :=
  match value with
  | None => Ok []
  | Some _ => objectJSON value label
  end.
End conversions.

(** ** Methods *)

Section minting.
Context `{Gr : Grpc} `{GS : GrpcStatus} `{WK : WellKnown} `{JE : JsonEncoder}.

(** The stub call inside a closure passed to [mint]: its error is not
    normalised yet. *)
Definition stub {Req Resp} (m : method Req Resp) (c : Client) (req : Req) (ctx : context) : rpc Resp :=
  fun b => Invoke m (conn c) ctx req [] b.

Definition mint (c : Client) (ctx : context) (call : context -> rpc CredentialResponse)
    : rpc Credential :=
  ctx ← withTimeout c ctx;
  (fun b => match call ctx b with
            | (Err err, b) => (Err (statusError err), b)
            | (Ok resp, b) => (Ok (credentialFromProto resp), b)
            end) : rpc Credential.

Definition MintJwt (c : Client) (ctx : context) (req : JwtRequest) : rpc Credential :=
  match optionalObjectJSON (jr_Claims req) "jwt claims" with
  | Err err => rpc_fail err
  | Ok claimsJSON =>
      mint c ctx (stub MintingService_MintJwt c
        (mkMintJwtRequest (jr_KeyID req) (nonEmpty (jr_Subject req)) (durationOrNil (jr_TTL req))
          claimsJSON))
  end.

Record NatsClient := mkNatsClient { nats_c : Client }.
Definition Nats (c : Client) : NatsClient := mkNatsClient c.

Definition NatsClient_MintNatsUser (n : NatsClient) (ctx : context) (req : NatsUserRequest)
    : rpc Credential :=
  mint (nats_c n) ctx (stub NatsService_MintNatsUser (nats_c n)
    (mkMintNatsUserRequest (nu_KeyID req) (nu_SubjectUserNKey req) (nu_Name req)
      (durationOrNil (nu_TTL req)) (nu_PubAllow req) (nu_PubDeny req) (nu_SubAllow req)
      (nu_SubDeny req) (nonEmpty (nu_IssuerAccount req)))).
Definition MintNatsUser (c : Client) := NatsClient_MintNatsUser (Nats c).

Definition NatsClient_MintNatsAccount (n : NatsClient) (ctx : context) (req : NatsAccountRequest)
    : rpc Credential :=
  mint (nats_c n) ctx (stub NatsService_MintNatsAccount (nats_c n)
    (mkMintNatsAccountRequest (na_KeyID req) (na_SubjectAccountNKey req) (na_Name req)
      (durationOrNil (na_TTL req)) (na_SigningKeys req))).
Definition MintNatsAccount (c : Client) := NatsClient_MintNatsAccount (Nats c).

Definition NatsClient_MintNatsOperator (n : NatsClient) (ctx : context) (req : NatsOperatorRequest)
    : rpc Credential :=
  mint (nats_c n) ctx (stub NatsService_MintNatsOperator (nats_c n)
    (mkMintNatsOperatorRequest (no_KeyID req) (nonEmpty (no_SubjectOperatorNKey req)) (no_Name req)
      (durationOrNil (no_TTL req)) (no_SigningKeys req) (nonEmpty (no_AccountServerURL req))
      (nonEmpty (no_SystemAccount req)))).
Definition MintNatsOperator (c : Client) := NatsClient_MintNatsOperator (Nats c).

Definition NatsClient_MintNatsSigner (n : NatsClient) (ctx : context) (req : NatsSignerRequest)
    : rpc Credential :=
  mint (nats_c n) ctx (stub NatsService_MintNatsSigner (nats_c n)
    (mkMintNatsSignerRequest (ns_KeyID req) (ns_SubjectNKey req) (ns_Name req)
      (durationOrNil (ns_TTL req)))).
Definition MintNatsSigner (c : Client) := NatsClient_MintNatsSigner (Nats c).

Definition NatsClient_MintNatsServer (n : NatsClient) (ctx : context) (req : NatsServerRequest)
    : rpc Credential :=
  mint (nats_c n) ctx (stub NatsService_MintNatsServer (nats_c n)
    (mkMintNatsServerRequest (nv_KeyID req) (nv_SubjectServerNKey req) (nv_Name req)
      (durationOrNil (nv_TTL req)))).
Definition MintNatsServer (c : Client) := NatsClient_MintNatsServer (Nats c).

Definition NatsClient_MintNatsCurve (n : NatsClient) (ctx : context) (req : NatsCurveRequest)
    : rpc Credential :=
  mint (nats_c n) ctx (stub NatsService_MintNatsCurve (nats_c n)
    (mkMintNatsCurveRequest (nc_KeyID req) (nc_SubjectCurveNKey req) (nc_Name req)
      (durationOrNil (nc_TTL req)))).
Definition MintNatsCurve (c : Client) := NatsClient_MintNatsCurve (Nats c).

Definition NatsClient_EncryptNatsCurve (n : NatsClient) (ctx : context)
    (req : NatsCurveEncryptRequest) : rpc bytes :=
  ctx ← withTimeout (nats_c n) ctx;
  resp ← call NatsService_EncryptNatsCurve (nats_c n) ctx
    (mkEncryptNatsCurveRequest (ce_KeyID req) (ce_RecipientPublicXKey req) (ce_Plaintext req));
  mret (EncryptNatsCurveResponse_Ciphertext resp).
Definition EncryptNatsCurve (c : Client) := NatsClient_EncryptNatsCurve (Nats c).

Definition NatsClient_DecryptNatsCurve (n : NatsClient) (ctx : context)
    (req : NatsCurveDecryptRequest) : rpc bytes :=
  ctx ← withTimeout (nats_c n) ctx;
  resp ← call NatsService_DecryptNatsCurve (nats_c n) ctx
    (mkDecryptNatsCurveRequest (cd_KeyID req) (cd_SenderPublicXKey req) (cd_Ciphertext req));
  mret (DecryptNatsCurveResponse_Plaintext resp).
Definition DecryptNatsCurve (c : Client) := NatsClient_DecryptNatsCurve (Nats c).

Definition NatsClient_SignNatsJwt (n : NatsClient) (ctx : context) (req : NatsJwtRequest)
    : rpc Credential :=
  match objectJSON (nj_Claims req) "nats jwt claims" with
  | Err err => rpc_fail err
  | Ok claimsJSON =>
      mint (nats_c n) ctx (stub NatsService_SignNatsJwt (nats_c n)
        (mkSignNatsJwtRequest (nj_KeyID req) claimsJSON (nj_ExpectedType req)
          (durationOrNil (nj_TTL req)) (timestampOrNil (nj_ExpiresAt req))
          (timestampOrNil (nj_IssuedAt req)) (nj_JtiMode req)))
  end.
Definition SignNatsJwt (c : Client) := NatsClient_SignNatsJwt (Nats c).

Definition NatsClient_ValidateNatsJwt (n : NatsClient) (ctx : context) (req : ValidateRequest)
    : rpc NatsJwtValidation :=
  match allowed_signers (vr_AllowedSigners req) with
  | Err err => rpc_fail err
  | Ok allowed =>
      ctx ← withTimeout (nats_c n) ctx;
      resp ← call NatsService_ValidateNatsJwt (nats_c n) ctx
        (mkValidateNatsJwtRequest (vr_JWT req) allowed (vr_ExpectedType req));
      mret (natsJwtValidationFromProto resp)
  end.
Definition ValidateNatsJwt (c : Client) := NatsClient_ValidateNatsJwt (Nats c).

Definition IssueCertificate (c : Client) (ctx : context) (req : CertificateRequest)
    : rpc Certificate :=
  ctx ← withTimeout c ctx;
  resp ← call MintingService_IssueCertificate c ctx
    (mkIssueCertificateRequest (cr_IssuerKeyID req) (cr_CommonName req) (cr_DNSSANs req)
      (cr_IPSANs req) (durationOrNil (cr_TTL req)));
  mret (mkCertificate (IssueCertificateResponse_CertChainDer resp)
    (IssueCertificateResponse_PrivateKeyDer resp) (IssueCertificateResponse_CaChainDer resp)).

Lemma mint_eq c ctx (m : context -> rpc CredentialResponse) b :
  mint c ctx m b =
    match m (effective c ctx b) b with
    | (Ok resp, b') => (Ok (credentialFromProto resp), b')
    | (Err err, b') => (Err (statusError err), b')
    end.
Proof.
  unfold mint. rewrite (rpc_bind_Ok _ _ _ _ _ (withTimeout_eq c ctx b)).
  by destruct (m _ _) as [[] ?].
Qed.
End minting.
