(* ===== verification/Admin.v ===== *)
(** [basil/admin.go]: broker introspection and administration, and the stream of
    change events. *)

From stdpp Require Import pretty.
From S2P Require Import Prelude GoTime GoError Errors Pb Client Minting.

Definition ReadinessReasonUnspecified : Z := 0.
Definition ReadinessReasonReady : Z := 1.
Definition ReadinessReasonBackendUnreachable : Z := 2.
Definition ReadinessReasonRequiredKeyMissing : Z := 3.

(** [basil.Status], [Health] and [Readiness]. *)
Record BrokerStatus := mkBrokerStatus { bs_Backend : bytes; bs_Version : bytes; bs_Protocol : Z }.
Record BrokerHealth := mkBrokerHealth { bh_Alive : bool; bh_Version : bytes }.
Record BrokerReadiness := mkBrokerReadiness {
  rd_Ready : bool;
  rd_Reason : Z;
  rd_Generation : Z;
  rd_KeysTotal : Z;
  rd_KeysPresent : Z;
  rd_KeysRequiredMissing : Z;
  rd_KeysOptionalMissing : Z;
}.

(** [basil.ReloadRejection] and [ReloadResult]. *)
Record Rejection := mkRejection { rej_Reason : bytes; rej_Message : bytes }.
Record ReloadResult := mkReloadResult {
  rl_Applied : bool;
  rl_Checked : bool;
  rl_PreviousGeneration : Z;
  rl_NewGeneration : Z;
  rl_KeyCount : Z;
  rl_GrantCount : Z;
  rl_Rejection : option Rejection;
}.

(** [basil.MatchedRule] and [ExplainResult]. *)
Record RuleMatch := mkRuleMatch {
  rm_Rule : bytes;
  rm_Via : bytes;
  rm_Action : bytes;
  rm_Target : bytes;
  rm_Subject : bytes;
}.
Record ExplainResult := mkExplainResult {
  ex_Subject : bytes;
  ex_Op : bytes;
  ex_Key : bytes;
  ex_Decision : bytes;
  ex_Via : bytes;
  ex_Reason : bytes;
  ex_MatchedRule : option RuleMatch;
}.

Record RevokeResult := mkRevokeResult {
  rv_TrustDomain : bytes;
  rv_JTI : bytes;
  rv_ExpiresAtUnix : Z;
  rv_Persisted : bool;
}.

Definition EventKindUnspecified : Z := 0.
Definition EventKindKeyRotated : Z := 1.
Definition EventKindBundleChanged : Z := 2.
Definition EventKindRevoked : Z := 3.

(** [basil.KeyRotated], [BundleChanged], [Revoked] and [Event]. *)
Record RotatedKey := mkRotatedKey { rk_KeyID : bytes; rk_NewVersion : Z }.
Record ChangedBundle := mkChangedBundle { cb_TrustDomain : bytes }.
Record RevokedCredential := mkRevokedCredential { rc_TrustDomain : bytes; rc_ID : bytes }.
Record WatchEvent := mkWatchEvent {
  we_Kind : Z;
  we_At : Time;
  we_KeyRotated : option RotatedKey;
  we_BundleChanged : option ChangedBundle;
  we_Revoked : option RevokedCredential;
}.

(** The generated getters of the [detail] oneof. *)
Definition Event_GetKeyRotated (ev : Event) : option KeyRotated :=
  match Event_Detail ev with Some (Event_KeyRotated d) => Some d | _ => None end.
Definition Event_GetBundleChanged (ev : Event) : option BundleChanged :=
  match Event_Detail ev with Some (Event_BundleChanged d) => Some d | _ => None end.
Definition Event_GetRevoked (ev : Event) : option Revoked :=
  match Event_Detail ev with Some (Event_Revoked d) => Some d | _ => None end.

Definition EXPLAIN_DECISION_ALLOW : Z := 1.
Definition EXPLAIN_DECISION_DENY : Z := 2.

Definition explainDecision (decision : Z) : bytes :=
  if decide (decision = EXPLAIN_DECISION_ALLOW) then str "allow"
  else if decide (decision = EXPLAIN_DECISION_DENY) then str "deny"
  else str "UNKNOWN(" ++ str (pretty decision) ++ str ")".

Definition eventFromProto `{WK : WellKnown} (ev : Event) : WatchEvent :=
  mkWatchEvent (Event_Kind ev)
    (match Event_At ev with Some ts => AsTime ts | None => zeroTime end)
    ((fun kr => mkRotatedKey (KeyRotated_KeyId kr) (KeyRotated_NewVersion kr)) <$> Event_GetKeyRotated ev)
    ((fun bc => mkChangedBundle (BundleChanged_TrustDomain bc)) <$> Event_GetBundleChanged ev)
    ((fun rv => mkRevokedCredential (Revoked_TrustDomain rv) (Revoked_Id rv)) <$> Event_GetRevoked ev).

(** ** Cancellation

    [context_WithCancel] is [context.WithCancel]; [cancel] calls a
    [CancelFunc]. *)
Class Cancellation `{Gr : Grpc} := {
  CancelFunc : Type;
  context_WithCancel : context -> B -> context * CancelFunc * B;
  cancel : CancelFunc -> B -> B;
}.

(** The derived context keeps the deadline, and only the first call of a
    [CancelFunc] does something. *)
Class CancellationLaws `{C : Cancellation} := {
  WithCancel_Deadline : forall ctx b ctx' f b', context_WithCancel ctx b = (ctx', f, b') ->
    Deadline ctx' = Deadline ctx;
  cancel_idempotent : forall f b, cancel f (cancel f b) = cancel f b;
}.

Section admin.
Context `{Gr : Grpc} `{GS : GrpcStatus} `{WK : WellKnown}.

(** [Client.Status] *)
Definition GetStatus (c : Client) (ctx : context) : rpc BrokerStatus :=
  ctx ← withTimeout c ctx;
  resp ← call AdminService_Status c ctx mkStatusRequest;
  mret (mkBrokerStatus (StatusResponse_Backend resp) (StatusResponse_Version resp)
    (StatusResponse_Protocol resp)).

Definition Health (c : Client) (ctx : context) : rpc BrokerHealth :=
  ctx ← withTimeout c ctx;
  resp ← call AdminService_Health c ctx mkHealthRequest;
  mret (mkBrokerHealth (HealthResponse_Alive resp) (HealthResponse_Version resp)).

Definition Readiness (c : Client) (ctx : context) : rpc BrokerReadiness :=
  ctx ← withTimeout c ctx;
  resp ← call AdminService_Readiness c ctx mkReadinessRequest;
  mret (mkBrokerReadiness (ReadinessResponse_Ready resp) (ReadinessResponse_Reason resp)
    (ReadinessResponse_Generation resp) (ReadinessResponse_KeysTotal resp)
    (ReadinessResponse_KeysPresent resp) (ReadinessResponse_KeysRequiredMissing resp)
    (ReadinessResponse_KeysOptionalMissing resp)).

Definition Reload (c : Client) (ctx : context) (check : bool) : rpc ReloadResult :=
  ctx ← withTimeout c ctx;
  resp ← call AdminService_Reload c ctx (mkReloadRequest check);
  mret (mkReloadResult (ReloadResponse_Applied resp) (ReloadResponse_Checked resp)
    (ReloadResponse_PreviousGeneration resp) (ReloadResponse_NewGeneration resp)
    (ReloadResponse_KeyCount resp) (ReloadResponse_GrantCount resp)
    ((fun r => mkRejection (ReloadRejection_Reason r) (ReloadRejection_Message r))
     <$> ReloadResponse_Rejection resp)).

Definition Explain (c : Client) (ctx : context) (subject op key : bytes) : rpc ExplainResult :=
  ctx ← withTimeout c ctx;
  resp ← call AdminService_Explain c ctx (mkExplainRequest subject op key);
  mret (mkExplainResult (ExplainResponse_Subject resp) (ExplainResponse_Op resp)
    (ExplainResponse_Key resp) (explainDecision (ExplainResponse_Decision resp))
    (ExplainResponse_Via resp) (ExplainResponse_Reason resp)
    ((fun m => mkRuleMatch (MatchedRule_Rule m) (MatchedRule_Via m) (MatchedRule_Action m)
       (MatchedRule_Target m) (MatchedRule_Subject m)) <$> ExplainResponse_MatchedRule resp)).

Definition Revoke (c : Client) (ctx : context) (trustDomain jti : bytes) (expiresAtUnix : Z)
    : rpc RevokeResult :=
  ctx ← withTimeout c ctx;
  resp ← call AdminService_Revoke c ctx (mkRevokeRequest trustDomain jti expiresAtUnix);
  mret (mkRevokeResult (RevokeResponse_TrustDomain resp) (RevokeResponse_Jti resp)
    (RevokeResponse_ExpiresAtUnix resp) (RevokeResponse_Persisted resp)).

(** ** The event stream *)

Context {Ca : Cancellation}.

Record WatchStream := mkWatchStream { ws_stream : Stream Event; ws_cancel : CancelFunc }.

(** [WatchStream.Recv]; an error ends the use of the stream. *)
Definition WatchStream_Recv (s : WatchStream) : rpc (WatchEvent * WatchStream) := fun b =>
  match Recv (ws_stream s) b with
  | (Err err, b) => if Is err EOF then (Err EOF, b) else (Err (statusError err), b)
  | (Ok (msg, stream), b) => (Ok (eventFromProto msg, mkWatchStream stream (ws_cancel s)), b)
  end.

(** The loop of the iterator [WatchStream.Events], with one unit of fuel per
    message. [yield] is the caller's loop body, over its own state [Y]; it may
    act on the world too. *)
Fixpoint Events {Y} (fuel : nat) (yield : option WatchEvent * option error -> Y -> B -> bool * Y * B)
    (s : WatchStream) (y : Y) : rpc Y := fun b =>
  match fuel with
  | O => (Err OutOfFuel, b)
  | S fuel =>
      match WatchStream_Recv s b with
      | (Err err, b) =>
          if negb (Is err EOF) then let '(_, y, b) := yield (None, Some err) y b in (Ok y, b)
          else (Ok y, b)
      | (Ok (ev, s), b) =>
          let '(continue, y, b) := yield (Some ev, None) y b in
          if negb continue then (Ok y, b) else Events fuel yield s y b
      end
  end.

(** [WatchStream.Close] *)
Definition WatchStream_Close (s : WatchStream) : B -> option error * B := fun b =>
  (None, cancel (ws_cancel s) b).

Definition Watch (c : Client) (ctx : context) (kinds : list Z) : rpc WatchStream := fun b =>
  let '(streamCtx, cancelFunc, b) := context_WithCancel ctx b in
  let pbKinds := map (fun k => k) kinds in
  match NewStream AdminService_Watch (conn c) streamCtx (mkWatchRequest pbKinds) b with
  | (Err err, b) => (Err (statusError err), cancel cancelFunc b)
  | (Ok stream, b) => (Ok (mkWatchStream stream cancelFunc), b)
  end.
End admin.
