(* ===== verification/Enums.v ===== *)
(** The names of the wire's enumerations, which the [String] methods of package
    [basil] print: the tables of src/internal/pb, and the constants of the client
    they belong to. *)

From stdpp Require Import pretty.
From S2P Require Import Prelude Keytype Aead Secret Minting Admin.

(** ** The tables *)

Definition KeyType_name : list (Z * string) :=
  [(0, "KEY_TYPE_UNSPECIFIED"); (1, "KEY_TYPE_ED25519"); (2, "KEY_TYPE_ED25519_NKEY");
   (3, "KEY_TYPE_RSA_2048"); (10, "KEY_TYPE_ECDSA_P256"); (11, "KEY_TYPE_ECDSA_P384");
   (12, "KEY_TYPE_ECDSA_P521"); (4, "KEY_TYPE_ML_DSA_44"); (5, "KEY_TYPE_ML_DSA_65");
   (6, "KEY_TYPE_ML_DSA_87"); (7, "KEY_TYPE_ML_KEM_512"); (8, "KEY_TYPE_ML_KEM_768");
   (9, "KEY_TYPE_ML_KEM_1024")].
Definition KeyType_value : list (string * Z) :=
  [("KEY_TYPE_UNSPECIFIED", 0); ("KEY_TYPE_ED25519", 1); ("KEY_TYPE_ED25519_NKEY", 2);
   ("KEY_TYPE_RSA_2048", 3); ("KEY_TYPE_ECDSA_P256", 10); ("KEY_TYPE_ECDSA_P384", 11);
   ("KEY_TYPE_ECDSA_P521", 12); ("KEY_TYPE_ML_DSA_44", 4); ("KEY_TYPE_ML_DSA_65", 5);
   ("KEY_TYPE_ML_DSA_87", 6); ("KEY_TYPE_ML_KEM_512", 7); ("KEY_TYPE_ML_KEM_768", 8);
   ("KEY_TYPE_ML_KEM_1024", 9)].
Definition SigningAlgorithm_name : list (Z * string) :=
  [(0, "SIGNING_ALGORITHM_UNSPECIFIED"); (1, "SIGNING_ALGORITHM_ED25519");
   (2, "SIGNING_ALGORITHM_ED25519_NKEY"); (3, "SIGNING_ALGORITHM_RS256");
   (7, "SIGNING_ALGORITHM_ES256"); (4, "SIGNING_ALGORITHM_ML_DSA_44");
   (5, "SIGNING_ALGORITHM_ML_DSA_65"); (6, "SIGNING_ALGORITHM_ML_DSA_87")].
Definition SigningAlgorithm_value : list (string * Z) :=
  [("SIGNING_ALGORITHM_UNSPECIFIED", 0); ("SIGNING_ALGORITHM_ED25519", 1);
   ("SIGNING_ALGORITHM_ED25519_NKEY", 2); ("SIGNING_ALGORITHM_RS256", 3);
   ("SIGNING_ALGORITHM_ES256", 7); ("SIGNING_ALGORITHM_ML_DSA_44", 4);
   ("SIGNING_ALGORITHM_ML_DSA_65", 5); ("SIGNING_ALGORITHM_ML_DSA_87", 6)].
Definition NatsJwtType_name : list (Z * string) :=
  [(0, "NATS_JWT_TYPE_UNSPECIFIED"); (1, "NATS_JWT_TYPE_USER"); (2, "NATS_JWT_TYPE_ACCOUNT");
   (3, "NATS_JWT_TYPE_OPERATOR"); (4, "NATS_JWT_TYPE_SIGNER"); (5, "NATS_JWT_TYPE_SERVER");
   (6, "NATS_JWT_TYPE_CURVE")].
Definition NatsJwtType_value : list (string * Z) :=
  [("NATS_JWT_TYPE_UNSPECIFIED", 0); ("NATS_JWT_TYPE_USER", 1); ("NATS_JWT_TYPE_ACCOUNT", 2);
   ("NATS_JWT_TYPE_OPERATOR", 3); ("NATS_JWT_TYPE_SIGNER", 4); ("NATS_JWT_TYPE_SERVER", 5);
   ("NATS_JWT_TYPE_CURVE", 6)].
Definition NatsJtiMode_name : list (Z * string) :=
  [(0, "NATS_JTI_MODE_REQUIRE_VALID"); (1, "NATS_JTI_MODE_REWRITE")].
Definition NatsJtiMode_value : list (string * Z) :=
  [("NATS_JTI_MODE_REQUIRE_VALID", 0); ("NATS_JTI_MODE_REWRITE", 1)].
Definition NatsJwtValidationReason_name : list (Z * string) :=
  [(0, "NATS_JWT_VALIDATION_REASON_UNSPECIFIED"); (1, "NATS_JWT_VALIDATION_REASON_VALID");
   (2, "NATS_JWT_VALIDATION_REASON_MALFORMED"); (3, "NATS_JWT_VALIDATION_REASON_BAD_SIGNATURE");
   (4, "NATS_JWT_VALIDATION_REASON_UNKNOWN_SIGNER"); (5, "NATS_JWT_VALIDATION_REASON_EXPIRED");
   (6, "NATS_JWT_VALIDATION_REASON_NOT_YET_VALID"); (7, "NATS_JWT_VALIDATION_REASON_WRONG_TYPE")].
Definition NatsJwtValidationReason_value : list (string * Z) :=
  [("NATS_JWT_VALIDATION_REASON_UNSPECIFIED", 0); ("NATS_JWT_VALIDATION_REASON_VALID", 1);
   ("NATS_JWT_VALIDATION_REASON_MALFORMED", 2); ("NATS_JWT_VALIDATION_REASON_BAD_SIGNATURE", 3);
   ("NATS_JWT_VALIDATION_REASON_UNKNOWN_SIGNER", 4); ("NATS_JWT_VALIDATION_REASON_EXPIRED", 5);
   ("NATS_JWT_VALIDATION_REASON_NOT_YET_VALID", 6); ("NATS_JWT_VALIDATION_REASON_WRONG_TYPE", 7)].
Definition AeadAlgorithm_name : list (Z * string) :=
  [(0, "AEAD_ALGORITHM_UNSPECIFIED"); (1, "AEAD_ALGORITHM_CHACHA20_POLY1305");
   (2, "AEAD_ALGORITHM_AES_256_GCM")].
Definition AeadAlgorithm_value : list (string * Z) :=
  [("AEAD_ALGORITHM_UNSPECIFIED", 0); ("AEAD_ALGORITHM_CHACHA20_POLY1305", 1);
   ("AEAD_ALGORITHM_AES_256_GCM", 2)].
Definition KemAlgorithm_name : list (Z * string) :=
  [(0, "KEM_ALGORITHM_UNSPECIFIED"); (1, "KEM_ALGORITHM_ML_KEM_512");
   (2, "KEM_ALGORITHM_ML_KEM_768"); (3, "KEM_ALGORITHM_ML_KEM_1024"); (4, "KEM_ALGORITHM_X25519")].
Definition KemAlgorithm_value : list (string * Z) :=
  [("KEM_ALGORITHM_UNSPECIFIED", 0); ("KEM_ALGORITHM_ML_KEM_512", 1);
   ("KEM_ALGORITHM_ML_KEM_768", 2); ("KEM_ALGORITHM_ML_KEM_1024", 3); ("KEM_ALGORITHM_X25519", 4)].
Definition EnvelopeAlgorithm_name : list (Z * string) :=
  [(0, "ENVELOPE_ALGORITHM_UNSPECIFIED"); (1, "ENVELOPE_ALGORITHM_AES_256_GCM");
   (2, "ENVELOPE_ALGORITHM_CHACHA20_POLY1305")].
Definition EnvelopeAlgorithm_value : list (string * Z) :=
  [("ENVELOPE_ALGORITHM_UNSPECIFIED", 0); ("ENVELOPE_ALGORITHM_AES_256_GCM", 1);
   ("ENVELOPE_ALGORITHM_CHACHA20_POLY1305", 2)].
Definition CatalogKind_name : list (Z * string) :=
  [(0, "CATALOG_KIND_UNSPECIFIED"); (1, "CATALOG_KIND_SIGNING"); (2, "CATALOG_KIND_VALUE");
   (3, "CATALOG_KIND_ENCRYPTION")].
Definition CatalogKind_value : list (string * Z) :=
  [("CATALOG_KIND_UNSPECIFIED", 0); ("CATALOG_KIND_SIGNING", 1); ("CATALOG_KIND_VALUE", 2);
   ("CATALOG_KIND_ENCRYPTION", 3)].
Definition ReadinessReason_name : list (Z * string) :=
  [(0, "READINESS_REASON_UNSPECIFIED"); (1, "READINESS_REASON_READY");
   (2, "READINESS_REASON_BACKEND_UNREACHABLE"); (3, "READINESS_REASON_REQUIRED_KEY_MISSING")].
Definition ReadinessReason_value : list (string * Z) :=
  [("READINESS_REASON_UNSPECIFIED", 0); ("READINESS_REASON_READY", 1);
   ("READINESS_REASON_BACKEND_UNREACHABLE", 2); ("READINESS_REASON_REQUIRED_KEY_MISSING", 3)].
Definition EventKind_name : list (Z * string) :=
  [(0, "EVENT_KIND_UNSPECIFIED"); (1, "EVENT_KIND_KEY_ROTATED"); (2, "EVENT_KIND_BUNDLE_CHANGED");
   (3, "EVENT_KIND_REVOKED")].
Definition EventKind_value : list (string * Z) :=
  [("EVENT_KIND_UNSPECIFIED", 0); ("EVENT_KIND_KEY_ROTATED", 1); ("EVENT_KIND_BUNDLE_CHANGED", 2);
   ("EVENT_KIND_REVOKED", 3)].

(** [protoimpl.X.EnumStringOf] on the enumeration with these names. *)
Class Protoimpl := { EnumStringOf : list (Z * string) -> Z -> bytes }.

(** The documented behaviour: the name of a number that has one, and any other
    number in decimal. *)
Class ProtoimplLaws (Pi : Protoimpl) := {
  EnumStringOf_name : forall names n s, NoDup names.*1 -> (n, s) ∈ names -> EnumStringOf names n = str s;
  EnumStringOf_number : forall names n, n ∉ names.*1 -> EnumStringOf names n = str (pretty n);
}.

Section strings.
Context {Pi : Protoimpl}.

Definition KeyType_String (v : Z) : bytes := EnumStringOf KeyType_name v.
Definition SigningAlgorithm_String (v : Z) : bytes := EnumStringOf SigningAlgorithm_name v.
Definition NatsJwtType_String (v : Z) : bytes := EnumStringOf NatsJwtType_name v.
Definition NatsJtiMode_String (v : Z) : bytes := EnumStringOf NatsJtiMode_name v.
Definition NatsJwtValidationReason_String (v : Z) : bytes := EnumStringOf NatsJwtValidationReason_name v.
Definition AeadAlgorithm_String (v : Z) : bytes := EnumStringOf AeadAlgorithm_name v.
Definition KemAlgorithm_String (v : Z) : bytes := EnumStringOf KemAlgorithm_name v.
Definition EnvelopeAlgorithm_String (v : Z) : bytes := EnumStringOf EnvelopeAlgorithm_name v.
Definition CatalogKind_String (v : Z) : bytes := EnumStringOf CatalogKind_name v.
Definition ReadinessReason_String (v : Z) : bytes := EnumStringOf ReadinessReason_name v.
Definition EventKind_String (v : Z) : bytes := EnumStringOf EventKind_name v.

(** An enumeration: its tables, its [String] method, and the constants of the
    client in the order of the names. *)
Record enum := mkEnum {
  en_name : list (Z * string);
  en_value : list (string * Z);
  en_String : Z -> bytes;
  en_constants : list Z;
}.

Definition enums : list enum :=
  [mkEnum KeyType_name KeyType_value KeyType_String
     [KeyTypeUnspecified; KeyTypeEd25519; KeyTypeEd25519NKey; KeyTypeRSA2048; KeyTypeECDSAP256;
      KeyTypeECDSAP384; KeyTypeECDSAP521; KeyTypeMLDSA44; KeyTypeMLDSA65; KeyTypeMLDSA87;
      KeyTypeMLKEM512; KeyTypeMLKEM768; KeyTypeMLKEM1024];
   mkEnum SigningAlgorithm_name SigningAlgorithm_value SigningAlgorithm_String
     [SigningAlgorithmUnspecified; SigningAlgorithmEd25519; SigningAlgorithmEd25519NKey;
      SigningAlgorithmRS256; SigningAlgorithmES256; SigningAlgorithmMLDSA44;
      SigningAlgorithmMLDSA65; SigningAlgorithmMLDSA87];
   mkEnum NatsJwtType_name NatsJwtType_value NatsJwtType_String
     [NatsJwtTypeUnspecified; NatsJwtTypeUser; NatsJwtTypeAccount; NatsJwtTypeOperator;
      NatsJwtTypeSigner; NatsJwtTypeServer; NatsJwtTypeCurve];
   mkEnum NatsJtiMode_name NatsJtiMode_value NatsJtiMode_String
     [NatsJtiModeRequireValid; NatsJtiModeRewrite];
   mkEnum NatsJwtValidationReason_name NatsJwtValidationReason_value NatsJwtValidationReason_String
     [NatsJwtValidationReasonUnknown; NatsJwtValidationReasonValid;
      NatsJwtValidationReasonMalformed; NatsJwtValidationReasonBadSignature;
      NatsJwtValidationReasonUnknownSigner; NatsJwtValidationReasonExpired;
      NatsJwtValidationReasonNotYetValid; NatsJwtValidationReasonWrongType];
   mkEnum AeadAlgorithm_name AeadAlgorithm_value AeadAlgorithm_String
     [AeadAlgorithmUnspecified; AeadAlgorithmChaCha20Poly1305; AeadAlgorithmAES256GCM];
   mkEnum KemAlgorithm_name KemAlgorithm_value KemAlgorithm_String
     [KemAlgorithmUnspecified; KemAlgorithmMLKEM512; KemAlgorithmMLKEM768; KemAlgorithmMLKEM1024;
      KemAlgorithmX25519];
   mkEnum EnvelopeAlgorithm_name EnvelopeAlgorithm_value EnvelopeAlgorithm_String
     [EnvelopeAlgorithmUnspecified; EnvelopeAlgorithmAES256GCM; EnvelopeAlgorithmChaCha20Poly1305];
   mkEnum CatalogKind_name CatalogKind_value CatalogKind_String
     [CatalogKindUnspecified; CatalogKindSigning; CatalogKindValue; CatalogKindEncryption];
   mkEnum ReadinessReason_name ReadinessReason_value ReadinessReason_String
     [ReadinessReasonUnspecified; ReadinessReasonReady; ReadinessReasonBackendUnreachable;
      ReadinessReasonRequiredKeyMissing];
   mkEnum EventKind_name EventKind_value EventKind_String
     [EventKindUnspecified; EventKindKeyRotated; EventKindBundleChanged; EventKindRevoked]].

(** *** Names are not numbers *)

Definition is_digit_or_dash (a : Ascii.ascii) : bool :=
  let n := Ascii.nat_of_ascii a in ((48 <=? n) && (n <=? 57) || (n =? 45))%nat.

Definition first_is (f : Ascii.ascii -> bool) (s : string) : bool :=
  match s with String a _ => f a | EmptyString => false end.

Lemma pretty_N_char_digit n : is_digit_or_dash (pretty_N_char n) = true.
Proof. unfold pretty_N_char. by repeat case_match. Qed.

Lemma pretty_N_go_first n s : (0 < n)%N \/ first_is is_digit_or_dash s = true ->
  first_is is_digit_or_dash (pretty_N_go n s) = true.
Proof.
  revert s. induction (N.lt_wf_0 n) as [n _ IH]. intros s H.
  destruct (decide (n = 0)%N) as [->|Hn]; [rewrite pretty_N_go_0; destruct H; [lia|done]|].
  rewrite pretty_N_go_step by lia. apply IH; [apply N.div_lt; lia|]. right. apply pretty_N_char_digit.
Qed.

Lemma pretty_Z_first (z : Z) : first_is is_digit_or_dash (pretty z) = true.
Proof.
  destruct z as [|p|p]; [done| |done]. change (pretty (Z.pos p)) with (pretty (N.pos p)).
  unfold pretty, pretty_N. case_decide; [done|]. apply pretty_N_go_first. lia.
Qed.

Lemma NoDup_names (l : list (Z * string)) n m s : NoDup l.*2 -> (n, s) ∈ l -> (m, s) ∈ l -> n = m.
Proof.
  intros Hl (i & Hi)%list_elem_of_lookup (j & Hj)%list_elem_of_lookup.
  assert (i = j) as <- by (apply (NoDup_lookup _ _ _ s Hl); rewrite list_lookup_fmap; [by rewrite Hi|by rewrite Hj]).
  congruence.
Qed.

(** *** What is checked of every enumeration *)

Record enum_ok (e : enum) : Prop := {
  ok_String : forall v, en_String e v = EnumStringOf (en_name e) v;
  ok_numbers : NoDup (en_name e).*1;
  ok_names : NoDup (en_name e).*2;
  ok_not_number : Forall (fun s => first_is is_digit_or_dash s = false) (en_name e).*2;
  ok_value : en_value e = (fun '(n, s) => (s, n)) <$> en_name e;
  ok_constants : en_constants e = (en_name e).*1;
}.

Lemma enums_ok : Forall enum_ok enums.
Proof.
  unfold enums. repeat (apply Forall_cons; split; [|]); [..|apply Forall_nil; done];
    (split; [done|apply (bool_decide_unpack _); vm_compute; exact I..|vm_compute; reflexivity|vm_compute; reflexivity]).
Qed.

Context {PiL : ProtoimplLaws Pi}.

Lemma String_cases e n : enum_ok e ->
  (exists s, (n, s) ∈ en_name e /\ en_String e n = str s) \/ (en_String e n = str (pretty n) /\ n ∉ (en_name e).*1).
Proof.
  intros [Hs Hn _ _ _ _]. rewrite Hs. destruct (decide (n ∈ (en_name e).*1)) as [H|H].
  - left. apply list_elem_of_fmap in H as ([k s] & -> & H). exists s. split; [done|]. by apply EnumStringOf_name.
  - right. split; [|done]. by apply EnumStringOf_number.
Qed.

(** C39: the enumerations of the client. For each of its eleven enumerations:
    the two tables are inverse to each other; the constants of the client are
    exactly the numbers of the wire; [String] is the name of the wire for each of them,
    and for a number the broker may send beside them its decimal; and no two
    values print alike. *)
Theorem enum_strings e n m : e ∈ enums ->
  (forall s, (n, s) ∈ en_name e <-> (s, n) ∈ en_value e) /\
  en_constants e = (en_name e).*1 /\
  (forall s, (n, s) ∈ en_name e -> en_String e n = str s) /\
  (n ∉ en_constants e -> en_String e n = str (pretty n)) /\
  (en_String e n = en_String e m -> n = m).
Proof.
  intros He. pose proof (proj1 (Forall_forall _ _) enums_ok e He) as Hok. destruct Hok as [Hs Hn1 Hn2 Hd Hv Hc].
  assert (forall n s, (n, s) ∈ en_name e -> first_is is_digit_or_dash s = false) as Hd'.
  { intros k s H. rewrite Forall_forall in Hd. apply Hd, list_elem_of_fmap. by exists (k, s). }
  split_and!.
  - intros s. rewrite Hv, list_elem_of_fmap. split; [intros H; by exists (n, s)|by intros ([k t] & [= -> ->] & H)].
  - exact Hc.
  - intros s H. rewrite Hs. by apply EnumStringOf_name.
  - intros H. rewrite Hs. apply EnumStringOf_number. by rewrite <-Hc.
  - destruct (String_cases e n) as [(s & H1 & ->)|[-> _]]; [done| |];
      (destruct (String_cases e m) as [(t & H2 & ->)|[-> _]]; [done| |]); intros E%str_inj; subst.
    + by apply (NoDup_names (en_name e) n m t).
    + apply Hd' in H1. by rewrite pretty_Z_first in H1.
    + apply Hd' in H2. by rewrite pretty_Z_first in H2.
    + by apply (inj pretty).
Qed.
End strings.
