(* ===== verification/Nix.v ===== *)
(** [basil/nix_cache.go]: the Nix binary-cache key methods of the client, with
    the validation of what is sent and of what comes back. *)

From S2P Require Import Prelude GoText GoError Errors Pb Client.

Definition describeNixCacheKeyRequestMax : Z := 295.
Definition describeNixCacheKeyResponseMax : Z := 203.
Definition enrollNixCacheKeyRequestMax : Z := 295.
Definition enrollNixCacheKeyResponseMax : Z := 205.
Definition signNixCacheFingerprintRequestMax : Z := 524939.
Definition signNixCacheFingerprintResponseMax : Z := 269.
Definition nixCacheFingerprintMax : Z := 524626.

Record NixCacheKey := mkNixCacheKey {
  KeyName : bytes;
  nix_PublicKey : bytes;        (* [32]byte *)
  BackendVersion : Z;           (* uint32 *)
}.

Definition NixCacheEnrollmentCreated : Z := 1.
Definition NixCacheEnrollmentExisting : Z := 2.

Record NixCacheEnrollment := mkNixCacheEnrollment { enr_Key : NixCacheKey; Disposition : Z }.
Record NixCacheSignature := mkNixCacheSignature { sig_Key : NixCacheKey; Signature : bytes (* [64]byte *) }.

(** ** Validators *)

Definition is_control (b : byte) : bool := (byte_val b <? 0x20) || (byte_val b =? 0x7f).

Definition allZero16 (value : bytes) : bool := forallb (fun octet => bool_decide (octet = x00)) value.

Definition is_alnum (b : byte) : bool :=
  in_range 65 90 b || in_range 97 122 b || in_range 48 57 b.

(** The loop of [validNixCacheKeyName] over [range []byte(value)]. *)
Fixpoint key_name_loop (index : nat) (value : bytes) : bool :=
  match value with
  | [] => true
  | character :: value =>
      let valid := is_alnum character in
      let valid := match index with
                   | O => valid
                   | S _ => valid || bool_decide (character = x2e) || bool_decide (character = x5f) ||
                            bool_decide (character = x2d)
                   end in
      if negb valid then false else key_name_loop (S index) value
  end.

Definition validNixCacheKeyName (value : bytes) : bool :=
  if decide (len value = 0 \/ len value > 128) then false else key_name_loop 0 value.

Definition validateNixCacheRequest (keyID batchID requestID : bytes) : result error () :=
  if negb (utf8_Valid keyID) || bool_decide (len keyID = 0) || bool_decide (len keyID > 256) then
    Err (Errorf "basil: Nix cache key ID length must be 1..=256 valid UTF-8 bytes" [])
  else if existsb is_control keyID then
    Err (Errorf "basil: Nix cache key ID contains a control byte" [])
  else if allZero16 batchID || allZero16 requestID then
    Err (Errorf "basil: Nix cache batch and request IDs must not be all zero" [])
  else Ok ().

Definition nixCacheCallOptions (maximumSend maximumReceive : Z) : list CallOption :=
  [ForceCodec_nixCacheProto; MaxCallSendMsgSize maximumSend; MaxCallRecvMsgSize maximumReceive].

(** The type switch of [validateNixCacheResponseEcho] reads the two identifiers of
    each of the three responses; the callers below pass them. *)
Definition validateNixCacheResponseEcho (actualBatch actualRequest batchID requestID : bytes)
    : result error () :=
  if decide (actualBatch <> batchID \/ actualRequest <> requestID) then
    Err (Errorf "basil: Nix cache response changed a correlation ID" [])
  else Ok ().

Definition nixCacheKey (keyName publicKey : bytes) (backendVersion : Z) : result error NixCacheKey :=
  if negb (validNixCacheKeyName keyName) then Err (Errorf "basil: invalid Nix cache key name" [])
  else if decide (len publicKey <> 32) then
    Err (Errorf "basil: Nix cache public key is %d bytes; expected 32" [AInt (len publicKey)])
  else if decide (backendVersion <> 1) then
    Err (Errorf "basil: Nix cache backend version is %d; expected 1" [AInt backendVersion])
  else Ok (mkNixCacheKey keyName publicKey backendVersion).

Section nix.
Context `{Gr : Grpc} `{GS : GrpcStatus}.

(** A pure check inside an RPC. *)
Definition rpc_lift {A} (r : result error A) : rpc A := fun b => (r, b).

(** With an error of [nixCacheKey] the code returns a pointer to the zero key
    beside it. *)
Definition DescribeNixCacheKey (c : Client) (ctx : context) (keyID batchID requestID : bytes)
    : rpc NixCacheKey :=
  rpc_lift (validateNixCacheRequest keyID batchID requestID);;
  let request := mkDescribeNixCacheKeyRequest keyID batchID requestID in
  ctx ← withTimeout c ctx;
  response ← call_with (nixCacheCallOptions describeNixCacheKeyRequestMax describeNixCacheKeyResponseMax)
    NixCacheService_DescribeNixCacheKey c ctx request;
  rpc_lift (validateNixCacheResponseEcho (DescribeNixCacheKeyResponse_BatchId response)
    (DescribeNixCacheKeyResponse_RequestId response) batchID requestID);;
  rpc_lift (nixCacheKey (DescribeNixCacheKeyResponse_KeyName response)
    (DescribeNixCacheKeyResponse_PublicKey response)
    (DescribeNixCacheKeyResponse_BackendVersion response)).

Definition EnrollNixCacheKey (c : Client) (ctx : context) (keyID batchID requestID : bytes)
    : rpc NixCacheEnrollment :=
  rpc_lift (validateNixCacheRequest keyID batchID requestID);;
  let request := mkEnrollNixCacheKeyRequest keyID batchID requestID in
  ctx ← withTimeout c ctx;
  response ← call_with (nixCacheCallOptions enrollNixCacheKeyRequestMax enrollNixCacheKeyResponseMax)
    NixCacheService_EnrollNixCacheKey c ctx request;
  rpc_lift (validateNixCacheResponseEcho (EnrollNixCacheKeyResponse_BatchId response)
    (EnrollNixCacheKeyResponse_RequestId response) batchID requestID);;
  let disposition := EnrollNixCacheKeyResponse_Disposition response in
  if decide (disposition <> NixCacheEnrollmentCreated /\ disposition <> NixCacheEnrollmentExisting) then
    rpc_fail (Errorf "basil: Nix cache response has invalid enrollment disposition %d" [AInt disposition])
  else
  key ← rpc_lift (nixCacheKey (EnrollNixCacheKeyResponse_KeyName response)
    (EnrollNixCacheKeyResponse_PublicKey response)
    (EnrollNixCacheKeyResponse_BackendVersion response));
  mret (mkNixCacheEnrollment key disposition).

Definition SignNixCacheFingerprint (c : Client) (ctx : context) (keyID fingerprint batchID
    requestID : bytes) : rpc NixCacheSignature :=
  rpc_lift (validateNixCacheRequest keyID batchID requestID);;
  if decide (len fingerprint = 0 \/ len fingerprint > nixCacheFingerprintMax) then
    rpc_fail (Errorf "basil: Nix cache fingerprint length %d is outside 1..=%d"
      [AInt (len fingerprint); AInt nixCacheFingerprintMax])
  else
  let request := mkSignNixCacheFingerprintRequest keyID (str "PATH_INFO_V1") fingerprint
    batchID requestID in
  ctx ← withTimeout c ctx;
  response ← call_with
    (nixCacheCallOptions signNixCacheFingerprintRequestMax signNixCacheFingerprintResponseMax)
    NixCacheService_SignNixCacheFingerprint c ctx request;
  rpc_lift (validateNixCacheResponseEcho (SignNixCacheFingerprintResponse_BatchId response)
    (SignNixCacheFingerprintResponse_RequestId response) batchID requestID);;
  let signature := SignNixCacheFingerprintResponse_Signature response in
  if decide (len signature <> 64) then
    rpc_fail (Errorf "basil: Nix cache response signature is %d bytes; expected 64"
      [AInt (len signature)])
  else
  key ← rpc_lift (nixCacheKey (SignNixCacheFingerprintResponse_KeyName response)
    (SignNixCacheFingerprintResponse_PublicKey response)
    (SignNixCacheFingerprintResponse_BackendVersion response));
  mret (mkNixCacheSignature key signature).
End nix.
