(* ===== verification/NixCodec.v ===== *)
(** [basil/nix_cache_codec.go]: the strict protobuf codec of the Nix cache RPCs,
    which checks the wire bytes of a message, field by field, before the
    ordinary protobuf decoder sees them. *)

From S2P Require Import Prelude GoText GoError Pb Nix.

(** ** google.golang.org/protobuf, as the code uses it

    A negative length from a [Consume] function is an error code; [ParseError]
    turns it into an error. [proto_Marshal] and [proto_Unmarshal] are the
    ordinary encoder and decoder. *)

(** A [proto.Message] the codec may meet: the six of the service, or another. *)
Inductive message :=
| MDescribeRequest (m : DescribeNixCacheKeyRequest)
| MDescribeResponse (m : DescribeNixCacheKeyResponse)
| MEnrollRequest (m : EnrollNixCacheKeyRequest)
| MEnrollResponse (m : EnrollNixCacheKeyResponse)
| MSignRequest (m : SignNixCacheFingerprintRequest)
| MSignResponse (m : SignNixCacheFingerprintResponse)
| MOther (type : string).

Class Protobuf := {
  ConsumeTag : bytes -> Z * Z * Z;         (* number, wire type, length *)
  ConsumeBytes : bytes -> bytes * Z;
  ConsumeVarint : bytes -> Z * Z;
  ParseError : Z -> error;
  proto_Marshal : message -> result error bytes;
  proto_Unmarshal : bytes -> message -> result error message;
}.

Definition VarintType : Z := 0.
Definition BytesType : Z := 2.

(** A [Consume] function that succeeds consumes at least one byte of its
    input and no more than there are. *)
Class ProtobufLaws (Pr : Protobuf) := {
  ConsumeTag_length : forall raw num typ n, ConsumeTag raw = (num, typ, n) -> 0 <= n ->
    1 <= n <= len raw;
  ConsumeBytes_length : forall raw v n, ConsumeBytes raw = (v, n) -> 0 <= n -> 1 <= n <= len raw;
  ConsumeVarint_length : forall raw v n, ConsumeVarint raw = (v, n) -> 0 <= n -> 1 <= n <= len raw;
}.

(** ** The schema *)

Inductive nixCacheSchema :=
| nixDescribeRequest | nixDescribeResponse | nixEnrollRequest | nixEnrollResponse
| nixSignRequest | nixSignResponse.

Inductive nixCacheFieldKind :=
| nixKeyID | nixKeyName | nixPublicKey | nixIdentifier | nixProfile | nixFingerprint
| nixSignature | nixBackendVersion | nixEnrollmentDisposition.

#[global] Instance nixCacheFieldKind_eq_dec : EqDecision nixCacheFieldKind.
Proof. solve_decision. Defined.

Definition nixCacheMessageSchema (m : message) : result error (nixCacheSchema * Z * Z) :=
  match m with
  | MDescribeRequest _ => Ok (nixDescribeRequest, describeNixCacheKeyRequestMax, 3)
  | MDescribeResponse _ => Ok (nixDescribeResponse, describeNixCacheKeyResponseMax, 5)
  | MEnrollRequest _ => Ok (nixEnrollRequest, enrollNixCacheKeyRequestMax, 3)
  | MEnrollResponse _ => Ok (nixEnrollResponse, enrollNixCacheKeyResponseMax, 6)
  | MSignRequest _ => Ok (nixSignRequest, signNixCacheFingerprintRequestMax, 5)
  | MSignResponse _ => Ok (nixSignResponse, signNixCacheFingerprintResponseMax, 6)
  | MOther t => Err (Errorf "basil: strict Nix codec does not support %T" [AType t])
  end.

Definition nixCacheIdentityField (number firstID : Z) : option (nixCacheFieldKind * Z) :=
  if decide (number = 1) then Some (nixKeyName, BytesType)
  else if decide (number = 2) then Some (nixPublicKey, BytesType)
  else if decide (number = 3) then Some (nixBackendVersion, VarintType)
  else if decide (number = firstID \/ number = firstID + 1) then Some (nixIdentifier, BytesType)
  else None.

Definition nixCacheFieldRule (schema : nixCacheSchema) (number : Z) : option (nixCacheFieldKind * Z) :=
  match schema with
  | nixDescribeRequest | nixEnrollRequest =>
      if decide (number = 1) then Some (nixKeyID, BytesType)
      else if decide (number = 2 \/ number = 3) then Some (nixIdentifier, BytesType)
      else None
  | nixDescribeResponse => nixCacheIdentityField number 4
  | nixEnrollResponse =>
      if decide (number = 4) then Some (nixEnrollmentDisposition, VarintType)
      else nixCacheIdentityField number 5
  | nixSignRequest =>
      if decide (number = 1) then Some (nixKeyID, BytesType)
      else if decide (number = 2) then Some (nixProfile, BytesType)
      else if decide (number = 3) then Some (nixFingerprint, BytesType)
      else if decide (number = 4 \/ number = 5) then Some (nixIdentifier, BytesType)
      else None
  | nixSignResponse =>
      if decide (number = 1) then Some (nixKeyName, BytesType)
      else if decide (number = 2) then Some (nixPublicKey, BytesType)
      else if decide (number = 3) then Some (nixBackendVersion, VarintType)
      else if decide (number = 4) then Some (nixSignature, BytesType)
      else if decide (number = 5 \/ number = 6) then Some (nixIdentifier, BytesType)
      else None
  end.

(** ** The value rules *)

Definition allZeroBytes (value : bytes) : bool :=
  forallb (fun octet => bool_decide (octet = x00)) value.

Definition validateNixCacheBytes (number : Z) (kind : nixCacheFieldKind) (value : bytes)
    : result error () :=
  match kind with
  | nixKeyID =>
      if negb (utf8_Valid value) || bool_decide (len value < 1) || bool_decide (len value > 256) then
        Err (Errorf "basil: Nix cache protobuf field %d must be 1..=256 valid UTF-8 bytes" [AInt number])
      else if existsb is_control value then
        Err (Errorf "basil: Nix cache protobuf field %d contains a control byte" [AInt number])
      else Ok ()
  | nixKeyName =>
      if negb (validNixCacheKeyName value) then
        Err (Errorf "basil: Nix cache protobuf field %d is not a valid key name" [AInt number])
      else Ok ()
  | nixPublicKey =>
      if decide (len value <> 32) then
        Err (Errorf "basil: Nix cache protobuf field %d must be 32 bytes" [AInt number])
      else Ok ()
  | nixIdentifier =>
      if bool_decide (len value <> 16) || allZeroBytes value then
        Err (Errorf "basil: Nix cache protobuf field %d must be 16 nonzero bytes" [AInt number])
      else Ok ()
  | nixProfile =>
      if decide (value <> str "PATH_INFO_V1") then
        Err (Errorf "basil: Nix cache protobuf field %d must equal PATH_INFO_V1" [AInt number])
      else Ok ()
  | nixFingerprint =>
      if decide (len value < 1 \/ len value > nixCacheFingerprintMax) then
        Err (Errorf "basil: Nix cache protobuf field %d must be 1..=%d bytes"
          [AInt number; AInt nixCacheFingerprintMax])
      else Ok ()
  | nixSignature =>
      if decide (len value <> 64) then
        Err (Errorf "basil: Nix cache protobuf field %d must be 64 bytes" [AInt number])
      else Ok ()
  | _ => Err (Errorf "basil: Nix cache protobuf field %d has an invalid bytes rule" [AInt number])
  end.

Definition validateNixCacheVarint (number : Z) (kind : nixCacheFieldKind) (value : Z)
    : result error () :=
  match kind with
  | nixBackendVersion =>
      if decide (value <> 1) then
        Err (Errorf "basil: Nix cache protobuf field %d must equal 1" [AInt number])
      else Ok ()
  | nixEnrollmentDisposition =>
      if decide (value <> 1 /\ value <> 2) then
        Err (Errorf "basil: Nix cache protobuf field %d has invalid enum value %d"
          [AInt number; AInt value])
      else Ok ()
  | _ => Err (Errorf "basil: Nix cache protobuf field %d has an invalid varint rule" [AInt number])
  end.

(** ** The check *)

(** [uint64(1) << n]. *)
Definition bit64 (n : Z) : Z := wrapu 64 (Z.shiftl 1 n).

Section codec.
Context `{Pr : Protobuf}.

(** The [for len(raw) != 0] loop, which returns [seen]; a turn consumes at
    least a byte. *)
Fixpoint preflight_loop (fuel : nat) (schema : nixCacheSchema) (raw : bytes) (seen : Z)
    : result error Z :=
  if decide (len raw = 0) then Ok seen else
  match fuel with
  | O => Err OutOfFuel
  | S fuel =>
      let '(number, wireType, consumed) := ConsumeTag raw in
      if decide (consumed < 0) then
        Err (Wrapf "basil: invalid Nix cache protobuf tag: %w" [] (ParseError consumed))
      else
      let raw := drop (Z.to_nat consumed) raw in
      match nixCacheFieldRule schema number with
      | None => Err (Errorf "basil: Nix cache protobuf has unknown field %d" [AInt number])
      | Some (kind, expectedWire) =>
          let bit := bit64 (number - 1) in
          if decide (Z.land seen bit <> 0) then
            Err (Errorf "basil: Nix cache protobuf has duplicate field %d" [AInt number])
          else if decide (wireType <> expectedWire) then
            Err (Errorf "basil: Nix cache protobuf field %d has wire type %d; expected %d"
              [AInt number; AInt wireType; AInt expectedWire])
          else if decide (expectedWire = BytesType) then
            let '(value, length) := ConsumeBytes raw in
            if decide (length < 0) then
              Err (Wrapf "basil: invalid Nix cache protobuf field %d: %w" [AInt number]
                (ParseError length))
            else
            validateNixCacheBytes number kind value;;
            preflight_loop fuel schema (drop (Z.to_nat length) raw) (Z.lor seen bit)
          else if decide (expectedWire = VarintType) then
            let '(value, length) := ConsumeVarint raw in
            if decide (length < 0) then
              Err (Wrapf "basil: invalid Nix cache protobuf field %d: %w" [AInt number]
                (ParseError length))
            else
            validateNixCacheVarint number kind value;;
            preflight_loop fuel schema (drop (Z.to_nat length) raw) (Z.lor seen bit)
          else Err (Errorf "basil: unsupported Nix cache protobuf wire type %d" [AInt expectedWire])
      end
  end.

(** [for number := 1; number <= fields; number++], [k] turns from the end. *)
Fixpoint missing_loop (k : nat) (fields seen : Z) : result error () :=
  match k with
  | O => Ok ()
  | S k =>
      let number := fields - Z.of_nat k in
      if decide (Z.land seen (bit64 (number - 1)) = 0) then
        Err (Errorf "basil: Nix cache protobuf is missing required field %d" [AInt number])
      else missing_loop k fields seen
  end.

Definition preflightNixCacheProto (raw : bytes) (m : message) : result error () :=
  '(schema, maximum, fields) ← nixCacheMessageSchema m;
  if decide (len raw > maximum) then
    Err (Errorf "basil: Nix cache protobuf is %d bytes; maximum is %d" [AInt (len raw); AInt maximum])
  else
  seen ← preflight_loop (length raw) schema raw 0;
  let required := wrapu 64 (bit64 fields - 1) in
  if decide (seen <> required) then missing_loop (Z.to_nat fields) fields seen else Ok ().

(** [Marshal(value any)] and [Unmarshal(raw, value)]; [Unmarshal] returns the
    message it fills in. A value that is no [proto.Message] is [inr]. *)
Definition Marshal (value : message + string) : result error bytes :=
  match value with
  | inr t => Err (Errorf "basil: strict Nix codec cannot marshal %T" [AType t])
  | inl m =>
      raw ← proto_Marshal m;
      preflightNixCacheProto raw m;;
      Ok raw
  end.

Definition Unmarshal (raw : bytes) (value : message + string) : result error message :=
  match value with
  | inr t => Err (Errorf "basil: strict Nix codec cannot unmarshal %T" [AType t])
  | inl m =>
      preflightNixCacheProto raw m;;
      proto_Unmarshal raw m
  end.
End codec.
