(* ===== verification/Methods.v ===== *)
(** The contract of the client's unary methods: each is one remote procedure
    call, from a request made of its arguments to a result made of the answer.
    [api] lists the methods, [encode] and [decode] say what each puts on the wire
    and takes from it; [run] are the methods themselves. *)

From S2P Require Import Prelude GoTime GoError Errors Pb Client Keytype Aead Signing Secret Invocation Minting Admin Nix.

(** What is sent: the stub method, its request and its call options. *)
Record wire (Req Resp : Type) := mkWire {
  w_method : method Req Resp;
  w_request : Req;
  w_options : list CallOption;
}.
Arguments mkWire {Req Resp}.
Arguments w_method {Req Resp}.
Arguments w_request {Req Resp}.
Arguments w_options {Req Resp}.

Definition plain {Req Resp} (m : method Req Resp) (req : Req) : result error (wire Req Resp) :=
  Ok (mkWire m req []).

Section methods.
Context {Gr : Grpc} {GS : GrpcStatus} {WK : WellKnown} {JE : JsonEncoder}.

(** A call of a method: its arguments, with the types of its request, its
    response and its result. *)
Inductive api : Type -> Type -> Type -> Type :=
| Api_Encrypt (keyID : bytes) (alg : Z) (plaintext : bytes) (aad : option bytes) :
    api EncryptRequest EncryptResponse Ciphertext
| Api_Decrypt (keyID : bytes) (ct : option Ciphertext) (aad : option bytes) :
    api DecryptRequest DecryptResponse bytes
| Api_WrapEnvelope (keyID : bytes) (kem env : Z) (plaintext : bytes) (aad : option bytes) :
    api WrapEnvelopeRequest WrapEnvelopeResponse Envelope
| Api_UnwrapEnvelope (keyID : bytes) (env : option Envelope) (aad : option bytes) :
    api UnwrapEnvelopeRequest UnwrapEnvelopeResponse bytes
| Api_UnsealCose (keyID coseEncrypt : bytes) (externalAAD : option bytes) :
    api UnsealCoseRequest UnsealCoseResponse bytes
| Api_Sign (keyID message : bytes) : api SignRequest SignResponse bytes
| Api_SignWithAlgorithm (keyID message : bytes) (alg : Z) : api SignRequest SignResponse bytes
| Api_Verify (keyID message signature : bytes) : api VerifyRequest VerifyResponse bool
| Api_VerifyWithAlgorithm (keyID message signature : bytes) (alg : Z) : api VerifyRequest VerifyResponse bool
| Api_GetPublicKey (keyID : bytes) (version : option Z) :
    api GetPublicKeyRequest GetPublicKeyResponse PublicKey
| Api_NewKey (keyID : bytes) (keyType : Z) : api NewKeyRequest NewKeyResponse KeyHandle
| Api_Import (keyID : bytes) (keyType : Z) (material : option Material) :
    api ImportRequest NewKeyResponse KeyHandle
| Api_ImportSet (entries : list Entry) : api ImportSetRequest ImportSetResponse (list KeyHandle)
| Api_GetSecret (secretID : bytes) (version : option Z) : api GetSecretRequest GetSecretResponse Secret
| Api_SetSecret (secretID value : bytes) : api SetSecretRequest SetSecretResponse Z
| Api_RotateSecret (secretID : bytes) : api RotateSecretRequest RotateSecretResponse Z
| Api_GetInvocationCapabilities :
    api GetInvocationCapabilitiesRequest GetInvocationCapabilitiesResponse InvocationCapabilities
| Api_GetInvocationChallenge (jkt source : bytes) :
    api GetInvocationChallengeRequest GetInvocationChallengeResponse InvocationChallenge
| Api_DescribeNixCacheKey (keyID batchID requestID : bytes) :
    api DescribeNixCacheKeyRequest DescribeNixCacheKeyResponse NixCacheKey
| Api_EnrollNixCacheKey (keyID batchID requestID : bytes) :
    api EnrollNixCacheKeyRequest EnrollNixCacheKeyResponse NixCacheEnrollment
| Api_SignNixCacheFingerprint (keyID fingerprint batchID requestID : bytes) :
    api SignNixCacheFingerprintRequest SignNixCacheFingerprintResponse NixCacheSignature
| Api_MintJwt (req : JwtRequest) : api MintJwtRequest CredentialResponse Credential
| Api_MintNatsUser (req : NatsUserRequest) : api MintNatsUserRequest CredentialResponse Credential
| Api_MintNatsAccount (req : NatsAccountRequest) : api MintNatsAccountRequest CredentialResponse Credential
| Api_MintNatsOperator (req : NatsOperatorRequest) : api MintNatsOperatorRequest CredentialResponse Credential
| Api_MintNatsSigner (req : NatsSignerRequest) : api MintNatsSignerRequest CredentialResponse Credential
| Api_MintNatsServer (req : NatsServerRequest) : api MintNatsServerRequest CredentialResponse Credential
| Api_MintNatsCurve (req : NatsCurveRequest) : api MintNatsCurveRequest CredentialResponse Credential
| Api_EncryptNatsCurve (req : NatsCurveEncryptRequest) :
    api EncryptNatsCurveRequest EncryptNatsCurveResponse bytes
| Api_DecryptNatsCurve (req : NatsCurveDecryptRequest) :
    api DecryptNatsCurveRequest DecryptNatsCurveResponse bytes
| Api_SignNatsJwt (req : NatsJwtRequest) : api SignNatsJwtRequest CredentialResponse Credential
| Api_ValidateNatsJwt (req : ValidateRequest) :
    api ValidateNatsJwtRequest ValidateNatsJwtResponse NatsJwtValidation
| Api_IssueCertificate (req : CertificateRequest) :
    api IssueCertificateRequest IssueCertificateResponse Certificate
| Api_Status : api StatusRequest StatusResponse BrokerStatus
| Api_Health : api HealthRequest HealthResponse BrokerHealth
| Api_Readiness : api ReadinessRequest ReadinessResponse BrokerReadiness
| Api_Reload (check : bool) : api ReloadRequest ReloadResponse ReloadResult
| Api_Explain (subject op key : bytes) : api ExplainRequest ExplainResponse ExplainResult
| Api_Revoke (trustDomain jti : bytes) (expiresAtUnix : Z) : api RevokeRequest RevokeResponse RevokeResult.

(** The method called. *)
Definition run {Req Resp A} (e : api Req Resp A) (c : Client) (ctx : context) : rpc A :=
  match e in api _ _ A return rpc A with
  | Api_Encrypt keyID alg plaintext aad => Encrypt c ctx keyID alg plaintext aad
  | Api_Decrypt keyID ct aad => Decrypt c ctx keyID ct aad
  | Api_WrapEnvelope keyID kem env plaintext aad => WrapEnvelope c ctx keyID kem env plaintext aad
  | Api_UnwrapEnvelope keyID env aad => UnwrapEnvelope c ctx keyID env aad
  | Api_UnsealCose keyID coseEncrypt externalAAD => UnsealCose c ctx keyID coseEncrypt externalAAD
  | Api_Sign keyID message => Sign c ctx keyID message
  | Api_SignWithAlgorithm keyID message alg => SignWithAlgorithm c ctx keyID message alg
  | Api_Verify keyID message signature => Verify c ctx keyID message signature
  | Api_VerifyWithAlgorithm keyID message signature alg => VerifyWithAlgorithm c ctx keyID message signature alg
  | Api_GetPublicKey keyID version => GetPublicKey c ctx keyID version
  | Api_NewKey keyID keyType => NewKey c ctx keyID keyType
  | Api_Import keyID keyType material => Import c ctx keyID keyType material
  | Api_ImportSet entries => ImportSet c ctx entries
  | Api_GetSecret secretID version => GetSecret c ctx secretID version
  | Api_SetSecret secretID value => SetSecret c ctx secretID value
  | Api_RotateSecret secretID => RotateSecret c ctx secretID
  | Api_GetInvocationCapabilities => GetInvocationCapabilities c ctx
  | Api_GetInvocationChallenge jkt source => GetInvocationChallenge c ctx jkt source
  | Api_DescribeNixCacheKey keyID batchID requestID => DescribeNixCacheKey c ctx keyID batchID requestID
  | Api_EnrollNixCacheKey keyID batchID requestID => EnrollNixCacheKey c ctx keyID batchID requestID
  | Api_SignNixCacheFingerprint keyID fingerprint batchID requestID =>
      SignNixCacheFingerprint c ctx keyID fingerprint batchID requestID
  | Api_MintJwt req => MintJwt c ctx req
  | Api_MintNatsUser req => MintNatsUser c ctx req
  | Api_MintNatsAccount req => MintNatsAccount c ctx req
  | Api_MintNatsOperator req => MintNatsOperator c ctx req
  | Api_MintNatsSigner req => MintNatsSigner c ctx req
  | Api_MintNatsServer req => MintNatsServer c ctx req
  | Api_MintNatsCurve req => MintNatsCurve c ctx req
  | Api_EncryptNatsCurve req => EncryptNatsCurve c ctx req
  | Api_DecryptNatsCurve req => DecryptNatsCurve c ctx req
  | Api_SignNatsJwt req => SignNatsJwt c ctx req
  | Api_ValidateNatsJwt req => ValidateNatsJwt c ctx req
  | Api_IssueCertificate req => IssueCertificate c ctx req
  | Api_Status => GetStatus c ctx
  | Api_Health => Health c ctx
  | Api_Readiness => Readiness c ctx
  | Api_Reload check => Reload c ctx check
  | Api_Explain subject op key => Explain c ctx subject op key
  | Api_Revoke trustDomain jti expiresAtUnix => Revoke c ctx trustDomain jti expiresAtUnix
  end.

(** *** What is sent *)

(** The checks of a Nix request, and its size-limited call. *)
Definition nix_wire {Req Resp} (keyID batchID requestID : bytes) (m : method Req Resp) (req : Req)
    (send receive : Z) : result error (wire Req Resp) :=
  validateNixCacheRequest keyID batchID requestID;;
  Ok (mkWire m req (nixCacheCallOptions send receive)).

Definition encode {Req Resp A} (e : api Req Resp A) : result error (wire Req Resp) :=
  match e in api Req Resp _ return result error (wire Req Resp) with
  | Api_Encrypt keyID alg plaintext aad => plain AeadService_Encrypt (mkEncryptRequest keyID alg plaintext aad)
  | Api_Decrypt keyID ct aad => plain AeadService_Decrypt (mkDecryptRequest keyID (ciphertextToProto ct) aad)
  | Api_WrapEnvelope keyID kem env plaintext aad =>
      plain AeadService_WrapEnvelope (mkWrapEnvelopeRequest keyID kem env plaintext aad)
  | Api_UnwrapEnvelope keyID env aad =>
      plain AeadService_UnwrapEnvelope (mkUnwrapEnvelopeRequest keyID (kemEnvelopeToProto env) aad)
  | Api_UnsealCose keyID coseEncrypt externalAAD =>
      plain AeadService_UnsealCose (mkUnsealCoseRequest keyID coseEncrypt externalAAD)
  | Api_Sign keyID message => plain SigningService_Sign (mkSignRequest keyID message 0)
  | Api_SignWithAlgorithm keyID message alg => plain SigningService_Sign (mkSignRequest keyID message alg)
  | Api_Verify keyID message signature =>
      plain SigningService_Verify (mkVerifyRequest keyID message signature 0)
  | Api_VerifyWithAlgorithm keyID message signature alg =>
      plain SigningService_Verify (mkVerifyRequest keyID message signature alg)
  | Api_GetPublicKey keyID version => plain SigningService_GetPublicKey (mkGetPublicKeyRequest keyID version)
  | Api_NewKey keyID keyType => plain SigningService_NewKey (mkNewKeyRequest keyID keyType)
  | Api_Import keyID keyType material =>
      match material with
      | None => Err (Errorf "basil: Import requires non-nil key material" [])
      | Some m => plain SigningService_Import (mkImportRequest keyID keyType (Some (material_toProto m)))
      end
  | Api_ImportSet entries =>
      es ← import_entries 0 entries; plain SigningService_ImportSet (mkImportSetRequest es)
  | Api_GetSecret secretID version => plain SecretService_GetSecret (mkGetSecretRequest secretID version)
  | Api_SetSecret secretID value => plain SecretService_SetSecret (mkSetSecretRequest secretID value)
  | Api_RotateSecret secretID => plain SecretService_RotateSecret (mkRotateSecretRequest secretID)
  | Api_GetInvocationCapabilities =>
      plain InvocationService_GetInvocationCapabilities mkGetInvocationCapabilitiesRequest
  | Api_GetInvocationChallenge jkt source =>
      if decide (len jkt = 32) then
        plain InvocationService_GetInvocationChallenge (mkGetInvocationChallengeRequest jkt (nonEmpty source))
      else Err (Errorf "basil: jkt must be exactly %d bytes, got %d" [AInt 32; AInt (len jkt)])
  | Api_DescribeNixCacheKey keyID batchID requestID =>
      nix_wire keyID batchID requestID NixCacheService_DescribeNixCacheKey
        (mkDescribeNixCacheKeyRequest keyID batchID requestID) 295 203
  | Api_EnrollNixCacheKey keyID batchID requestID =>
      nix_wire keyID batchID requestID NixCacheService_EnrollNixCacheKey
        (mkEnrollNixCacheKeyRequest keyID batchID requestID) 295 205
  | Api_SignNixCacheFingerprint keyID fingerprint batchID requestID =>
      validateNixCacheRequest keyID batchID requestID;;
      if decide (1 <= len fingerprint <= 524626) then
        nix_wire keyID batchID requestID NixCacheService_SignNixCacheFingerprint
          (mkSignNixCacheFingerprintRequest keyID (str "PATH_INFO_V1") fingerprint batchID requestID) 524939 269
      else Err (Errorf "basil: Nix cache fingerprint length %d is outside 1..=%d"
        [AInt (len fingerprint); AInt 524626])
  | Api_MintJwt req =>
      claims ← optionalObjectJSON (jr_Claims req) "jwt claims";
      plain MintingService_MintJwt
        (mkMintJwtRequest (jr_KeyID req) (nonEmpty (jr_Subject req)) (durationOrNil (jr_TTL req)) claims)
  | Api_MintNatsUser req => plain NatsService_MintNatsUser
      (mkMintNatsUserRequest (nu_KeyID req) (nu_SubjectUserNKey req) (nu_Name req)
        (durationOrNil (nu_TTL req)) (nu_PubAllow req) (nu_PubDeny req) (nu_SubAllow req)
        (nu_SubDeny req) (nonEmpty (nu_IssuerAccount req)))
  | Api_MintNatsAccount req => plain NatsService_MintNatsAccount
      (mkMintNatsAccountRequest (na_KeyID req) (na_SubjectAccountNKey req) (na_Name req)
        (durationOrNil (na_TTL req)) (na_SigningKeys req))
  | Api_MintNatsOperator req => plain NatsService_MintNatsOperator
      (mkMintNatsOperatorRequest (no_KeyID req) (nonEmpty (no_SubjectOperatorNKey req)) (no_Name req)
        (durationOrNil (no_TTL req)) (no_SigningKeys req) (nonEmpty (no_AccountServerURL req))
        (nonEmpty (no_SystemAccount req)))
  | Api_MintNatsSigner req => plain NatsService_MintNatsSigner
      (mkMintNatsSignerRequest (ns_KeyID req) (ns_SubjectNKey req) (ns_Name req) (durationOrNil (ns_TTL req)))
  | Api_MintNatsServer req => plain NatsService_MintNatsServer
      (mkMintNatsServerRequest (nv_KeyID req) (nv_SubjectServerNKey req) (nv_Name req)
        (durationOrNil (nv_TTL req)))
  | Api_MintNatsCurve req => plain NatsService_MintNatsCurve
      (mkMintNatsCurveRequest (nc_KeyID req) (nc_SubjectCurveNKey req) (nc_Name req)
        (durationOrNil (nc_TTL req)))
  | Api_EncryptNatsCurve req => plain NatsService_EncryptNatsCurve
      (mkEncryptNatsCurveRequest (ce_KeyID req) (ce_RecipientPublicXKey req) (ce_Plaintext req))
  | Api_DecryptNatsCurve req => plain NatsService_DecryptNatsCurve
      (mkDecryptNatsCurveRequest (cd_KeyID req) (cd_SenderPublicXKey req) (cd_Ciphertext req))
  | Api_SignNatsJwt req =>
      claims ← objectJSON (nj_Claims req) "nats jwt claims";
      plain NatsService_SignNatsJwt
        (mkSignNatsJwtRequest (nj_KeyID req) claims (nj_ExpectedType req) (durationOrNil (nj_TTL req))
          (timestampOrNil (nj_ExpiresAt req)) (timestampOrNil (nj_IssuedAt req)) (nj_JtiMode req))
  | Api_ValidateNatsJwt req =>
      signers ← allowed_signers (vr_AllowedSigners req);
      plain NatsService_ValidateNatsJwt (mkValidateNatsJwtRequest (vr_JWT req) signers (vr_ExpectedType req))
  | Api_IssueCertificate req => plain MintingService_IssueCertificate
      (mkIssueCertificateRequest (cr_IssuerKeyID req) (cr_CommonName req) (cr_DNSSANs req) (cr_IPSANs req)
        (durationOrNil (cr_TTL req)))
  | Api_Status => plain AdminService_Status mkStatusRequest
  | Api_Health => plain AdminService_Health mkHealthRequest
  | Api_Readiness => plain AdminService_Readiness mkReadinessRequest
  | Api_Reload check => plain AdminService_Reload (mkReloadRequest check)
  | Api_Explain subject op key => plain AdminService_Explain (mkExplainRequest subject op key)
  | Api_Revoke trustDomain jti expiresAtUnix =>
      plain AdminService_Revoke (mkRevokeRequest trustDomain jti expiresAtUnix)
  end.

(** *** What is returned of an answer *)

Definition key_handle (r : NewKeyResponse) : KeyHandle :=
  mkKeyHandle (NewKeyResponse_KeyId r) (NewKeyResponse_PublicKey r).

Definition decode {Req Resp A} (e : api Req Resp A) : Resp -> result error A :=
  match e in api _ Resp A return Resp -> result error A with
  | Api_Encrypt _ _ _ _ => fun r =>
      match EncryptResponse_Envelope r with
      | Some (mkCiphertextEnvelope alg version nonce ct) => Ok (mkCiphertext alg version nonce ct)
      | None => Err (Errorf "basil: encrypt succeeded but the response carried no ciphertext envelope" [])
      end
  | Api_WrapEnvelope _ _ _ _ _ => fun r =>
      match WrapEnvelopeResponse_Envelope r with
      | Some (mkKemEnvelope kem env version ek nonce ct) => Ok (mkEnvelope kem env version ek nonce ct)
      | None => Err (Errorf "basil: wrap envelope succeeded but the response carried no KEM envelope" [])
      end
  | Api_Decrypt _ _ _ => fun r => Ok (DecryptResponse_Plaintext r)
  | Api_UnwrapEnvelope _ _ _ => fun r => Ok (UnwrapEnvelopeResponse_Plaintext r)
  | Api_UnsealCose _ _ _ => fun r => Ok (UnsealCoseResponse_Plaintext r)
  | Api_Sign _ _ | Api_SignWithAlgorithm _ _ _ => fun r => Ok (SignResponse_Signature r)
  | Api_Verify _ _ _ | Api_VerifyWithAlgorithm _ _ _ _ => fun r => Ok (VerifyResponse_Valid r)
  | Api_GetPublicKey _ _ => fun r =>
      Ok (mkPublicKey (GetPublicKeyResponse_KeyId r) (keyTypeFromProto (GetPublicKeyResponse_KeyType r))
        (GetPublicKeyResponse_PublicKey r) (GetPublicKeyResponse_Version r))
  | Api_NewKey _ _ | Api_Import _ _ _ => fun r => Ok (key_handle r)
  | Api_ImportSet _ => fun r =>
      Ok (map (fun k => mkKeyHandle (ImportedKey_KeyId k) (ImportedKey_PublicKey k)) (ImportSetResponse_Keys r))
  | Api_GetSecret _ _ => fun r => Ok (mkSecret (GetSecretResponse_Value r) (GetSecretResponse_Version r))
  | Api_SetSecret _ _ => fun r => Ok (SetSecretResponse_Version r)
  | Api_RotateSecret _ => fun r => Ok (RotateSecretResponse_Version r)
  | Api_GetInvocationCapabilities => fun '(mkGetInvocationCapabilitiesResponse profile require version) =>
      if bool_decide (profile ∈ [InvocationListenerHost; InvocationListenerCourier])
      then Ok (mkInvocationCapabilities profile require version)
      else if decide (profile = 0) then
        Err (Errorf "basil: broker returned an unspecified invocation listener profile" [])
      else Err (Errorf "basil: broker returned unknown invocation listener profile %d" [AInt profile])
  | Api_GetInvocationChallenge _ _ => fun '(mkGetInvocationChallengeResponse challenge generation expires) =>
      if decide (len challenge = 32) then Ok (mkInvocationChallenge challenge generation expires)
      else Err (Errorf "basil: freshness challenge must be exactly %d bytes, got %d"
        [AInt 32; AInt (len challenge)])
  | Api_DescribeNixCacheKey _ batchID requestID => fun '(mkDescribeNixCacheKeyResponse name key version batch request) =>
      validateNixCacheResponseEcho batch request batchID requestID;;
      nixCacheKey name key version
  | Api_EnrollNixCacheKey _ batchID requestID =>
      fun '(mkEnrollNixCacheKeyResponse name key version disposition batch request) =>
      validateNixCacheResponseEcho batch request batchID requestID;;
      if bool_decide (disposition ∈ [NixCacheEnrollmentCreated; NixCacheEnrollmentExisting]) then
        key ← nixCacheKey name key version; Ok (mkNixCacheEnrollment key disposition)
      else Err (Errorf "basil: Nix cache response has invalid enrollment disposition %d" [AInt disposition])
  | Api_SignNixCacheFingerprint _ _ batchID requestID =>
      fun '(mkSignNixCacheFingerprintResponse name key version signature batch request) =>
      validateNixCacheResponseEcho batch request batchID requestID;;
      if decide (len signature = 64) then
        key ← nixCacheKey name key version; Ok (mkNixCacheSignature key signature)
      else Err (Errorf "basil: Nix cache response signature is %d bytes; expected 64" [AInt (len signature)])
  | Api_MintJwt _ | Api_MintNatsUser _ | Api_MintNatsAccount _ | Api_MintNatsOperator _ | Api_MintNatsSigner _
  | Api_MintNatsServer _ | Api_MintNatsCurve _ | Api_SignNatsJwt _ => fun r => Ok (credentialFromProto r)
  | Api_EncryptNatsCurve _ => fun r => Ok (EncryptNatsCurveResponse_Ciphertext r)
  | Api_DecryptNatsCurve _ => fun r => Ok (DecryptNatsCurveResponse_Plaintext r)
  | Api_ValidateNatsJwt _ => fun r => Ok (natsJwtValidationFromProto r)
  | Api_IssueCertificate _ => fun '(mkIssueCertificateResponse chain key ca) => Ok (mkCertificate chain key ca)
  | Api_Status => fun '(mkStatusResponse backend version protocol) => Ok (mkBrokerStatus backend version protocol)
  | Api_Health => fun '(mkHealthResponse alive version) => Ok (mkBrokerHealth alive version)
  | Api_Readiness => fun r =>
      Ok (mkBrokerReadiness (ReadinessResponse_Ready r) (ReadinessResponse_Reason r)
        (ReadinessResponse_Generation r) (ReadinessResponse_KeysTotal r) (ReadinessResponse_KeysPresent r)
        (ReadinessResponse_KeysRequiredMissing r) (ReadinessResponse_KeysOptionalMissing r))
  | Api_Reload _ => fun r =>
      Ok (mkReloadResult (ReloadResponse_Applied r) (ReloadResponse_Checked r)
        (ReloadResponse_PreviousGeneration r) (ReloadResponse_NewGeneration r)
        (ReloadResponse_KeyCount r) (ReloadResponse_GrantCount r)
        ((fun '(mkReloadRejection reason message) => mkRejection reason message) <$> ReloadResponse_Rejection r))
  | Api_Explain _ _ _ => fun r =>
      Ok (mkExplainResult (ExplainResponse_Subject r) (ExplainResponse_Op r) (ExplainResponse_Key r)
        (explainDecision (ExplainResponse_Decision r)) (ExplainResponse_Via r) (ExplainResponse_Reason r)
        ((fun '(mkMatchedRule rule via action target subject) => mkRuleMatch rule via action target subject)
         <$> ExplainResponse_MatchedRule r))
  | Api_Revoke _ _ _ => fun '(mkRevokeResponse domain jti expires persisted) =>
      Ok (mkRevokeResult domain jti expires persisted)
  end.

(** *** The methods do that *)

(** One call: what [run] comes to. *)
Definition one_call {Req Resp A} (c : Client) (ctx : context) (w : wire Req Resp)
    (dec : Resp -> result error A) : rpc A := fun b =>
  match Invoke (w_method w) (conn c) (effective c ctx b) (w_request w) (w_options w) b with
  | (Ok resp, b') => (dec resp, b')
  | (Err err, b') => (Err (statusError err), b')
  end.

Lemma one_call_unary {Req Resp A} opts (m : method Req Resp) c ctx req (k : Resp -> rpc A) dec b :
  (forall resp b', k resp b' = (dec resp, b')) ->
  (ctx ← withTimeout c ctx; resp ← call_with opts m c ctx req; k resp) b = one_call c ctx (mkWire m req opts) dec b.
Proof.
  intros Hk. rewrite unary_with_eq. unfold one_call. cbn [w_method w_request w_options].
  destruct (Invoke _ _ _ _ _ _) as [[resp|err] b']; [apply Hk|done].
Qed.

Lemma one_call_mint {Req} (m : method Req CredentialResponse) c ctx req b :
  mint c ctx (stub m c req) b = one_call c ctx (mkWire m req []) (fun r => Ok (credentialFromProto r)) b.
Proof. rewrite mint_eq. unfold stub, one_call. by destruct (Invoke _ _ _ _ _ _) as [[] ?]. Qed.

Lemma nix_lift {A A'} (r : result error A) (k : A -> rpc A') b :
  (rpc_lift r ≫= k) b = match r with Ok a => k a b | Err e => (Err e, b) end.
Proof. by destruct r. Qed.

Lemma capabilities_decode resp b' :
  (let p := GetInvocationCapabilitiesResponse_ListenerProfile resp in
   let ok profile := mret (mkInvocationCapabilities profile
     (GetInvocationCapabilitiesResponse_RequireChallenge resp)
     (GetInvocationCapabilitiesResponse_CourierProtocolVersion resp)) in
   if decide (p = ListenerProfile_HOST) then ok InvocationListenerHost
   else if decide (p = ListenerProfile_COURIER) then ok InvocationListenerCourier
   else if decide (p = ListenerProfile_UNSPECIFIED) then
     rpc_fail (Errorf "basil: broker returned an unspecified invocation listener profile" [])
   else rpc_fail (Errorf "basil: broker returned unknown invocation listener profile %d" [AInt p])) b' =
  (decode Api_GetInvocationCapabilities resp, b').
Proof.
  destruct resp as [p r v]. cbn -[decide bool_decide].
  case_decide as H1; [by subst|]. case_decide as H2; [by subst|].
  rewrite bool_decide_eq_false_2; [change ListenerProfile_UNSPECIFIED with 0; by destruct (decide (p = 0))|]. by intros [?|[?|?%elem_of_nil]%elem_of_cons]%elem_of_cons.
Qed.

Lemma decide_negated {A} (Q : Prop) {D : Decision Q} (x y : A) :
  (if decide (~ Q) then x else y) = (if decide Q then y else x).
Proof. by destruct (decide Q), (decide (~ Q)). Qed.

(** The two checks of a Nix method that [encode] and [decode] state positively. *)
Lemma enrollment_disposition {A} d (x y : A) :
  (if decide (d <> NixCacheEnrollmentCreated /\ d <> NixCacheEnrollmentExisting) then x else y) =
  (if bool_decide (d ∈ [NixCacheEnrollmentCreated; NixCacheEnrollmentExisting]) then y else x).
Proof.
  case_bool_decide as H; [rewrite decide_False|rewrite decide_True]; try done.
  - intros [H1 H2]. rewrite !elem_of_cons, elem_of_nil in H. naive_solver.
  - rewrite !elem_of_cons in H. naive_solver.
Qed.

Lemma fingerprint_length {A} (l : bytes) (x y : A) :
  (if decide (len l = 0 \/ len l > nixCacheFingerprintMax) then x else y) =
  (if decide (1 <= len l <= 524626) then y else x).
Proof.
  pose proof (len_nonneg l). unfold nixCacheFingerprintMax.
  case_decide; [rewrite decide_False by lia|rewrite decide_True by lia]; done.
Qed.

Lemma run_spec {Req Resp A} (e : api Req Resp A) c ctx b :
  run e c ctx b = match encode e with Ok w => one_call c ctx w (decode e) b | Err err => (Err err, b) end.
Proof.
  destruct e; cbn [run encode];
    try (by apply one_call_mint);
    try (apply one_call_unary; intros resp b'; first [done | by destruct resp | by cbn; repeat case_match]).
  - unfold Import. destruct material; [|done]. by apply one_call_unary.
  - unfold ImportSet. destruct (import_entries 0 entries); [|done]. by apply one_call_unary.
  - apply one_call_unary. apply capabilities_decode.
  - unfold GetInvocationChallenge, InvocationChallengeLen. rewrite decide_negated. case_decide; [|done].
    apply one_call_unary. intros [] b'. cbn -[decide]. rewrite decide_negated. by case_decide.
  - unfold DescribeNixCacheKey, nix_wire. rewrite nix_lift. destruct (validateNixCacheRequest _ _ _); [|done].
    apply one_call_unary. intros [] b'. cbn [decode]. rewrite nix_lift. by destruct (validateNixCacheResponseEcho _ _ _ _).
  - unfold EnrollNixCacheKey, nix_wire. rewrite nix_lift. destruct (validateNixCacheRequest _ _ _); [|done].
    apply one_call_unary. intros [] b'. cbn [decode]. rewrite nix_lift. destruct (validateNixCacheResponseEcho _ _ _ _); [|done].
    cbn -[decide bool_decide nixCacheKey]. rewrite enrollment_disposition. case_bool_decide; [|done].
    rewrite nix_lift. by destruct (nixCacheKey _ _ _).
  - unfold SignNixCacheFingerprint. rewrite nix_lift. destruct (validateNixCacheRequest _ _ _) eqn:E; [|done].
    cbn -[decide len]. rewrite fingerprint_length. case_decide; [|done]. unfold nix_wire. rewrite E.
    apply one_call_unary. intros [] b'. cbn [decode]. rewrite nix_lift. destruct (validateNixCacheResponseEcho _ _ _ _); [|done].
    cbn -[decide nixCacheKey len]. rewrite decide_negated. case_decide; [|done].
    rewrite nix_lift. by destruct (nixCacheKey _ _ _).
  - unfold MintJwt. destruct (optionalObjectJSON _ _); [|done]. apply one_call_mint.
  - unfold SignNatsJwt, NatsClient_SignNatsJwt. destruct (objectJSON _ _); [|done]. apply one_call_mint.
  - unfold ValidateNatsJwt, NatsClient_ValidateNatsJwt. destruct (allowed_signers _); [|done]. by apply one_call_unary.
  - apply one_call_unary. by intros [?????? [[]|]] b'.
  - apply one_call_unary. by intros [?????? [[]|]] b'.
Qed.

Lemma effective_Deadline c ctx b :
  Deadline (effective c ctx b) =
    match Deadline ctx with
    | Some t => Some t
    | None => if decide (timeout c <= 0) then None else Some (now b + timeout c)
    end.
Proof. unfold effective. case_decide; destruct (Deadline ctx) eqn:E; try done. unfold context_WithTimeout. by rewrite E. Qed.

Context {GSL : GrpcStatusLaws GS}.

Lemma statusError_code err :
  match chain_status err with
  | Some st => exists se, AsStatusError (statusError err) = Some se /\ Code se = st_Code st
  | None => statusError err = err
  end.
Proof.
  destruct (chain_status err) as [st|] eqn:E; [|by apply statusError_other].
  destruct (Unwrap err) as [u|] eqn:Hu.
  - rewrite (statusError_wrapped err st E) by (by rewrite Hu). by eexists.
  - rewrite (statusError_direct err st E Hu). by eexists.
Qed.

(** C12: every unary method of the client is one remote procedure call. For each
    of its 39 methods and any arguments: what cannot be encoded is refused
    before the broker is reached; otherwise exactly one call is made, of
    the method's own procedure with the request and the options made of the
    arguments, under the caller's deadline or, without one, the client's
    timeout from now; the answer is decoded or refused, and nothing else
    happens. When the call fails with a gRPC status the caller finds the code of
    that status with [AsStatusError], and any other error of the call is
    returned as it is. *)
Theorem rpc_contract {Req Resp A} (e : api Req Resp A) c ctx b :
  Deadline (effective c ctx b) =
    match Deadline ctx with
    | Some t => Some t
    | None => if decide (timeout c <= 0) then None else Some (now b + timeout c)
    end /\
  match encode e with
  | Err err => run e c ctx b = (Err err, b)
  | Ok w =>
      match Invoke (w_method w) (conn c) (effective c ctx b) (w_request w) (w_options w) b with
      | (Ok resp, b') => run e c ctx b = (decode e resp, b')
      | (Err err, b') => exists err', run e c ctx b = (Err err', b') /\
          match chain_status err with
          | Some st => exists se, AsStatusError err' = Some se /\ Code se = st_Code st
          | None => err' = err
          end
      end
  end.
Proof.
  split; [apply effective_Deadline|]. rewrite run_spec. destruct (encode e) as [w|err]; [|done].
  unfold one_call. destruct (Invoke _ _ _ _ _ _) as [[resp|err] b']; [done|].
  exists (statusError err). split; [done|]. apply statusError_code.
Qed.
End methods.
