(* ===== verification/Kem.v ===== *)
(** Package [stream], file [kem.go]: wrapping the content-encryption key for an
    ML-KEM recipient, recovering it with a local seed or through the broker, and
    the KEM part of the container header. *)

From S2P Require Import Prelude GoError IO Crypto Format Chunks Errors Pb Client Aead.

Definition kemEnvelopeLabel : bytes := str "basil-ml-kem-envelope-v1".
Definition envTokenAES256GCM : bytes := str "aes-256-gcm".

(** [stream.KEMEnvelope] *)
Record KEMEnvelope := mkKEMEnvelope {
  EncapsulatedKey : bytes;
  Nonce : bytes;           (* [12]byte *)
  WrappedCEK : bytes;      (* the field Ciphertext *)
}.

(** [circl]'s [kem.Scheme]s as an interface. [Encapsulate] draws its coins from
    the system's random source. *)
Class Circl {X : Type} (P : Platform X) := {
  Scheme : Type;
  KemPublicKey : Type;
  KemPrivateKey : Type;
  mlkem512_Scheme : Scheme;
  mlkem768_Scheme : Scheme;
  mlkem1024_Scheme : Scheme;
  SeedSize : Scheme -> Z;
  DeriveKeyPair : Scheme -> bytes -> KemPublicKey * KemPrivateKey;
  UnmarshalBinaryPublicKey : Scheme -> bytes -> result error KemPublicKey;
  MarshalBinary : KemPublicKey -> result error bytes;
  Encapsulate : Scheme -> KemPublicKey -> G -> result error (bytes * bytes) * G; (* ct, ss *)
  Decapsulate : Scheme -> KemPrivateKey -> bytes -> result error bytes;
}.

(** The documented behaviour of the ML-KEM schemes: a derived public key
    marshals to bytes that unmarshal to it; encapsulation succeeds while the
    random source does; decapsulation with the matching private key gives the
    shared secret back; ciphertexts have the FIPS-203 lengths. *)
Class CirclLaws {X : Type} {P : Platform X} (K : Circl P) := {
  Marshal_Unmarshal : forall scheme seed pk sk,
    len seed = SeedSize scheme -> DeriveKeyPair scheme seed = (pk, sk) ->
    exists m, MarshalBinary pk = Ok m /\ UnmarshalBinaryPublicKey scheme m = Ok pk;
  Encapsulate_entropic : forall scheme pk g, entropic g ->
    exists ct ss g', Encapsulate scheme pk g = (Ok (ct, ss), g') /\ entropic g';
  Decapsulate_Encapsulate : forall scheme seed pk sk g ct ss g',
    len seed = SeedSize scheme -> DeriveKeyPair scheme seed = (pk, sk) ->
    Encapsulate scheme pk g = (Ok (ct, ss), g') -> Decapsulate scheme sk ct = Ok ss;
  Encapsulate_length : forall pk g ct ss g',
    (Encapsulate mlkem512_Scheme pk g = (Ok (ct, ss), g') -> len ct = 768) /\
    (Encapsulate mlkem768_Scheme pk g = (Ok (ct, ss), g') -> len ct = 1088) /\
    (Encapsulate mlkem1024_Scheme pk g = (Ok (ct, ss), g') -> len ct = 1568);
}.

(** [CEKRecovery]: what a stream's decryptor needs of whoever holds the key. *)
Class CEKRecovery {X : Type} (P : Platform X) (Rec : Type) := {
  RecoverCEK : Rec -> context -> KEMEnvelope -> bytes -> io bytes;
}.

Section kem.
Context {X : Type} {P : Platform X} {C : Crypto} {K : Circl P}.

(** [fillRandom(buf)] on a fresh [buf] of length [n]. *)
Definition fillRandom (n : Z) : io bytes := fun w =>
  let '(b, err, g) := rand_Read (w_rng w) (Z.to_nat n) in
  (match err with
   | Some err => Err (Wrapf "basil/stream: rng failure: %w" [] err)
   | None => Ok b
   end, World (w_src w) (w_dst w) g (w_secrets w) (w_ext w)).

Definition schemeForSuite (suiteID : byte) : option Scheme :=
  if decide (suiteID = SuiteMLKEM512) then Some mlkem512_Scheme
  else if decide (suiteID = SuiteMLKEM768) then Some mlkem768_Scheme
  else if decide (suiteID = SuiteMLKEM1024) then Some mlkem1024_Scheme
  else None.

Definition PublicKeyFromSeed (seed : bytes) (suite : Suite) : result error bytes :=
  match schemeForSuite suite with
  | None => Err ErrSuiteMismatch
  | Some scheme =>
      if decide (len seed <> SeedSize scheme) then Err ErrBadKEMCiphertext else
      let '(pk, _) := DeriveKeyPair scheme seed in
      match MarshalBinary pk with
      | Err _ => Err ErrBadPublicKey
      | Ok pub => Ok pub
      end
  end.

Definition deriveKEMAEADKey (suiteID : byte) (sharedSecret encapsulatedKey publicKey : bytes)
    : result error bytes :=
  match kemToken suiteID with
  | None => Err ErrSuiteMismatch
  | Some token =>
      let info := kemEnvelopeLabel ++ token ++ envTokenAES256GCM ++ encapsulatedKey ++ publicKey in
      let zeroSalt := replicate 32 x00 in
      match hkdf_sha256_Key sharedSecret zeroSalt info CEKLen with
      | None => Err ErrKDFFailed
      | Some okm => Ok okm
      end
  end.

(** [ct, ss, err := scheme.Encapsulate(pk); if err != nil { return ErrBadPublicKey }] *)
Definition encapsulate (scheme : Scheme) (pk : KemPublicKey) : io (bytes * bytes) := fun w =>
  let '(r, g) := Encapsulate scheme pk (w_rng w) in
  (match r with Ok p => Ok p | Err _ => Err ErrBadPublicKey end,
   World (w_src w) (w_dst w) g (w_secrets w) (w_ext w)).

Definition wrapCEK (publicKey : bytes) (suiteID : byte) (cek aad : bytes) : io KEMEnvelope :=
  match schemeForSuite suiteID with
  | None => fail ErrSuiteMismatch
  | Some scheme =>
      match UnmarshalBinaryPublicKey scheme publicKey with
      | Err _ => fail ErrBadPublicKey
      | Ok pk =>
          match MarshalBinary pk with
          | Err _ => fail ErrBadPublicKey
          | Ok derivedPublic =>
              '(encapsulatedKey, sharedSecret) ← encapsulate scheme pk;
              with_wiped sharedSecret (
                aeadKey ← lift (deriveKEMAEADKey suiteID sharedSecret encapsulatedKey derivedPublic);
                with_wiped aeadKey (
                  nonce ← fillRandom NonceLen;
                  ciphertext ← lift (aeadSeal aeadAES256GCM aeadKey nonce cek aad);
                  mret (mkKEMEnvelope encapsulatedKey nonce ciphertext)))
          end
      end
  end.

Definition openCEKLocal (seed : bytes) (suiteID : byte) (env : KEMEnvelope) (aad : bytes)
    : io bytes :=
  match schemeForSuite suiteID with
  | None => fail ErrSuiteMismatch
  | Some scheme =>
      if decide (len seed <> SeedSize scheme) then fail ErrBadKEMCiphertext else
      let '(pk, sk) := DeriveKeyPair scheme seed in
      match MarshalBinary pk with
      | Err _ => fail ErrBadPublicKey
      | Ok derivedPublic =>
          match Decapsulate scheme sk (EncapsulatedKey env) with
          | Err _ => fail ErrBadKEMCiphertext
          | Ok sharedSecret =>
              with_wiped sharedSecret (
                aeadKey ← lift (deriveKEMAEADKey suiteID sharedSecret (EncapsulatedKey env)
                                  derivedPublic);
                with_wiped aeadKey (
                  lift (aeadOpen aeadAES256GCM aeadKey (Nonce env) (WrappedCEK env) aad)))
          end
      end
  end.

Definition serializeKEMHeader (env : KEMEnvelope) : bytes :=
  be_put 4 (len (EncapsulatedKey env)) ++ EncapsulatedKey env ++ Nonce env ++
  be_put 4 (len (WrappedCEK env)) ++ WrappedCEK env.

(** [readKEMEnvelope] of [stream.go]. *)
Definition readKEMEnvelope (suiteID : byte) : io KEMEnvelope :=
  match mlKemCiphertextLen suiteID with
  | None => fail ErrSuiteMismatch
  | Some expected =>
      kemCtLen ← readLenPrefix;
      match kemCtLen with
      | None => fail ErrShortHeader
      | Some kemCtLen =>
          if decide (kemCtLen <> expected) then fail ErrBadKEMCiphertext else
          encapsulatedKey ← readRecordExact expected;
          nonceBytes ← readRecordExact NonceLen;
          wrappedLen ← readLenPrefix;
          match wrappedLen with
          | None => fail ErrShortHeader
          | Some wrappedLen =>
              if decide (wrappedLen <> CEKLen + TagLen) then fail ErrBadKEMCiphertext else
              ciphertext ← readRecordExact (CEKLen + TagLen);
              mret (mkKEMEnvelope encapsulatedKey nonceBytes ciphertext)
          end
      end
  end.

(** ** The local recovery *)

Record LocalSeedCEKRecovery := mkLocalSeedCEKRecovery {
  local_seed : bytes;
  local_suite : Suite;
}.

Definition NewLocalSeedCEKRecovery (seed : bytes) (suite : Suite) : LocalSeedCEKRecovery :=
  mkLocalSeedCEKRecovery seed suite.

#[global] Instance LocalSeed_recovery : CEKRecovery P LocalSeedCEKRecovery := {
  RecoverCEK l _ env aad := openCEKLocal (local_seed l) (local_suite l) env aad;
}.
End kem.

(** ** The recovery through the broker *)

Section broker.
Context {Gr : Grpc} {GS : GrpcStatus} {P : Platform B} {C : Crypto}.

Record BrokerCEKRecovery := mkBrokerCEKRecovery {
  broker_client : Client;
  broker_keyID : bytes;
  broker_suite : Suite;
}.

Definition NewBrokerCEKRecovery (client : Client) (keyID : bytes) (suite : Suite)
    : BrokerCEKRecovery :=
  mkBrokerCEKRecovery client keyID suite.

Definition kemAlgorithm (b : BrokerCEKRecovery) : Z :=
  let s := broker_suite b in
  if decide (s = SuiteMLKEM512) then KemAlgorithmMLKEM512
  else if decide (s = SuiteMLKEM768) then KemAlgorithmMLKEM768
  else if decide (s = SuiteMLKEM1024) then KemAlgorithmMLKEM1024
  else KemAlgorithmUnspecified.

(** An RPC from inside a stream operation. *)
Definition via_broker {A} (m : rpc A) : io A := fun w =>
  let '(r, b) := m (w_ext w) in
  (r, World (w_src w) (w_dst w) (w_rng w) (w_secrets w) b).

(** A key of another length is dropped as it is; the caller wipes one it is given. *)
Definition broker_RecoverCEK (b : BrokerCEKRecovery) (ctx : context) (env : KEMEnvelope)
    (aad : bytes) : io bytes :=
  cek ← via_broker (UnwrapEnvelope (broker_client b) ctx (broker_keyID b)
    (Some (mkEnvelope (kemAlgorithm b) EnvelopeAlgorithmAES256GCM 0
      (EncapsulatedKey env) (Nonce env) (WrappedCEK env))) (Some aad));
  if decide (len cek <> CEKLen) then
    keep_secret cek;;
    fail ErrBadCEKLength
  else mret cek.

#[global] Instance Broker_recovery : CEKRecovery P BrokerCEKRecovery := {
  RecoverCEK := broker_RecoverCEK;
}.
End broker.
