(* ===== verification/Spiffe.v ===== *)
(** Package [spiffe], file [spiffe.go]: the client of the broker's SPIFFE
    Workload API, a wrapper of go-spiffe's.  Option slices are slices over a
    heap ([Slices]), because the package appends to a slice it is handed. *)

From stdpp Require Import gmap.
From S2P Require Import Prelude Slices GoTime GoText GoError Errors Client.

(** ** go-spiffe

    The client options the package builds or is handed
    ([workloadapi.ClientOption]); [WorkloadDialOptions] is
    [workloadapi.WithDialOptions]. *)

Inductive ClientOption :=
| NilClientOption
| WithAddr (addr : bytes)
| WorkloadDialOptions (opts : list DialOption)
| OtherClientOption (id : N).

(** [jwtsvid.Params], the fields the package sets. *)
Record Params := mkParams { Audience : bytes; ExtraAudiences : list bytes }.

(** [E] is everything outside the process. A fetch returns its value and its
    error as Go does, both; a nil pointer is a value of the result type. The
    two sources are built from the options [workloadapi.WithClientOptions]
    carries to them. *)
Class WorkloadApi := {
  E : Type;
  clock : E -> Z;
  WlClient : Type;
  X509SVID : Type;
  JWTSVID : Type;
  X509Bundles : Type;
  JWTBundles : Type;
  X509Context : Type;
  X509Source : Type;
  JWTSource : Type;
  X509ContextWatcher : Type;
  JWTBundleWatcher : Type;
  workloadapi_New : context -> list ClientOption -> E -> result error WlClient * E;
  workloadapi_NewX509Source : context -> list ClientOption -> E -> result error X509Source * E;
  workloadapi_NewJWTSource : context -> list ClientOption -> E -> result error JWTSource * E;
  wl_Close : WlClient -> E -> option error * E;
  wl_FetchX509SVID : WlClient -> context -> E -> X509SVID * option error * E;
  wl_FetchX509SVIDs : WlClient -> context -> E -> list X509SVID * option error * E;
  wl_FetchX509Bundles : WlClient -> context -> E -> X509Bundles * option error * E;
  wl_FetchX509Context : WlClient -> context -> E -> X509Context * option error * E;
  wl_FetchJWTSVID : WlClient -> context -> Params -> E -> JWTSVID * option error * E;
  wl_FetchJWTSVIDs : WlClient -> context -> Params -> E -> list JWTSVID * option error * E;
  wl_FetchJWTBundles : WlClient -> context -> E -> JWTBundles * option error * E;
  wl_ValidateJWTSVID : WlClient -> context -> bytes -> bytes -> E -> JWTSVID * option error * E;
  wl_WatchX509Context : WlClient -> context -> X509ContextWatcher -> E -> option error * E;
  wl_WatchJWTBundles : WlClient -> context -> JWTBundleWatcher -> E -> option error * E;
}.

Definition DefaultTimeout : Z := 30 * Second.

(** [socketAddr] *)
Definition socketAddr (path : bytes) : bytes :=
  if Contains path (str "://") then path else str "unix://" ++ path.

Section spiffe.
Context {Rt : GoRuntime} {WA : WorkloadApi} {GS : GrpcStatus}.

(** ** The process

    Outside it [E]; inside, the heap of option arrays, and the timers of the
    contexts made by [context.WithTimeout] that were not cancelled yet. *)
Record spworld := mkSpworld {
  sw_ext : E;
  sw_heap : heap ClientOption;
  sw_timers : gset nat;
  sw_next : nat;
}.

Definition sp (A : Type) : Type := spworld -> A * spworld.

#[global] Instance sp_ret : MRet sp := fun A a w => (a, w).
#[global] Instance sp_bind : MBind sp := fun A B k m w => let '(a, w) := m w in k a w.

(** A call into go-spiffe, and a computation on the heap. *)
Definition ext {A} (f : E -> A * E) : sp A := fun w =>
  let '(a, e) := f (sw_ext w) in (a, mkSpworld e (sw_heap w) (sw_timers w) (sw_next w)).
Definition on_heap {A} (f : heap ClientOption -> A * heap ClientOption) : sp A := fun w =>
  let '(a, h) := f (sw_heap w) in (a, mkSpworld (sw_ext w) h (sw_timers w) (sw_next w)).
Definition elements (s : goslice) : sp (list ClientOption) := fun w => (read (sw_heap w) s, w).

(** A [context.CancelFunc]: [None] is [func() {}], [Some i] stops timer [i].
    [deferred] runs it when the body returns. *)
Definition CancelFunc : Type := option nat.

Definition run_cancel (f : CancelFunc) : sp () := fun w =>
  match f with
  | None => ((), w)
  | Some i => ((), mkSpworld (sw_ext w) (sw_heap w) (sw_timers w ∖ {[i]}) (sw_next w))
  end.

Definition deferred {A} (f : CancelFunc) (body : sp A) : sp A :=
  r ← body; run_cancel f;; mret r.

(** [context.WithTimeout(ctx, d)] *)
Definition WithTimeoutContext (ctx : context) (d : Z) : sp (context * CancelFunc) := fun w =>
  ((context_WithTimeout (clock (sw_ext w)) ctx d, Some (sw_next w)),
   mkSpworld (sw_ext w) (sw_heap w) ({[sw_next w]} ∪ sw_timers w) (S (sw_next w))).

(** ** Options *)

Record config := mkConfig { cfg_timeout : Z; cfg_clientOpts : goslice }.

(** [type Option func(c *config)]; the slice handed to [WithClientOptions] is read
    when the option is applied. *)
Definition Option : Type := config -> sp config.

Definition WithTimeout (d : Z) : Option := fun c => mret (mkConfig d (cfg_clientOpts c)).

Definition WithClientOptions (opts : goslice) : Option := fun c =>
  xs ← elements opts;
  s ← on_heap (append NilClientOption growslice_spare (cfg_clientOpts c) xs);
  mret (mkConfig (cfg_timeout c) s).

Definition clientOptions (socketPath : bytes) (extra : goslice) : sp goslice :=
  on_heap (append NilClientOption growslice_spare extra
    [WithAddr (socketAddr socketPath); WorkloadDialOptions [WithAuthority (str "localhost")]]).

(** ** The client *)

Record Client := mkClient { wl : WlClient; timeout : Z }.

(** [for _, opt := range opts { opt(&cfg) }] *)
Fixpoint apply_options (opts : list Option) (cfg : config) : sp config :=
  match opts with
  | [] => mret cfg
  | opt :: opts => cfg ← opt cfg; apply_options opts cfg
  end.

Definition Dial (ctx : context) (socketPath : bytes) (opts : list Option) : sp (result error Client) :=
  if decide (socketPath = []) then mret (Err (Errorf "basil/spiffe: empty socket path" [])) else
  cfg ← apply_options opts (mkConfig DefaultTimeout nil_slice);
  s ← clientOptions socketPath (cfg_clientOpts cfg);
  xs ← elements s;
  r ← ext (workloadapi_New ctx xs);
  mret (match r with
        | Err err => Err (Wrapf "basil/spiffe: dial %q: %w" [AStr socketPath] err)
        | Ok wl => Ok (mkClient wl (cfg_timeout cfg))
        end).

Definition Close (c : Client) : sp (option error) := ext (wl_Close (wl c)).

Definition Workload (c : Client) : WlClient := wl c.

Definition withTimeout (c : Client) (ctx : context) : sp (context * CancelFunc) :=
  if decide (timeout c <= 0) then mret (ctx, None) else
  match Deadline ctx with
  | Some _ => mret (ctx, None)
  | None => WithTimeoutContext ctx (timeout c)
  end.

(** The eight one-shot methods: deadline, call, normalised error. *)

Definition FetchX509SVID (c : Client) (ctx : context) : sp (X509SVID * option error) :=
  '(ctx, cancel) ← withTimeout c ctx;
  deferred cancel (
    '(svid, err) ← ext (wl_FetchX509SVID (wl c) ctx);
    mret (svid, FromError err)).

Definition FetchX509SVIDs (c : Client) (ctx : context) : sp (list X509SVID * option error) :=
  '(ctx, cancel) ← withTimeout c ctx;
  deferred cancel (
    '(svids, err) ← ext (wl_FetchX509SVIDs (wl c) ctx);
    mret (svids, FromError err)).

Definition FetchX509Bundles (c : Client) (ctx : context) : sp (X509Bundles * option error) :=
  '(ctx, cancel) ← withTimeout c ctx;
  deferred cancel (
    '(set, err) ← ext (wl_FetchX509Bundles (wl c) ctx);
    mret (set, FromError err)).

Definition FetchX509Context (c : Client) (ctx : context) : sp (X509Context * option error) :=
  '(ctx, cancel) ← withTimeout c ctx;
  deferred cancel (
    '(x, err) ← ext (wl_FetchX509Context (wl c) ctx);
    mret (x, FromError err)).

Definition FetchJWTSVID (c : Client) (ctx : context) (audience : bytes) (extraAudiences : list bytes)
    : sp (JWTSVID * option error) :=
  '(ctx, cancel) ← withTimeout c ctx;
  deferred cancel (
    '(svid, err) ← ext (wl_FetchJWTSVID (wl c) ctx (mkParams audience extraAudiences));
    mret (svid, FromError err)).

Definition FetchJWTSVIDs (c : Client) (ctx : context) (audience : bytes) (extraAudiences : list bytes)
    : sp (list JWTSVID * option error) :=
  '(ctx, cancel) ← withTimeout c ctx;
  deferred cancel (
    '(svids, err) ← ext (wl_FetchJWTSVIDs (wl c) ctx (mkParams audience extraAudiences));
    mret (svids, FromError err)).

Definition FetchJWTBundles (c : Client) (ctx : context) : sp (JWTBundles * option error) :=
  '(ctx, cancel) ← withTimeout c ctx;
  deferred cancel (
    '(set, err) ← ext (wl_FetchJWTBundles (wl c) ctx);
    mret (set, FromError err)).

Definition ValidateJWTSVID (c : Client) (ctx : context) (token audience : bytes)
    : sp (JWTSVID * option error) :=
  '(ctx, cancel) ← withTimeout c ctx;
  deferred cancel (
    '(svid, err) ← ext (wl_ValidateJWTSVID (wl c) ctx token audience);
    mret (svid, FromError err)).

(** The two watches, under the caller's context. *)

Definition WatchX509Context (c : Client) (ctx : context) (watcher : X509ContextWatcher)
    : sp (option error) :=
  err ← ext (wl_WatchX509Context (wl c) ctx watcher);
  mret (FromError err).

Definition WatchJWTBundles (c : Client) (ctx : context) (watcher : JWTBundleWatcher)
    : sp (option error) :=
  err ← ext (wl_WatchJWTBundles (wl c) ctx watcher);
  mret (FromError err).

(** ** The sources *)

Definition NewX509Source (ctx : context) (socketPath : bytes) (extra : goslice)
    : sp (result error X509Source) :=
  s ← clientOptions socketPath extra;
  xs ← elements s;
  r ← ext (workloadapi_NewX509Source ctx xs);
  mret (match r with
        | Err err => Err (Wrapf "basil/spiffe: x509 source %q: %w" [AStr socketPath] err)
        | Ok src => Ok src
        end).

Definition NewJWTSource (ctx : context) (socketPath : bytes) (extra : goslice)
    : sp (result error JWTSource) :=
  s ← clientOptions socketPath extra;
  xs ← elements s;
  r ← ext (workloadapi_NewJWTSource ctx xs);
  mret (match r with
        | Err err => Err (Wrapf "basil/spiffe: jwt source %q: %w" [AStr socketPath] err)
        | Ok src => Ok src
        end).
End spiffe.
