(* ===== verification/Program.v ===== *)
(** Commands: a monad for the programs under [src/cmd] and [src/examples], which
    print, fail with an error that [main] reports, or exit. *)

From S2P Require Import Prelude GoTime GoError Errors Client Minting.

(** A line a command prints: on standard output with its format and operands,
    the error [main] reports on standard error behind a prefix, a text there, and
    the flags' usage. *)
Inductive line :=
| Out (fmt : string) (args : list arg)
| ErrLine (prefix : string) (e : error)
| Stderr (fmt : string) (args : list arg)
| Usage.

(** What became of a computation: a value, an error returned, [os.Exit]. *)
Inductive outcome (A : Type) := Done (a : A) | Fails (e : error) | Exits (code : Z).
Arguments Done {A} _.
Arguments Fails {A} _.
Arguments Exits {A} _.

Section prog.
Context {S : Type}.

(** [S] is what the command acts on beyond its output. *)
Record process := mkProcess { ps_state : S; ps_out : list line }.

Definition prog (A : Type) : Type := process -> outcome A * process.

#[global] Instance prog_ret : MRet prog := fun A a p => (Done a, p).
#[global] Instance prog_bind : MBind prog := fun A A' k m p =>
  match m p with
  | (Done a, p') => k a p'
  | (Fails e, p') => (Fails e, p')
  | (Exits c, p') => (Exits c, p')
  end.

Definition print (l : line) : prog () := fun p => (Done (), mkProcess (ps_state p) (ps_out p ++ [l])).
Definition fails {A} (e : error) : prog A := fun p => (Fails e, p).
Definition os_Exit {A} (code : Z) : prog A := fun p => (Exits code, p).

(** A call on the state, whose error is returned as it is; a pure one; one that
    cannot fail; and [m] with its error wrapped. *)
Definition call_on {A} (m : S -> result error A * S) : prog A := fun p =>
  let '(r, s) := m (ps_state p) in
  (match r with Ok a => Done a | Err e => Fails e end, mkProcess s (ps_out p)).
Definition pure {A} (r : result error A) : prog A := call_on (fun s => (r, s)).
Definition act {A} (m : S -> A * S) : prog A := fun p =>
  let '(a, s) := m (ps_state p) in (Done a, mkProcess s (ps_out p)).
Definition wrapping {A} (fmt : string) (args : list arg) (m : prog A) : prog A := fun p =>
  match m p with
  | (Fails e, p') => (Fails (Wrapf fmt args e), p')
  | r => r
  end.

(** [if err := run(); err != nil { fmt.Fprintln(os.Stderr, prefix, err); os.Exit(1) }] *)
Definition main_of (prefix : string) (m : prog ()) : process -> Z * process := fun p =>
  match m p with
  | (Done _, p') => (0, p')
  | (Fails e, p') => (1, mkProcess (ps_state p') (ps_out p' ++ [ErrLine prefix e]))
  | (Exits c, p') => (c, p')
  end.

(** ** Sequencing *)

Lemma prog_bind_Done {A A'} (m : prog A) (k : A -> prog A') p a p' :
  m p = (Done a, p') -> (m ≫= k) p = k a p'.
Proof. unfold mbind, prog_bind. by intros ->. Qed.

Lemma prog_bind_Fails {A A'} (m : prog A) (k : A -> prog A') p e p' :
  m p = (Fails e, p') -> (m ≫= k) p = (Fails e, p').
Proof. unfold mbind, prog_bind. by intros ->. Qed.

Lemma print_run l s o : print l (mkProcess s o) = (Done (), mkProcess s (o ++ [l])).
Proof. reflexivity. Qed.

(** Inversion of a sequence that is done. *)
Lemma prog_bind_Done_inv {A A'} (m : prog A) (k : A -> prog A') p b p'' :
  (m ≫= k) p = (Done b, p'') -> exists a p', m p = (Done a, p') /\ k a p' = (Done b, p'').
Proof. unfold mbind, prog_bind. destruct (m p) as [[a|e|c] p']; [eauto|done|done]. Qed.

Lemma call_on_Done {A} (m : S -> result error A * S) p a s :
  m (ps_state p) = (Ok a, s) -> call_on m p = (Done a, mkProcess s (ps_out p)).
Proof. unfold call_on. by intros ->. Qed.

Lemma call_on_Done_inv {A} (m : S -> result error A * S) p a p' :
  call_on m p = (Done a, p') -> m (ps_state p) = (Ok a, ps_state p') /\ ps_out p' = ps_out p.
Proof. unfold call_on. destruct (m (ps_state p)) as [[x|e] s]; [|done]. by intros [= -> <-]. Qed.

Lemma pure_Done_inv {A} (r : result error A) p a p' : pure r p = (Done a, p') -> r = Ok a /\ p' = p.
Proof. unfold pure, call_on. destruct r; [|done]. intros [= -> <-]. by destruct p. Qed.

Lemma wrapping_Done_inv {A} fmt args (m : prog A) p a p' :
  wrapping fmt args m p = (Done a, p') -> m p = (Done a, p').
Proof. unfold wrapping. by destruct (m p) as [[] ?]. Qed.

Lemma wrapping_Done {A} fmt args (m : prog A) p a p' :
  m p = (Done a, p') -> wrapping fmt args m p = (Done a, p').
Proof. unfold wrapping. by intros ->. Qed.
End prog.

Arguments process S : clear implicits.
Arguments prog S A : clear implicits.

(** Run the first step of the goal's program by the equation [E]. *)
Ltac prog_run E := first [ rewrite (prog_bind_Done _ _ _ _ _ E) | rewrite (prog_bind_Fails _ _ _ _ _ E) ].

(** Split [H : (m ≫= k) p = (Done b, p'')] into its first step and the rest. *)
Tactic Notation "prog_inv" hyp(H) "as" simple_intropattern(a) simple_intropattern(p) ident(E) :=
  apply prog_bind_Done_inv in H; destruct H as (a & p & E & H).

(** [context.WithTimeout(context.Background(), d)]; [cancel] has no effect on the
    model's state, and neither has [client.Close()], whose result the
    commands drop. *)
Definition background_timeout {Gr : Grpc} (d : Z) : prog B context :=
  act (fun b => (context_WithTimeout (now b) (mkContext None) d, b)).

(** [os.Getenv] is a function of the name; an unset variable is empty. *)
Definition envOr (getenv : bytes -> bytes) (key fallback : bytes) : bytes :=
  let v := getenv key in if decide (v <> []) then v else fallback.

(** The Go values of the literals the examples pass to the broker as claims. *)
Class GoValues `{J : JsonEncoder} := {
  VString : bytes -> Value;
  VInt : Z -> Value;
  VBool : bool -> Value;
  VMap : list (bytes * Value) -> Value;       (* map[string]any, map[string]string *)
}.
