(* ===== verification/Http.v ===== *)
(** [net/http], as the example [web-service] uses it: a [ServeMux] whose patterns
    are a method and a path of literal segments without a slash at the end. *)

From S2P Require Import Prelude GoPath GoText Client.

(** ** Requests and answers

    What the multiplexer looks at: the method, the request target as it was
    sent, [URL.EscapedPath()] and [URL.RawQuery]; and the context of the request. *)
Record Request := mkRequest {
  Method : bytes;
  RequestURI : bytes;
  EscapedPath : bytes;
  RawQuery : bytes;
  req_Context : context;
}.

Record HttpResponse := mkHttpResponse { Status : Z; Body : bytes }.

Definition StatusOK : Z := 200.
Definition StatusBadGateway : Z := 502.

(** What became of a request: the answer of a handler, or the multiplexer's own. *)
Inductive answer :=
| Handled (r : HttpResponse)
| Redirected (path query : bytes)
| MethodNotAllowed (allow : list bytes)
| NotFound
| BadRequest.

(** ** Paths *)

(** [url.PathUnescape], whose error is answered with the segment as it is. *)
Fixpoint PathUnescape (s : bytes) : option bytes :=
  match s with
  | [] => Some []
  | b :: s1 =>
      if decide (b = x25) then
        match s1 with
        | h :: l :: s2 =>
            match hex_value h, hex_value l with
            | Some h, Some l => (fun rest => byte_of (16 * h + l) :: rest) <$> PathUnescape s2
            | _, _ => None
            end
        | _ => None
        end
      else (fun rest => b :: rest) <$> PathUnescape s1
  end.

Definition pathUnescape (seg : bytes) : bytes := default seg (PathUnescape seg).

(** The segments [firstSegment] takes off one after the other: unescaped, and a
    slash at the end is a segment of its own. *)
Fixpoint segments_of (comps : list bytes) : list bytes :=
  match comps with
  | [] => []
  | [c] => [if decide (c = []) then [slash] else pathUnescape c]
  | c :: comps => pathUnescape c :: segments_of comps
  end.

Definition segments (path : bytes) : list bytes :=
  match path with
  | [] => []
  | b :: rest => if decide (b <> slash /\ rest = []) then [[]] else segments_of (split_slash rest)
  end.

(** [cleanPath]: [path.Clean] of the rooted path, but keeping a slash at the end. *)
Definition cleanPath (p : bytes) : bytes :=
  if decide (p = []) then [slash] else
  let p := if decide (head p <> Some slash) then slash :: p else p in
  let np := Clean p in
  if decide (last p = Some slash /\ np <> [slash]) then np ++ [slash] else np.

(** ** The multiplexer *)

Section mux.
Context {S : Type}.

(** A handler: what it makes of the context of the request and of the state. *)
Definition handler : Type := context -> S -> HttpResponse * S.

Record route := mkRoute { rt_method : bytes; rt_segments : list bytes; rt_handler : handler }.

(** [parsePattern] on a method and a literal path; the wildcards, the hosts and
    the trailing slashes of other patterns do not occur. *)
Definition HandleFunc (method path : bytes) (h : handler) (mux : list route) : list route :=
  mux ++ [mkRoute method (segments path) h].

Definition find_route (mux : list route) (method : bytes) (segs : list bytes) : option route :=
  find (fun r => bool_decide (rt_method r = method /\ rt_segments r = segs)) mux.

(** [matchMethodAndPath]: GET matches HEAD too. *)
Definition match_route (mux : list route) (method path : bytes) : option route :=
  match find_route mux method (segments path) with
  | Some r => Some r
  | None => if decide (method = str "HEAD") then find_route mux (str "GET") (segments path) else None
  end.

(** [matchingMethods] of the path; no pattern matches the path with a slash added.
    The code sorts them; here a path has one route, and [GET] is before [HEAD]. *)
Definition matching_methods (mux : list route) (path : bytes) : list bytes :=
  let found := map rt_method (List.filter (fun r => bool_decide (rt_segments r = segments path)) mux) in
  found ++ (if bool_decide (str "GET" ∈ found) then [str "HEAD"] else []).

(** [findHandler] and the call of what it finds. *)
Definition ServeHTTP (mux : list route) (r : Request) : S -> answer * S := fun s =>
  if decide (RequestURI r = str "*") then (BadRequest, s) else
  let connect := bool_decide (Method r = str "CONNECT") in
  let path := if connect then EscapedPath r else cleanPath (EscapedPath r) in
  if decide (path <> EscapedPath r) then (Redirected path (RawQuery r), s) else
  match match_route mux (Method r) path with
  | Some rt => let '(resp, s) := rt_handler rt (req_Context r) s in (Handled resp, s)
  | None =>
      match matching_methods mux path with
      | [] => (NotFound, s)
      | allow => (MethodNotAllowed allow, s)
      end
  end.
End mux.

Arguments handler S : clear implicits.
Arguments route S : clear implicits.

Example cleanPath_1 : cleanPath (str "/a//b/../c/") = str "/a/c/" /\ cleanPath (str "token") = str "/token" /\
  cleanPath (str "/..") = str "/".
Proof. split_and!; vm_compute; reflexivity. Qed.
Example segments_1 : segments (str "/%74oken") = [str "token"] /\ segments (str "/token/") = [str "token"; str "/"] /\
  segments (str "/") = [str "/"] /\ segments (str "/%7") = [str "%7"].
Proof. split_and!; vm_compute; reflexivity. Qed.
