(* ===== verification/CmdSign.v ===== *)
(** The command [cmd/basil-sign] (main.go): sign a message, verify the signature,
    print both and the public key.  The flags are those [flag.Parse] leaves. *)

From S2P Require Import Prelude GoTime GoText GoError Errors Pb Client Signing Enums Program.

Record flags := mkFlags { fl_socket : bytes; fl_key : bytes; fl_message : bytes; fl_timeout : Z }.

(** The defaults. *)
Definition default_flags : flags := mkFlags [] [] (str "hello from basil-go") (10 * Second).

Section sign.
Context {Gr : Grpc} {GS : GrpcStatus} {Pi : Protoimpl}.

Definition run (f : flags) : prog B () :=
  if decide (fl_socket f = [] \/ fl_key f = []) then
    print Usage;;
    fails (Errorf "both -socket and -key are required" [])
  else
  client ← pure (Dial (fl_socket f) []);
  ctx ← background_timeout (fl_timeout f);
  pub ← wrapping "get public key: %w" [] (call_on (GetPublicKey client ctx (fl_key f) None));
  print (Out "key %s: type=%s version=%d public=%s"
    [AStr (pk_KeyID pub); AStr (KeyType_String (pk_KeyType pub)); AInt (pk_Version pub);
     AStr (base64_StdEncoding (pk_Bytes pub))]);;
  sig ← wrapping "sign: %w" [] (call_on (Sign client ctx (fl_key f) (fl_message f)));
  print (Out "signature: %s" [AStr (base64_StdEncoding sig)]);;
  ok ← wrapping "verify: %w" [] (call_on (Verify client ctx (fl_key f) (fl_message f) sig));
  print (Out "verify: %t" [ABool ok]);;
  if negb ok then fails (Errorf "broker rejected a signature it just produced" []) else mret ().

Definition main (f : flags) : process B -> Z * process B := main_of "basil-sign:" (run f).
End sign.
