(* ===== verification/ExSecrets.v ===== *)
(** The example [secrets-and-aead] (main.go): the version ladder of a secret, and
    an AEAD round trip whose mismatched additional data must be refused. *)

From S2P Require Import Prelude GoTime GoError Errors Pb Client Aead Secret Enums Program.

Record config := mkConfig { socket : bytes; secretID : bytes; aeadKeyID : bytes }.

Definition loadConfig (getenv : bytes -> bytes) : config :=
  mkConfig (envOr getenv (str "BASIL_SOCKET") (str "/tmp/basil-secrets-aead/agent.sock"))
    (envOr getenv (str "BASIL_SECRET_ID") (str "app.session_token"))
    (envOr getenv (str "BASIL_AEAD_KEY_ID") (str "app.aead")).

Section secrets.
Context {Gr : Grpc} {GS : GrpcStatus} {Pi : Protoimpl}.

Definition first : bytes := str "session-token-alpha".
Definition second : bytes := str "session-token-bravo".

Definition secretVersionCycle (ctx : context) (client : Client) (secretID : bytes) : prog B () :=
  v1 ← wrapping "set %s (first): %w" [AStr secretID] (call_on (SetSecret client ctx secretID first));
  print (Out "PASS set %s version=%d" [AStr secretID; AInt v1]);;
  got1 ← wrapping "get %s (after first set): %w" [AStr secretID]
    (call_on (GetSecret client ctx secretID None));
  if decide (secret_Value got1 <> first) then
    fails (Errorf "get %s returned %q, want %q" [AStr secretID; AStr (secret_Value got1); AStr first])
  else if decide (secret_Version got1 <> v1) then
    fails (Errorf "get %s version=%d, want %d" [AStr secretID; AInt (secret_Version got1); AInt v1])
  else
  print (Out "PASS get %s roundtrip version=%d" [AStr secretID; AInt (secret_Version got1)]);;
  v2 ← wrapping "set %s (second): %w" [AStr secretID] (call_on (SetSecret client ctx secretID second));
  if decide (v2 <= v1) then
    fails (Errorf "second set version=%d did not advance past %d" [AInt v2; AInt v1])
  else
  print (Out "PASS set %s version=%d" [AStr secretID; AInt v2]);;
  v3 ← wrapping "rotate %s: %w" [AStr secretID] (call_on (RotateSecret client ctx secretID));
  if decide (v3 <= v2) then
    fails (Errorf "rotate version=%d did not advance past %d" [AInt v3; AInt v2])
  else
  print (Out "PASS rotate %s version=%d" [AStr secretID; AInt v3]);;
  got3 ← wrapping "get %s (after rotate): %w" [AStr secretID]
    (call_on (GetSecret client ctx secretID None));
  if decide (secret_Version got3 <> v3) then
    fails (Errorf "latest version=%d after rotate, want %d" [AInt (secret_Version got3); AInt v3])
  else if decide (secret_Value got3 = second) then
    fails (Errorf "rotate returned the previous value; expected a freshly generated secret" [])
  else
  print (Out "PASS version cycle %d<%d<%d rotated-value-differs" [AInt v1; AInt v2; AInt v3]).

Definition plaintext : bytes := str "telemetry: cpu=0.42 mem=0.71 region=eu-west-1".
Definition aad : bytes := str "tenant=acme,stream=telemetry".
Definition wrongAAD : bytes := str "tenant=evil,stream=telemetry".

Definition aeadRoundTripWithAAD (ctx : context) (client : Client) (keyID : bytes) : prog B () :=
  ct ← wrapping "encrypt with %s: %w" [AStr keyID]
    (call_on (Encrypt client ctx keyID AeadAlgorithmAES256GCM plaintext (Some aad)));
  if decide (len (ct_Bytes ct) = 0) then fails (Errorf "broker returned an empty ciphertext" []) else
  print (Out "PASS encrypt %s alg=%s ciphertext_len=%d"
    [AStr keyID; AStr (AeadAlgorithm_String (ct_Algorithm ct)); AInt (len (ct_Bytes ct))]);;
  recovered ← wrapping "decrypt with matching AAD: %w" []
    (call_on (Decrypt client ctx keyID (Some ct) (Some aad)));
  if decide (recovered <> plaintext) then
    fails (Errorf "decrypt returned %q, want %q" [AStr recovered; AStr plaintext])
  else
  print (Out "PASS decrypt roundtrip matching-aad" []);;
  r ← act (Decrypt client ctx keyID (Some ct) (Some wrongAAD));
  match r with
  | Ok _ => fails (Errorf "decrypt with mismatched AAD succeeded; expected authentication failure" [])
  | Err _ => print (Out "PASS decrypt rejected mismatched-aad" [])
  end.

Definition run (cfg : config) : prog B () :=
  client ← wrapping "dial broker at %s: %w" [AStr (socket cfg)] (pure (Dial (socket cfg) []));
  ctx ← background_timeout (30 * Second);
  secretVersionCycle ctx client (secretID cfg);;
  aeadRoundTripWithAAD ctx client (aeadKeyID cfg).

Definition main (getenv : bytes -> bytes) : process B -> Z * process B :=
  main_of "FAIL:" (run (loadConfig getenv)).
End secrets.
