(* ===== verification/ExWeb.v ===== *)
(** The example [web-service] (main.go): an HTTP token service without a key. *)

From S2P Require Import Prelude GoTime GoError Errors Pb Client Minting Program Http.

Section web.
Context {Gr : Grpc} {GS : GrpcStatus} {WK : WellKnown} {J : JsonEncoder} {GV : GoValues}.

(** [http.ListenAndServe(addr, mux)]: it passes every request that arrives to the
    handler, and returns only with an error. *)
Class Listener := {
  ListenAndServe : bytes -> (Request -> B -> answer * B) -> B -> error * B;
}.

Record service := mkService { svc_client : Client; svc_keyID : bytes }.

(** GET /healthz *)
Definition healthz : handler B := fun _ b => (mkHttpResponse StatusOK (str "ok" ++ [x0a]), b).

Definition token_request (s : service) : JwtRequest :=
  mkJwtRequest (svc_keyID s) (str "web-service-go-demo") (5 * Minute)
    (Some (AnyOther (VMap [(str "scope", VString (str "demo"))]))).

(** POST /token, for a request whose context is [r]; [cancel] has no effect on the
    model's state. *)
Definition token (s : service) : handler B := fun r b =>
  let ctx := context_WithTimeout (now b) r (10 * Second) in
  match MintJwt (svc_client s) ctx (token_request s) b with
  | (Err err, b) => (mkHttpResponse StatusBadGateway (str "mint refused: " ++ error_text err ++ [x0a]), b)
  | (Ok cred, b) => (mkHttpResponse StatusOK (cred_Token cred), b)
  end.

Definition newMux (s : service) : list (route B) :=
  HandleFunc (str "POST") (str "/token") (token s) (
  HandleFunc (str "GET") (str "/healthz") healthz []).

Context {Ln : Listener}.

(** [log.Fatal] and [log.Fatalf] end the process, without the deferred calls. *)
Definition main (getenv : bytes -> bytes) : prog B () :=
  let socket := envOr getenv (str "BASIL_SOCKET") (str "/tmp/basil-web-go/agent.sock") in
  let bind := envOr getenv (str "BIND_ADDR") (str "127.0.0.1:8096") in
  let keyID := envOr getenv (str "BASIL_SIGNING_KEY_ID") (str "web.signing_key") in
  match Dial socket [] with
  | Err err =>
      print (Stderr "dial broker at %s: %v" [AStr socket; AStr (error_text err)]);;
      os_Exit 1
  | Ok client =>
      let mux := newMux (mkService client keyID) in
      print (Stderr "listening on http://%s (broker: %s)" [AStr bind; AStr socket]);;
      err ← act (ListenAndServe bind (ServeHTTP mux));
      print (Stderr "%v" [AStr (error_text err)]);;
      os_Exit 1
  end.
End web.
