(* ===== verification/Cbor.v ===== *)
(** The values package [sealedinvocation] exchanges with its CBOR library
    (github.com/fxamacker/cbor/v2), and that library as an interface: the
    canonical encoder, the default decoder, and their documented behaviour on
    the values the package makes. *)

From S2P Require Import Prelude GoText GoError.

#[local] Set Warnings "-register-all".

(** ** Go values of type [any]

    Those the package encodes ([GInts] is a [[]int64], [GMap] a
    [map[int64]any], a nil slice is [GNil]) and those the decoder stores in an
    [any] ([GMapAny] is a [map[any]any]; [GOther] any further one). A map is the
    list of its entries, in no particular order. *)

Inductive gval :=
| GNil
| GUint64 (z : Z)
| GInt64 (z : Z)
| GBytes (b : bytes)
| GString (s : bytes)
| GInts (l : list Z)
| GList (l : list gval)
| GMap (kv : list (Z * gval))
| GMapAny (kv : list (gval * gval))
| GTag (number : Z) (content : gval)
| GOther (id : N).

(** [m[k]] on a [map[int64]any]: nil when [k] is not there. *)
Fixpoint gget (m : list (Z * gval)) (k : Z) : gval :=
  match m with
  | [] => GNil
  | (k', v) :: m => if decide (k = k') then v else gget m k
  end.

(** A [[]byte], nil or not, as an [any]. *)
Definition of_slice (b : option bytes) : gval :=
  match b with Some b => GBytes b | None => GNil end.

(** ** Typed destinations *)

(** [coseSign1], [coseRecipient] and [coseEncrypt]. Only the payload's nil is told
    from the empty slice. *)
Record coseSign1 := mkSign1 {
  sg_Protected : bytes;
  sg_Unprotected : list (Z * gval);
  sg_Payload : option bytes;
  sg_Signature : bytes;
}.

Record coseRecipient := mkRecipient {
  re_Protected : bytes;
  re_Unprotected : list (Z * gval);
  re_Ciphertext : gval;
}.

Record coseEncrypt := mkCoseEncrypt {
  en_Protected : bytes;
  en_Unprotected : list (Z * gval);
  en_Ciphertext : bytes;
  en_Recipients : list coseRecipient;
}.

(** ** The library

    [EncMode] and [DecMode] are [CanonicalEncOptions().EncMode()] and
    [(DecOptions{}).DecMode()]; one [Unmarshal] per destination type. *)
Class Cbor := {
  EncMode : result error unit;
  DecMode : result error unit;
  encoder_Marshal : gval -> result error bytes;
  Unmarshal_Tag : bytes -> result error (Z * gval);
  Unmarshal_Map : bytes -> result error (list (Z * gval));
  Unmarshal_Sign1 : bytes -> result error coseSign1;
  Unmarshal_Encrypt : bytes -> result error coseEncrypt;
}.

(** ** Documented behaviour *)

(** What an integer decodes to in an [any]. *)
Definition any_int (z : Z) : gval := if decide (0 <= z) then GUint64 z else GInt64 z.

Definition int64 (z : Z) : Prop := - 2 ^ 63 <= z < 2 ^ 63.

(** [Q] holds of every element. *)
Fixpoint each {A} (Q : A -> Prop) (l : list A) : Prop :=
  match l with [] => True | x :: l => Q x /\ each Q l end.

(** The decoder's default limits. *)
Definition MaxNestedLevels : nat := 32.
Definition MaxElements : Z := 131072.

(** The encoded value is one the decoder accepts: integers of their width, valid
    text, distinct keys, at most [n] levels deep. *)
Fixpoint encodable (n : nat) (v : gval) : Prop :=
  match v with
  | GNil | GBytes _ => True
  | GUint64 z => 0 <= z < 2 ^ 64
  | GInt64 z => int64 z
  | GString s => utf8_Valid s = true
  | GInts l => (0 < n)%nat /\ len l <= MaxElements /\ each int64 l
  | GList l =>
      match n with
      | O => False
      | S n => len l <= MaxElements /\ each (encodable n) l
      end
  | GMap kv =>
      match n with
      | O => False
      | S n => len kv <= MaxElements /\ NoDup (map fst kv) /\
               each (fun p => int64 p.1 /\ encodable n p.2) kv
      end
  | GTag t v =>
      match n with O => False | S n => 0 <= t < 2 ^ 64 /\ encodable n v end
  | GMapAny _ | GOther _ => False
  end.

(** [decoded v v']: encoding [v] and decoding it into an [any] gives [v']. *)
Inductive decoded : gval -> gval -> Prop :=
| decoded_nil : decoded GNil GNil
| decoded_uint z : decoded (GUint64 z) (GUint64 z)
| decoded_int z : decoded (GInt64 z) (any_int z)
| decoded_bytes b : decoded (GBytes b) (GBytes b)
| decoded_string s : decoded (GString s) (GString s)
| decoded_ints l : decoded (GInts l) (GList (map any_int l))
| decoded_list l l' : Forall2 decoded l l' -> decoded (GList l) (GList l')
| decoded_map kv kv0 kv' : kv0 ≡ₚ kv ->
    Forall2 (fun p q => q.1 = any_int p.1 /\ decoded p.2 q.2) kv0 kv' ->
    decoded (GMap kv) (GMapAny kv')
| decoded_tag t v v' : decoded v v' -> decoded (GTag t v) (GTag t v').

(** The same for a map decoded into a [map[int64]any]. *)
Definition decoded_entries (kv kv' : list (Z * gval)) : Prop :=
  exists kv0, kv0 ≡ₚ kv /\ Forall2 (fun p q => p.1 = q.1 /\ decoded p.2 q.2) kv0 kv'.

(** [encodes raw v]: [raw] is an encoding of [v]. A value, and what it decoded
    to, can be encoded; an encoding decodes, into each type of destination, to
    the value. *)
Class CborLaws (Cb : Cbor) := {
  encodes : bytes -> gval -> Prop;
  modes_ok : EncMode = Ok () /\ DecMode = Ok ();
  Marshal_encodes : forall v, encodable MaxNestedLevels v ->
    exists raw, encoder_Marshal v = Ok raw /\ encodes raw v;
  Remarshal_encodes : forall v v', encodable MaxNestedLevels v -> decoded v v' ->
    exists raw, encoder_Marshal v' = Ok raw /\ encodes raw v;
  Unmarshal_Tag_encodes : forall raw t v, encodes raw (GTag t v) ->
    exists v', Unmarshal_Tag raw = Ok (t, v') /\ decoded v v';
  Unmarshal_Map_encodes : forall raw kv, encodes raw (GMap kv) ->
    exists kv', Unmarshal_Map raw = Ok kv' /\ decoded_entries kv kv';
  Unmarshal_Sign1_encodes : forall raw p u pl s,
    encodes raw (GList [GBytes p; GMap u; GBytes pl; GBytes s]) ->
    exists u', Unmarshal_Sign1 raw = Ok (mkSign1 p u' (Some pl) s) /\ decoded_entries u u';
  Unmarshal_Encrypt_encodes : forall raw p u c rp ru,
    encodes raw (GList [GBytes p; GMap u; GBytes c; GList [GList [GBytes rp; GMap ru; GNil]]]) ->
    exists u' ru', Unmarshal_Encrypt raw = Ok (mkCoseEncrypt p u' c [mkRecipient rp ru' GNil]) /\
      decoded_entries u u' /\ decoded_entries ru ru';
}.

(** ** Lookups in decoded maps *)

Lemma gget_perm kv kv' k : NoDup (map fst kv) -> kv ≡ₚ kv' -> gget kv k = gget kv' k.
Proof.
  intros Hn Hp. revert Hn. induction Hp as [|[a x] l l' Hp IH|[a x] [b y] l|l1 l2 l3 H1 IH1 H2 IH2];
    intros Hn; simpl in *; [done| | |].
  - apply NoDup_cons in Hn as [_ Hn]. by rewrite (IH Hn).
  - apply NoDup_cons in Hn as [Ha _]. repeat case_decide; subst; try done.
    destruct Ha. apply list_elem_of_here.
  - rewrite IH1 by done. apply IH2. by rewrite <-H1.
Qed.

(** The entry under [k] is the decoded one. *)
Lemma decoded_entries_gget kv kv' k : NoDup (map fst kv) -> decoded_entries kv kv' ->
  decoded (gget kv k) (gget kv' k).
Proof.
  intros Hn (kv0 & Hp & Hf). rewrite <-(gget_perm kv0 kv k); [|by rewrite Hp|done]. clear Hp Hn.
  induction Hf as [|[a x] [b y] l l' [Hab Hd] Hf IH]; simpl in *; [constructor|].
  subst b. by case_decide.
Qed.

(** ** Encodable values *)

Lemma each_impl {A} (Q R : A -> Prop) l : (forall x, Q x -> R x) -> each Q l -> each R l.
Proof. intros H. induction l as [|x l IH]; simpl; [done|]. intros [? ?]. auto. Qed.

Lemma encodable_S n v : encodable n v -> encodable (S n) v.
Proof.
  revert v. induction n as [|n IH]; intros [| | | | |l|l|kv|kv|t x|]; try done.
  - intros (H & _). lia.
  - intros (_ & H). split; [lia|done].
  - intros (H & He). split; [done|]. by apply (each_impl (encodable n)).
  - intros (H & Hn & He). split; [done|]. split; [done|].
    eapply each_impl; [|exact He]. intros p [Hk Hp]. split; [done|]. by apply IH.
  - intros [Ht Hx]. split; [done|]. by apply IH.
Qed.

Lemma encodable_mono n m v : (n <= m)%nat -> encodable n v -> encodable m v.
Proof. induction 1; auto using encodable_S. Qed.

Lemma each_app {A} (Q : A -> Prop) l1 l2 : each Q l1 -> each Q l2 -> each Q (l1 ++ l2).
Proof. induction l1; simpl; [done|]. intros [? ?]. auto. Qed.

Ltac nodup := apply (bool_decide_unpack _); vm_compute; exact I.

(** The encodings the package makes are shallow. *)
Ltac encode_solve := apply (encodable_mono 6); [unfold MaxNestedLevels; lia|];
  cbn [encodable each map fst snd of_slice]; unfold int64, MaxElements, len; cbn [length];
  repeat match goal with
  | |- _ /\ _ => split
  | |- NoDup _ => nodup
  | |- True => exact I
  | |- _ => vm_compute; congruence
  end.
