(* ===== verification/Sealed.v ===== *)
(** Package [sealedinvocation] (sealedinvocation.go): building COSE sealed
    invocation messages, and verifying and opening the responses to them. *)

From S2P Require Import Prelude GoTime GoError IO Crypto Cbor.

Definition labelInReplyTo : Z := -70001.
Definition labelRequestHash : Z := -70002.
Definition labelSenderKeyID : Z := -70003.
Definition labelResponseKeyID : Z := -70004.
Definition labelResponseSubject : Z := -70005.
Definition labelFreshnessChallenge : Z := -70008.

Definition labelAlg : Z := 1.
Definition labelCrit : Z := 2.
Definition labelContent : Z := 3.
Definition labelKid : Z := 4.
Definition labelIV : Z := 5.
Definition labelCWTClaims : Z := 15.
Definition labelEphemeral : Z := -1.

Definition cwtIssuer : Z := 1.
Definition cwtAudience : Z := 3.
Definition cwtExpiresAt : Z := 4.
Definition cwtIssuedAt : Z := 6.
Definition cwtID : Z := 7.

Definition tagSign1 : Z := 18.
Definition tagEncrypt : Z := 96.

Definition algEdDSA : Z := -8.
Definition algA256GCM : Z := 3.
Definition algECDHESHKDF : Z := -25.
Definition nonceLen : Z := 12.
Definition x25519Len : Z := 32.
Definition ed25519SeedLen : Z := 32.
Definition freshnessChallengeLen : Z := 32.

(** ** Data *)

(** A field of which the code tells nil from empty is an option. *)
Record RequestParams := mkRequestParams {
  rp_ContentType : bytes;
  rp_Plaintext : bytes;
  rp_Issuer : bytes;
  rp_Audience : bytes;
  rp_IssuedAt : Time;
  rp_TTL : Z;
  rp_MessageID : bytes;
  rp_SenderKeyID : bytes;
  rp_SenderSeed : bytes;
  rp_RecipientKeyID : bytes;
  rp_RecipientPublic : bytes;
  rp_ResponseKeyID : bytes;
  rp_ResponseSubject : bytes;
  rp_FreshnessChallenge : option bytes;
}.

Record Request := mkRequest { req_Message : bytes; req_MessageID : bytes }.

Record ResponseParams := mkResponseParams {
  sp_Message : bytes;
  sp_Request : bytes;
  sp_RequestMessageID : bytes;
  sp_ExpectedContentType : bytes;
  sp_Now : Time;
  sp_MaxClockSkew : Z;
  sp_MaxTTL : Z;
  sp_BrokerKeyID : bytes;
  sp_BrokerPublic : bytes;
  sp_RecipientKeyID : bytes;
  sp_RecipientPrivate : bytes;
}.

Record Response := mkResponse { resp_Plaintext : bytes; resp_ContentType : bytes }.

Record claims := mkClaims {
  cl_issuer : bytes;
  cl_audience : bytes;
  cl_expiresAt : Z;
  cl_issuedAt : Z;
  cl_messageID : bytes;
  cl_senderKeyID : bytes;
  cl_responseKeyID : bytes;
  cl_responseSubject : bytes;
  cl_inReplyTo : option bytes;
  cl_requestHash : option bytes;
  cl_freshnessChallenge : option bytes;
}.

Record encryptedMessage := mkEncrypted {
  em_protected : bytes;
  em_contentType : bytes;
  em_claims : claims;
  em_iv : bytes;
  em_ciphertext : bytes;
  em_recipientProtected : bytes;
  em_recipientKeyID : bytes;
  em_ephemeralX : bytes;
}.

Record parsedProtected := mkParsed { pp_contentType : bytes; pp_claims : claims }.

(** ** Primitives

    [crypto/ecdh]'s X25519, [crypto/ed25519], SHA3-256, and 32 bytes of
    [golang.org/x/crypto/hkdf] under SHA-256 without salt. [ed25519_Verify] is
    only asked about public keys of the right length. *)
Class Cose := {
  X25519Key : Type;
  NewPrivateKey : bytes -> result error X25519Key;
  PublicKey_Bytes : X25519Key -> bytes;
  NewPublicKey : bytes -> result error bytes;
  ECDH : X25519Key -> bytes -> result error bytes;
  ed25519_Public : bytes -> bytes;                 (* the public key of a seed *)
  ed25519_Sign : bytes -> bytes -> bytes;          (* seed, message *)
  ed25519_Verify : bytes -> bytes -> bytes -> bool; (* public key, message, signature *)
  sha3_Sum256 : bytes -> bytes;
  hkdf_New_ReadFull : bytes -> bytes -> Z -> result error bytes; (* secret, info, length *)
}.

(** Keys are 32 bytes; two key pairs agree on a secret; signatures of a key
    verify under its public key; HKDF yields the bytes asked for. *)
Class CoseLaws (Co : Cose) := {
  NewPrivateKey_32 : forall b, len b = 32 -> exists k, NewPrivateKey b = Ok k;
  PublicKey_32 : forall k, len (PublicKey_Bytes k) = 32;
  NewPublicKey_32 : forall b, len b = 32 -> NewPublicKey b = Ok b;
  ECDH_agree : forall k1 k2, exists s,
    ECDH k1 (PublicKey_Bytes k2) = Ok s /\ ECDH k2 (PublicKey_Bytes k1) = Ok s;
  ed25519_Public_32 : forall seed, len seed = 32 -> len (ed25519_Public seed) = 32;
  Verify_Sign : forall seed m, len seed = 32 ->
    ed25519_Verify (ed25519_Public seed) m (ed25519_Sign seed m) = true;
  hkdf_read_32 : forall s info, exists k, hkdf_New_ReadFull s info 32 = Ok k /\ len k = 32;
}.

Section sealed.
Context {P : Platform Time} {C : Crypto} {Cb : Cbor} {Co : Cose}.

(** ** CBOR *)

(** [loadCBORModes] is [sync.OnceValues(initializeCBORModes)]: its results do not
    change. *)
Definition initializeCBORModes : result error unit :=
  match EncMode with
  | Err err => Err (Wrapf "encoder mode: %w" [] err)
  | Ok _ =>
      match DecMode with
      | Err err => Err (Wrapf "decoder mode: %w" [] err)
      | Ok _ => Ok ()
      end
  end.

Definition with_modes {A} (r : result error A) : result error A :=
  match initializeCBORModes with
  | Err err => Err (Wrapf "sealed invocation: initialize CBOR: %w" [] err)
  | Ok _ => r
  end.

Definition marshalCBOR (value : gval) : result error bytes := with_modes (encoder_Marshal value).
(** [unmarshalCBOR(data, &dst)] for a destination whose decoder is [dec]. *)
Definition unmarshalCBOR {A} (dec : bytes -> result error A) (data : bytes) : result error A :=
  with_modes (dec data).

(** [if err != nil { return fmt.Errorf(text, err) }]. *)
Definition wrap {A} (text : string) (r : result error A) : result error A :=
  match r with Ok a => Ok a | Err err => Err (Wrapf text [] err) end.

Definition int64Value (value : gval) : option Z :=
  match value with
  | GInt64 v => Some v
  | GUint64 v => if decide (v <= 2 ^ 63 - 1) then Some v else None
  | _ => None
  end.

(** The type assertions [.([]byte)], [.(string)] and [.([]any)]. *)
Definition as_bytes (value : gval) : option bytes :=
  match value with GBytes b => Some b | _ => None end.
Definition as_string (value : gval) : option bytes :=
  match value with GString s => Some s | _ => None end.
Definition as_list (value : gval) : option (list gval) :=
  match value with GList l => Some l | _ => None end.

Definition asMap (value : gval) : option (list (Z * gval)) :=
  match value with
  | GMap m => Some m
  | _ =>
      match marshalCBOR value with
      | Err _ => None
      | Ok raw =>
          match unmarshalCBOR Unmarshal_Map raw with
          | Err _ => None
          | Ok out => Some out
          end
      end
  end.

Definition sigStructure (protected : bytes) (externalAAD payload : option bytes) : result error bytes :=
  wrap "sealed invocation: encode Sig_structure: %w"
    (marshalCBOR (GList [GString (str "Signature1"); GBytes protected;
       GBytes (default [] externalAAD); of_slice payload])).

Definition encStructure (protected : bytes) (externalAAD : option bytes) : result error bytes :=
  wrap "sealed invocation: encode Enc_structure: %w"
    (marshalCBOR (GList [GString (str "Encrypt"); GBytes protected; GBytes (default [] externalAAD)])).

Definition kdfContext (alg : Z) (recipientProtected : bytes) : result error bytes :=
  wrap "sealed invocation: encode KDF context: %w"
    (marshalCBOR (GList [GInt64 alg; GList [GNil; GNil; GNil]; GList [GNil; GNil; GNil];
       GList [GUint64 256; GBytes recipientProtected]])).

(** ** The protected header of the encrypted layer *)

Definition critLabels (claimSet : claims) : list Z :=
  [labelContent; labelCWTClaims] ++
  (if cl_inReplyTo claimSet is Some _ then [labelInReplyTo] else []) ++
  (if cl_requestHash claimSet is Some _ then [labelRequestHash] else []) ++
  (if decide (cl_senderKeyID claimSet <> []) then [labelSenderKeyID] else []) ++
  (if decide (cl_responseKeyID claimSet <> []) then [labelResponseKeyID] else []) ++
  (if decide (cl_responseSubject claimSet <> []) then [labelResponseSubject] else []) ++
  (if cl_freshnessChallenge claimSet is Some _ then [labelFreshnessChallenge] else []).

(** [if value != nil { m[label] = value }] and its form for strings. *)
Definition put_slice (label : Z) (value : option bytes) : list (Z * gval) :=
  match value with Some b => [(label, GBytes b)] | None => [] end.
Definition put_string (label : Z) (make : bytes -> gval) (value : bytes) : list (Z * gval) :=
  if decide (value <> []) then [(label, make value)] else [].

Definition cwtClaims (claimSet : claims) : list (Z * gval) :=
  [(cwtIssuedAt, GInt64 (cl_issuedAt claimSet)); (cwtID, GBytes (cl_messageID claimSet))] ++
  put_string cwtIssuer GString (cl_issuer claimSet) ++
  put_string cwtAudience GString (cl_audience claimSet) ++
  (if decide (cl_expiresAt claimSet <> 0) then [(cwtExpiresAt, GInt64 (cl_expiresAt claimSet))] else []).

Definition protectedMap (contentType : bytes) (claimSet : claims) : list (Z * gval) :=
  [(labelAlg, GInt64 algA256GCM); (labelCrit, GInts (critLabels claimSet));
   (labelContent, GString contentType); (labelCWTClaims, GMap (cwtClaims claimSet))] ++
  put_slice labelInReplyTo (cl_inReplyTo claimSet) ++
  put_slice labelRequestHash (cl_requestHash claimSet) ++
  put_string labelSenderKeyID GBytes (cl_senderKeyID claimSet) ++
  put_string labelResponseKeyID GString (cl_responseKeyID claimSet) ++
  put_string labelResponseSubject GString (cl_responseSubject claimSet) ++
  put_slice labelFreshnessChallenge (cl_freshnessChallenge claimSet).

Definition encryptProtected (contentType : bytes) (claimSet : claims) : result error bytes :=
  marshalCBOR (GMap (protectedMap contentType claimSet)).

(** The loop over the entries of [crit]. *)
Fixpoint crit_labels (rawCrit : list gval) : result error (list Z) :=
  match rawCrit with
  | [] => Ok []
  | entry :: rawCrit =>
      match int64Value entry with
      | None => Err (Errorf "sealed invocation: non-integer crit label" [])
      | Some label => crit ← crit_labels rawCrit; Ok (label :: crit)
      end
  end.

Definition parseEncryptProtected (raw : bytes) : result error parsedProtected :=
  m ← wrap "sealed invocation: decode Encrypt protected: %w" (unmarshalCBOR Unmarshal_Map raw);
  if decide (int64Value (gget m labelAlg) <> Some algA256GCM) then
    Err (Errorf "sealed invocation: Encrypt alg mismatch" [])
  else
  match as_string (gget m labelContent) with
  | None | Some [] => Err (Errorf "sealed invocation: missing content type" [])
  | Some contentType =>
  match asMap (gget m labelCWTClaims) with
  | None => Err (Errorf "sealed invocation: missing CWT claims" [])
  | Some cwt =>
  let issuer := default [] (as_string (gget cwt cwtIssuer)) in
  let audience := default [] (as_string (gget cwt cwtAudience)) in
  let expiresAt := default 0 (int64Value (gget cwt cwtExpiresAt)) in
  match int64Value (gget cwt cwtIssuedAt) with
  | None => Err (Errorf "sealed invocation: missing iat" [])
  | Some issuedAt =>
  match as_bytes (gget cwt cwtID) with
  | None => Err (Errorf "sealed invocation: missing cti" [])
  | Some messageID =>
  let inReplyTo := as_bytes (gget m labelInReplyTo) in
  let requestHash := as_bytes (gget m labelRequestHash) in
  let senderKeyID := default [] (as_bytes (gget m labelSenderKeyID)) in
  let responseKeyID := default [] (as_string (gget m labelResponseKeyID)) in
  let responseSubject := default [] (as_string (gget m labelResponseSubject)) in
  let challenge := as_bytes (gget m labelFreshnessChallenge) in
  if decide (from_option len freshnessChallengeLen challenge <> freshnessChallengeLen) then
    Err (Errorf "sealed invocation: freshness challenge must be exactly %d bytes, got %d"
      [AInt freshnessChallengeLen; AInt (from_option len freshnessChallengeLen challenge)])
  else
  let parsed := mkClaims issuer audience expiresAt issuedAt messageID senderKeyID responseKeyID
    responseSubject inReplyTo requestHash challenge in
  match as_list (gget m labelCrit) with
  | None | Some [] => Err (Errorf "sealed invocation: missing crit" [])
  | Some rawCrit =>
      crit ← crit_labels rawCrit;
      let expected := critLabels parsed in
      if decide (crit <> expected) then
        Err (Errorf "sealed invocation: crit %v does not match the understood labels %v"
          (map AInt crit ++ map AInt expected))
      else Ok (mkParsed contentType parsed)
  end end end end end.

Definition parseRecipientProtected (raw : bytes) : result error bytes :=
  m ← wrap "sealed invocation: decode recipient protected: %w" (unmarshalCBOR Unmarshal_Map raw);
  if decide (int64Value (gget m labelAlg) <> Some algECDHESHKDF) then
    Err (Errorf "sealed invocation: recipient alg mismatch" [])
  else Ok raw.

(** ** Sealing *)

(** [rand.Read(buf)] on a fresh [buf] of length [n]. *)
Definition rand_bytes (text : string) (n : Z) : io bytes := fun w =>
  let '(b, err, g) := rand_Read (w_rng w) (Z.to_nat n) in
  (match err with
   | Some err => Err (Wrapf text [] err)
   | None => Ok b
   end, World (w_src w) (w_dst w) g (w_secrets w) (w_ext w)).

(** The error [aes.NewCipher] and [cipher.NewGCM] return. *)
Definition aes_error : error := Foreign 100.

(** The content key of both directions, and its AEAD. *)
Definition contentKey (shared recipientProtected : bytes) : result error bytes :=
  info ← kdfContext algA256GCM recipientProtected;
  wrap "sealed invocation: HKDF: %w" (hkdf_New_ReadFull shared info 32).

Definition contentAEAD (cek : bytes) : result error AEAD :=
  match aes_NewCipher cek with
  | None => Err (Wrapf "sealed invocation: AES key: %w" [] aes_error)
  | Some block =>
      match cipher_NewGCM block with
      | None => Err (Wrapf "sealed invocation: AES-GCM: %w" [] aes_error)
      | Some aead => Ok aead
      end
  end.

Definition buildEncrypt (contentType plaintext : bytes) (claimSet : claims)
    (recipientKeyID recipientPublic : bytes) : io bytes :=
  ephemeralRaw ← rand_bytes "sealed invocation: random ephemeral key: %w" x25519Len;
  nonce ← rand_bytes "sealed invocation: random nonce: %w" nonceLen;
  ephemeral ← lift (wrap "sealed invocation: ephemeral key: %w" (NewPrivateKey ephemeralRaw));
  recipient ← lift (wrap "sealed invocation: recipient public key: %w" (NewPublicKey recipientPublic));
  shared ← lift (wrap "sealed invocation: ECDH: %w" (ECDH ephemeral recipient));
  recipientProtected ← lift (wrap "sealed invocation: encode recipient protected: %w"
    (marshalCBOR (GMap [(labelAlg, GInt64 algECDHESHKDF)])));
  cek ← lift (contentKey shared recipientProtected);
  protected ← lift (encryptProtected contentType claimSet);
  aad ← lift (encStructure protected None);
  aead ← lift (contentAEAD cek);
  let ciphertext := Seal aead nonce plaintext aad in
  lift (marshalCBOR (GTag tagEncrypt (GList [
    GBytes protected;
    GMap [(labelIV, GBytes nonce)];
    GBytes ciphertext;
    GList [GList [
      GBytes recipientProtected;
      GMap [(labelKid, GBytes recipientKeyID);
            (labelEphemeral, GMap [(1, GInt64 1); (-1, GInt64 4); (-2, GBytes (PublicKey_Bytes ephemeral))])];
      GNil]]]))).

(** The seed's length is checked before [ed25519.NewKeyFromSeed], which panics on
    any other. *)
Definition buildSealed (contentType plaintext : bytes) (claimSet : claims)
    (signingKeyID signingSeed recipientKeyID recipientPublic : bytes) : io bytes :=
  if decide (len signingSeed <> ed25519SeedLen) then
    fail (Errorf "sealed invocation: Ed25519 seed must be %d bytes" [AInt ed25519SeedLen])
  else if decide (len recipientPublic <> x25519Len) then
    fail (Errorf "sealed invocation: X25519 public key must be %d bytes" [AInt x25519Len])
  else
  encryptBytes ← buildEncrypt contentType plaintext claimSet recipientKeyID recipientPublic;
  protected ← lift (wrap "sealed invocation: encode Sign1 protected: %w"
    (marshalCBOR (GMap [(labelAlg, GInt64 algEdDSA); (labelKid, GBytes signingKeyID)])));
  sigStructure ← lift (sigStructure protected None (Some encryptBytes));
  let signature := ed25519_Sign signingSeed sigStructure in
  lift (marshalCBOR (GTag tagSign1 (GList [
    GBytes protected; GMap []; GBytes encryptBytes; GBytes signature]))).

(** [time.Now()]: the clock is what the call can reach beyond its own state. *)
Definition time_Now : io Time := fun w => (Ok (w_ext w), w).

Definition BuildRequest (params : RequestParams) : io Request :=
  if decide (len (rp_MessageID params) = 0 \/ len (rp_MessageID params) > 64) then
    fail (Errorf "sealed invocation: message id must be 1..64 bytes" [])
  else if decide (from_option len freshnessChallengeLen (rp_FreshnessChallenge params)
                  <> freshnessChallengeLen) then
    fail (Errorf "sealed invocation: freshness challenge must be exactly %d bytes, got %d"
      [AInt freshnessChallengeLen;
       AInt (from_option len freshnessChallengeLen (rp_FreshnessChallenge params))])
  else
  issuedAt ← (if IsZero (rp_IssuedAt params) then time_Now else mret (rp_IssuedAt params));
  let ttl := if decide (rp_TTL params = 0) then 2 * Minute else rp_TTL params in
  let claimSet := mkClaims (rp_Issuer params) (rp_Audience params)
    (Time_Unix (Time_Add issuedAt ttl)) (Time_Unix issuedAt) (rp_MessageID params)
    (rp_SenderKeyID params) (rp_ResponseKeyID params) (rp_ResponseSubject params)
    None None (rp_FreshnessChallenge params) in
  msg ← buildSealed (rp_ContentType params) (rp_Plaintext params) claimSet (rp_SenderKeyID params)
    (rp_SenderSeed params) (rp_RecipientKeyID params) (rp_RecipientPublic params);
  mret (mkRequest msg (rp_MessageID params)).

(** ** Opening *)

Definition verifySign1 (message expectedKid public : bytes) : result error (coseSign1 * bytes) :=
  '(number, content) ← wrap "sealed invocation: decode Sign1 tag: %w"
    (unmarshalCBOR Unmarshal_Tag message);
  if decide (number <> tagSign1) then
    Err (Errorf "sealed invocation: Sign1 tag %d, want %d" [AInt number; AInt tagSign1])
  else
  body ← wrap "sealed invocation: re-encode Sign1 body: %w" (marshalCBOR content);
  sign1 ← wrap "sealed invocation: decode Sign1 body: %w" (unmarshalCBOR Unmarshal_Sign1 body);
  protected ← wrap "sealed invocation: decode Sign1 protected: %w"
    (unmarshalCBOR Unmarshal_Map (sg_Protected sign1));
  if decide (int64Value (gget protected labelAlg) <> Some algEdDSA) then
    Err (Errorf "sealed invocation: Sign1 alg mismatch" [])
  else
  match as_bytes (gget protected labelKid) with
  | None => Err (Errorf "sealed invocation: missing Sign1 kid" [])
  | Some kid =>
      if decide (kid <> expectedKid) then
        Err (Errorf "sealed invocation: Sign1 kid %q, want %q" [AStr kid; AStr expectedKid])
      else
      sigStructure ← sigStructure (sg_Protected sign1) None (sg_Payload sign1);
      if decide (len public <> 32) then Err (Panicked "ed25519: bad public key length")
      else if negb (ed25519_Verify public sigStructure (sg_Signature sign1)) then
        Err (Errorf "sealed invocation: invalid Sign1 signature" [])
      else Ok (sign1, kid)
  end.

Definition decodeEncrypt (message : bytes) : result error encryptedMessage :=
  '(number, content) ← wrap "sealed invocation: decode Encrypt tag: %w"
    (unmarshalCBOR Unmarshal_Tag message);
  if decide (number <> tagEncrypt) then
    Err (Errorf "sealed invocation: Encrypt tag %d, want %d" [AInt number; AInt tagEncrypt])
  else
  body ← wrap "sealed invocation: re-encode Encrypt body: %w" (marshalCBOR content);
  enc ← wrap "sealed invocation: decode Encrypt body: %w" (unmarshalCBOR Unmarshal_Encrypt body);
  match en_Recipients enc with
  | [recipient] =>
      protected ← parseEncryptProtected (en_Protected enc);
      match as_bytes (gget (en_Unprotected enc) labelIV) with
      | None => Err (Errorf "sealed invocation: invalid Encrypt nonce" [])
      | Some iv =>
      if decide (len iv <> nonceLen) then Err (Errorf "sealed invocation: invalid Encrypt nonce" []) else
      recipientProtected ← parseRecipientProtected (re_Protected recipient);
      match as_bytes (gget (re_Unprotected recipient) labelKid) with
      | None => Err (Errorf "sealed invocation: missing recipient kid" [])
      | Some kid =>
      match asMap (gget (re_Unprotected recipient) labelEphemeral) with
      | None => Err (Errorf "sealed invocation: missing ephemeral key" [])
      | Some ephemeralMap =>
      match as_bytes (gget ephemeralMap (-2)) with
      | None => Err (Errorf "sealed invocation: invalid ephemeral public key" [])
      | Some ephemeral =>
      if decide (len ephemeral <> x25519Len) then
        Err (Errorf "sealed invocation: invalid ephemeral public key" [])
      else Ok (mkEncrypted (en_Protected enc) (pp_contentType protected) (pp_claims protected) iv
        (en_Ciphertext enc) recipientProtected kid ephemeral)
      end end end end
  | recipients =>
      Err (Errorf "sealed invocation: recipient count %d, want 1" [AInt (len recipients)])
  end.

Definition openEncrypt (enc : encryptedMessage) (recipientKeyID recipientPrivate : bytes)
    : result error bytes :=
  if decide (em_recipientKeyID enc <> recipientKeyID) then
    Err (Errorf "sealed invocation: recipient kid %q, want %q"
      [AStr (em_recipientKeyID enc); AStr recipientKeyID])
  else
  private ← wrap "sealed invocation: X25519 private key: %w" (NewPrivateKey recipientPrivate);
  ephemeral ← wrap "sealed invocation: X25519 ephemeral key: %w" (NewPublicKey (em_ephemeralX enc));
  shared ← wrap "sealed invocation: ECDH: %w" (ECDH private ephemeral);
  cek ← contentKey shared (em_recipientProtected enc);
  aad ← encStructure (em_protected enc) None;
  aead ← contentAEAD cek;
  match Open aead (em_iv enc) (em_ciphertext enc) aad with
  | None => Err (Errorf "sealed invocation: open failed" [])
  | Some plaintext => Ok plaintext
  end.

(** Sums and differences of int64 values wrap. *)
Definition validateResponseClaims (claimSet : claims) (now : Time) (skew maxTTL : Z) : result error unit :=
  let nowUnix := Time_Unix now in
  let skewSeconds := int64_Seconds skew in
  if decide (cl_issuedAt claimSet > wraps 64 (nowUnix + skewSeconds)) then
    Err (Errorf "sealed invocation: response issued in the future" [])
  else if decide (cl_expiresAt claimSet <= cl_issuedAt claimSet) then
    Err (Errorf "sealed invocation: response has non-positive ttl" [])
  else if decide (wraps 64 (cl_expiresAt claimSet - cl_issuedAt claimSet) > int64_Seconds maxTTL) then
    Err (Errorf "sealed invocation: response ttl too long" [])
  else if decide (nowUnix > wraps 64 (cl_expiresAt claimSet + skewSeconds)) then
    Err (Errorf "sealed invocation: response expired" [])
  else if decide (cl_inReplyTo claimSet = None \/ cl_requestHash claimSet = None) then
    Err (Errorf "sealed invocation: response claims missing correlation" [])
  else if decide (cl_responseKeyID claimSet <> [] \/ cl_responseSubject claimSet <> [] \/
                  cl_freshnessChallenge claimSet <> None) then
    Err (Errorf "sealed invocation: response carries request-only claims" [])
  else Ok ().

Definition OpenResponse (params : ResponseParams) : io Response :=
  now ← (if IsZero (sp_Now params) then time_Now else mret (sp_Now params));
  let skew := if decide (sp_MaxClockSkew params = 0) then Minute else sp_MaxClockSkew params in
  let maxTTL := if decide (sp_MaxTTL params = 0) then 5 * Minute else sp_MaxTTL params in
  '(sign1, kid) ← lift (verifySign1 (sp_Message params) (sp_BrokerKeyID params) (sp_BrokerPublic params));
  enc ← lift (decodeEncrypt (default [] (sg_Payload sign1)));
  if decide (cl_senderKeyID (em_claims enc) <> kid) then
    fail (Errorf "sealed invocation: response sender key %q does not match outer kid %q"
      [AStr (cl_senderKeyID (em_claims enc)); AStr kid])
  else if decide (default [] (cl_inReplyTo (em_claims enc)) <> sp_RequestMessageID params) then
    fail (Errorf "sealed invocation: response in-reply-to mismatch" [])
  else
  let requestHash := sha3_Sum256 (sp_Request params) in
  if decide (default [] (cl_requestHash (em_claims enc)) <> requestHash) then
    fail (Errorf "sealed invocation: response request hash mismatch" [])
  else
  lift (validateResponseClaims (em_claims enc) now skew maxTTL);;
  if decide (sp_ExpectedContentType params <> [] /\ em_contentType enc <> sp_ExpectedContentType params) then
    fail (Errorf "sealed invocation: response content type %q, want %q"
      [AStr (em_contentType enc); AStr (sp_ExpectedContentType params)])
  else
  plaintext ← lift (openEncrypt enc (sp_RecipientKeyID params) (sp_RecipientPrivate params));
  mret (mkResponse plaintext (em_contentType enc)).

Definition X25519Public (private : bytes) : result error bytes :=
  priv ← wrap "sealed invocation: X25519 private key: %w" (NewPrivateKey private);
  Ok (PublicKey_Bytes priv).
End sealed.
