(* ===== verification/SealedLemmas.v ===== *)
(** Lemmas about package [sealedinvocation]: the protected header's round trip,
    and that what [buildSealed] makes is verified, decoded and opened. *)

From S2P Require Import Prelude GoTime GoText GoError IO Crypto Cbor Sealed.

Section lemmas.
Context {P : Platform Time} {PL : PlatformLaws P} {C : Crypto} {CL : CryptoLaws C}
  {Cb : Cbor} {CbL : CborLaws Cb} {Co : Cose} {CoL : CoseLaws Co}.

(** ** CBOR *)

Lemma with_modes_ok {A} (r : result error A) : with_modes r = r.
Proof. unfold with_modes, initializeCBORModes. by destruct modes_ok as [-> ->]. Qed.

Lemma marshal_ok v : encodable MaxNestedLevels v ->
  exists raw, marshalCBOR v = Ok raw /\ encodes raw v.
Proof. intros H. unfold marshalCBOR. rewrite with_modes_ok. by apply Marshal_encodes. Qed.

Lemma remarshal_ok v v' : encodable MaxNestedLevels v -> decoded v v' ->
  exists raw, marshalCBOR v' = Ok raw /\ encodes raw v.
Proof. intros H D. unfold marshalCBOR. rewrite with_modes_ok. by eapply Remarshal_encodes. Qed.

Lemma unmarshal_map_ok raw kv : encodes raw (GMap kv) ->
  exists kv', unmarshalCBOR Unmarshal_Map raw = Ok kv' /\ decoded_entries kv kv'.
Proof. intros H. unfold unmarshalCBOR. rewrite with_modes_ok. by apply Unmarshal_Map_encodes. Qed.

Lemma unmarshal_tag_ok raw t v : encodes raw (GTag t v) ->
  exists v', unmarshalCBOR Unmarshal_Tag raw = Ok (t, v') /\ decoded v v'.
Proof. intros H. unfold unmarshalCBOR. rewrite with_modes_ok. by apply Unmarshal_Tag_encodes. Qed.

(** A nested map survives [asMap]. *)
Lemma asMap_decoded kv v : encodable MaxNestedLevels (GMap kv) -> decoded (GMap kv) v ->
  exists kv', asMap v = Some kv' /\ decoded_entries kv kv'.
Proof.
  intros He D. destruct (remarshal_ok _ _ He D) as (raw & E & Hr).
  destruct (unmarshal_map_ok _ _ Hr) as (kv' & E' & Hd). exists kv'. split; [|done].
  inversion D; subst. unfold asMap. by rewrite E, E'.
Qed.

Lemma int64Value_any z : int64 z -> int64Value (any_int z) = Some z.
Proof.
  unfold int64, any_int. intros H. case_decide; [|done]. simpl. by rewrite decide_True by lia.
Qed.

Lemma crit_labels_any l : each int64 l -> crit_labels (map any_int l) = Ok l.
Proof.
  induction l as [|z l IH]; [done|]. intros [Hz Hl]. cbn [map crit_labels].
  by rewrite int64Value_any, IH.
Qed.

(** ** The protected header *)

Lemma gget_put_slice l v m k : gget (put_slice l v ++ m) k =
  if decide (k = l) then (match v with Some b => GBytes b | None => gget m k end) else gget m k.
Proof. destruct v; simpl; by case_decide. Qed.

Lemma gget_put_string l mk v m k : gget (put_string l mk v ++ m) k =
  if decide (k = l) then (if decide (v <> []) then mk v else gget m k) else gget m k.
Proof. unfold put_string. case_decide; simpl; repeat case_decide; done. Qed.

Definition claims_ok (cs : claims) : Prop :=
  utf8_Valid (cl_issuer cs) = true /\ utf8_Valid (cl_audience cs) = true /\
  utf8_Valid (cl_responseKeyID cs) = true /\ utf8_Valid (cl_responseSubject cs) = true /\
  int64 (cl_expiresAt cs) /\ int64 (cl_issuedAt cs) /\
  (forall c, cl_freshnessChallenge cs = Some c -> len c = 32).

(** The finitely many shapes of the header. *)
Ltac header_cases cs :=
  destruct cs as [i a e t m s r u [?|] [?|] [?|]]; unfold protectedMap, cwtClaims, critLabels,
    put_slice, put_string; cbn [cl_issuer cl_audience cl_expiresAt cl_issuedAt cl_messageID
    cl_senderKeyID cl_responseKeyID cl_responseSubject cl_inReplyTo cl_requestHash
    cl_freshnessChallenge]; repeat case_decide.

Lemma protectedMap_NoDup ct cs : NoDup (map fst (protectedMap ct cs)).
Proof. header_cases cs; cbn; apply (bool_decide_unpack _); vm_compute; exact I. Qed.

Lemma cwtClaims_NoDup cs : NoDup (map fst (cwtClaims cs)).
Proof. destruct cs; unfold cwtClaims, put_string; cbn; repeat case_decide; cbn;
  apply (bool_decide_unpack _); vm_compute; exact I. Qed.

Lemma critLabels_int64 cs : each int64 (critLabels cs) /\ len (critLabels cs) <= MaxElements.
Proof. header_cases cs; vm_compute; repeat split; discriminate. Qed.

Lemma cwtClaims_encodable cs : claims_ok cs -> encodable 2 (GMap (cwtClaims cs)).
Proof.
  intros (H1 & H2 & _ & _ & H5 & H6 & _). split; [|split; [apply cwtClaims_NoDup|]].
  - unfold cwtClaims, put_string. repeat case_decide; vm_compute; discriminate.
  - unfold cwtClaims, put_string. repeat case_decide; cbn;
      unfold int64, cwtIssuedAt, cwtID, cwtIssuer, cwtAudience, cwtExpiresAt in *;
      repeat split; try lia; done.
Qed.

Definition entry_ok (n : nat) (p : Z * gval) : Prop := int64 p.1 /\ encodable n p.2.

Lemma each_put_slice n l v : int64 l -> each (entry_ok n) (put_slice l v).
Proof. intros H. destruct v; [|done]. split; [split; [done|by destruct n]|done]. Qed.

Lemma each_put_string n l mk v : int64 l -> encodable n (mk v) -> each (entry_ok n) (put_string l mk v).
Proof. intros H Hv. unfold put_string. case_decide; [|done]. split; [by split|done]. Qed.

Lemma protectedMap_encodable ct cs : claims_ok cs -> utf8_Valid ct = true ->
  encodable MaxNestedLevels (GMap (protectedMap ct cs)).
Proof.
  intros Hc Hct. apply (encodable_mono 3); [unfold MaxNestedLevels; lia|].
  pose proof (cwtClaims_encodable cs Hc) as Hw. pose proof (critLabels_int64 cs) as [Hi Hl].
  destruct Hc as (_ & _ & H3 & H4 & _).
  assert (forall l, In l [labelAlg; labelCrit; labelContent; labelCWTClaims; labelInReplyTo;
    labelRequestHash; labelSenderKeyID; labelResponseKeyID; labelResponseSubject;
    labelFreshnessChallenge] -> int64 l) as Hlab.
  { intros l Hin. unfold int64. repeat (destruct Hin as [<-|Hin]; [split; vm_compute; congruence|]). done. }
  split; [|split; [apply protectedMap_NoDup|]].
  - header_cases cs; vm_compute; discriminate.
  - change (each (entry_ok 2) (protectedMap ct cs)). unfold protectedMap.
    apply each_app; [|repeat apply each_app]; try (apply each_put_slice, Hlab; simpl; tauto);
      try (apply each_put_string; [apply Hlab; simpl; tauto|done]).
    split; [split; [apply Hlab; simpl; tauto|]; cbn; unfold int64, algA256GCM; lia|].
    split; [split; [apply Hlab; simpl; tauto|]; split; [lia|done]|].
    split; [split; [apply Hlab; simpl; tauto|done]|].
    split; [split; [apply Hlab; simpl; tauto|done]|done].
Qed.

(** *** Its round trip *)

Definition opt_gval (mk : bytes -> gval) (v : bytes) : gval := if decide (v <> []) then mk v else GNil.

Lemma protectedMap_gget ct cs : let m := protectedMap ct cs in
  gget m labelAlg = GInt64 algA256GCM /\ gget m labelCrit = GInts (critLabels cs) /\
  gget m labelContent = GString ct /\ gget m labelCWTClaims = GMap (cwtClaims cs) /\
  gget m labelInReplyTo = of_slice (cl_inReplyTo cs) /\
  gget m labelRequestHash = of_slice (cl_requestHash cs) /\
  gget m labelSenderKeyID = opt_gval GBytes (cl_senderKeyID cs) /\
  gget m labelResponseKeyID = opt_gval GString (cl_responseKeyID cs) /\
  gget m labelResponseSubject = opt_gval GString (cl_responseSubject cs) /\
  gget m labelFreshnessChallenge = of_slice (cl_freshnessChallenge cs).
Proof.
  cbv zeta. split; [done|]. split; [done|]. split; [done|]. split; [done|].
  unfold opt_gval. header_cases cs; split_and!; reflexivity.
Qed.

Lemma cwtClaims_gget cs : let m := cwtClaims cs in
  gget m cwtIssuer = opt_gval GString (cl_issuer cs) /\
  gget m cwtAudience = opt_gval GString (cl_audience cs) /\
  gget m cwtExpiresAt = (if decide (cl_expiresAt cs <> 0) then GInt64 (cl_expiresAt cs) else GNil) /\
  gget m cwtIssuedAt = GInt64 (cl_issuedAt cs) /\ gget m cwtID = GBytes (cl_messageID cs).
Proof. unfold opt_gval. header_cases cs; done. Qed.

Lemma decoded_of_slice v x : decoded (of_slice v) x -> as_bytes x = v.
Proof. destruct v; inversion 1; by subst. Qed.

Lemma decoded_opt_bytes v x : decoded (opt_gval GBytes v) x -> default [] (as_bytes x) = v.
Proof. unfold opt_gval. case_decide; intros D; inversion D; by subst. Qed.

Lemma decoded_opt_string v x : decoded (opt_gval GString v) x -> default [] (as_string x) = v.
Proof. unfold opt_gval. case_decide; intros D; inversion D; by subst. Qed.

Lemma decoded_int_value z x : int64 z -> decoded (GInt64 z) x -> int64Value x = Some z.
Proof. intros Hz. inversion 1; subst. by apply int64Value_any. Qed.

Lemma decoded_string_inv s x : decoded (GString s) x -> x = GString s.
Proof. by inversion 1. Qed.
Lemma decoded_bytes_inv b x : decoded (GBytes b) x -> x = GBytes b.
Proof. by inversion 1. Qed.
Lemma decoded_ints_inv l x : decoded (GInts l) x -> x = GList (map any_int l).
Proof. by inversion 1. Qed.

Lemma parse_protected raw ct cs : encodes raw (GMap (protectedMap ct cs)) -> claims_ok cs ->
  utf8_Valid ct = true -> ct <> [] -> parseEncryptProtected raw = Ok (mkParsed ct cs).
Proof.
  intros He Hc Hu Hn. destruct (unmarshal_map_ok _ _ He) as (m & E & Hd).
  pose proof (protectedMap_encodable ct cs Hc Hu) as Henc.
  assert (forall k, decoded (gget (protectedMap ct cs) k) (gget m k)) as L.
  { intros k. apply decoded_entries_gget; [apply protectedMap_NoDup|done]. }
  destruct (protectedMap_gget ct cs) as (G1 & G2 & G3 & G4 & G5 & G6 & G7 & G8 & G9 & G10).
  unfold parseEncryptProtected. rewrite E. cbn [wrap]. unfold mbind at 1, result_bind at 1.
  pose proof (L labelAlg) as D. rewrite G1 in D.
  rewrite (decoded_int_value algA256GCM _ ltac:(unfold int64, algA256GCM; lia) D), decide_False
    by (intros H; by apply H).
  pose proof (L labelContent) as D3. rewrite G3 in D3. rewrite (decoded_string_inv _ _ D3). cbn [as_string]. destruct ct as [|c0 ct]; [done|].
  pose proof (L labelCWTClaims) as D4. rewrite G4 in D4.
  destruct (asMap_decoded (cwtClaims cs) (gget m labelCWTClaims)) as (cwt & -> & Hw); [|done|].
  { apply (encodable_mono 2); [unfold MaxNestedLevels; lia|]. by apply cwtClaims_encodable. }
  assert (forall k, decoded (gget (cwtClaims cs) k) (gget cwt k)) as Lw.
  { intros k. apply decoded_entries_gget; [apply cwtClaims_NoDup|done]. }
  destruct (cwtClaims_gget cs) as (W1 & W2 & W3 & W4 & W5).
  pose proof (Lw cwtIssuer) as V1. rewrite W1 in V1. rewrite (decoded_opt_string _ _ V1).
  pose proof (Lw cwtAudience) as V2. rewrite W2 in V2. rewrite (decoded_opt_string _ _ V2).
  assert (default 0 (int64Value (gget cwt cwtExpiresAt)) = cl_expiresAt cs) as ->.
  { pose proof (Lw cwtExpiresAt) as V3. rewrite W3 in V3. case_decide as Hz.
    - by rewrite (decoded_int_value (cl_expiresAt cs) _ ltac:(apply Hc) V3).
    - inversion V3; subst. simpl. lia. }
  pose proof (Lw cwtIssuedAt) as V4. rewrite W4 in V4.
  rewrite (decoded_int_value (cl_issuedAt cs) _ ltac:(apply Hc) V4).
  pose proof (Lw cwtID) as V5. rewrite W5 in V5. rewrite (decoded_bytes_inv _ _ V5). cbn [as_bytes].
  pose proof (L labelInReplyTo) as D5. rewrite G5 in D5. rewrite (decoded_of_slice _ _ D5).
  pose proof (L labelRequestHash) as D6. rewrite G6 in D6. rewrite (decoded_of_slice _ _ D6).
  pose proof (L labelSenderKeyID) as D7. rewrite G7 in D7. rewrite (decoded_opt_bytes _ _ D7).
  pose proof (L labelResponseKeyID) as D8. rewrite G8 in D8. rewrite (decoded_opt_string _ _ D8).
  pose proof (L labelResponseSubject) as D9. rewrite G9 in D9. rewrite (decoded_opt_string _ _ D9).
  pose proof (L labelFreshnessChallenge) as D10. rewrite G10 in D10. rewrite (decoded_of_slice _ _ D10).
  rewrite decide_False; last first.
  { destruct Hc as (_ & _ & _ & _ & _ & _ & H). intros H'. apply H'.
    destruct (cl_freshnessChallenge cs); [by apply H|done]. }
  pose proof (L labelCrit) as D2. rewrite G2 in D2. rewrite (decoded_ints_inv _ _ D2). cbn [as_list]. destruct (critLabels_int64 cs) as [Hi _].
  replace (mkClaims (cl_issuer cs) (cl_audience cs) (cl_expiresAt cs) (cl_issuedAt cs) (cl_messageID cs)
    (cl_senderKeyID cs) (cl_responseKeyID cs) (cl_responseSubject cs) (cl_inReplyTo cs) (cl_requestHash cs)
    (cl_freshnessChallenge cs)) with cs by by destruct cs.
  pose proof (crit_labels_any _ Hi) as Hcl.
  destruct (map any_int (critLabels cs)) as [|x xs] eqn:Em.
  { unfold critLabels in Em. done. }
  rewrite Hcl. unfold mbind, result_bind. rewrite decide_False; [done|]. intros H. by apply H.
Qed.

(** ** Sealed messages *)

Lemma rand_bytes_ok text n (w : world P) : entropic (w_rng w) ->
  exists b w', rand_bytes text n w = (Ok b, w') /\ length b = Z.to_nat n /\ entropic (w_rng w').
Proof.
  intros Hg. destruct (entropic_step _ (Z.to_nat n) Hg) as (b & g & E & Hg' & Hl).
  exists b, (World (w_src w) (w_dst w) g (w_secrets w) (w_ext w)). unfold rand_bytes. by rewrite E.
Qed.

Lemma lift_ok {A B} (r : result error A) a (k : A -> io B) (w : world P) :
  r = Ok a -> (lift r ≫= k) w = k a w.
Proof. by intros ->. Qed.

Lemma wrap_ok {A} text (r : result error A) a : r = Ok a -> wrap text r = Ok a.
Proof. by intros ->. Qed.

Lemma encStructure_ok p : exists aad, encStructure p None = Ok aad.
Proof.
  unfold encStructure. edestruct marshal_ok as (raw & -> & _); [|by exists raw].
  encode_solve.
Qed.

Lemma sigStructure_ok p pl : exists tbs, sigStructure p None (Some pl) = Ok tbs.
Proof.
  unfold sigStructure. edestruct marshal_ok as (raw & -> & _); [|by exists raw].
  encode_solve.
Qed.

Lemma contentKey_ok s rp : exists cek, contentKey s rp = Ok cek /\ length cek = 32%nat.
Proof.
  unfold contentKey, kdfContext. edestruct marshal_ok as (info & -> & _); [encode_solve|].
  destruct (hkdf_read_32 s info) as (k & Hk & Hl). exists k. cbn. rewrite Hk. split; [done|].
  unfold len in Hl. lia.
Qed.

Lemma contentAEAD_ok cek : length cek = 32%nat -> exists a, contentAEAD cek = Ok a.
Proof.
  intros H. destruct (aes_gcm_32 _ H) as (b & a & E1 & E2). exists a. unfold contentAEAD.
  by rewrite E1, E2.
Qed.

Lemma recipientProtected_ok : exists rp,
  marshalCBOR (GMap [(labelAlg, GInt64 algECDHESHKDF)]) = Ok rp /\
  parseRecipientProtected rp = Ok rp.
Proof.
  edestruct marshal_ok as (rp & E & He); [|exists rp; split; [exact E|]]; [encode_solve|].
  destruct (unmarshal_map_ok _ _ He) as (m & Em & Hd). unfold parseRecipientProtected.
  rewrite Em. cbn [wrap]. unfold mbind, result_bind.
  eapply (decoded_entries_gget _ _ labelAlg) in Hd as D; [|nodup].
  rewrite (decoded_int_value algECDHESHKDF _ ltac:(unfold int64, algECDHESHKDF; lia) D).
  rewrite decide_False; [done|]. intros H. by apply H.
Qed.
End lemmas.
