(* ===== verification/SealedFlow.v ===== *)
(** What [buildSealed] and [BuildRequest] make is verified, decoded and opened
    again; what [OpenResponse] does on it. *)

From S2P Require Import Prelude GoTime GoText GoError IO Crypto Cbor Sealed SealedLemmas.

Section flow.
Context {P : Platform Time} {PL : PlatformLaws P} {C : Crypto} {CL : CryptoLaws C}
  {Cb : Cbor} {CbL : CborLaws Cb} {Co : Cose} {CoL : CoseLaws Co}.

(** The encrypted layer as a value. *)
Definition encrypt_value (protected nonce ciphertext rp rkid eph : bytes) : gval :=
  GList [GBytes protected; GMap [(labelIV, GBytes nonce)]; GBytes ciphertext;
    GList [GList [GBytes rp;
      GMap [(labelKid, GBytes rkid);
            (labelEphemeral, GMap [(1, GInt64 1); (-1, GInt64 4); (-2, GBytes eph)])];
      GNil]]].

Lemma encrypt_value_encodable p n c rp rkid eph :
  encodable MaxNestedLevels (GTag tagEncrypt (encrypt_value p n c rp rkid eph)) /\
  encodable MaxNestedLevels (encrypt_value p n c rp rkid eph) /\
  encodable MaxNestedLevels (GMap [(1, GInt64 1); (-1, GInt64 4); (-2, GBytes eph)]).
Proof. unfold encrypt_value. split; [|split]; encode_solve. Qed.

Lemma decode_encrypt_value raw protected nonce ciphertext rp rkid eph parsed :
  encodes raw (GTag tagEncrypt (encrypt_value protected nonce ciphertext rp rkid eph)) ->
  parseEncryptProtected protected = Ok parsed -> parseRecipientProtected rp = Ok rp ->
  len nonce = 12 -> len eph = 32 ->
  decodeEncrypt raw = Ok (mkEncrypted protected (pp_contentType parsed) (pp_claims parsed) nonce
    ciphertext rp rkid eph).
Proof.
  intros He Hp Hr Hn Hx.
  destruct (encrypt_value_encodable protected nonce ciphertext rp rkid eph) as (_ & N2 & N3). unfold decodeEncrypt.
  destruct (unmarshal_tag_ok _ _ _ He) as (v' & E & D). rewrite E. cbn [wrap].
  unfold mbind at 1, result_bind at 1. rewrite decide_False by (intros H; by apply H).
  destruct (remarshal_ok _ _ N2 D) as (body & Eb & Hb). rewrite Eb. cbn [wrap].
  unfold mbind at 1, result_bind at 1.
  unfold unmarshalCBOR. rewrite with_modes_ok.
  destruct (Unmarshal_Encrypt_encodes _ _ _ _ _ _ Hb) as (u & ru & Eu & Du & Dru). rewrite Eu.
  cbn [wrap]. unfold mbind at 1, result_bind at 1. cbn [en_Recipients en_Protected en_Unprotected].
  rewrite Hp. unfold mbind at 1, result_bind at 1.
  eapply (decoded_entries_gget _ _ labelIV) in Du as D1; [|nodup].
  rewrite (decoded_bytes_inv nonce _ D1). cbn [as_bytes].
  rewrite decide_False by (unfold nonceLen; lia).
  cbn [re_Protected re_Unprotected]. rewrite Hr. unfold mbind at 1, result_bind at 1.
  eapply (decoded_entries_gget _ _ labelKid) in Dru as D2; [|nodup].
  rewrite (decoded_bytes_inv rkid _ D2). cbn [as_bytes].
  eapply (decoded_entries_gget _ _ labelEphemeral) in Dru as D3; [|nodup].
  destruct (asMap_decoded [(1, GInt64 1); (-1, GInt64 4); (-2, GBytes eph)] _ N3 D3)
    as (em & -> & De).
  eapply (decoded_entries_gget _ _ (-2)) in De as D4; [|nodup].
  rewrite (decoded_bytes_inv eph _ D4). cbn [as_bytes].
  rewrite decide_False by (unfold x25519Len; lia). done.
Qed.

(** [raw] opens, for the holder of [kR], to the plaintext and the claims. *)
Definition opens (raw ct pt : bytes) (cs : claims) (rkid : bytes) (kR : X25519Key) : Prop :=
  exists enc, decodeEncrypt raw = Ok enc /\ em_contentType enc = ct /\ em_claims enc = cs /\
    forall priv, NewPrivateKey priv = Ok kR -> openEncrypt enc rkid priv = Ok pt.

Lemma buildEncrypt_ok ct pt cs rkid kR (w : world P) :
  claims_ok cs -> utf8_Valid ct = true -> ct <> [] -> entropic (w_rng w) ->
  exists raw w', buildEncrypt ct pt cs rkid (PublicKey_Bytes kR) w = (Ok raw, w') /\
    opens raw ct pt cs rkid kR.
Proof.
  intros Hc Hu Hn Hg. unfold buildEncrypt.
  destruct (rand_bytes_ok "sealed invocation: random ephemeral key: %w" x25519Len w Hg)
    as (e & w1 & E1 & L1 & Hg1).
  destruct (rand_bytes_ok "sealed invocation: random nonce: %w" nonceLen w1 Hg1)
    as (nonce & w2 & E2 & L2 & _).
  rewrite (io_bind_Ok _ _ _ _ _ E1), (io_bind_Ok _ _ _ _ _ E2).
  destruct (NewPrivateKey_32 e) as [k Ek]; [unfold len; rewrite L1; reflexivity|].
  rewrite (lift_ok _ k) by by apply wrap_ok.
  pose proof (NewPublicKey_32 _ (PublicKey_32 kR)) as EpR. rewrite (lift_ok _ (PublicKey_Bytes kR)) by by apply wrap_ok.
  destruct (ECDH_agree k kR) as (s & Es1 & Es2). rewrite (lift_ok _ s) by by apply wrap_ok.
  destruct recipientProtected_ok as (rp & Erp & Prp). rewrite (lift_ok _ rp) by by apply wrap_ok.
  destruct (contentKey_ok s rp) as (cek & Ecek & Lcek). rewrite (lift_ok _ cek) by done.
  destruct (marshal_ok _ (protectedMap_encodable ct cs Hc Hu)) as (protected & Epr & Hpr).
  rewrite (lift_ok _ protected) by done.
  destruct (encStructure_ok protected) as (aad & Eaad). rewrite (lift_ok _ aad) by done.
  destruct (contentAEAD_ok cek Lcek) as (aead & Ea). rewrite (lift_ok _ aead) by done.
  destruct (marshal_ok _ (proj1 (encrypt_value_encodable protected nonce (Seal aead nonce pt aad) rp rkid
    (PublicKey_Bytes k)))) as (raw & Eraw & Hraw).
  exists raw, w2. split; [unfold lift; f_equal; exact Eraw|].
  exists (mkEncrypted protected ct cs nonce (Seal aead nonce pt aad) rp rkid (PublicKey_Bytes k)).
  pose proof (parse_protected _ _ _ Hpr Hc Hu Hn) as Hparse.
  assert (len nonce = 12) as Ln by (unfold len; rewrite L2; reflexivity).
  split; [exact (decode_encrypt_value _ _ _ _ _ _ _ _ Hraw Hparse Prp Ln (PublicKey_32 k))|].
  split; [done|]. split; [done|]. intros priv Hpriv. unfold openEncrypt.
  cbn [em_recipientKeyID em_ephemeralX em_recipientProtected em_protected em_iv em_ciphertext].
  rewrite decide_False by (intros H; by apply H). rewrite Hpriv. cbn [wrap].
  unfold mbind, result_bind. rewrite (NewPublicKey_32 _ (PublicKey_32 k)). cbn [wrap].
  rewrite Es2. cbn [wrap]. rewrite Ecek, Eaad, Ea.
  rewrite Open_Seal; [done|]. rewrite L2. reflexivity.
Qed.

(** *** The signed layer *)

Definition sign1_value (protected encryptBytes signature : bytes) : gval :=
  GList [GBytes protected; GMap []; GBytes encryptBytes; GBytes signature].

Definition sign1_header (kid : bytes) : list (Z * gval) :=
  [(labelAlg, GInt64 algEdDSA); (labelKid, GBytes kid)].

Lemma sign1_encodable p e s kid :
  encodable MaxNestedLevels (GTag tagSign1 (sign1_value p e s)) /\
  encodable MaxNestedLevels (sign1_value p e s) /\
  encodable MaxNestedLevels (GMap (sign1_header kid)).
Proof. unfold sign1_value, sign1_header. split; [|split]; encode_solve. Qed.

Lemma unmarshal_sign1_ok raw p u pl s : encodes raw (GList [GBytes p; GMap u; GBytes pl; GBytes s]) ->
  exists u', unmarshalCBOR Unmarshal_Sign1 raw = Ok (mkSign1 p u' (Some pl) s) /\ decoded_entries u u'.
Proof. intros H. unfold unmarshalCBOR. rewrite with_modes_ok. by apply Unmarshal_Sign1_encodes. Qed.

Lemma verify_sign1_value raw protected pl signature kid public tbs :
  encodes raw (GTag tagSign1 (sign1_value protected pl signature)) ->
  encodes protected (GMap (sign1_header kid)) ->
  sigStructure protected None (Some pl) = Ok tbs ->
  exists sign1, sg_Payload sign1 = Some pl /\ verifySign1 raw kid public =
    if decide (len public <> 32) then Err (Panicked "ed25519: bad public key length")
    else if negb (ed25519_Verify public tbs signature) then
      Err (Errorf "sealed invocation: invalid Sign1 signature" [])
    else Ok (sign1, kid).
Proof.
  intros He Hp Ht. unfold verifySign1.
  destruct (unmarshal_tag_ok _ _ _ He) as (v' & E & D). rewrite E. cbn [wrap].
  unfold mbind at 1, result_bind at 1. rewrite decide_False by (intros H; by apply H).
  destruct (remarshal_ok _ _ (proj1 (proj2 (sign1_encodable protected pl signature kid))) D)
    as (body & Eb & Hb).
  rewrite Eb. cbn [wrap]. unfold mbind at 1, result_bind at 1.
  destruct (unmarshal_sign1_ok _ _ _ _ _ Hb) as (u & Eu & Du). rewrite Eu.
  cbn [wrap]. unfold mbind at 1, result_bind at 1. cbn [sg_Protected sg_Payload sg_Signature].
  destruct (unmarshal_map_ok _ _ Hp) as (m & Em & Dm). rewrite Em. cbn [wrap].
  unfold mbind at 1, result_bind at 1.
  eapply (decoded_entries_gget _ _ labelAlg) in Dm as D1; [|unfold sign1_header; nodup].
  rewrite (decoded_int_value algEdDSA _ ltac:(unfold int64, algEdDSA; lia) D1).
  rewrite decide_False by (intros H; by apply H).
  eapply (decoded_entries_gget _ _ labelKid) in Dm as D2; [|unfold sign1_header; nodup].
  rewrite (decoded_bytes_inv kid _ D2). cbn [as_bytes]. rewrite decide_False by (intros H; by apply H).
  rewrite Ht. unfold mbind, result_bind. exists (mkSign1 protected u (Some pl) signature).
  split; reflexivity.
Qed.

(** [msg] verifies under the signer's key and opens for the recipient; a public
    key of another length makes the verification panic. *)
Definition sealed_as (msg ct pt : bytes) (cs : claims) (skid seed rkid : bytes) (kR : X25519Key) : Prop :=
  exists sign1 raw, verifySign1 msg skid (ed25519_Public seed) = Ok (sign1, skid) /\
    sg_Payload sign1 = Some raw /\ opens raw ct pt cs rkid kR /\
    forall public, len public <> 32 ->
      verifySign1 msg skid public = Err (Panicked "ed25519: bad public key length").

Lemma buildSealed_ok ct pt cs skid seed rkid kR (w : world P) :
  claims_ok cs -> utf8_Valid ct = true -> ct <> [] -> len seed = 32 -> entropic (w_rng w) ->
  exists msg w', buildSealed ct pt cs skid seed rkid (PublicKey_Bytes kR) w = (Ok msg, w') /\
    sealed_as msg ct pt cs skid seed rkid kR.
Proof.
  intros Hc Hu Hn Hs Hg. unfold buildSealed.
  rewrite decide_False by (unfold ed25519SeedLen; lia).
  rewrite decide_False by (pose proof (PublicKey_32 kR); unfold x25519Len; lia).
  destruct (buildEncrypt_ok ct pt cs rkid kR w Hc Hu Hn Hg) as (raw & w' & E & Ho).
  rewrite (io_bind_Ok _ _ _ _ _ E).
  destruct (marshal_ok _ (proj2 (proj2 (sign1_encodable [] [] [] skid)))) as (p & Ep & Hp).
  rewrite (lift_ok _ p) by by apply wrap_ok.
  destruct (sigStructure_ok p raw) as (tbs & Et). rewrite (lift_ok _ tbs) by done.
  destruct (marshal_ok _ (proj1 (sign1_encodable p raw (ed25519_Sign seed tbs) skid))) as (msg & Em & Hm).
  exists msg, w'. split; [unfold lift; f_equal; exact Em|].
  pose proof (fun public => verify_sign1_value msg p raw (ed25519_Sign seed tbs) skid public tbs Hm Hp Et)
    as Hver.
  destruct (Hver (ed25519_Public seed)) as (sign1 & El & Ev).
  rewrite decide_False, (Verify_Sign _ _ Hs) in Ev by (rewrite ed25519_Public_32; auto).
  exists sign1, raw. split; [done|]. split; [done|]. split; [done|]. intros public Hp32.
  destruct (Hver public) as (sign2 & _ & ->). by rewrite decide_True.
Qed.

(** ** [OpenResponse] *)

(** The response the broker owes: its claims answer this request, in time. *)
Definition answers (params : ResponseParams) (now : Time) (cs : claims) : Prop :=
  cl_senderKeyID cs = sp_BrokerKeyID params /\
  cl_inReplyTo cs = Some (sp_RequestMessageID params) /\
  cl_requestHash cs = Some (sha3_Sum256 (sp_Request params)) /\
  validateResponseClaims cs now
    (if decide (sp_MaxClockSkew params = 0) then Minute else sp_MaxClockSkew params)
    (if decide (sp_MaxTTL params = 0) then 5 * Minute else sp_MaxTTL params) = Ok ().

(** The validation time. *)
Definition now_of (params : ResponseParams) (w : world P) : Time :=
  if IsZero (sp_Now params) then w_ext w else sp_Now params.

Definition type_ok (params : ResponseParams) (ct : bytes) : Prop :=
  sp_ExpectedContentType params = [] \/ ct = sp_ExpectedContentType params.

Lemma now_bind {A} params (k : Time -> io A) (w : world P) :
  ((if IsZero (sp_Now params) then time_Now else mret (sp_Now params)) ≫= k) w = k (now_of params w) w.
Proof. unfold now_of. by destruct (IsZero _). Qed.

Lemma OpenResponse_run params (w : world P) sign1 raw ct pt cs kR :
  verifySign1 (sp_Message params) (sp_BrokerKeyID params) (sp_BrokerPublic params) =
    Ok (sign1, sp_BrokerKeyID params) ->
  sg_Payload sign1 = Some raw -> opens raw ct pt cs (sp_RecipientKeyID params) kR ->
  NewPrivateKey (sp_RecipientPrivate params) = Ok kR ->
  answers params (now_of params w) cs -> type_ok params ct ->
  OpenResponse params w = (Ok (mkResponse pt ct), w).
Proof.
  intros Ev El (enc & Ed & <- & <- & Ho) Hk (A1 & A2 & A3 & A4) Ht. unfold OpenResponse.
  rewrite now_bind. rewrite (lift_ok _ _ _ _ Ev). cbn beta iota. rewrite El. cbn [default from_option].
  rewrite (lift_ok _ enc) by exact Ed. rewrite A1, A2, A3. cbn [default from_option id].
  rewrite !decide_False by (intros H; by apply H). rewrite (lift_ok _ tt) by exact A4.
  rewrite decide_False by (unfold type_ok in Ht; tauto).
  rewrite (lift_ok _ pt) by by apply Ho. done.
Qed.

(** What a successful verification has established. *)
Lemma verifySign1_inv message kid public sign1 kid' :
  verifySign1 message kid public = Ok (sign1, kid') -> exists tbs, kid' = kid /\
    sigStructure (sg_Protected sign1) None (sg_Payload sign1) = Ok tbs /\ len public = 32 /\
    ed25519_Verify public tbs (sg_Signature sign1) = true.
Proof.
  unfold verifySign1. intros ([number content] & _ & H)%result_bind_Ok.
  case_decide; [done|]. apply result_bind_Ok in H as (body & _ & H).
  apply result_bind_Ok in H as (s1 & _ & H). apply result_bind_Ok in H as (protected & _ & H).
  case_decide; [done|]. destruct (as_bytes _) as [k|]; [|done]. case_decide as Hk; [done|].
  subst k. apply result_bind_Ok in H as (tbs & Et & H).
  case_decide as Hl; [done|]. destruct (ed25519_Verify _ _ _) eqn:Ev; [|done].
  injection H as -> ->. exists tbs. auto.
Qed.

Lemma validate_correlated cs now skew maxTTL : validateResponseClaims cs now skew maxTTL = Ok () ->
  ~ (cl_inReplyTo cs = None \/ cl_requestHash cs = None).
Proof. unfold validateResponseClaims. repeat case_decide; done. Qed.

(** What is decoded does not depend on the key it is verified with. *)
Lemma verifySign1_same message kid1 kid2 public1 public2 s1 s2 k1 k2 :
  verifySign1 message kid1 public1 = Ok (s1, k1) -> verifySign1 message kid2 public2 = Ok (s2, k2) -> s1 = s2 /\ k1 = k2.
Proof.
  unfold verifySign1. destruct (wrap _ (unmarshalCBOR Unmarshal_Tag message)) as [[number content]|]; [|done].
  unfold mbind, result_bind. case_decide; [done|].
  destruct (wrap _ (marshalCBOR content)) as [body|]; [|done].
  destruct (wrap _ (unmarshalCBOR Unmarshal_Sign1 body)) as [sign1|]; [|done].
  destruct (wrap _ (unmarshalCBOR Unmarshal_Map (sg_Protected sign1))) as [protected|]; [|done].
  case_decide; [done|]. destruct (as_bytes _) as [kid|]; [|done].
  destruct (sigStructure _ _ _) as [tbs|]; [|by do 2 case_decide].
  intros H1 H2. repeat (case_decide; [done|]).
  destruct (negb _); [done|]. destruct (negb _); [done|]. by simplify_eq.
Qed.

(** What [OpenResponse] has found and checked of a response it returns. *)
Lemma OpenResponse_parts params (w w' : world P) resp :
  OpenResponse params w = (Ok resp, w') -> w' = w /\
  exists sign1 enc,
    verifySign1 (sp_Message params) (sp_BrokerKeyID params) (sp_BrokerPublic params) = Ok (sign1, sp_BrokerKeyID params) /\
    decodeEncrypt (default [] (sg_Payload sign1)) = Ok enc /\
    answers params (now_of params w) (em_claims enc) /\
    type_ok params (em_contentType enc) /\ resp_ContentType resp = em_contentType enc /\
    em_recipientKeyID enc = sp_RecipientKeyID params /\
    openEncrypt enc (sp_RecipientKeyID params) (sp_RecipientPrivate params) = Ok (resp_Plaintext resp).
Proof.
  unfold OpenResponse. rewrite now_bind. set (now := now_of params w). intros H.
  destruct (verifySign1 _ _ _) as [[sign1 kid]|] eqn:Ev; [|done].
  rewrite (lift_ok _ (sign1, kid)) in H by done. cbn beta iota in H.
  destruct (decodeEncrypt (default [] (sg_Payload sign1))) as [enc|] eqn:Ed; [|done].
  unfold mbind, io_bind, lift, fail in H.
  case_decide as H1; [done|]. case_decide as H2; [done|]. case_decide as H3; [done|].
  destruct (validateResponseClaims _ _ _ _) as [[]|] eqn:Eval; [|done].
  case_decide as H4; [done|].
  destruct (openEncrypt _ _ _) as [pt|] eqn:Eo; [|done]. injection H as <- <-. split; [done|].
  assert (kid = sp_BrokerKeyID params) as -> by (by apply verifySign1_inv in Ev as (tbs & -> & _)).
  exists sign1, enc. cbn [resp_ContentType resp_Plaintext]. split_and!; auto.
  - apply validate_correlated in Eval as V.
    unfold answers. destruct (cl_inReplyTo (em_claims enc)) as [r|]; [|naive_solver].
    destruct (cl_requestHash (em_claims enc)) as [h|]; [|naive_solver]. cbn in H2, H3. by subst.
  - unfold type_ok. destruct (decide (sp_ExpectedContentType params = [])); [by left|right].
    apply dec_stable. tauto.
  - unfold openEncrypt in Eo. by case_decide as Hr.
Qed.

(** The same without the library's tree of the message. *)
Lemma OpenResponse_inv params (w w' : world P) resp :
  OpenResponse params w = (Ok resp, w') -> w' = w /\
  exists protected raw signature tbs enc,
    sigStructure protected None raw = Ok tbs /\ len (sp_BrokerPublic params) = 32 /\
    ed25519_Verify (sp_BrokerPublic params) tbs signature = true /\
    decodeEncrypt (default [] raw) = Ok enc /\
    answers params (now_of params w) (em_claims enc) /\
    type_ok params (em_contentType enc) /\ resp_ContentType resp = em_contentType enc /\
    em_recipientKeyID enc = sp_RecipientKeyID params /\
    openEncrypt enc (sp_RecipientKeyID params) (sp_RecipientPrivate params) = Ok (resp_Plaintext resp).
Proof.
  intros (-> & sign1 & enc & Ev & Ed & H)%OpenResponse_parts. split; [done|].
  apply verifySign1_inv in Ev as (tbs & _ & Et & Hl & Hv).
  exists (sg_Protected sign1), (sg_Payload sign1), (sg_Signature sign1), tbs, enc. auto.
Qed.

(** ** [BuildRequest] *)

(** What a caller may ask for. *)
Definition request_ok (params : RequestParams) : Prop :=
  1 <= len (rp_MessageID params) <= 64 /\
  (forall c, rp_FreshnessChallenge params = Some c -> len c = 32) /\
  len (rp_SenderSeed params) = 32 /\
  utf8_Valid (rp_ContentType params) = true /\ rp_ContentType params <> [] /\
  utf8_Valid (rp_Issuer params) = true /\ utf8_Valid (rp_Audience params) = true /\
  utf8_Valid (rp_ResponseKeyID params) = true /\ utf8_Valid (rp_ResponseSubject params) = true.

(** The time a request is issued at. *)
Definition issued_at (params : RequestParams) (w : world P) : Time :=
  if IsZero (rp_IssuedAt params) then w_ext w else rp_IssuedAt params.
Definition ttl_of (params : RequestParams) : Z :=
  if decide (rp_TTL params = 0) then 2 * Minute else rp_TTL params.

(** The claims of a request issued at [t]: its own fields, issued at the second
    of [t], expiring at the second its lifetime ends, answering nothing. *)
Definition request_claims (params : RequestParams) (t : Time) : claims :=
  mkClaims (rp_Issuer params) (rp_Audience params)
    ((nanos t + ttl_of params) / Second - unixToInternal) (t_sec t - unixToInternal)
    (rp_MessageID params) (rp_SenderKeyID params) (rp_ResponseKeyID params)
    (rp_ResponseSubject params) None None (rp_FreshnessChallenge params).

Lemma BuildRequest_run params kR (w : world P) :
  request_ok params -> rp_RecipientPublic params = PublicKey_Bytes kR -> entropic (w_rng w) ->
  calendar (issued_at params w) -> - 2 ^ 63 <= ttl_of params < 2 ^ 63 ->
  exists msg w', BuildRequest params w = (Ok (mkRequest msg (rp_MessageID params)), w') /\
    sealed_as msg (rp_ContentType params) (rp_Plaintext params)
      (request_claims params (issued_at params w)) (rp_SenderKeyID params) (rp_SenderSeed params)
      (rp_RecipientKeyID params) kR.
Proof.
  intros (Hm & Hf & Hs & Hu & Hn & H1 & H2 & H3 & H4) Hk Hg [Ht Hns] Hd. unfold BuildRequest.
  rewrite decide_False by lia. rewrite decide_False; last first.
  { unfold freshnessChallengeLen. destruct (rp_FreshnessChallenge params) as [c|] eqn:E; simpl; [|lia].
    specialize (Hf c eq_refl). lia. }
  assert (forall k : Time -> io Request,
    ((if IsZero (rp_IssuedAt params) then time_Now else mret (rp_IssuedAt params)) ≫= k) w =
    k (issued_at params w) w) as -> by (intros k; unfold issued_at; by destruct (IsZero _)).
  fold (ttl_of params). pose proof (Time_Add_small _ _ Ht Hns Hd) as Ha.
  assert (0 <= t_sec (Time_Add (issued_at params w) (ttl_of params)) + 2 ^ 34 < 2 ^ 63) as Hr.
  { rewrite Ha. unfold nanos, Second in *. clear -Ht Hns Hd.
    match goal with |- context [?x / ?y] => pose proof (Z.div_le_lower_bound x y (- 2 ^ 34));
      pose proof (Z.div_lt_upper_bound x y (2 ^ 62 + 2 ^ 34)) end. lia. }
  assert (Time_Unix (Time_Add (issued_at params w) (ttl_of params)) =
    (nanos (issued_at params w) + ttl_of params) / Second - unixToInternal) as ->.
  { unfold Time_Unix, unixToInternal. rewrite wraps_small by lia. by rewrite Ha. }
  rewrite (Time_Unix_small _ Ht), Hk.
  fold (request_claims params (issued_at params w)).
  edestruct (buildSealed_ok (rp_ContentType params) (rp_Plaintext params)
    (request_claims params (issued_at params w)) (rp_SenderKeyID params) (rp_SenderSeed params)
    (rp_RecipientKeyID params) kR w) as (msg & w' & E & Hsealed); try done.
  { unfold claims_ok, request_claims, int64, unixToInternal. cbn. rewrite Ha in Hr. split_and!; auto; lia. }
  rewrite (io_bind_Ok _ _ _ _ _ E). exists msg, w'. done.
Qed.
End flow.
