(* ===== verification/ExCourier.v ===== *)
(** The example [nats-cose-courier] (main.go): a sealed sign invocation carried by
    NATS, with the retry loop of its request, and the answer verified. *)

From S2P Require Import Prelude GoTime GoText GoError IO Crypto Errors Cbor Sealed Keytype Program.

Definition signRequestContentType : bytes := str "application/basil.sign-request".
Definition signResponseContentType : bytes := str "application/basil.sign-response".
Definition defaultRequestBody : bytes := str "sealed-cose round-trip request".
Definition brokerAudience : bytes := str "basil://example/nats-cose-courier".
Definition clientSubject : bytes := str "go.client".
Definition requestSealingKeyID : bytes := str "broker.request".
Definition targetSigningKeyID : bytes := str "workload.signing".
Definition statusOK : Z := 1.

Record signInvocationRequest := mkSignInvocationRequest {
  sir_KeyID : bytes;
  sir_Message : bytes;
  sir_Algorithm : Z;
}.

Record invocationStatus := mkInvocationStatus {
  is_Code : Z;
  is_Reason : bytes;
  is_Message : option bytes;
  is_Retryable : bool;
}.

Record signInvocationResponse := mkSignInvocationResponse {
  sir_Status : invocationStatus;
  sir_PolicyGeneration : Z;
  sir_Signature : bytes;
}.

(** ** NATS and CBOR

    [Net] is everything outside the process, with its clock: nats.go's
    connection and its request with a timeout, a reply's data and header, and
    [time.Sleep]. The package-level functions of fxamacker/cbor on the two
    structs are an interface as well. *)
Class Nats := {
  Net : Type;
  NatsConn : Type;
  Msg : Type;
  net_Now : Net -> Time;
  time_Sleep : Z -> Net -> Net;
  nats_Connect : bytes -> Net -> result error NatsConn * Net;
  nats_Request : NatsConn -> bytes -> bytes -> Z -> Net -> result error Msg * Net;
  nats_Close : NatsConn -> Net -> Net;
  msg_Data : Msg -> bytes;
  Header_Values : Msg -> bytes -> list bytes;
  cbor_Marshal : signInvocationRequest -> result error bytes;
  cbor_Unmarshal : bytes -> result error signInvocationResponse;
}.

(** [strings.Join] *)
Fixpoint strings_Join (l : list bytes) (sep : bytes) : bytes :=
  match l with
  | [] => []
  | [x] => x
  | x :: l => x ++ sep ++ strings_Join l sep
  end.

Section courier.
Context {P : Platform Time} {C : Crypto} {Cb : Cbor} {Co : Cose} {Na : Nats}.

(** The network, and the state of [crypto/rand]. *)
Record courier := mkCourier { co_net : Net; co_rng : G }.

(** A call on the network, and one of package [sealedinvocation], which sees the
    clock. [src] and [dst] are the reader and the writer of that package's
    platform, which it never touches. *)
Definition on_net {A} (f : Net -> result error A * Net) : prog courier A := call_on (fun s =>
  let '(r, n) := f (co_net s) in (r, mkCourier n (co_rng s))).

Definition sealed_call {A} (src : R) (dst : W) (m : io A) : prog courier A := call_on (fun s =>
  let '(r, w) := m (World src dst (co_rng s) [] (net_Now (co_net s))) in
  (r, mkCourier (co_net s) (w_rng w))).

(** [time.Now()] *)
Definition now_in : prog courier Time := act (fun s => (net_Now (co_net s), s)).

Definition requiredEnv (getenv : bytes -> bytes) (key : bytes) : prog courier bytes :=
  let value := getenv key in
  if decide (value = []) then
    print (Stderr "%s is required" [AStr key]);; os_Exit 2
  else mret value.

Definition hexEnv (getenv : bytes -> bytes) (key : bytes) : prog courier bytes :=
  value ← requiredEnv getenv key;
  wrapping "%s is not hex: %w" [AStr key] (pure (hex_DecodeString value)).

(** The loop of [requestWithRetry], one unit of fuel per request; [lastErr] is
    nil before the first. *)
Fixpoint retry_loop (fuel : nat) (nc : NatsConn) (subject payload : bytes) (deadline : Time)
    (lastErr : option error) (n : Net) : result error Msg * Net :=
  if negb (Before (net_Now n) deadline) then
    (Err (match lastErr with
          | Some lastErr => Wrapf "NATS request never received bridge response: %w" [] lastErr
          | None => Errorf "NATS request never received bridge response: %w" [ABad]
          end), n)
  else
  match fuel with
  | O => (Err OutOfFuel, n)
  | S fuel =>
      match nats_Request nc subject payload (2 * Second) n with
      | (Ok reply, n) => (Ok reply, n)
      | (Err err, n) => retry_loop fuel nc subject payload deadline (Some err) (time_Sleep (150 * 1000000) n)
      end
  end.

Definition requestWithRetry (fuel : nat) (nc : NatsConn) (subject payload : bytes) (n : Net)
    : result error Msg * Net :=
  retry_loop fuel nc subject payload (Time_Add (net_Now n) (20 * Second)) None n.

(** [ed25519.Verify], which panics on a public key that is not 32 bytes. *)
Definition ed25519_verify (public message signature : bytes) : result error bool :=
  if decide (len public <> 32) then Err (Panicked "ed25519: bad public key length")
  else Ok (ed25519_Verify public message signature).

Definition request_params (requestBody requestRecipientPublic : bytes) (now : Time) : RequestParams :=
  mkRequestParams signRequestContentType requestBody clientSubject brokerAudience now (2 * Minute)
    (str "go-nats-bridge-request") (str "client.signing") (replicate 32 x07) requestSealingKeyID
    requestRecipientPublic (str "response.sealing") [] None.

Definition response_params (data : bytes) (request : Request) (now : Time) (brokerPublic : bytes)
    : ResponseParams :=
  mkResponseParams data (req_Message request) (req_MessageID request) signResponseContentType now 0 0
    (str "broker.signing") brokerPublic (str "response.sealing") (replicate 32 x22).

(** The body of [run] once connected; [nc.Close] is deferred there. *)
Definition converse (fuel : nat) (src : R) (dst : W) (nc : NatsConn) (subject : bytes)
    (request : Request) (brokerPublic targetSigningPublic : bytes) : prog courier () :=
  reply ← on_net (requestWithRetry fuel nc subject (req_Message request));
  match Header_Values reply (str "Basil-Bridge-Error") with
  | (_ :: _) as values =>
      let detail := default [] (head (Header_Values reply (str "Basil-Bridge-Message"))) in
      fails (Errorf "bridge error: %s: %s: %s"
        [AStr (strings_Join values (str "; ")); AStr detail; AStr (msg_Data reply)])
  | [] =>
  now ← now_in;
  opened ← sealed_call src dst (OpenResponse (response_params (msg_Data reply) request now brokerPublic));
  response ← wrapping "decode sign invocation response: %w" [] (pure (cbor_Unmarshal (resp_Plaintext opened)));
  if decide (is_Code (sir_Status response) <> statusOK) then
    fails (Errorf "sign invocation status %d %s"
      [AInt (is_Code (sir_Status response)); AStr (is_Reason (sir_Status response))])
  else
  valid ← pure (ed25519_verify targetSigningPublic defaultRequestBody (sir_Signature response));
  if negb valid then fails (Errorf "broker returned an invalid signature" []) else
  print (Out "PASS sealed sign invocation via basil-nats-bridge key=%s policy_generation=%d signature_len=%d"
    [AStr targetSigningKeyID; AInt (sir_PolicyGeneration response); AInt (len (sir_Signature response))])
  end.

(** [defer nc.Close()]: after [body], whatever became of it. *)
Definition closing {A} (nc : NatsConn) (body : prog courier A) : prog courier A := fun p =>
  let '(r, p) := body p in
  (r, mkProcess (mkCourier (nats_Close nc (co_net (ps_state p))) (co_rng (ps_state p))) (ps_out p)).

(** *** The fixtures *)

Definition printAssignment (name value : bytes) : prog courier () :=
  print (Out "%s='%s'" [AStr name; AStr value]).

(** A failing [X25519Public] makes [printFixtures] panic. *)
Definition must {A} (r : result error A) : prog courier A :=
  match r with
  | Ok a => mret a
  | Err _ => fails (Panicked "printFixtures")
  end.

Definition printFixtures : prog courier () :=
  let clientPublic := ed25519_Public (replicate 32 x07) in
  let brokerPublic := ed25519_Public (replicate 32 x09) in
  let targetPublic := ed25519_Public (replicate 32 x44) in
  requestPublic ← must (X25519Public (replicate 32 x11));
  responsePublic ← must (X25519Public (replicate 32 x22));
  printAssignment (str "CLIENT_SIGNING_PUBLIC_B64") (base64_RawURLEncoding clientPublic);;
  printAssignment (str "BROKER_SIGNING_PRIVATE_B64") (base64_StdEncoding (replicate 32 x09));;
  printAssignment (str "BROKER_SIGNING_PUBLIC_B64") (base64_StdEncoding brokerPublic);;
  printAssignment (str "BROKER_SIGNING_PUBLIC_HEX") (hex_EncodeToString brokerPublic);;
  printAssignment (str "TARGET_SIGNING_PRIVATE_B64") (base64_StdEncoding (replicate 32 x44));;
  printAssignment (str "TARGET_SIGNING_PUBLIC_B64") (base64_StdEncoding targetPublic);;
  printAssignment (str "TARGET_SIGNING_PUBLIC_HEX") (hex_EncodeToString targetPublic);;
  printAssignment (str "REQUEST_SEALING_PRIVATE_B64") (base64_StdEncoding (replicate 32 x11));;
  printAssignment (str "REQUEST_SEALING_PUBLIC_B64") (base64_StdEncoding requestPublic);;
  printAssignment (str "REQUEST_SEALING_PUBLIC_HEX") (hex_EncodeToString requestPublic);;
  printAssignment (str "RESPONSE_SEALING_PRIVATE_B64") (base64_StdEncoding (replicate 32 x22));;
  printAssignment (str "RESPONSE_SEALING_PUBLIC_B64") (base64_StdEncoding responsePublic).

Definition run (fuel : nat) (src : R) (dst : W) (getenv : bytes -> bytes) : prog courier () :=
  if decide (getenv (str "EXAMPLE_MODE") = str "fixtures") then printFixtures else
  natsURL ← requiredEnv getenv (str "BASIL_NATS_URL");
  subject ← requiredEnv getenv (str "BASIL_NATS_SUBJECT");
  requestRecipientPublic ← hexEnv getenv (str "BASIL_REQUEST_RECIPIENT_PUBLIC_HEX");
  brokerPublic ← hexEnv getenv (str "BASIL_BROKER_SIGNING_PUBLIC_HEX");
  targetSigningPublic ← hexEnv getenv (str "BASIL_TARGET_SIGNING_PUBLIC_HEX");
  requestBody ← wrapping "encode sign invocation body: %w" []
    (pure (cbor_Marshal (mkSignInvocationRequest targetSigningKeyID defaultRequestBody SigningAlgorithmEd25519)));
  now ← now_in;
  request ← sealed_call src dst (BuildRequest (request_params requestBody requestRecipientPublic now));
  nc ← wrapping "connect NATS: %w" [] (on_net (nats_Connect natsURL));
  closing nc (converse fuel src dst nc subject request brokerPublic targetSigningPublic).

(** [main] prints the bare error. *)
Definition main (fuel : nat) (src : R) (dst : W) (getenv : bytes -> bytes)
    : process courier -> Z * process courier := main_of "" (run fuel src dst getenv).
End courier.
