(* ===== verification/ExTelemetry.v ===== *)
(** The example [cose-nats-telemetry] (main.go): NATS credentials minted by the
    broker, and telemetry signed in place by the broker, exchanged over NATS
    and verified by the subscriber. *)

From S2P Require Import Prelude GoTime GoPath GoText GoError Errors Pb Client Keytype Signing Minting Program.

Definition operatorKeyID : bytes := str "nats.operator".
Definition accountKeyID : bytes := str "nats.account".
Definition userKeyID : bytes := str "nats.user".
Definition coseKeyID : bytes := str "telemetry.sign".
Definition subject : bytes := str "telemetry.metrics".

Record config := mkConfig { mode : bytes; socket : bytes; natsURL : bytes; fixturesDir : bytes }.

Definition loadConfig (getenv : bytes -> bytes) : config :=
  mkConfig (getenv (str "EXAMPLE_MODE"))
    (envOr getenv (str "BASIL_SOCKET") (str "/tmp/basil-cose-nats/agent.sock"))
    (envOr getenv (str "BASIL_NATS_URL") (str "nats://127.0.0.1:4250"))
    (envOr getenv (str "NATS_FIXTURES_DIR") (str "/tmp/basil-cose-nats/fixtures")).

(** ** The surroundings

    The disk: [os.MkdirAll], [os.WriteFile] and [os.ReadFile]. *)
Class Disk := {
  D : Type;
  os_MkdirAll : bytes -> Z -> D -> option error * D;
  os_WriteFile : bytes -> bytes -> Z -> D -> option error * D;
  os_ReadFile : bytes -> D -> result error bytes;
}.

(** nkeys: the prefix bytes the program names, and [nkeys.Encode]. *)
Inductive PrefixByte := PrefixByteOperator | PrefixByteAccount | PrefixByteUser.

Class NKeys := { nkeys_Encode : PrefixByte -> bytes -> result error bytes }.

(** go-cose. A header is an entry of the map of protected headers. [cose_Sign1]
    is handed a signer, as its algorithm and its method, which may act on the
    state; [msg_Verify] and [cose_Sign1] have a nil external. *)
Class GoCose := {
  Algorithm : Type;
  AlgorithmEdDSA : Algorithm;
  Verifier : Type;
  Sign1Message : Type;
  NewVerifier : Algorithm -> bytes -> result error Verifier;
  header : Type;
  HeaderAlgorithm : Algorithm -> header;
  HeaderKeyID : bytes -> header;
  cose_Sign1 : forall {S}, Algorithm -> (bytes -> S -> result error bytes * S) -> list header -> bytes ->
    S -> result error bytes * S;
  msg_UnmarshalCBOR : bytes -> result error Sign1Message;
  msg_Verify : Sign1Message -> Verifier -> option error;
  msg_Payload : Sign1Message -> bytes;
}.

(** nats.go. [nats_Connect] is handed the callbacks of [nats.UserJWT], and may
    call the broker through the second; [Name], [MaxReconnects] and [Timeout]
    are the other options. Of a message the program reads the data. *)
Record ConnectOptions `{Gr : Grpc} := mkConnectOptions {
  opt_userCB : result error bytes;
  opt_sigCB : bytes -> rpc bytes;
  opt_Name : bytes;
  opt_MaxReconnects : Z;
  opt_Timeout : Z;
}.
Arguments mkConnectOptions {_} _ _ _ _ _.
Arguments opt_userCB {_} _.
Arguments opt_sigCB {_} _ _.

Class NatsBus `{Gr : Grpc} := {
  Net : Type;
  NatsConn : Type;
  Subscription : Type;
  nats_Connect : bytes -> ConnectOptions -> Net * B -> result error NatsConn * (Net * B);
  nats_Close : NatsConn -> Net -> Net;
  SubscribeSync : NatsConn -> bytes -> Net -> result error Subscription * Net;
  Flush : NatsConn -> Net -> option error * Net;
  Publish : NatsConn -> bytes -> bytes -> Net -> option error * Net;
  NextMsg : Subscription -> Z -> Net -> result error bytes * Net;
}.

(** The order in which a [range] over a map visits its entries: a permutation. *)
Class MapRange := {
  range_map : forall {V : Type}, list (bytes * V) -> list (bytes * V);
  range_map_perm : forall V (l : list (bytes * V)), Permutation (range_map l) l;
}.

Section telemetry.
Context {Gr : Grpc} {GS : GrpcStatus} {WK : WellKnown} {J : JsonEncoder} {GV : GoValues}.
Context {Di : Disk} {NK : NKeys} {GC : GoCose} {NB : NatsBus} {MR : MapRange}.

Record machine := mkMachine { m_ext : B; m_disk : D; m_net : Net }.

Definition broker {A} (m : rpc A) : prog machine A := call_on (fun s =>
  let '(r, b) := m (m_ext s) in (r, mkMachine b (m_disk s) (m_net s))).

(** An operation of the disk, and of the network, of which only an error comes
    back, and one of the network with a result. *)
Definition on_disk (f : D -> option error * D) : prog machine () := call_on (fun s =>
  let '(e, d) := f (m_disk s) in
  (match e with None => Ok () | Some e => Err e end, mkMachine (m_ext s) d (m_net s))).
Definition on_net (f : Net -> option error * Net) : prog machine () := call_on (fun s =>
  let '(e, n) := f (m_net s) in
  (match e with None => Ok () | Some e => Err e end, mkMachine (m_ext s) (m_disk s) n)).
Definition from_net {A} (f : Net -> result error A * Net) : prog machine A := call_on (fun s =>
  let '(r, n) := f (m_net s) in (r, mkMachine (m_ext s) (m_disk s) n)).

Definition timeout_30s : prog machine context := act (fun s =>
  (context_WithTimeout (now (m_ext s)) (mkContext None) (30 * Second), s)).

(** ** Small helpers *)

Definition publicNKey (ctx : context) (client : Client) (keyID : bytes) (prefix : PrefixByte)
    : prog machine bytes :=
  pub ← wrapping "get public key %s: %w" [AStr keyID] (broker (GetPublicKey client ctx keyID None));
  wrapping "encode NKey for %s: %w" [AStr keyID] (pure (nkeys_Encode prefix (pk_Bytes pub))).

Definition short (nkey : bytes) : bytes := if decide (len nkey <= 12) then nkey else take 12 nkey.

Definition expiry (c : Credential) : bytes :=
  if IsZero (cred_ExpiresAt c) then str "never" else Format_RFC3339 (cred_ExpiresAt c).

(** ** Provisioning *)

Definition operator_request : NatsOperatorRequest :=
  mkNatsOperatorRequest operatorKeyID [] (str "basil-telemetry-operator") 0 [] [] [].

Definition account_claims (accountPub : bytes) : Value :=
  VMap [(str "sub", VString accountPub);
        (str "name", VString (str "TELEMETRY"));
        (str "nats", VMap [
          (str "type", VString (str "account"));
          (str "version", VInt 2);
          (str "limits", VMap [
            (str "subs", VInt (-1)); (str "data", VInt (-1)); (str "payload", VInt (-1));
            (str "conn", VInt (-1)); (str "leaf", VInt (-1)); (str "imports", VInt (-1));
            (str "exports", VInt (-1)); (str "wildcards", VBool true)])])].

Definition account_request (accountPub : bytes) : NatsJwtRequest :=
  mkNatsJwtRequest operatorKeyID (Some (AnyOther (account_claims accountPub))) NatsJwtTypeAccount 0
    zeroTime zeroTime 0.

Definition user_request (userPub : bytes) : NatsUserRequest :=
  mkNatsUserRequest accountKeyID userPub (str "telemetry-workload") (10 * Minute)
    [str "telemetry.>"] [] [str "telemetry.>"] [] [].

(** [for name, content := range writes { ... }], in the order of the list. *)
Fixpoint write_files (dir : bytes) (writes : list (bytes * bytes)) : prog machine () :=
  match writes with
  | [] => mret ()
  | (name, content) :: writes =>
      wrapping "write %s: %w" [AStr name] (on_disk (os_WriteFile (Join dir name) content (6 * 64)));;
      write_files dir writes
  end.

Definition provision (cfg : config) : prog machine () :=
  client ← wrapping "dial broker at %s: %w" [AStr (socket cfg)] (pure (Dial (socket cfg) []));
  ctx ← timeout_30s;
  operatorPub ← publicNKey ctx client operatorKeyID PrefixByteOperator;
  accountPub ← publicNKey ctx client accountKeyID PrefixByteAccount;
  userPub ← publicNKey ctx client userKeyID PrefixByteUser;
  operatorJWT ← wrapping "mint operator JWT: %w" [] (broker (MintNatsOperator client ctx operator_request));
  accountJWT ← wrapping "sign account JWT: %w" [] (broker (SignNatsJwt client ctx (account_request accountPub)));
  userJWT ← wrapping "mint user JWT: %w" [] (broker (MintNatsUser client ctx (user_request userPub)));
  on_disk (os_MkdirAll (fixturesDir cfg) (7 * 64));;
  write_files (fixturesDir cfg) (range_map
    [(str "operator.jwt", cred_Token operatorJWT); (str "account.jwt", cred_Token accountJWT);
     (str "account.nkey", accountPub); (str "user.jwt", cred_Token userJWT)]);;
  print (Out "PASS minted operator O=%s..." [AStr (short operatorPub)]);;
  print (Out "PASS minted account A=%s... (lease exp=%s)" [AStr (short accountPub); AStr (expiry accountJWT)]);;
  print (Out "PASS minted user U=%s... (lease exp=%s)" [AStr (short userPub); AStr (expiry userJWT)]).

(** ** Telemetry *)

(** [brokerCOSESigner] and its two methods. *)
Record brokerCOSESigner := mkSigner { sg_ctx : context; sg_client : Client; sg_keyID : bytes }.
Definition signer_Algorithm (s : brokerCOSESigner) : Algorithm := AlgorithmEdDSA.
Definition signer_Sign (s : brokerCOSESigner) (content : bytes) : rpc bytes :=
  Sign (sg_client s) (sg_ctx s) (sg_keyID s) content.

Definition signTelemetry (ctx : context) (client : Client) (payload : bytes) : rpc bytes :=
  let signer := mkSigner ctx client coseKeyID in
  cose_Sign1 (signer_Algorithm signer) (signer_Sign signer)
    [HeaderAlgorithm AlgorithmEdDSA; HeaderKeyID coseKeyID] payload.

Definition verifyTelemetry (taggedCOSE : bytes) (verifier : Verifier) : result error bytes :=
  msg ← msg_UnmarshalCBOR taggedCOSE;
  match msg_Verify msg verifier with
  | Some err => Err err
  | None => Ok (msg_Payload msg)
  end.

Definition connect_options (userJWT : bytes) (client : Client) : ConnectOptions :=
  mkConnectOptions (Ok userJWT)
    (fun nonce b => Sign client (context_WithTimeout (now b) (mkContext None) (10 * Second)) userKeyID nonce b)
    (str "basil-cose-nats-telemetry") 3 (5 * Second).

Definition connectNATS (url userJWT : bytes) (client : Client) : prog machine NatsConn := call_on (fun s =>
  let '(r, (n, b)) := nats_Connect url (connect_options userJWT client) (m_net s, m_ext s) in
  (r, mkMachine b (m_disk s) n)).

(** [defer conn.Close()], run when [body] is over. *)
Definition closing {A} (conn : NatsConn) (body : prog machine A) : prog machine A := fun p =>
  let '(r, p) := body p in
  (r, mkProcess (mkMachine (m_ext (ps_state p)) (m_disk (ps_state p)) (nats_Close conn (m_net (ps_state p))))
    (ps_out p)).

Definition payload : bytes :=
  str "{" ++ quoted "service" ++ str ":" ++ quoted "checkout" ++ str "," ++
  quoted "region" ++ str ":" ++ quoted "eu-west-1" ++ str "," ++
  quoted "cpu" ++ str ":0.42," ++ quoted "rps" ++ str ":1287}".

(** A copy with the lowest bit of its last byte flipped; the index is out of range
    on an empty slice. *)
Definition tampered_copy (signed : bytes) : result error bytes :=
  if decide (signed = []) then Err (Panicked "index out of range [-1]")
  else Ok (alter (fun b => byte_of (Z.lxor (byte_val b) 1)) (length signed - 1)%nat signed).

(** A message published and received. *)
Definition send (pubConn : NatsConn) (fmt : string) (data : bytes) : prog machine () :=
  wrapping fmt [] (on_net (Publish pubConn subject data));;
  on_net (Flush pubConn).

(** The body of [telemetry] on its two connections. *)
Definition exchange (ctx : context) (client : Client) (subConn pubConn : NatsConn) : prog machine () :=
  print (Out "PASS nats connect authenticated via minted user JWT + in-place nonce signing" []);;
  sub ← wrapping "subscribe: %w" [] (from_net (SubscribeSync subConn subject));
  on_net (Flush subConn);;
  signed ← wrapping "COSE sign: %w" [] (broker (signTelemetry ctx client payload));
  print (Out "PASS cose_sign1 built bytes=%d" [AInt (len signed)]);;
  pub ← wrapping "fetch COSE public key: %w" [] (broker (GetPublicKey client ctx coseKeyID None));
  verifier ← wrapping "build verifier: %w" [] (pure (NewVerifier AlgorithmEdDSA (pk_Bytes pub)));
  send pubConn "publish: %w" signed;;
  msg ← wrapping "receive telemetry: %w" [] (from_net (NextMsg sub (5 * Second)));
  gotPayload ← wrapping "verify received telemetry: %w" [] (pure (verifyTelemetry msg verifier));
  if decide (gotPayload <> payload) then
    fails (Errorf "payload mismatch: got %q want %q" [AStr gotPayload; AStr payload])
  else
  print (Out "PASS subscriber verified cose_sign1 and payload matches" []);;
  tampered ← pure (tampered_copy signed);
  send pubConn "publish tampered: %w" tampered;;
  badMsg ← wrapping "receive tampered telemetry: %w" [] (from_net (NextMsg sub (5 * Second)));
  match verifyTelemetry badMsg verifier with
  | Ok _ => fails (Errorf "subscriber accepted a tampered COSE_Sign1" [])
  | Err _ => print (Out "PASS subscriber rejected tampered cose_sign1" [])
  end.

Definition telemetry (cfg : config) : prog machine () :=
  client ← wrapping "dial broker at %s: %w" [AStr (socket cfg)] (pure (Dial (socket cfg) []));
  ctx ← timeout_30s;
  userJWT ← wrapping "read minted user JWT: %w" []
    (call_on (fun s => (os_ReadFile (Join (fixturesDir cfg) (str "user.jwt")) (m_disk s), s)));
  subConn ← wrapping "subscriber connect: %w" [] (connectNATS (natsURL cfg) userJWT client);
  closing subConn (
    pubConn ← wrapping "publisher connect: %w" [] (connectNATS (natsURL cfg) userJWT client);
    closing pubConn (exchange ctx client subConn pubConn)).

Definition run (cfg : config) : prog machine () :=
  if decide (mode cfg = str "provision") then provision cfg
  else if decide (mode cfg = str "telemetry") then telemetry cfg
  else fails (Errorf "set EXAMPLE_MODE to provision or telemetry, got %q" [AStr (mode cfg)]).

Definition main (getenv : bytes -> bytes) : process machine -> Z * process machine :=
  main_of "FAIL:" (run (loadConfig getenv)).
End telemetry.
