(* ===== verification/SealedProps.v ===== *)
(** The properties of package [sealedinvocation]. *)

From S2P Require Import Prelude GoTime GoText GoError IO Crypto Cbor Sealed SealedLemmas SealedFlow.

Section sealed.
Context {P : Platform Time} {PL : PlatformLaws P} {C : Crypto} {CL : CryptoLaws C}
  {Cb : Cbor} {CbL : CborLaws Cb} {Co : Cose} {CoL : CoseLaws Co}.

(** ** Requests *)

(** C7: requests. A message id that is not 1 to 64 bytes, or a challenge that
    is not 32, is refused before any randomness is drawn. Any other
    well-formed request is built: the message verifies under the sender's
    public key and key id, and opens for the recipient's private key to
    the plaintext, the content type and the request's own claims, with its
    times to the second, two minutes apart when no lifetime was given. *)
Theorem BuildRequest_sealed params kR (w : world P) :
  (len (rp_MessageID params) = 0 \/ len (rp_MessageID params) > 64 \/
   (exists c, rp_FreshnessChallenge params = Some c /\ len c <> 32) ->
   exists e, BuildRequest params w = (Err e, w)) /\
  (request_ok params -> rp_RecipientPublic params = PublicKey_Bytes kR -> entropic (w_rng w) ->
   calendar (issued_at params w) -> - 2 ^ 63 <= ttl_of params < 2 ^ 63 ->
   exists msg w', BuildRequest params w = (Ok (mkRequest msg (rp_MessageID params)), w') /\
     sealed_as msg (rp_ContentType params) (rp_Plaintext params)
       (request_claims params (issued_at params w)) (rp_SenderKeyID params) (rp_SenderSeed params)
       (rp_RecipientKeyID params) kR).
Proof.
  split.
  - intros H. unfold BuildRequest. case_decide as H1; [by eexists|]. case_decide as H2; [by eexists|].
    exfalso. unfold freshnessChallengeLen in H2. destruct H as [H|[H|(c & E & H)]]; [tauto..|].
    rewrite E in H2. simpl in H2. tauto.
  - intros Hok Hk Hg Ht Hd. by apply BuildRequest_run.
Qed.

(** ** Responses *)

(** C8: the response round trip. A response sealed for the client under the
    broker's key, whose claims answer the request at the validation time, is
    opened to its plaintext and content type, by any call that expects this
    broker, this recipient and this content type or none; a broker key that
    is not 32 bytes makes the call panic. *)
Theorem response_roundtrip ct pt cs seed kR (w : world P) skid rkid :
  claims_ok cs -> utf8_Valid ct = true -> ct <> [] -> len seed = 32 -> entropic (w_rng w) ->
  exists msg w', buildSealed ct pt cs skid seed rkid (PublicKey_Bytes kR) w = (Ok msg, w') /\
    forall params (v : world P),
      sp_Message params = msg -> sp_BrokerKeyID params = skid -> sp_RecipientKeyID params = rkid ->
      NewPrivateKey (sp_RecipientPrivate params) = Ok kR ->
      (sp_BrokerPublic params = ed25519_Public seed -> answers params (now_of params v) cs ->
       type_ok params ct -> OpenResponse params v = (Ok (mkResponse pt ct), v)) /\
      (len (sp_BrokerPublic params) <> 32 ->
       OpenResponse params v = (Err (Panicked "ed25519: bad public key length"), v)).
Proof.
  intros Hc Hu Hn Hs Hg. destruct (buildSealed_ok ct pt cs skid seed rkid kR w Hc Hu Hn Hs Hg)
    as (msg & w' & E & sign1 & raw & Ev & El & Ho & Hpanic).
  exists msg, w'. split; [done|]. intros params v <- <- <- Hk. split.
  - intros Hp Ha Ht. apply (OpenResponse_run params v sign1 raw ct pt cs kR); auto. by rewrite Hp.
  - intros Hp. unfold OpenResponse. rewrite now_bind. by rewrite Hpanic.
Qed.

(** C6: what [OpenResponse] accepts. A response is only returned when the
    message is signed, under the broker's 32-byte key and key id, over the very
    bytes that are decoded; when their claims name the same key, answer
    this request (its id and the hash of its bytes) and lie in the window of
    the validation time; when the content type is the expected one; and when
    the ciphertext opens under those headers for the caller's key. No state
    changes. *)
Theorem OpenResponse_sound params (w w' : world P) resp :
  OpenResponse params w = (Ok resp, w') -> w' = w /\
  exists protected raw signature tbs enc,
    sigStructure protected None raw = Ok tbs /\ len (sp_BrokerPublic params) = 32 /\
    ed25519_Verify (sp_BrokerPublic params) tbs signature = true /\
    decodeEncrypt (default [] raw) = Ok enc /\
    answers params (now_of params w) (em_claims enc) /\
    type_ok params (em_contentType enc) /\ resp_ContentType resp = em_contentType enc /\
    em_recipientKeyID enc = sp_RecipientKeyID params /\
    openEncrypt enc (sp_RecipientKeyID params) (sp_RecipientPrivate params) = Ok (resp_Plaintext resp).
Proof. apply OpenResponse_inv. Qed.

(** C9: no message is taken for another. A request built by this package, whatever
    its claims, is not accepted as a response, by any call, with any keys and at any
    time: a message sent back is refused. And a message that is accepted
    as the response to two requests has answered the same message id and the
    same request hash, under the same key ids; for the same private key both
    calls return the same. *)
Theorem no_confusion params kR (w : world P) resp1 resp2 r1 r2 (v1 v2 v1' v2' : world P) :
  (request_ok params -> rp_RecipientPublic params = PublicKey_Bytes kR -> entropic (w_rng w) ->
   calendar (issued_at params w) -> - 2 ^ 63 <= ttl_of params < 2 ^ 63 ->
   exists msg w', BuildRequest params w = (Ok (mkRequest msg (rp_MessageID params)), w') /\
     forall params' (v : world P), sp_Message params' = msg -> is_ok (OpenResponse params' v).1 = false) /\
  (OpenResponse r1 v1 = (Ok resp1, v1') -> OpenResponse r2 v2 = (Ok resp2, v2') ->
   sp_Message r1 = sp_Message r2 ->
   sp_RequestMessageID r1 = sp_RequestMessageID r2 /\
   sha3_Sum256 (sp_Request r1) = sha3_Sum256 (sp_Request r2) /\
   sp_BrokerKeyID r1 = sp_BrokerKeyID r2 /\ sp_RecipientKeyID r1 = sp_RecipientKeyID r2 /\
   (sp_RecipientPrivate r1 = sp_RecipientPrivate r2 -> resp1 = resp2)).
Proof.
  split.
  - intros Hok Hk Hg Ht Hd. destruct (BuildRequest_run params kR w Hok Hk Hg Ht Hd) as (msg & w' & E & Hs).
    exists msg, w'. split; [done|]. intros params' v Hm.
    destruct (OpenResponse params' v) as [[resp|e] v'] eqn:Eo; [exfalso|done].
    apply OpenResponse_parts in Eo as (_ & sign2 & enc2 & Ev2 & Ed2 & (_ & Hr & _) & _).
    destruct Hs as (sign1 & raw & Ev1 & Hp & (enc & Ed & _ & Hc & _) & _). rewrite Hm in Ev2.
    destruct (verifySign1_same _ _ _ _ _ _ _ _ _ Ev1 Ev2) as [-> _]. rewrite Hp in Ed2. cbn in Ed2.
    rewrite Ed in Ed2. injection Ed2 as <-. by rewrite Hc in Hr.
  - intros (_ & s1 & e1 & V1 & D1 & (A1 & B1 & C1 & _) & _ & T1 & K1 & O1)%OpenResponse_parts.
    intros (_ & s2 & e2 & V2 & D2 & (A2 & B2 & C2 & _) & _ & T2 & K2 & O2)%OpenResponse_parts Hm.
    rewrite Hm in V1. destruct (verifySign1_same _ _ _ _ _ _ _ _ _ V1 V2) as [-> Hb].
    rewrite D1 in D2. injection D2 as ->. split_and!; [congruence..|]. intros Hpriv.
    rewrite <-Hpriv, <-K2, K1 in O2. rewrite O1 in O2. injection O2 as O2.
    destruct resp1, resp2. cbn in *. congruence.
Qed.

(** C38: the window of a response. For times of the calendar's magnitude its
    claims are accepted exactly when it was issued no later than the skew
    from now, expires after it was issued and at most the maximum lifetime
    later, expired no longer ago than the skew, correlates, and carries no
    claim of a request; the defaults are one and five minutes. At the ends of
    int64 the difference of the times wraps, and a response that is valid for
    longer than the maximum lifetime is accepted. *)
Theorem response_window cs now skew maxTTL :
  (Z.abs (Time_Unix now) < 2 ^ 60 -> Z.abs (cl_issuedAt cs) < 2 ^ 60 -> Z.abs (cl_expiresAt cs) < 2 ^ 60 ->
   Z.abs (int64_Seconds skew) < 2 ^ 60 ->
   (validateResponseClaims cs now skew maxTTL = Ok () <->
    cl_issuedAt cs <= Time_Unix now + int64_Seconds skew /\ cl_issuedAt cs < cl_expiresAt cs /\
    cl_expiresAt cs - cl_issuedAt cs <= int64_Seconds maxTTL /\
    Time_Unix now <= cl_expiresAt cs + int64_Seconds skew /\
    is_Some (cl_inReplyTo cs) /\ is_Some (cl_requestHash cs) /\
    cl_responseKeyID cs = [] /\ cl_responseSubject cs = [] /\ cl_freshnessChallenge cs = None)) /\
  int64_Seconds Minute = 60 /\ int64_Seconds (5 * Minute) = 300 /\
  (0 <= Time_Unix now < 2 ^ 60 -> forall id h kid,
   validateResponseClaims (mkClaims [] [] (2 ^ 62) (- 2 ^ 63) id kid [] [] (Some id) (Some h) None) now
     Minute (5 * Minute) = Ok ()).
Proof.
  split_and!; [|vm_compute; reflexivity..|].
  - intros Hn Hi He Hs. unfold validateResponseClaims. rewrite !wraps_small by lia.
    destruct cs as [i a e t m s r u inr rh ch]. cbn in *.
    split.
    + intros H. case_decide as A1; [done|]. case_decide as A2; [done|]. case_decide as A3; [done|].
      case_decide as A4; [done|]. case_decide as A5; [done|]. case_decide as A6; [done|].
      split; [lia|]. split; [lia|]. split; [lia|]. split; [lia|].
      split; [destruct inr; [by eexists|tauto]|]. split; [destruct rh; [by eexists|tauto]|].
      split; [|split]; apply dec_stable; tauto.
    + intros (G1 & G2 & G3 & G4 & [x ->] & [y ->] & -> & -> & ->).
      rewrite decide_False by lia. rewrite decide_False by lia. rewrite decide_False by lia.
      rewrite decide_False by lia. rewrite decide_False by (intros [?|?]; done).
      by rewrite decide_False by (intros [?|[?|?]]; done).
  - intros Hn id h kid. unfold validateResponseClaims. change (int64_Seconds Minute) with 60.
    change (int64_Seconds (5 * Minute)) with 300. cbn [cl_issuedAt cl_expiresAt].
    rewrite !(wraps_small 64 (_ + 60)) by lia.
    change (wraps 64 (2 ^ 62 - - 2 ^ 63)) with (- 2 ^ 62).
    rewrite decide_False by lia. rewrite decide_False by lia. rewrite decide_False by lia.
    rewrite decide_False by lia. cbn. done.
Qed.
End sealed.
