(* ===== verification/Stream.v ===== *)
(** Package [stream], file [stream.go]: the four entry points. *)

From S2P Require Import Prelude GoError IO Crypto Format Chunks Client Kem.

(** [CEKSource]: [None] is the nil [provided] slice of [GenerateCEK]. *)
Record CEKSource := mkCEKSource { provided : option bytes }.

Definition GenerateCEK : CEKSource := mkCEKSource None.
Definition ProvidedCEK (key : option bytes) : CEKSource := mkCEKSource key.

Definition validateChunkSize (chunkSize : Z) : result error () :=
  if decide (chunkSize <= 0 \/ chunkSize > MaxChunkSize) then
    Err (Wrapf "%w: %d (must be 1..=%d)" [AInt chunkSize; AInt MaxChunkSize] ErrBadChunkSize)
  else Ok ().

Section entry.
Context {X : Type} {P : Platform X} {C : Crypto} {K : Circl P}.

(** The key of [EncryptAEAD]: fresh random bytes, or a copy of the caller's, in a
    buffer that is never wiped. *)
Definition establishCEK (cek : CEKSource) : io bytes :=
  key ← match provided cek with
        | None => fillRandom CEKLen
        | Some key => if decide (len key <> CEKLen) then fail ErrBadCEKLength else mret key
        end;
  keep_secret key;;
  mret key.

Definition EncryptAEAD (fuel : nat) (suite : Suite) (cek : CEKSource) (chunkSize : Z) : io bytes :=
  if decide (suite <> SuiteAES256GCM /\ suite <> SuiteChaCha20Poly1305) then
    fail (Wrapf "%w: %d is not an AEAD suite" [AInt (byte_val suite)] ErrSuiteMismatch)
  else
  lift (validateChunkSize chunkSize);;
  let alg := default aeadAES256GCM (chunkAEADForSuite suite) in
  key ← establishCEK cek;
  streamID ← fillRandom StreamIDLen;
  streamSalt ← fillRandom StreamSaltLen;
  let header := writeFixedHeader [] suite (wrapu 32 chunkSize) streamID streamSalt in
  messageKey ← lift (deriveMessageKey streamSalt key suite streamID);
  with_wiped messageKey (
    let c := mkChunkCrypto suite alg chunkSize streamID messageKey in
    writeChunks fuel header c;;
    mret key).

Definition DecryptAEAD (fuel : nat) (cek : bytes) : io () :=
  if decide (len cek <> CEKLen) then fail ErrBadCEKLength else
  header ← readFixedHeader;
  if decide (suiteID header <> SuiteAES256GCM /\ suiteID header <> SuiteChaCha20Poly1305) then
    fail (Wrapf "%w: container suite id %d is not valid for AEAD decryption"
      [AInt (byte_val (suiteID header))] ErrSuiteMismatch)
  else
  let alg := default aeadAES256GCM (chunkAEADForSuite (suiteID header)) in
  messageKey ← lift (deriveMessageKey (streamSalt header) cek (suiteID header) (streamID header));
  with_wiped messageKey (
    let c := mkChunkCrypto (suiteID header) alg (chunkSize header) (streamID header) messageKey in
    readChunks fuel c).

Definition EncryptMLKEM (fuel : nat) (suite : Suite) (publicKey : bytes) (chunkSize : Z) : io () :=
  match mlKemCiphertextLen suite with
  | None => fail (Wrapf "%w: %d is not an ML-KEM suite" [AInt (byte_val suite)] ErrSuiteMismatch)
  | Some _ =>
      lift (validateChunkSize chunkSize);;
      cek ← fillRandom CEKLen;
      with_wiped cek (
        streamID ← fillRandom StreamIDLen;
        streamSalt ← fillRandom StreamSaltLen;
        let cekwrapAAD := buildCEKWrapAAD suite streamID in
        envelope ← wrapCEK publicKey suite cek cekwrapAAD;
        let header := writeFixedHeader [] suite (wrapu 32 chunkSize) streamID streamSalt in
        let header := header ++ serializeKEMHeader envelope in
        messageKey ← lift (deriveMessageKey streamSalt cek suite streamID);
        with_wiped messageKey (
          let c := mkChunkCrypto suite aeadAES256GCM chunkSize streamID messageKey in
          writeChunks fuel header c))
  end.

Definition DecryptMLKEM {Rec : Type} {Rc : CEKRecovery P Rec} (fuel : nat) (ctx : context)
    (recovery : Rec) : io () :=
  header ← readFixedHeader;
  match mlKemCiphertextLen (suiteID header) with
  | None => fail (Wrapf "%w: container suite id %d is not an ML-KEM stream"
      [AInt (byte_val (suiteID header))] ErrSuiteMismatch)
  | Some _ =>
      envelope ← readKEMEnvelope (suiteID header);
      let cekwrapAAD := buildCEKWrapAAD (suiteID header) (streamID header) in
      cek ← RecoverCEK recovery ctx envelope cekwrapAAD;
      with_wiped cek (
        if decide (len cek <> CEKLen) then fail ErrBadCEKLength else
        messageKey ← lift (deriveMessageKey (streamSalt header) cek (suiteID header)
                             (streamID header));
        with_wiped messageKey (
          let c := mkChunkCrypto (suiteID header) aeadAES256GCM (chunkSize header)
                     (streamID header) messageKey in
          readChunks fuel c))
  end.
End entry.
