(* ===== verification/StreamAgree.v ===== *)
(** Two runs of package [stream], compared by a relation on worlds.

    A relation that the operations on the outside preserve, with equal results,
    is preserved by every computation of the package: they are [Proper] for
    it, and this composes from the operations to the entry points. Two such
    relations are used. In [agree], the readers deliver the same bytes, however
    each splits them, the writers have accepted the same bytes and do not fail,
    and the rest is equal. In [same_files], the reader and the writer are equal,
    and the rest is anything. *)

From Stdlib Require Import Morphisms.
From S2P Require Import Prelude GoError IO Crypto Format Chunks Errors Pb Client Aead Kem Stream.

Section relation.
Context {X : Type} {P : Platform X}.

(** Equal results in related worlds. *)
Definition io_rel (Rw : relation (world P)) {A} : relation (io A) := (Rw ==> prod_relation eq Rw)%signature.

Context {Rw : relation (world P)}.

Lemma io_rel_run {A} (m : io A) w1 w2 : Proper (io_rel Rw) m -> Rw w1 w2 ->
  (m w1).1 = (m w2).1 /\ Rw (m w1).2 (m w2).2.
Proof. intros Hm Hw. by destruct (Hm w1 w2 Hw). Qed.

#[export] Instance ret_rel {A} (a : A) : Proper (io_rel Rw) (mret a : io A).
Proof. intros w1 w2 Hw. by split. Qed.

#[export] Instance fail_rel {A} e : Proper (io_rel Rw) (@fail X P A e).
Proof. intros w1 w2 Hw. by split. Qed.

#[export] Instance lift_rel {A} (r : result error A) : Proper (io_rel Rw) (lift r).
Proof. intros w1 w2 Hw. by split. Qed.

#[export] Instance bind_rel {A A'} :
  Proper (pointwise_relation A (io_rel Rw) ==> io_rel Rw ==> io_rel Rw) (@mbind io _ A A').
Proof.
  intros k1 k2 Hk m1 m2 Hm w1 w2 Hw. unfold mbind, io_bind. destruct (Hm w1 w2 Hw) as [H1 H2].
  destruct (m1 w1) as [r1 v1], (m2 w2) as [r2 v2]. cbn in H1, H2. subst r2.
  destruct r1 as [a|e]; [by apply Hk|by split].
Qed.

Lemma bind_rel_same {A A'} (m : io A) (k : A -> io A') :
  Proper (io_rel Rw) m -> (forall a, Proper (io_rel Rw) (k a)) -> Proper (io_rel Rw) (m ≫= k).
Proof. intros Hm Hk. apply (bind_rel k k); [intros a; apply Hk|exact Hm]. Qed.
End relation.

(** What the chunk loops need of the relation, and what the rest needs besides. *)
Class Observation {X : Type} {P : Platform X} (Rw : relation (world P)) := {
  readFull_rel :: forall n, Proper (io_rel Rw) (readFull n);
  dst_Write_rel :: forall p, Proper (io_rel Rw) (dst_Write p);
  keep_secret_rel :: forall k, Proper (io_rel Rw) (keep_secret k);
  with_wiped_rel : forall k A, Proper (io_rel Rw ==> io_rel Rw) (@with_wiped X P A k);
}.

Class RandomObservation {X : Type} {P : Platform X} {K : Circl P} (Rw : relation (world P)) := {
  fillRandom_rel :: forall n, Proper (io_rel Rw) (fillRandom n);
  encapsulate_rel :: forall scheme pk, Proper (io_rel Rw) (encapsulate scheme pk);
}.

Lemma with_wiped_rel_same {X : Type} {P : Platform X} {Rw : relation (world P)} {O : Observation Rw} {A} k (m : io A) :
  Proper (io_rel Rw) m -> Proper (io_rel Rw) (with_wiped k m).
Proof. intros Hm. by apply with_wiped_rel. Qed.

(** A straight-line program: through binds, wiped buffers, tests and destructured
    results, to the instances. *)
Ltac rel_auto :=
  repeat first
    [ progress intros
    | progress cbv zeta
    | solve [apply _]
    | apply with_wiped_rel_same
    | apply bind_rel_same
    | case_decide
    | case_match ].

Section package.
Context {X : Type} {P : Platform X} {C : Crypto} {K : Circl P}.
Context {Rw : relation (world P)} {O : Observation Rw}.

#[export] Instance readLenPrefix_rel : Proper (io_rel Rw) readLenPrefix.
Proof. unfold readLenPrefix. rel_auto. Qed.

#[export] Instance readRecordExact_rel n : Proper (io_rel Rw) (readRecordExact n).
Proof. unfold readRecordExact. rel_auto. Qed.

#[export] Instance readRecord_rel n m : Proper (io_rel Rw) (readRecord n m).
Proof. unfold readRecord. rel_auto. Qed.

#[export] Instance readFixedHeader_rel : Proper (io_rel Rw) readFixedHeader.
Proof. unfold readFixedHeader. rel_auto. Qed.

#[export] Instance writeChunks_loop_rel fuel c current index :
  Proper (io_rel Rw) (writeChunks_loop fuel c current index).
Proof. revert current index. induction fuel as [|fuel IH]; intros; cbn [writeChunks_loop]; rel_auto. Qed.

#[export] Instance writeChunks_rel fuel header c : Proper (io_rel Rw) (writeChunks fuel header c).
Proof. unfold writeChunks. rel_auto. Qed.

#[export] Instance readChunks_loop_rel fuel c current index :
  Proper (io_rel Rw) (readChunks_loop fuel c current index).
Proof. revert current index. induction fuel as [|fuel IH]; intros; cbn [readChunks_loop]; rel_auto. Qed.

#[export] Instance readChunks_rel fuel c : Proper (io_rel Rw) (readChunks fuel c).
Proof. unfold readChunks. rel_auto. Qed.

#[export] Instance openCEKLocal_rel seed suite env aad : Proper (io_rel Rw) (openCEKLocal seed suite env aad).
Proof. unfold openCEKLocal. rel_auto. Qed.

#[export] Instance readKEMEnvelope_rel suite : Proper (io_rel Rw) (readKEMEnvelope suite).
Proof. unfold readKEMEnvelope. rel_auto. Qed.

#[export] Instance DecryptAEAD_rel fuel cek : Proper (io_rel Rw) (DecryptAEAD fuel cek).
Proof. unfold DecryptAEAD. rel_auto. Qed.

(** A recovery that only acts on what the relation leaves open. *)
Lemma DecryptMLKEM_rel {Rec} {Rc : CEKRecovery P Rec} fuel ctx (rec : Rec) :
  (forall env aad, Proper (io_rel Rw) (RecoverCEK rec ctx env aad)) -> Proper (io_rel Rw) (DecryptMLKEM fuel ctx rec).
Proof. intros Hr. unfold DecryptMLKEM. rel_auto. Qed.

#[export] Instance DecryptMLKEM_local_rel fuel ctx (rec : LocalSeedCEKRecovery) :
  Proper (io_rel Rw) (DecryptMLKEM fuel ctx rec).
Proof. apply DecryptMLKEM_rel. intros env aad. apply openCEKLocal_rel. Qed.

(** *** With randomness *)

Context {Ro : RandomObservation Rw}.

#[export] Instance wrapCEK_rel pub suite cek aad : Proper (io_rel Rw) (wrapCEK pub suite cek aad).
Proof. unfold wrapCEK. rel_auto. Qed.

#[export] Instance establishCEK_rel cek : Proper (io_rel Rw) (establishCEK cek).
Proof. unfold establishCEK. rel_auto. Qed.

#[export] Instance EncryptAEAD_rel fuel suite cek cs : Proper (io_rel Rw) (EncryptAEAD fuel suite cek cs).
Proof. unfold EncryptAEAD. rel_auto. Qed.

#[export] Instance EncryptMLKEM_rel fuel suite pub cs : Proper (io_rel Rw) (EncryptMLKEM fuel suite pub cs).
Proof. unfold EncryptMLKEM. rel_auto. Qed.

End package.

(** ** The two relations *)

(** Both readers deliver one byte string, both writers do not fail and have
    accepted the same, and the rest is equal. *)
Record agree {X : Type} {P : Platform X} (w1 w2 : world P) : Prop := mkAgree {
  agree_src : exists bs, delivers (w_src w1) bs /\ delivers (w_src w2) bs;
  agree_reliable : reliable (w_dst w1) /\ reliable (w_dst w2);
  agree_written : written (w_dst w1) = written (w_dst w2);
  agree_rng : w_rng w1 = w_rng w2;
  agree_secrets : w_secrets w1 = w_secrets w2;
  agree_ext : w_ext w1 = w_ext w2;
}.

(** The reader and the writer are the same; the rest may be anything. *)
Definition same_files {X : Type} {P : Platform X} (w1 w2 : world P) : Prop :=
  w_src w1 = w_src w2 /\ w_dst w1 = w_dst w2.

Section relations.
Context {X : Type} {P : Platform X}.

(** A conforming reader delivers one byte string. *)
Lemma delivers_unique r bs1 bs2 : delivers r bs1 -> delivers r bs2 -> bs1 = bs2.
Proof.
  intros H1 H2. set (n := Nat.max (length bs1) (length bs2)).
  destruct (readFull_loop_delivers n _ _ H1) as (r1 & E1 & _).
  destruct (readFull_loop_delivers n _ _ H2) as (r2 & E2 & _).
  rewrite E1 in E2. injection E2 as E _. by rewrite !take_ge in E by lia.
Qed.

#[export] Instance agree_per : RelationClasses.PER (agree (P := P)).
Proof.
  split.
  - intros w1 w2 [(bs & ? & ?) [? ?] ? ? ? ?]. split; eauto.
  - intros w1 w2 w3 [(b1 & H1 & H2) [? ?] ? ? ? ?] [(b2 & H3 & H4) [? ?] ? ? ? ?].
    rewrite (delivers_unique _ _ _ H2 H3) in H1. split; eauto; congruence.
Qed.

#[export] Instance same_files_equivalence : Equivalence (same_files (P := P)).
Proof. unfold same_files. split; [done|by intros ?? [-> ->]|intros ??? [-> ->]; done]. Qed.

#[export] Instance same_files_observation : Observation (same_files (P := P)).
Proof.
  split.
  - intros n w1 w2 [E1 E2]. unfold readFull. rewrite E1.
    destruct (readFull_loop _ _ _) as [[b [e|]] r]; by repeat split.
  - intros p w1 w2 [E1 E2]. unfold dst_Write. rewrite E2. destruct (Write _ _) as [e d]. by repeat split.
  - intros k w1 w2 Hw. by split.
  - intros k A m1 m2 Hm w1 w2 Hw. unfold with_wiped.
    destruct (Hm (add_secret k w1) (add_secret k w2) Hw) as [H1 H2].
    destruct (m1 _) as [r1 v1], (m2 _) as [r2 v2]. split; [exact H1|exact H2].
Qed.

Context {PL : PlatformLaws P}.

#[export] Instance agree_observation : Observation (agree (P := P)).
Proof.
  split.
  - intros n w1 w2 [(bs & H1 & H2) ? ? ? ? ?]. unfold readFull.
    destruct (readFull_loop_delivers (Z.to_nat n) _ _ H1) as (r1 & -> & D1).
    destruct (readFull_loop_delivers (Z.to_nat n) _ _ H2) as (r2 & -> & D2).
    split; [done|]. split; simpl; eauto.
  - intros p w1 w2 [? [H1 H2] E ? ? ?].
    destruct (dst_Write_reliable w1 p H1) as (d1 & -> & R1 & W1).
    destruct (dst_Write_reliable w2 p H2) as (d2 & -> & R2 & W2).
    split; [done|]. split; simpl; auto. by rewrite W1, W2, E.
  - intros k w1 w2 [? ? ? ? E ?]. split; [done|]. split; simpl; auto. by rewrite E.
  - intros k A m1 m2 Hm w1 w2 [? ? ? ? E ?]. unfold with_wiped.
    destruct (Hm (add_secret k w1) (add_secret k w2)) as [H1 H2].
    { split; simpl; auto. by rewrite E. }
    destruct (m1 _) as [r1 v1], (m2 _) as [r2 v2]. cbn [fst snd] in *.
    split; [exact H1|]. destruct H2. split; simpl; auto. by rewrite E, agree_secrets0.
Qed.

#[export] Instance agree_random {K : Circl P} : RandomObservation (agree (P := P)).
Proof.
  split.
  - intros n w1 w2 [? ? ? Hg ? ?]. unfold fillRandom. rewrite Hg.
    destruct (rand_Read _ _) as [[b e] g]. split; [done|]. by split.
  - intros scheme pk w1 w2 [? ? ? Hg ? ?]. unfold encapsulate. rewrite Hg.
    destruct (Encapsulate _ _ _) as [r g]. split; [done|]. by split.
Qed.
End relations.

(** The broker sees the same call at the same time. *)
Section broker.
Context {Gr : Grpc} {GS : GrpcStatus} {P : Platform B} {PL : PlatformLaws P} {C : Crypto} {K : Circl P}.

#[export] Instance via_broker_agree {A} (m : rpc A) : Proper (io_rel agree) (via_broker m).
Proof.
  intros w1 w2 [? ? ? ? ? E]. unfold via_broker. rewrite E.
  destruct (m _) as [r b]. split; [done|]. by split.
Qed.

#[export] Instance DecryptMLKEM_broker_agree fuel ctx (rec : BrokerCEKRecovery) :
  Proper (io_rel agree) (DecryptMLKEM fuel ctx rec).
Proof. apply DecryptMLKEM_rel. intros env aad. cbn. unfold broker_RecoverCEK. rel_auto. Qed.

(** *** Any call of an entry point *)

(** A call of an entry point, with its arguments. *)
Inductive entry_call :=
| Call_EncryptAEAD (suite : Suite) (cek : CEKSource) (chunkSize : Z)
| Call_DecryptAEAD (cek : bytes)
| Call_EncryptMLKEM (suite : Suite) (publicKey : bytes) (chunkSize : Z)
| Call_DecryptMLKEM_local (ctx : context) (seed : bytes) (suite : Suite)
| Call_DecryptMLKEM_broker (ctx : context) (client : Client) (keyID : bytes) (suite : Suite).

(** The functions that return only an error are given the empty key. *)
Definition entry_run (fuel : nat) (e : entry_call) : io bytes :=
  match e with
  | Call_EncryptAEAD suite cek chunkSize => EncryptAEAD fuel suite cek chunkSize
  | Call_DecryptAEAD cek => DecryptAEAD fuel cek;; mret []
  | Call_EncryptMLKEM suite publicKey chunkSize => EncryptMLKEM fuel suite publicKey chunkSize;; mret []
  | Call_DecryptMLKEM_local ctx seed suite =>
      DecryptMLKEM fuel ctx (NewLocalSeedCEKRecovery seed suite);; mret []
  | Call_DecryptMLKEM_broker ctx client keyID suite =>
      DecryptMLKEM fuel ctx (NewBrokerCEKRecovery client keyID suite);; mret []
  end.
End broker.
