(* ===== verification/ExStreamFile.v ===== *)
(** The example [stream-file-encryption] (main.go): package [stream] on files, with
    a local key, with a key the broker recovers, and on a tampered container. *)

From stdpp Require Import gmap.
From S2P Require Import Prelude GoTime GoPath GoError IO Crypto Format Chunks Errors Pb Client Keytype.
From S2P Require Import Signing Kem Stream Minting Program.

Definition fileSize : Z := 4 * 1024 * 1024.
Definition file_chunkSize : Z := 64 * 1024.

Record config := mkConfig { socket : bytes; kemKeyID : bytes; workDir : bytes }.

Definition loadConfig (getenv : bytes -> bytes) (tempDir : bytes) : config :=
  mkConfig (envOr getenv (str "BASIL_SOCKET") (str "/tmp/basil-stream-file/agent.sock"))
    (envOr getenv (str "BASIL_KEM_KEY_ID") (str "app.stream_seal"))
    (envOr getenv (str "STREAM_FILE_DIR") tempDir).

(** ** The operating system

    Paths name files of bytes. [open_reader] and [create_writer] are what
    [os.Open] and [os.Create] return, as the platform's reader and writer, which
    also stand for [bytes.NewReader], [bytes.Buffer] and [io.Discard]; [creatable]
    says which paths may be created. No file is written while it is being read:
    the paths of the program differ ([Join_inj]). [sha256_Sum] is
    [crypto/sha256]. *)
Class Files {X : Type} (P : Platform X) := {
  open_reader : bytes -> R;
  create_writer : W;
  file_Close : W -> option error;
  creatable : bytes -> bool;
  open_error : bytes -> error;
  create_error : bytes -> error;
  sha256_Sum : bytes -> bytes;
}.

Section example.
Context {Gr : Grpc} {GS : GrpcStatus} {P : Platform B} {F : Files P} {C : Crypto} {K : Circl P}.

Record machine := mkMachine { m_files : gmap bytes bytes; m_rng : G; m_ext : B }.

Definition broker {A} (m : rpc A) : prog machine A := call_on (fun s =>
  let '(r, b) := m (m_ext s) in (r, mkMachine (m_files s) (m_rng s) b)).

Definition os_Open (path : bytes) : prog machine R := call_on (fun s =>
  match m_files s !! path with
  | Some content => (Ok (open_reader content), s)
  | None => (Err (open_error path), s)
  end).

Definition os_Create (path : bytes) : prog machine W := call_on (fun s =>
  if creatable path then (Ok create_writer, mkMachine (<[path := []]> (m_files s)) (m_rng s) (m_ext s))
  else (Err (create_error path), s)).

(** What a writer has accepted is in its file. *)
Definition save (path : bytes) (f : W) : prog machine () := act (fun s =>
  ((), mkMachine (<[path := written f]> (m_files s)) (m_rng s) (m_ext s))).

Definition close (f : W) : prog machine () := call_on (fun s =>
  match file_Close f with None => (Ok (), s) | Some e => (Err e, s) end).

(** A call of package [stream] on a reader and a writer. *)
Definition stream_call {A} (src : R) (dst : W) (m : io A) : prog machine (result error A * W) :=
  act (fun s =>
    let '(r, w) := m (World src dst (m_rng s) [] (m_ext s)) in
    ((r, w_dst w), mkMachine (m_files s) (w_rng w) (w_ext w))).

(** [if err != nil { return fmt.Errorf(text, err) }] *)
Definition checked {A} (text : string) (r : result error A) : prog machine A :=
  wrapping text [] (pure r).

(** ** Helpers of the program *)

(** [io.CopyN(f, rand.Reader, n)], in pieces of at most 32 KiB. *)
Fixpoint copyN (fuel : nat) (n : Z) (f : W) (g : G) : option error * W * G :=
  match fuel with
  | O => (Some OutOfFuel, f, g)
  | S fuel =>
      if decide (n <= 0) then (None, f, g) else
      let '(b, er, g) := rand_Read g (Z.to_nat (Z.min n 32768)) in
      let '(ew, f) := if decide (b = []) then (None, f) else Write f b in
      match ew with
      | Some e => (Some e, f, g)
      | None =>
          match er with
          | Some e => (Some e, f, g)
          | None => copyN fuel (n - len b) f g
          end
      end
  end.

Definition generateFile (path : bytes) (size : Z) : prog machine () :=
  f ← os_Create path;
  '(err, f) ← act (fun s =>
    let '(err, f, g) := copyN (S (Z.to_nat size)) size f (m_rng s) in
    ((err, f), mkMachine (m_files s) g (m_ext s)));
  save path f;;
  match err with
  | Some err => fails (Wrapf "generate %s: %w" [AStr path] err)
  | None => close f
  end.

(** The digest of a file: [io.Copy] hands the hash the file's content. *)
Definition digest (path : bytes) : prog machine bytes := call_on (fun s =>
  match m_files s !! path with
  | Some content => (Ok (sha256_Sum content), s)
  | None => (Err (open_error path), s)
  end).

Definition assertSameDigest (path want : bytes) : prog machine () :=
  got ← digest path;
  if decide (got <> want) then fails (Errorf "decrypted output differs from the plaintext" [])
  else mret ().

(** ** The three demonstrations *)

Definition aesRoundTrip (fuel : nat) (workDir plainPath plainDigest : bytes) : prog machine () :=
  let ctPath := Join workDir (str "aes.ct") in
  let outPath := Join workDir (str "aes.out") in
  inp ← os_Open plainPath;
  ctOut ← os_Create ctPath;
  '(r, ctOut) ← stream_call inp ctOut (EncryptAEAD fuel SuiteAES256GCM GenerateCEK file_chunkSize);
  save ctPath ctOut;;
  cek ← checked "AES encrypt: %w" r;
  close ctOut;;
  print (Out "PASS aes-256-gcm encrypt multi-chunk" []);;
  ctIn ← os_Open ctPath;
  out ← os_Create outPath;
  '(r, out) ← stream_call ctIn out (DecryptAEAD fuel cek);
  save outPath out;;
  checked "AES decrypt: %w" r;;
  close out;;
  wrapping "AES round-trip: %w" [] (assertSameDigest outPath plainDigest);;
  print (Out "PASS aes-256-gcm roundtrip byte-identical" []).

Definition mlkemRoundTrip (fuel : nat) (ctx : context) (client : Client) (cfg : config)
    (plainPath plainDigest : bytes) : prog machine () :=
  wrapping "provision custodied ML-KEM-768 key %s: %w" [AStr (kemKeyID cfg)]
    (broker (NewKey client ctx (kemKeyID cfg) KeyTypeMLKEM768));;
  pub ← wrapping "fetch ML-KEM public key: %w" [] (broker (GetPublicKey client ctx (kemKeyID cfg) None));
  print (Out "PASS ml-kem-768 provisioned key=%s public_len=%d"
    [AStr (kemKeyID cfg); AInt (len (pk_Bytes pub))]);;
  let ctPath := Join (workDir cfg) (str "mlkem.ct") in
  let outPath := Join (workDir cfg) (str "mlkem.out") in
  inp ← os_Open plainPath;
  ctOut ← os_Create ctPath;
  '(r, ctOut) ← stream_call inp ctOut (EncryptMLKEM fuel SuiteMLKEM768 (pk_Bytes pub) file_chunkSize);
  save ctPath ctOut;;
  checked "ML-KEM encrypt: %w" r;;
  close ctOut;;
  print (Out "PASS ml-kem-768 encrypt multi-chunk" []);;
  ctIn ← os_Open ctPath;
  out ← os_Create outPath;
  '(r, out) ← stream_call ctIn out
    (DecryptMLKEM fuel ctx (NewBrokerCEKRecovery client (kemKeyID cfg) SuiteMLKEM768));
  save outPath out;;
  checked "ML-KEM decrypt (broker CEK recovery): %w" r;;
  close out;;
  wrapping "ML-KEM round-trip: %w" [] (assertSameDigest outPath plainDigest);;
  print (Out "PASS ml-kem-768 roundtrip byte-identical broker-recovered-cek" []).

(** [ct[i] ^= 0xFF] for an index in range. *)
Definition flip_byte (i : nat) (ct : bytes) : bytes :=
  alter (fun b => byte_of (Z.lxor (byte_val b) 255)) i ct.

Definition tamperFailsClosed (fuel : nat) (plainPath : bytes) : prog machine () :=
  inp ← os_Open plainPath;
  '(r, buf) ← stream_call inp create_writer (EncryptAEAD fuel SuiteAES256GCM GenerateCEK file_chunkSize);
  cek ← checked "tamper setup encrypt: %w" r;
  let ct := written buf in
  let flip := FixedHeaderLen + 4 in
  if decide (flip >= len ct) then
    fails (Errorf "tamper: ciphertext shorter than a single record" [])
  else
  '(r, _) ← stream_call (open_reader (flip_byte (Z.to_nat flip) ct)) create_writer (DecryptAEAD fuel cek);
  match r with
  | Err err =>
      if Is err ErrAuthFailed then print (Out "PASS tamper fails-closed ErrAuthFailed" [])
      else fails (Errorf "tamper: want ErrAuthFailed, got %v" [ABad])
  | Ok _ => fails (Errorf "tamper: want ErrAuthFailed, got %v" [ABad])
  end.

Definition run (fuel : nat) (cfg : config) : prog machine () :=
  client ← wrapping "dial broker at %s: %w" [AStr (socket cfg)] (pure (Dial (socket cfg) []));
  ctx ← act (fun s => (context_WithTimeout (now (m_ext s)) (mkContext None) (60 * Second), s));
  let plainPath := Join (workDir cfg) (str "plain.bin") in
  generateFile plainPath fileSize;;
  plainDigest ← digest plainPath;
  print (Out "PASS input file bytes=%d chunk_size=%d" [AInt fileSize; AInt file_chunkSize]);;
  aesRoundTrip fuel (workDir cfg) plainPath plainDigest;;
  mlkemRoundTrip fuel ctx client cfg plainPath plainDigest;;
  tamperFailsClosed fuel plainPath.

Definition main (fuel : nat) (getenv : bytes -> bytes) (tempDir : bytes)
    : process machine -> Z * process machine :=
  main_of "FAIL:" (run fuel (loadConfig getenv tempDir)).
End example.
