(* ===== verification/StreamLemmas.v ===== *)
(** Lemmas about the entry points of package [stream]: the header reader, the
    random source, the wiping discipline, and what each entry point does on
    conforming readers and reliable writers. *)

From S2P Require Import Prelude GoError IO Crypto Format Chunks ChunkSpec Client Kem Stream.

(** ** Steps *)

Section steps.
Context {X : Type} {P : Platform X} {PL : PlatformLaws P} {C : Crypto}.

Definition set_rng (w : world P) (g : G) : world P :=
  World (w_src w) (w_dst w) g (w_secrets w) (w_ext w).

Lemma fillRandom_entropic n w :
  entropic (w_rng w) ->
  exists b g, fillRandom n w = (Ok b, set_rng w g) /\ length b = Z.to_nat n /\ entropic g.
Proof.
  intros Hg. destruct (entropic_step _ (Z.to_nat n) Hg) as (b & g & E & Hg' & Hl).
  exists b, g. unfold fillRandom. by rewrite E.
Qed.

Lemma fillRandom_drawn n w b w' : fillRandom n w = (Ok b, w') ->
  rand_Read (w_rng w) (Z.to_nat n) = (b, None, w_rng w').
Proof. unfold fillRandom. destruct (rand_Read _ _) as [[b' [e|]] g]; [done|]. by intros [= -> <-]. Qed.

(** What [readFixedHeader] finds in front of [bs]. *)
Definition header_at (bs : bytes) : result error streamHeader :=
  if decide (len bs < FixedHeaderLen) then Err ErrShortHeader else parseFixedHeader bs.

Lemma parse_take buf : 61 <= len buf -> parseFixedHeader (take 61 buf) = parseFixedHeader buf.
Proof.
  intros H. unfold parseFixedHeader, FixedHeaderLen.
  assert (len (take 61 buf) = 61) as Hl by (unfold len in *; rewrite length_take; lia).
  assert (forall a b : nat, (b <= 61)%nat -> slice a b (take 61 buf) = slice a b buf) as Hs.
  { intros a b Hb. unfold slice. rewrite skipn_firstn_comm, take_take. f_equal. lia. }
  assert (forall i, (i < 61)%nat -> nth i (take 61 buf) x00 = nth i buf x00) as Hn.
  { intros i Hi. rewrite <-(take_drop 61 buf) at 2. rewrite app_nth1; [done|].
    unfold len in Hl. lia. }
  rewrite !Hs, !Hn, Hl by lia. repeat (rewrite decide_False by lia).
  by destruct (decide (len buf < 61)); [lia|].
Qed.

Lemma readFixedHeader_delivers w bs :
  delivers (w_src w) bs ->
  exists r, readFixedHeader w = (header_at bs, set_src w r) /\ delivers r (drop 61 bs).
Proof.
  intros Hd. unfold readFixedHeader, FixedHeaderLen.
  destruct (readFull_delivers 61 w bs ltac:(lia) Hd) as (r & E & Hr). io_run E.
  change (Z.to_nat 61) with 61%nat in *. exists r. split; [|done].
  unfold header_at, FixedHeaderLen, fail, lift.
  destruct (decide (len bs < 61)) as [Hs|Hs].
  - rewrite decide_True; [done|]. unfold len in *. rewrite length_take. lia.
  - rewrite decide_False by (unfold len in *; rewrite length_take; lia).
    by rewrite parse_take by lia.
Qed.

Lemma header_at_write h rest : header_wf h ->
  header_at (writeFixedHeader [] (suiteID h) (chunkSize h) (streamID h) (streamSalt h) ++ rest)
    = Ok h.
Proof.
  intros Hh. unfold header_at. rewrite decide_False; [by apply parse_write|].
  unfold len. rewrite length_app, length_writeFixedHeader by apply Hh.
  unfold FixedHeaderLen. lia.
Qed.

Lemma drop_header h rest : header_wf h ->
  drop 61 (writeFixedHeader [] (suiteID h) (chunkSize h) (streamID h) (streamSalt h) ++ rest)
    = rest.
Proof. intros Hh. apply drop_app_length'. rewrite length_writeFixedHeader; [done|apply Hh..]. Qed.

Lemma header_at_inv bs h : header_at bs = Ok h ->
  header_wf h /\ bs = writeFixedHeader [] (suiteID h) (chunkSize h) (streamID h) (streamSalt h)
    ++ drop 61 bs.
Proof.
  unfold header_at. case_decide; [done|]. intros (Hw & _ & E)%parse_inv.
  split; [done|]. by rewrite <-E, take_drop.
Qed.

(** [readRecordExact n] in front of [bs]. *)
Lemma readRecordExact_delivers n w bs : 0 <= n ->
  delivers (w_src w) bs ->
  exists r, readRecordExact n w =
      ((if decide (len bs < n) then Err ErrTruncated else Ok (take (Z.to_nat n) bs)), set_src w r) /\
    delivers r (drop (Z.to_nat n) bs).
Proof.
  intros Hn Hd. unfold readRecordExact.
  destruct (readFull_delivers n w bs Hn Hd) as (r & E & Hr). io_run E.
  exists r. split; [|done]. unfold fail, mret, io_ret, len in *. rewrite length_take.
  repeat case_decide; first [done|lia].
Qed.

Lemma readRecordExact_app n w (b rest : bytes) : len b = n ->
  delivers (w_src w) (b ++ rest) ->
  exists r, readRecordExact n w = (Ok b, set_src w r) /\ delivers r rest.
Proof.
  intros Hn Hd. destruct (readRecordExact_delivers n w _ ltac:(pose proof (len_nonneg b); lia) Hd)
    as (r & E & Hr).
  assert (Z.to_nat n = length b) as Hb by (unfold len in Hn; lia).
  rewrite Hb in E, Hr. rewrite take_app_length in E. rewrite drop_app_length in Hr.
  rewrite decide_False in E by len_solve. eauto.
Qed.

Lemma readLenPrefix_app w n (rest : bytes) : 0 <= n < 2 ^ 32 ->
  delivers (w_src w) (be_put 4 n ++ rest) ->
  exists r, readLenPrefix w = (Ok (Some n), set_src w r) /\ delivers r rest.
Proof.
  intros Hn Hd. destruct (readLenPrefix_delivers w _ Hd) as (r & E & Hr).
  rewrite drop_be_put in Hr.
  exists r. split; [|done]. rewrite E. f_equal. unfold len_prefix.
  rewrite decide_False by (intros H; apply (f_equal length) in H;
    rewrite length_app, length_be_put in H; simpl in H; lia).
  rewrite decide_False by (unfold len; rewrite length_app, length_be_put; lia).
  by rewrite take_be_put, be_get_put.
Qed.
End steps.

(** ** Containers *)

(** The wire form of a stream: fixed header, KEM header (empty for the AEAD
    suites), records. *)
Definition container (h : streamHeader) (kemHeader : bytes) (recs : list bytes) : bytes :=
  writeFixedHeader [] (suiteID h) (chunkSize h) (streamID h) (streamSalt h) ++
  kemHeader ++ frame recs.

(** The crypto context of the stream with header [h] and CEK-derived key [mk]. *)
Definition context_of (h : streamHeader) (mk : bytes) : chunkCrypto :=
  mkChunkCrypto (suiteID h) (default aeadAES256GCM (chunkAEADForSuite (suiteID h)))
    (chunkSize h) (streamID h) mk.

Definition aead_suite (s : Suite) : Prop := s = SuiteAES256GCM \/ s = SuiteChaCha20Poly1305.

Lemma aead_suite_check (s : Suite) : aead_suite s <->
  ~ (s <> SuiteAES256GCM /\ s <> SuiteChaCha20Poly1305).
Proof.
  unfold aead_suite. destruct (decide (s = SuiteAES256GCM)), (decide (s = SuiteChaCha20Poly1305));
    naive_solver.
Qed.

Lemma aead_suite_known s : aead_suite s -> is_Some (chunkAEADForSuite s).
Proof. intros [->| ->]; eexists; reflexivity. Qed.

Section entry.
Context {X : Type} {P : Platform X} {PL : PlatformLaws P} {C : Crypto} {CL : CryptoLaws C}
  {K : Circl P}.

(** A CEK source [EncryptAEAD] can use. *)
Definition cek_usable (cek : CEKSource) : Prop :=
  forall key, provided cek = Some key -> len key = CEKLen.

(** [EncryptAEAD] settles on [key], which takes the random source from [g] to [g']. *)
Definition key_drawn (cek : CEKSource) (g : G) (key : bytes) (g' : G) : Prop :=
  match provided cek with
  | Some k => key = k /\ g' = g
  | None => rand_Read g (Z.to_nat CEKLen) = (key, None, g')
  end.

(** And then draws a stream identifier and a salt. *)
Definition stream_drawn (cek : CEKSource) (g : G) (key id salt : bytes) (g' : G) : Prop :=
  exists g1 g2, key_drawn cek g key g1 /\ rand_Read g1 (Z.to_nat StreamIDLen) = (id, None, g2) /\
    rand_Read g2 (Z.to_nat StreamSaltLen) = (salt, None, g').

Lemma stream_drawn_provided cek g key id salt g' k : stream_drawn cek g key id salt g' ->
  provided cek = Some k -> key = k.
Proof. intros (g1 & g2 & H & _) E. unfold key_drawn in H. rewrite E in H. apply H. Qed.

Lemma establishCEK_ok cek w :
  cek_usable cek -> entropic (w_rng w) ->
  exists key g, establishCEK cek w = (Ok key, add_secret key (set_rng w g)) /\ length key = 32%nat /\
    entropic g /\ key_drawn cek (w_rng w) key g.
Proof.
  intros Hu Hg. unfold establishCEK, key_drawn. destruct (provided cek) as [k|] eqn:E.
  - specialize (Hu k E). rewrite decide_False by auto. exists k, (w_rng w).
    unfold CEKLen, len in Hu. split; [by destruct w|]. split; [lia|done].
  - destruct (fillRandom_entropic CEKLen w Hg) as (b & g & Eb & Hb & Hg').
    apply fillRandom_drawn in Eb as Hd. io_run Eb. exists b, g. split_and!; auto; done.
Qed.

Lemma validateChunkSize_ok cs : 1 <= cs <= MaxChunkSize -> validateChunkSize cs = Ok ().
Proof. intros H. unfold validateChunkSize. by rewrite decide_False by lia. Qed.

Lemma header_fields_wf s cs id salt : is_Some (chunkAEADForSuite s) ->
  1 <= cs <= MaxChunkSize -> length id = 16%nat -> length salt = 32%nat ->
  header_wf (mkHeader s cs id salt).
Proof. by constructor. Qed.

(** The stream of a payload [pt] under header [h] and content key [key]. *)
Definition stream_of (h : streamHeader) (key kemHeader pt out : bytes) : Prop :=
  exists mk a cs,
    deriveMessageKey (streamSalt h) key (suiteID h) (streamID h) = Ok mk /\
    newAEAD (cc_chunkAEAD (context_of h mk)) mk = Ok a /\
    chunking (Z.to_nat (chunkSize h)) cs pt /\
    out = container h kemHeader (seal_records a (context_of h mk) 0 cs).

(** The tail the two encryptors share: derive, then write the chunks. *)
Lemma seal_stream_ok fuel h key kemHeader pt w :
  header_wf h -> delivers (w_src w) pt -> reliable (w_dst w) -> (length pt < fuel)%nat ->
  exists mk out r d,
    deriveMessageKey (streamSalt h) key (suiteID h) (streamID h) = Ok mk /\
    writeChunks fuel (writeFixedHeader [] (suiteID h) (chunkSize h) (streamID h) (streamSalt h)
      ++ kemHeader) (context_of h mk) (add_secret mk w) =
      (Ok (), set_dst (set_src (add_secret mk w) r) d) /\
    stream_of h key kemHeader pt out /\ written d = written (w_dst w) ++ out /\ reliable d.
Proof.
  intros Hh Hr Hd Hf.
  destruct (deriveMessageKey_ok (streamSalt h) key (suiteID h) (streamID h)) as (mk & E & Hmk).
  destruct (newAEAD_32 (cc_chunkAEAD (context_of h mk)) mk Hmk) as (a & Ha).
  pose proof (wf_chunkSize _ Hh) as Hcs.
  destruct (chunking_exists (Z.to_nat (chunkSize h)) pt ltac:(lia)) as (cs & Hch & Hlen).
  destruct (writeChunks_ok fuel (writeFixedHeader [] (suiteID h) (chunkSize h) (streamID h)
    (streamSalt h) ++ kemHeader) (context_of h mk) a cs pt (add_secret mk w))
    as (r & d & E2 & Hd' & W); auto; [simpl; lia|lia|].
  exists mk, (container h kemHeader (seal_records a (context_of h mk) 0 cs)), r, d.
  split; [done|]. split; [done|]. split; [by exists mk, a, cs|]. split; [|done].
  rewrite W. unfold container. by rewrite <-app_assoc.
Qed.

(** Reading such a stream back from behind its headers. *)
Lemma open_stream_ok fuel h key kemHeader pt out w :
  header_wf h -> stream_of h key kemHeader pt out ->
  delivers (w_src w) (drop (61 + length kemHeader) out) -> reliable (w_dst w) ->
  (length pt < fuel)%nat ->
  exists w',
    (messageKey ← lift (deriveMessageKey (streamSalt h) key (suiteID h) (streamID h));
     with_wiped messageKey (readChunks fuel (context_of h messageKey))) w = (Ok (), w') /\
    written (w_dst w') = written (w_dst w) ++ pt /\ reliable (w_dst w').
Proof.
  intros Hh (mk & a & cs & E & Ha & Hch & ->) Hr Hd Hf.
  rewrite E, io_lift_Ok. pose proof (wf_chunkSize _ Hh) as Hcs.
  pose proof (seal_records_open (context_of h mk) a cs pt 0 Ha ltac:(simpl; lia) Hch) as Ho.
  assert (length cs <= S (length pt))%nat as Hl.
  { destruct (chunking_exists (Z.to_nat (chunkSize h)) pt ltac:(lia)) as (cs' & Hch' & Hl').
    by rewrite (chunking_unique (Z.to_nat (chunkSize h)) cs cs' pt ltac:(lia) Hch Hch'). }
  destruct (readChunks_complete fuel (context_of h mk) _ pt (add_secret mk w) ltac:(simpl; lia)
    Ho) as (r & d & E2 & Hd' & W); [by rewrite seal_records_length; lia| |done|].
  - unfold container in Hr.
    rewrite app_assoc, drop_app_length' in Hr; [exact Hr|].
    rewrite length_app, length_writeFixedHeader by apply Hh. done.
  - eexists. split; [by apply with_wiped_run|]. split; [exact W|exact Hd'].
Qed.

(** *** The AEAD entry points *)

(** Everything before the chunks: a call with usable arguments reaches
    [writeChunks] with a fresh header and the key derived for it. *)
Lemma EncryptAEAD_setup fuel suite cek cs (w : world P) :
  aead_suite suite -> cek_usable cek -> 1 <= cs <= MaxChunkSize -> entropic (w_rng w) ->
  exists key id salt g, length key = 32%nat /\ stream_drawn cek (w_rng w) key id salt g /\
    header_wf (mkHeader suite cs id salt) /\
    forall mk w', deriveMessageKey salt key suite id = Ok mk ->
      writeChunks fuel (writeFixedHeader [] suite cs id salt ++ [])
        (context_of (mkHeader suite cs id salt) mk) (add_secret mk (set_rng (add_secret key w) g)) = (Ok (), w') ->
      EncryptAEAD fuel suite cek cs w = (Ok key, wipe_secret (length (w_secrets w ++ [key])) w').
Proof.
  intros Hs Hu Hcs Hg.
  destruct (establishCEK_ok cek w Hu Hg) as (key & g1 & E1 & Hkey & Hg1 & Hdrawn).
  set (w1 := add_secret key (set_rng w g1)) in *.
  destruct (fillRandom_entropic StreamIDLen w1 Hg1) as (id & g2 & E2 & Hid & Hg2).
  destruct (fillRandom_entropic StreamSaltLen (set_rng w1 g2) Hg2) as (salt & g3 & E3 & Hsalt & Hg3).
  exists key, id, salt, g3. split; [done|]. split.
  { exists g1, g2. split; [done|]. split; [exact (fillRandom_drawn _ _ _ _ E2)|exact (fillRandom_drawn _ _ _ _ E3)]. }
  split; [auto using header_fields_wf, aead_suite_known|].
  intros mk w' Ek Ew. unfold EncryptAEAD.
  rewrite decide_False by (by apply aead_suite_check).
  rewrite validateChunkSize_ok, io_lift_Ok by done. cbv zeta.
  io_run E1. io_run E2. io_run E3.
  rewrite wrapu_small by (unfold MaxChunkSize in Hcs; lia).
  rewrite Ek, io_lift_Ok. apply (with_wiped_run _ _ (set_rng (set_rng w1 g2) g3)).
  rewrite app_nil_r in Ew. io_run Ew. reflexivity.
Qed.

Lemma EncryptAEAD_run fuel suite cek cs pt w :
  aead_suite suite -> cek_usable cek -> 1 <= cs <= MaxChunkSize ->
  delivers (w_src w) pt -> reliable (w_dst w) -> entropic (w_rng w) -> (length pt < fuel)%nat ->
  exists key id salt out w',
    EncryptAEAD fuel suite cek cs w = (Ok key, w') /\ length key = 32%nat /\
    stream_drawn cek (w_rng w) key id salt (w_rng w') /\
    header_wf (mkHeader suite cs id salt) /\
    stream_of (mkHeader suite cs id salt) key [] pt out /\
    written (w_dst w') = written (w_dst w) ++ out.
Proof.
  intros Hs Hu Hcs Hr Hd Hg Hf.
  destruct (EncryptAEAD_setup fuel suite cek cs w Hs Hu Hcs Hg)
    as (key & id & salt & g & Hkey & Hdrawn & Hh & Hrun).
  destruct (seal_stream_ok fuel (mkHeader suite cs id salt) key [] pt (set_rng (add_secret key w) g))
    as (mk & out & r & d & Ek & Ew & Hst & Hout & _); auto.
  eexists key, id, salt, out, _. split; [exact (Hrun mk _ Ek Ew)|]. split_and!; auto.
Qed.

Lemma EncryptAEAD_ok fuel suite cek cs pt w :
  aead_suite suite -> cek_usable cek -> 1 <= cs <= MaxChunkSize ->
  delivers (w_src w) pt -> reliable (w_dst w) -> entropic (w_rng w) -> (length pt < fuel)%nat ->
  exists key id salt out w',
    EncryptAEAD fuel suite cek cs w = (Ok key, w') /\ length key = 32%nat /\
    (forall k, provided cek = Some k -> key = k) /\
    header_wf (mkHeader suite cs id salt) /\
    stream_of (mkHeader suite cs id salt) key [] pt out /\
    written (w_dst w') = written (w_dst w) ++ out.
Proof.
  intros Hs Hu Hcs Hr Hd Hg Hf.
  destruct (EncryptAEAD_run fuel suite cek cs pt w) as (key & id & salt & out & w' & E & Hk & Hdrawn & H); auto.
  exists key, id, salt, out, w'. split_and!; try apply H; auto. intros k. by eapply stream_drawn_provided.
Qed.

(** A reader that returns [(0, nil)] looks to [readFull] like an ended one. *)
Lemma readFull_stalled n (w : world P) : 0 < n ->
  (forall n, (0 < n)%nat -> Read (w_src w) n = ([], None, w_src w)) ->
  readFull n w = (Ok [], w).
Proof.
  intros Hn Hr. unfold readFull. destruct (Z.to_nat n) as [|m] eqn:E; [lia|].
  cbn [readFull_loop]. rewrite Hr by lia. by destruct w.
Qed.

Lemma writeChunks_stalled fuel header c a (w : world P) :
  newAEAD (cc_chunkAEAD c) (cc_messageKey c) = Ok a -> 1 <= cc_chunkSize c ->
  (forall n, (0 < n)%nat -> Read (w_src w) n = ([], None, w_src w)) -> reliable (w_dst w) ->
  exists d, writeChunks (S fuel) header c w = (Ok (), set_dst w d) /\
    written d = written (w_dst w) ++ header ++ frame (seal_records a c 0 [[]]).
Proof.
  intros Ha Hc Hr Hd. unfold writeChunks.
  destruct (dst_Write_reliable w header Hd) as (d1 & E1 & Hd1 & W1). io_run E1.
  assert (forall d, readFull (cc_chunkSize c) (set_dst w d) = (Ok [], set_dst w d)) as Hread
    by (intros d; apply readFull_stalled; [lia|exact Hr]).
  pose proof (Hread d1) as E2. io_run E2. cbn [writeChunks_loop]. io_run E2. cbv zeta.
  rewrite bool_decide_eq_true_2 by done. unfold aeadSeal. rewrite Ha.
  cbn [mbind result_bind]. rewrite io_lift_Ok.
  set (rec := Seal a _ _ _).
  destruct (dst_Write_reliable (set_dst w d1) (be_put 4 (len rec)) Hd1) as (d2 & E3 & Hd2 & W2).
  destruct (dst_Write_reliable (set_dst (set_dst w d1) d2) rec Hd2) as (d3 & E4 & Hd3 & W3).
  io_run E3. io_run E4. exists d3. split; [reflexivity|].
  cbn in W1, W2, W3. rewrite W3, W2, W1.
  assert (seal_records a c 0 [[]] = [rec]) as -> by reflexivity.
  by rewrite frame_cons, frame_nil, app_nil_r, <-!app_assoc.
Qed.

Lemma EncryptAEAD_stalled_ok fuel suite cek cs (w : world P) :
  aead_suite suite -> cek_usable cek -> 1 <= cs <= MaxChunkSize ->
  (forall n, (0 < n)%nat -> Read (w_src w) n = ([], None, w_src w)) ->
  reliable (w_dst w) -> entropic (w_rng w) -> (0 < fuel)%nat ->
  exists key id salt out w', EncryptAEAD fuel suite cek cs w = (Ok key, w') /\
    w_src w' = w_src w /\ stream_of (mkHeader suite cs id salt) key [] [] out /\
    written (w_dst w') = written (w_dst w) ++ out.
Proof.
  intros Hs Hu Hcs Hr Hd Hg Hf. destruct fuel as [|fuel]; [lia|].
  destruct (EncryptAEAD_setup (S fuel) suite cek cs w Hs Hu Hcs Hg)
    as (key & id & salt & g & Hkey & _ & Hh & Hrun).
  set (h := mkHeader suite cs id salt) in *.
  destruct (deriveMessageKey_ok salt key suite id) as (mk & Ek & Hmk).
  destruct (newAEAD_32 (cc_chunkAEAD (context_of h mk)) mk Hmk) as (a & Ha).
  destruct (writeChunks_stalled fuel (writeFixedHeader [] suite cs id salt ++ []) (context_of h mk)
    a (add_secret mk (set_rng (add_secret key w) g)) Ha) as (d & Ew & W); auto; [simpl; lia|].
  eexists key, id, salt, (container h [] (seal_records a (context_of h mk) 0 [[]])), _.
  split; [exact (Hrun mk _ Ek Ew)|]. split; [done|]. split.
  - exists mk, a, [[]]. split_and!; auto. constructor. simpl. lia.
  - cbn. rewrite W. unfold container. by rewrite app_nil_r.
Qed.

(** What [DecryptAEAD] does with the right key on a conforming reader of a
    stream [out]. *)
Lemma DecryptAEAD_ok fuel h key pt out w :
  aead_suite (suiteID h) -> length key = 32%nat -> header_wf h -> stream_of h key [] pt out ->
  delivers (w_src w) out -> reliable (w_dst w) -> (length pt < fuel)%nat ->
  exists w', DecryptAEAD fuel key w = (Ok (), w') /\
    written (w_dst w') = written (w_dst w) ++ pt.
Proof.
  intros Hs Hk Hh Hst Hr Hd Hf.
  destruct (readFixedHeader_delivers w _ Hr) as (r & E & Hr').
  destruct (open_stream_ok fuel h key [] pt out (set_src w r)) as (w' & E2 & W & _); auto.
  destruct Hst as (mk & a & cs & _ & _ & _ & ->).
  unfold container in E. rewrite header_at_write in E by done.
  exists w'. split; [|exact W].
  unfold DecryptAEAD. rewrite decide_False by (unfold len; rewrite Hk; auto).
  io_run E. rewrite decide_False by (by apply aead_suite_check). exact E2.
Qed.
End entry.
