(* ===== verification/KemLemmas.v ===== *)
(** Lemmas about [kem.go]: the KEM header round trip, and that a recovery which
    opens what [wrapCEK] sealed gives back the content key. *)

From S2P Require Import Prelude GoError IO Crypto Format Chunks ChunkSpec Errors Pb Client Aead Kem.
From S2P Require Import Stream StreamLemmas.

(** An envelope with the lengths of suite [s]. *)
Record envelope_wf (s : Suite) (env : KEMEnvelope) : Prop := {
  wf_encapsulated : mlKemCiphertextLen s = Some (len (EncapsulatedKey env));
  wf_nonce : len (Nonce env) = NonceLen;
  wf_wrapped : len (WrappedCEK env) = CEKLen + TagLen;
}.

Lemma mlkem_len_bound s n : mlKemCiphertextLen s = Some n -> 0 <= n < 2 ^ 32.
Proof. intros [[_ ->]|[[_ ->]|[_ ->]]]%mlkem_suite; lia. Qed.

Section kem_header.
Context {X : Type} {P : Platform X} {PL : PlatformLaws P}.

(** Reading back the KEM header that was serialized. *)
Lemma readKEMEnvelope_serialize s env rest w :
  envelope_wf s env -> delivers (w_src w) (serializeKEMHeader env ++ rest) ->
  exists r, readKEMEnvelope s w = (Ok env, set_src w r) /\ delivers r rest.
Proof.
  intros [He Hn Hw] Hd. unfold readKEMEnvelope. rewrite He.
  unfold serializeKEMHeader in Hd. rewrite <-!app_assoc in Hd.
  destruct (readLenPrefix_app w _ _ (mlkem_len_bound _ _ He) Hd) as (r1 & E1 & Hr1).
  io_run E1. rewrite decide_False by auto.
  destruct (readRecordExact_app _ (set_src w r1) _ _ eq_refl Hr1) as (r2 & E2 & Hr2).
  io_run E2.
  destruct (readRecordExact_app _ (set_src (set_src w r1) r2) _ _ Hn Hr2) as (r3 & E3 & Hr3).
  io_run E3. rewrite Hw in Hr3.
  destruct (readLenPrefix_app (set_src (set_src (set_src w r1) r2) r3) (CEKLen + TagLen) _
    ltac:(unfold CEKLen, TagLen; lia) Hr3) as (r4 & E4 & Hr4).
  io_run E4. rewrite decide_False by auto.
  destruct (readRecordExact_app _ (set_src (set_src (set_src (set_src w r1) r2) r3) r4) _ _
    Hw Hr4) as (r5 & E5 & Hr5).
  io_run E5. exists r5. split; [|done]. by destruct env.
Qed.
End kem_header.

Section wrap.
Context {X : Type} {P : Platform X} {PL : PlatformLaws P} {C : Crypto} {CL : CryptoLaws C}
  {K : Circl P} {KL : CirclLaws K}.

Lemma schemeForSuite_some s n : mlKemCiphertextLen s = Some n ->
  exists scheme, schemeForSuite s = Some scheme /\
    forall pk g ct ss g', Encapsulate scheme pk g = (Ok (ct, ss), g') -> len ct = n.
Proof.
  intros [[-> ->]|[[-> ->]|[-> ->]]]%mlkem_suite; eexists; (split; [reflexivity|]);
    intros pk g ct ss g'; apply (Encapsulate_length pk g ct ss g').
Qed.

Lemma deriveKEMAEADKey_ok s n ss ct pk : mlKemCiphertextLen s = Some n ->
  exists k, deriveKEMAEADKey s ss ct pk = Ok k /\ length k = 32%nat.
Proof.
  intros Hs. unfold deriveKEMAEADKey. destruct (mlkem_token _ _ Hs) as [t ->].
  unfold CEKLen. edestruct hkdf_32 as (k & -> & Hk). eauto.
Qed.

(** A seed that holds the private key of the public key [m] of suite [s]. *)
Definition seed_of (s : Suite) (seed m : bytes) : Prop := PublicKeyFromSeed seed s = Ok m.

(** [openCEKLocal] with the seed recovers [cek] from [env] under [aad], whatever
    the world, and leaves the reader, the writer and the environment alone. *)
Definition local_opens (seed : bytes) (s : Suite) (env : KEMEnvelope) (aad cek : bytes) : Prop :=
  forall w : world P, exists w', openCEKLocal seed s env aad w = (Ok cek, w') /\
    w_src w' = w_src w /\ w_dst w' = w_dst w /\ w_ext w' = w_ext w.

(** What a successful [wrapCEK] for a seed's public key has sealed. *)
Lemma wrapCEK_Ok s n seed m cek aad (w w' : world P) env :
  mlKemCiphertextLen s = Some n -> seed_of s seed m -> length cek = 32%nat ->
  wrapCEK m s cek aad w = (Ok env, w') ->
  w_src w' = w_src w /\ w_dst w' = w_dst w /\ w_ext w' = w_ext w /\
  envelope_wf s env /\ local_opens seed s env aad cek.
Proof.
  intros Hs Hm Hcek E. destruct (schemeForSuite_some _ _ Hs) as (scheme & Hsc & Hct).
  unfold seed_of, PublicKeyFromSeed in Hm. rewrite Hsc in Hm. case_decide as Hseed; [done|].
  destruct (DeriveKeyPair scheme seed) as [pk sk] eqn:Hkp.
  destruct (Marshal_Unmarshal scheme seed pk sk ltac:(lia) Hkp) as (m' & Hma & Hun).
  rewrite Hma in Hm. injection Hm as <-. unfold wrapCEK in E. rewrite Hsc, Hun, Hma in E.
  io_inv E as [([ct ss] & w1 & E1 & E)|(? & _ & [=])]. unfold encapsulate in E1.
  destruct (Encapsulate scheme pk (w_rng w)) as [[p|?] g1] eqn:Henc; [|done]. injection E1 as -> <-.
  apply with_wiped_inv in E as (w2 & E & ->).
  destruct (deriveKEMAEADKey_ok s n ss ct m' Hs) as (k & Hk & Hk32). rewrite Hk, io_lift_Ok in E.
  apply with_wiped_inv in E as (w3 & E & ->).
  io_inv E as [(nonce & w4 & En & E)|(? & _ & [=])]. unfold fillRandom in En.
  destruct (rand_Read _ _) as [[b [?|]] g2] eqn:Er; [done|]. injection En as -> <-.
  apply rand_Read_length in Er as Hn.
  destruct (aeadSeal_ok aeadAES256GCM k nonce cek aad Hk32 Hn) as (wr & Hseal & Hlen & Hopen).
  rewrite Hseal, io_lift_Ok in E. injection E as <- <-. split_and!; try done.
  - constructor; simpl.
    + by rewrite (Hct _ _ _ _ _ Henc).
    + unfold len. rewrite Hn. reflexivity.
    + unfold len. rewrite Hlen, Hcek. reflexivity.
  - intros v. eexists. split.
    + unfold openCEKLocal. rewrite Hsc, decide_False by auto. rewrite Hkp, Hma. simpl.
      rewrite (Decapsulate_Encapsulate scheme seed pk sk _ _ _ _ ltac:(lia) Hkp Henc).
      apply with_wiped_run. rewrite Hk, io_lift_Ok. apply with_wiped_run.
      unfold lift. rewrite Hopen. reflexivity.
    + done.
Qed.

(** With a random source that works it succeeds. *)
Lemma wrapCEK_ok s n seed m cek aad w :
  mlKemCiphertextLen s = Some n -> seed_of s seed m -> length cek = 32%nat ->
  entropic (w_rng w) ->
  exists env w', wrapCEK m s cek aad w = (Ok env, w') /\
    w_src w' = w_src w /\ w_dst w' = w_dst w /\ w_ext w' = w_ext w /\ entropic (w_rng w') /\
    envelope_wf s env /\ local_opens seed s env aad cek.
Proof.
  intros Hs Hm Hcek Hg. pose proof Hm as Hm'. destruct (schemeForSuite_some _ _ Hs) as (scheme & Hsc & Hct).
  unfold seed_of, PublicKeyFromSeed in Hm'. rewrite Hsc in Hm'. case_decide as Hseed; [done|].
  destruct (DeriveKeyPair scheme seed) as [pk sk] eqn:Hkp.
  destruct (Marshal_Unmarshal scheme seed pk sk ltac:(lia) Hkp) as (m' & Hma & Hun).
  rewrite Hma in Hm'. injection Hm' as <-.
  destruct (Encapsulate_entropic scheme pk _ Hg) as (ct & ss & g1 & Henc & Hg1).
  destruct (deriveKEMAEADKey_ok s n ss ct m' Hs) as (k & Hk & Hk32).
  set (w1 := set_rng w g1). set (w2 := add_secret k (add_secret ss w1)).
  destruct (fillRandom_entropic NonceLen w2 Hg1) as (nonce & g2 & En & Hn & Hg2).
  destruct (aeadSeal_ok aeadAES256GCM k nonce cek aad Hk32 Hn) as (wr & Hseal & _).
  assert (exists w', wrapCEK m' s cek aad w = (Ok (mkKEMEnvelope ct nonce wr), w') /\ w_rng w' = g2)
    as (w' & E & Hg').
  { eexists. split.
    - unfold wrapCEK. rewrite Hsc, Hun, Hma.
      assert (encapsulate scheme pk w = (Ok (ct, ss), w1)) as E1 by (unfold encapsulate; by rewrite Henc).
      io_run E1. apply with_wiped_run. rewrite Hk, io_lift_Ok. apply with_wiped_run.
      io_run En. rewrite Hseal, io_lift_Ok. reflexivity.
    - done. }
  destruct (wrapCEK_Ok s n seed m' cek aad w w' _ Hs Hm Hcek E) as (?&?&?&?&?).
  eexists _, w'. split; [exact E|]. by rewrite Hg'.
Qed.

(** [rec] recovers [cek] from [env] under [aad], whatever the world, and
    leaves the reader and the writer alone: the contract of [CEKRecovery]. *)
Definition recovers {Rec} {Rc : CEKRecovery P Rec} (rec : Rec) (ctx : context)
    (env : KEMEnvelope) (aad cek : bytes) : Prop :=
  forall w, exists w', RecoverCEK rec ctx env aad w = (Ok cek, w') /\
    w_src w' = w_src w /\ w_dst w' = w_dst w.

Lemma context_of_mlkem h mk n : mlKemCiphertextLen (suiteID h) = Some n ->
  context_of h mk =
    mkChunkCrypto (suiteID h) aeadAES256GCM (chunkSize h) (streamID h) mk.
Proof. intros H. unfold context_of. by rewrite (mlkem_chunkAEAD _ _ H). Qed.

(** What [EncryptMLKEM] writes: a stream under a fresh key, with that key
    wrapped for the recipient in the KEM header. *)
Lemma EncryptMLKEM_ok fuel suite n seed m cs pt w :
  mlKemCiphertextLen suite = Some n -> seed_of suite seed m -> 1 <= cs <= MaxChunkSize ->
  delivers (w_src w) pt -> reliable (w_dst w) -> entropic (w_rng w) -> (length pt < fuel)%nat ->
  exists cek id salt env out w',
    EncryptMLKEM fuel suite m cs w = (Ok (), w') /\ length cek = 32%nat /\
    header_wf (mkHeader suite cs id salt) /\ envelope_wf suite env /\
    local_opens seed suite env (buildCEKWrapAAD suite id) cek /\
    stream_of (mkHeader suite cs id salt) cek (serializeKEMHeader env) pt out /\
    written (w_dst w') = written (w_dst w) ++ out.
Proof.
  intros Hs Hm Hcs Hr Hd Hg Hf.
  destruct (fillRandom_entropic CEKLen w Hg) as (cek & g1 & E1 & Hcek & Hg1).
  set (w1 := add_secret cek (set_rng w g1)).
  destruct (fillRandom_entropic StreamIDLen w1 Hg1) as (id & g2 & E2 & Hid & Hg2).
  set (w2 := set_rng w1 g2).
  destruct (fillRandom_entropic StreamSaltLen w2 Hg2) as (salt & g3 & E3 & Hsalt & Hg3).
  set (w3 := set_rng w2 g3).
  destruct (wrapCEK_ok suite n seed m cek (buildCEKWrapAAD suite id) w3 Hs Hm Hcek Hg3)
    as (env & w4 & E4 & S4 & D4 & _ & _ & He & Hopen).
  assert (header_wf (mkHeader suite cs id salt)) as Hh.
  { apply header_fields_wf; auto. by rewrite (mlkem_chunkAEAD _ _ Hs). }
  destruct (seal_stream_ok fuel (mkHeader suite cs id salt) cek (serializeKEMHeader env) pt w4)
    as (mk & out & r & d & Ek & Ew & Hst & Hout & _); auto; [by rewrite S4|by rewrite D4|].
  eexists cek, id, salt, env, out, _. split.
  - unfold EncryptMLKEM. rewrite Hs, validateChunkSize_ok, io_lift_Ok by done.
    io_run E1. apply with_wiped_run. fold w1. io_run E2. fold w2. io_run E3. fold w3. cbv zeta.
    io_run E4. rewrite wrapu_small by (unfold MaxChunkSize in Hcs; lia).
    cbn [streamSalt suiteID streamID] in Ek. rewrite Ek, io_lift_Ok.
    rewrite (context_of_mlkem (mkHeader suite cs id salt) mk n Hs) in Ew.
    apply with_wiped_run. exact Ew.
  - split_and!; auto. cbn. by rewrite Hout, D4.
Qed.

(** [DecryptMLKEM] of a container, down to its records. *)
Lemma DecryptMLKEM_run {Rec} {Rc : CEKRecovery P Rec} fuel ctx (rec : Rec) h n env cek recs w :
  mlKemCiphertextLen (suiteID h) = Some n -> header_wf h -> envelope_wf (suiteID h) env ->
  recovers rec ctx env (buildCEKWrapAAD (suiteID h) (streamID h)) cek -> length cek = 32%nat ->
  delivers (w_src w) (container h (serializeKEMHeader env) recs) ->
  exists w1 : world P, w_dst w1 = w_dst w /\ delivers (w_src w1) (frame recs) /\
    forall res w2, (messageKey ← lift (deriveMessageKey (streamSalt h) cek (suiteID h) (streamID h));
      with_wiped messageKey (readChunks fuel (context_of h messageKey))) w1 = (res, w2) ->
      exists w', DecryptMLKEM fuel ctx rec w = (res, w') /\ w_dst w' = w_dst w2.
Proof.
  intros Hs Hh He Hrec Hk Hr. destruct (readFixedHeader_delivers w _ Hr) as (r & E & Hr').
  unfold container in E, Hr'. rewrite header_at_write in E by done. rewrite drop_header in Hr' by done.
  destruct (readKEMEnvelope_serialize (suiteID h) env (frame recs) (set_src w r) He Hr') as (r2 & E2 & Hr2).
  destruct (Hrec (set_src (set_src w r) r2)) as (w3 & E3 & S3 & D3).
  exists (add_secret cek w3). split; [exact D3|]. split; [cbn; by rewrite S3|]. intros res w2 E4.
  eexists. split.
  - unfold DecryptMLKEM. io_run E. rewrite Hs. io_run E2. cbv zeta. io_run E3.
    apply with_wiped_run. rewrite decide_False by (unfold len; rewrite Hk; auto).
    destruct (deriveMessageKey (streamSalt h) cek (suiteID h) (streamID h)) as [mk|e];
      [rewrite io_lift_Ok in *|rewrite io_lift_Err in *; exact E4].
    rewrite (context_of_mlkem h mk n Hs) in E4. exact E4.
  - done.
Qed.

Lemma DecryptMLKEM_ok {Rec} {Rc : CEKRecovery P Rec} fuel ctx (rec : Rec) h n env cek pt out w :
  mlKemCiphertextLen (suiteID h) = Some n -> header_wf h -> envelope_wf (suiteID h) env ->
  recovers rec ctx env (buildCEKWrapAAD (suiteID h) (streamID h)) cek -> length cek = 32%nat ->
  stream_of h cek (serializeKEMHeader env) pt out ->
  delivers (w_src w) out -> reliable (w_dst w) -> (length pt < fuel)%nat ->
  exists w', DecryptMLKEM fuel ctx rec w = (Ok (), w') /\
    written (w_dst w') = written (w_dst w) ++ pt.
Proof.
  intros Hs Hh He Hrec Hk Hst Hr Hd Hf. pose proof Hst as (mk & a & cs & _ & _ & _ & Hout). rewrite Hout in Hr.
  destruct (DecryptMLKEM_run fuel ctx rec h n env cek _ w Hs Hh He Hrec Hk Hr) as (w1 & D1 & Hr1 & Hrun).
  destruct (open_stream_ok fuel h cek (serializeKEMHeader env) pt out w1) as (w2 & E2 & W & _); auto.
  { rewrite Hout. unfold container. rewrite app_assoc, drop_app_length'; [done|].
    rewrite length_app, length_writeFixedHeader by apply Hh. done. }
  { by rewrite D1. }
  destruct (Hrun _ _ E2) as (w' & E & D). exists w'. by rewrite D, W, D1.
Qed.

Lemma local_recovers seed suite ctx env aad cek :
  local_opens seed suite env aad cek ->
  recovers (NewLocalSeedCEKRecovery seed suite) ctx env aad cek.
Proof. intros H w. destruct (H w) as (w' & E & H1 & H2 & _). by exists w'. Qed.
End wrap.

(** ** The broker as the recovery *)

Section broker.
Context {Gr : Grpc} {GS : GrpcStatus} {P : Platform B} {C : Crypto} {K : Circl P}.

(** The broker holds, under [keyID], the ML-KEM private key that [seed]
    determines for [suite]: [UnwrapEnvelope] answers with the content key
    whenever that private key opens the envelope. *)
Definition broker_holds (c : Client) (keyID : bytes) (suite : Suite) (seed : bytes) : Prop :=
  forall ctx env aad cek b,
    (forall w : world P, exists w', openCEKLocal seed suite env aad w = (Ok cek, w')) ->
    exists b', Invoke AeadService_UnwrapEnvelope (conn c) ctx
      (mkUnwrapEnvelopeRequest keyID
        (Some (mkKemEnvelope (kemAlgorithm (mkBrokerCEKRecovery c keyID suite))
          EnvelopeAlgorithmAES256GCM 0 (EncapsulatedKey env) (Nonce env) (WrappedCEK env)))
        (Some aad)) [] b = (Ok (mkUnwrapEnvelopeResponse cek), b').

Lemma broker_recovers c keyID suite seed ctx env aad cek :
  broker_holds c keyID suite seed -> length cek = 32%nat ->
  local_opens seed suite env aad cek ->
  recovers (NewBrokerCEKRecovery c keyID suite) ctx env aad cek.
Proof.
  intros Hb Hcek H w.
  destruct (Hb (effective c ctx (w_ext w)) env aad cek (w_ext w)) as (b' & Eb).
  { intros w0. destruct (H w0) as (w0' & E0 & _). by exists w0'. }
  exists (World (w_src w) (w_dst w) (w_rng w) (w_secrets w) b').
  split; [|split; reflexivity].
  unfold RecoverCEK, Broker_recovery, broker_RecoverCEK. erewrite io_bind_Ok.
  - rewrite decide_False; [reflexivity|]. unfold len. rewrite Hcek. auto.
  - unfold via_broker, UnwrapEnvelope. rewrite unary_eq. cbn [broker_client broker_keyID
      NewBrokerCEKRecovery kemEnvelopeToProto env_KemAlgorithm env_EnvelopeAlgorithm
      env_KeyVersion env_EncapsulatedKey env_Nonce env_Bytes].
    unfold NewBrokerCEKRecovery. rewrite Eb. reflexivity.
Qed.
End broker.
