(* ===== verification/StreamSafety.v ===== *)
(** What the readers of package [stream] guarantee on hostile input: only the
    payload of an honest sender's stream is ever released; and what every
    entry point guarantees about the secrets it holds. *)

From S2P Require Import Prelude GoError IO Crypto Format Chunks ChunkSpec Errors Pb Client Aead Kem Stream.
From S2P Require Import StreamLemmas.

(** ** Authenticity *)

Lemma chunk_aad_inj c1 c2 i1 i2 f1 f2 n1 n2 :
  context_wf c1 -> context_wf c2 -> 0 <= i1 < 2 ^ 64 -> 0 <= i2 < 2 ^ 64 ->
  chunk_aad c1 i1 f1 n1 = chunk_aad c2 i2 f2 n2 ->
  cc_suiteID c1 = cc_suiteID c2 /\ cc_streamID c1 = cc_streamID c2 /\ i1 = i2 /\ f1 = f2 /\
  cc_chunkSize c1 = cc_chunkSize c2.
Proof.
  intros [H1 L1] [H2 L2] Hi1 Hi2 E. unfold chunk_aad, MaxChunkSize in *.
  apply buildChunkAAD_inj in E as (-> & -> & -> & -> & _ & E); auto using wrapu_range with lia.
  rewrite !wrapu_small in E by lia. auto.
Qed.

Lemma records_fuel_length fuel m bs : (length (records_fuel fuel m bs) <= fuel)%nat.
Proof.
  revert bs. induction fuel as [|fuel IH]; intros bs; [done|]. cbn [records_fuel].
  destruct (len_prefix bs) as [[n|]|]; try (simpl; lia).
  destruct (record_at _ _ _); simpl; [|lia]. pose proof (IH (drop (Z.to_nat n) (drop 4 bs))). lia.
Qed.

Lemma records_index m bs i rec : len bs < 2 ^ 64 -> records m bs !! i = Some rec ->
  wrapu 64 (Z.of_nat i) = Z.of_nat i.
Proof.
  intros Hl Hi%lookup_lt_Some. pose proof (records_fuel_length (length bs) m bs).
  unfold records, len in *. apply wrapu_small. lia.
Qed.

(** The sessions of distinct streams have distinct stream identifiers. *)
Definition distinct_streams (sessions : list session) : Prop :=
  forall s1 s2, s1 ∈ sessions -> s2 ∈ sessions ->
    cc_streamID s1.1 = cc_streamID s2.1 -> s1 = s2.

(** [s] is a stream with the parameters of [c]. *)
Definition same_stream (c : chunkCrypto) (s : session) : Prop :=
  cc_suiteID s.1 = cc_suiteID c /\ cc_streamID s.1 = cc_streamID c /\
  cc_chunkSize s.1 = cc_chunkSize c.

Section authentic.
Context {X : Type} {P : Platform X} {PL : PlatformLaws P} {C : Crypto}.

(** What a record that opens says: it is that chunk of one of the sessions. *)
Lemma unforged_chunk c sessions input i rec fin pt :
  context_wf c -> (forall s, s ∈ sessions -> session_wf s) -> len input < 2 ^ 64 ->
  unforged c sessions input ->
  records (cc_chunkSize c + TagLen) input !! i = Some rec ->
  opens_as c (wrapu 64 (Z.of_nat i)) fin rec pt ->
  exists s, s ∈ sessions /\ same_stream c s /\ s.2 !! i = Some pt /\
    fin = bool_decide (S i = length s.2).
Proof.
  intros Hc Hs Hl Hu Hi Ho. destruct (Hu i rec fin pt Hi Ho) as (s & Hin & j & Hj & En & Ea).
  destruct (Hs s Hin) as (Hsc & Hlen & _).
  apply lookup_lt_Some in Hj as Hjl. unfold len in Hlen.
  assert (wrapu 64 (Z.of_nat j) = Z.of_nat j) as Ej by (apply wrapu_small; lia).
  pose proof (records_index _ _ _ _ Hl Hi) as Ei.
  apply chunk_aad_inj in Ea as (E1 & E2 & E3 & E4 & E5); auto using wrapu_range with lia.
  rewrite Ei, Ej in E3. apply Nat2Z.inj in E3 as ->.
  exists s. unfold same_stream. auto.
Qed.

(** A first record that does not open, final or not, ends the loop with
    nothing released. *)
Lemma readChunks_loop_refuses fuel c rec i w res w' rest :
  delivers (w_src w) rest ->
  (forall fin pt, ~ opens_as c i fin rec pt) ->
  readChunks_loop fuel c rec i w = (res, w') -> res <> Ok () /\ w_dst w' = w_dst w.
Proof.
  intros Hr Hno E. destruct fuel as [|fuel]; [by injection E as <- <-|]. cbn [readChunks_loop] in E.
  destruct (readLenPrefix_delivers w _ Hr) as (r1 & E1 & _).
  io_inv E as [(np & w1 & EA & E)|(e & EA & ->)]; rewrite E1 in EA; injection EA as _ <-; [|done].
  case_decide; [by injection E as <- <-|].
  io_inv E as [(pt & w2 & EB & E)|(e & EB & ->)]; unfold lift in EB; injection EB as Ho <-; [|done].
  by apply Hno in Ho.
Qed.

Lemma opens_as_dec c i rec :
  {'(fin, pt) : bool * bytes | opens_as c i fin rec pt} +
  {forall fin pt, ~ opens_as c i fin rec pt}.
Proof.
  set (try := fun fin => aeadOpen (cc_chunkAEAD c) (cc_messageKey c) (chunkNonce i) rec
    (chunk_aad c i fin (len rec - TagLen))).
  destruct (try true) as [p|e] eqn:E1; [left; by exists (true, p)|].
  destruct (try false) as [p|e'] eqn:E2; [left; by exists (false, p)|].
  right. unfold opens_as. intros fin pt. change (try fin <> Ok pt). destruct fin; congruence.
Qed.

(** Whatever arrives, what [readChunks] releases is a prefix of the payload of
    one stream with its parameters, and the whole payload when it succeeds. *)
Lemma readChunks_authentic fuel c sessions input w res w' :
  context_wf c -> (forall s, s ∈ sessions -> session_wf s) -> distinct_streams sessions ->
  delivers (w_src w) input -> len input < 2 ^ 64 -> unforged c sessions input ->
  readChunks fuel c w = (res, w') ->
  exists rel, written (w_dst w') = written (w_dst w) ++ rel /\
    ((rel = [] /\ res <> Ok ()) \/
     exists s, s ∈ sessions /\ same_stream c s /\ rel `prefix_of` concat s.2 /\
       (res = Ok () -> rel = concat s.2)).
Proof.
  intros Hc Hs Hds Hr Hl Hu E.
  assert (forall (w0 : world P) (res : result error ()), w_dst w0 = w_dst w -> res <> Ok () ->
    exists rel, written (w_dst w0) = written (w_dst w) ++ rel /\
      ((rel = [] /\ res <> Ok ()) \/ exists s, s ∈ sessions /\ same_stream c s /\
        rel `prefix_of` concat s.2 /\ (res = Ok () -> rel = concat s.2))) as Hstop.
  { intros w0 r0 -> ?. exists []. rewrite app_nil_r. auto. }
  unfold readChunks in E.
  destruct (readLenPrefix_delivers w _ Hr) as (r1 & E1 & Hr1).
  io_inv E as [(np & w1 & EA & E)|(e & EA & ->)]; rewrite E1 in EA; injection EA as En <-;
    [|by apply Hstop].
  destruct np as [n|]; [|injection E as <- <-; by apply Hstop].
  destruct (next_record_delivers n (cc_chunkSize c + TagLen) (set_src w r1) input En Hr1)
    as (r3 & E3 & Hr3).
  io_inv E as [(rec & w4 & ED & E)|(e & ED & ->)]; rewrite E3 in ED; injection ED as Hrec <-;
    [|by apply Hstop].
  destruct (Hr3 _ Hrec) as (_ & Hdel & Hrecs & _).
  destruct (opens_as_dec c 0 rec) as [[[fin pt] Ho]|Hno].
  2: { eapply readChunks_loop_refuses in E as [Hres Hd]; [|exact Hdel|exact Hno]. by apply Hstop. }
  destruct (unforged_chunk c sessions input 0 rec fin pt) as (s & Hin & Hsame & _); auto.
  { by rewrite Hrecs. }
  apply (readChunks_loop_safe fuel c rec 0 (set_src (set_src w r1) r3) res w' _ s.2 Hdel) in E as (rel & W & Hp & Hok).
  - exists rel. split; [exact W|]. right. exists s. split_and!; auto. intros Hres. by apply Hok.
  - intros j rc fin' pt' Hj Ho'. rewrite <-Hrecs in Hj.
    destruct (unforged_chunk c sessions input j rc fin' pt') as (s' & Hin' & Hsame' & Hlk & Hf); auto.
    assert (s' = s) as ->; [|done].
    apply Hds; auto. destruct Hsame as (_ & -> & _), Hsame' as (_ & -> & _). done.
Qed.
End authentic.

(** ** Wiping *)

Section wiping.
Context {X : Type} {P : Platform X} {C : Crypto} {K : Circl P}.

Lemma wipes_readFull n : wipes 0 (readFull n).
Proof. apply wipes_pure. intros w. unfold readFull. by destruct (readFull_loop _ _ _) as [[d []] src]. Qed.

Lemma wipes_fillRandom n : wipes 0 (fillRandom n).
Proof. apply wipes_pure. intros w. unfold fillRandom. by destruct (rand_Read _ _) as [[b []] g]. Qed.

Lemma wipes_encapsulate scheme pk : wipes 0 (encapsulate scheme pk).
Proof. apply wipes_pure. intros w. unfold encapsulate. by destruct (Encapsulate _ _ _). Qed.

#[local] Hint Resolve wipes_readFull wipes_fillRandom wipes_encapsulate : basil.

Lemma wipes_readLenPrefix : wipes 0 readLenPrefix.
Proof. unfold readLenPrefix. wipes_auto. Qed.

Lemma wipes_readRecordExact n : wipes 0 (readRecordExact n).
Proof. unfold readRecordExact. wipes_auto. Qed.

#[local] Hint Resolve wipes_readLenPrefix wipes_readRecordExact : basil.

Lemma wipes_readRecord n m : wipes 0 (readRecord n m).
Proof. unfold readRecord. wipes_auto. Qed.

Lemma wipes_readFixedHeader : wipes 0 readFixedHeader.
Proof. unfold readFixedHeader. wipes_auto. Qed.

Lemma wipes_readKEMEnvelope s : wipes 0 (readKEMEnvelope s).
Proof. unfold readKEMEnvelope. wipes_auto. Qed.

#[local] Hint Resolve wipes_readRecord wipes_readFixedHeader wipes_readKEMEnvelope : basil.

Lemma wipes_writeChunks fuel header c : wipes 0 (writeChunks fuel header c).
Proof.
  unfold writeChunks. apply wipes_step; [auto with basil|]. intros _.
  apply wipes_step; [auto with basil|]. intros current. generalize 0.
  revert current. induction fuel as [|fuel IH]; intros current i; cbn [writeChunks_loop]; wipes_auto.
Qed.

Lemma wipes_readChunks fuel c : wipes 0 (readChunks fuel c).
Proof.
  assert (forall current i, wipes 0 (readChunks_loop fuel c current i)) as H.
  { induction fuel as [|fuel IH]; intros current i; cbn [readChunks_loop]; wipes_auto. }
  unfold readChunks. wipes_auto.
Qed.

#[local] Hint Resolve wipes_writeChunks wipes_readChunks : basil.

Lemma wipes_wrapCEK pk s cek aad : wipes 2 (wrapCEK pk s cek aad).
Proof. unfold wrapCEK. wipes_auto. Qed.

Lemma wipes_openCEKLocal seed s env aad : wipes 2 (openCEKLocal seed s env aad).
Proof. unfold openCEKLocal. wipes_auto. Qed.

(** *** The content key of [EncryptAEAD] *)

(** The key a call with these arguments establishes, if it gets that far. *)
Definition content_key (suite : Suite) (cek : CEKSource) (chunkSize : Z) (w : world P) : list bytes :=
  if decide ((suite = SuiteAES256GCM \/ suite = SuiteChaCha20Poly1305) /\ 1 <= chunkSize <= MaxChunkSize) then
    match (establishCEK cek w).1 with Ok key => [key] | Err _ => [] end
  else [].

Lemma establishCEK_secrets cek (w w1 : world P) r : establishCEK cek w = (r, w1) ->
  w_secrets w1 = w_secrets w ++ match r with Ok key => [key] | Err _ => [] end.
Proof.
  unfold establishCEK. intros E. io_inv E as [(key & w2 & E1 & E)|(e & E1 & ->)].
  - injection E as <- <-. cbn. f_equal. destruct (provided cek); [case_decide; [done|by injection E1 as _ <-]|].
    apply wipes_fillRandom in E1 as (more & -> & _ & Hl). specialize (Hl eq_refl).
    by rewrite (nil_length_inv _ Hl), app_nil_r.
  - rewrite app_nil_r. destruct (provided cek); [case_decide; [by injection E1 as _ <-|done]|].
    unfold fillRandom in E1. destruct (rand_Read _ _) as [[b [e'|]] g]; [by injection E1 as _ <-|done].
Qed.

(** The rest of the call, which wipes the message key and returns the content key. *)
Lemma EncryptAEAD_secrets fuel s cek cs (w w' : world P) r : EncryptAEAD fuel s cek cs w = (r, w') ->
  exists wiped, w_secrets w' = w_secrets w ++ content_key s cek cs w ++ wiped /\ Forall zeroed wiped /\
    forall key, r = Ok key -> content_key s cek cs w = [key] /\ length wiped = 1%nat.
Proof.
  assert (forall e : error, exists wiped, w_secrets w = w_secrets w ++ [] ++ wiped /\ Forall zeroed wiped /\
    forall key, Err e = Ok key -> @nil bytes = [key] /\ length wiped = 1%nat) as Hnone.
  { intros e. exists []. rewrite !app_nil_r. by split_and!. }
  unfold EncryptAEAD, content_key, validateChunkSize. case_decide as Hs.
  { rewrite decide_False by naive_solver. intros [= <- <-]. apply Hnone. }
  case_decide as Hcs.
  { rewrite decide_False by lia. intros [= <- <-]. apply Hnone. }
  rewrite io_lift_Ok, decide_True; [|split; [|lia]]; cbv zeta.
  2: { destruct (decide (s = SuiteAES256GCM)); [by left|]. right. by apply dec_stable; intros ?; apply Hs. }
  intros E. io_inv E as [(key & w1 & E1 & E)|(e & E1 & ->)]; rewrite E1; cbn [fst];
    apply establishCEK_secrets in E1 as Ew.
  2: { exists []. rewrite Ew. by split_and!. }
  match type of E with ?rest w1 = _ => assert (wipes 1 rest) as Hwipes by wipes_auto end.
  apply Hwipes in E as Hrest. destruct Hrest as (wiped & Ew' & Hz & Hl). exists wiped.
  rewrite Ew', Ew, <-app_assoc. split; [done|]. split; [done|]. intros key' ->. split; [|by apply Hl].
  io_inv E as [(id & w2 & _ & E)|(? & _ & [=])]. io_inv E as [(salt & w3 & _ & E)|(? & _ & [=])].
  io_inv E as [(mk & w4 & _ & E)|(? & _ & [=])]. apply with_wiped_inv in E as (w5 & E & _).
  io_inv E as [(u & w6 & _ & E)|(? & _ & [=])]. by injection E as -> _.
Qed.

Lemma wipes_DecryptAEAD fuel cek : wipes 1 (DecryptAEAD fuel cek).
Proof. unfold DecryptAEAD. wipes_auto. Qed.

Lemma wipes_EncryptMLKEM fuel s pk cs : wipes 4 (EncryptMLKEM fuel s pk cs).
Proof.
  unfold EncryptMLKEM. destruct (mlKemCiphertextLen s); [|apply wipes_fail].
  apply wipes_step; [auto with basil|]. intros _.
  apply wipes_step; [auto with basil|]. intros cek. apply wipes_with_wiped.
  apply wipes_step; [auto with basil|]. intros id.
  apply wipes_step; [auto with basil|]. intros salt. cbv zeta.
  apply (wipes_bind 2 1); [apply wipes_wrapCEK|]. wipes_auto.
Qed.

(** *** A recovered key of a wrong length *)

(** The call failed on a key it was handed, and dropped it. *)
Definition dropped {A} (left : list bytes) (r : result error A) : Prop :=
  exists key, left = [key] /\ len key <> CEKLen /\ r = Err ErrBadCEKLength.

(** As [wipes], but for such a key. *)
Definition wipes_or_drops {A} (n : nat) (m : io A) : Prop := forall w r w', m w = (r, w') ->
  exists left wiped, w_secrets w' = w_secrets w ++ left ++ wiped /\ Forall zeroed wiped /\
    (left = [] \/ dropped left r) /\ (is_ok r = true -> length wiped = n).

Lemma wipes_wipes_or_drops {A} n (m : io A) : wipes n m -> wipes_or_drops n m.
Proof. intros Hm w r w' (more & E & Hz & Hl)%Hm. exists [], more. cbn. split_and!; auto. Qed.

Lemma wipes_or_drops_step {A A'} n (m : io A) (k : A -> io A') :
  wipes 0 m -> (forall a, wipes_or_drops n (k a)) -> wipes_or_drops n (m ≫= k).
Proof.
  intros Hm Hk w r w' E. io_inv E as [(a & w1 & E1 & E)|(e & E1 & ->)];
    apply Hm in E1 as (more & E1 & Z1 & L1).
  - specialize (L1 eq_refl). apply nil_length_inv in L1 as ->. rewrite app_nil_r in E1. rewrite <-E1. by apply (Hk a).
  - exists [], more. split_and!; [exact E1|done|by left|done].
Qed.

Lemma wipes_or_drops_bind {A A'} n1 n2 (m : io A) (k : A -> io A') :
  wipes_or_drops n1 m -> (forall a, wipes n2 (k a)) -> wipes_or_drops (n1 + n2) (m ≫= k).
Proof.
  intros Hm Hk w r w' E. io_inv E as [(a & w1 & E1 & E)|(e & E1 & ->)];
    apply Hm in E1 as (left & wiped & E1 & Z1 & D1 & L1).
  - destruct D1 as [->|(? & _ & _ & [=])]. apply Hk in E as (more & E & Z2 & L2).
    exists [], (wiped ++ more). rewrite E, E1. cbn. rewrite <-app_assoc, length_app.
    split_and!; [done|by apply Forall_app_2|by left|]. intros Hr. by rewrite L1, L2.
  - exists left, wiped. split_and!; [done|done| |done].
    destruct D1 as [?|(key & ? & ? & [= ->])]; [by left|right]. by exists key.
Qed.

Lemma DecryptMLKEM_wipes_or_drops {Rec} {Rc : CEKRecovery P Rec} n fuel ctx (rec : Rec) :
  (forall env aad, wipes_or_drops n (RecoverCEK rec ctx env aad)) ->
  wipes_or_drops (n + 2) (DecryptMLKEM fuel ctx rec).
Proof.
  intros Hrec. unfold DecryptMLKEM. apply wipes_or_drops_step; [auto with basil|]. intros h.
  destruct (mlKemCiphertextLen (suiteID h)); [|apply wipes_wipes_or_drops, wipes_fail].
  apply wipes_or_drops_step; [auto with basil|]. intros env. cbv zeta.
  apply wipes_or_drops_bind; [apply Hrec|]. wipes_auto.
Qed.

Lemma wipes_DecryptMLKEM {Rec} {Rc : CEKRecovery P Rec} n fuel ctx (rec : Rec) :
  (forall env aad, wipes n (RecoverCEK rec ctx env aad)) ->
  wipes (n + 2) (DecryptMLKEM fuel ctx rec).
Proof.
  intros Hrec. unfold DecryptMLKEM. apply wipes_step; [auto with basil|]. intros h.
  destruct (mlKemCiphertextLen (suiteID h)); [|apply wipes_fail].
  apply wipes_step; [auto with basil|]. intros env. cbv zeta.
  apply wipes_bind; [apply Hrec|]. wipes_auto.
Qed.
End wiping.

(** The broker's recovery. *)
Section broker_wiping.
Context {Gr : Grpc} {GS : GrpcStatus} {P : Platform B} {C : Crypto}.

Lemma broker_wipes_or_drops rec ctx env aad : wipes_or_drops 0 (broker_RecoverCEK (P := P) rec ctx env aad).
Proof.
  unfold broker_RecoverCEK. apply wipes_or_drops_step.
  { apply wipes_pure. intros w. unfold via_broker. by destruct (UnwrapEnvelope _ _ _ _ _ _). }
  intros cek. case_decide as Hl; [|apply wipes_wipes_or_drops, wipes_ret].
  intros w r w' [= <- <-]. exists [cek], []. split_and!; [done|constructor| |done]. right. by exists cek.
Qed.
End broker_wiping.

(** ** Fuel and sizes *)

Section fuel.
Context {X : Type} {P : Platform X} {C : Crypto}.

(** More fuel does not change a run that had enough. *)
Lemma readChunks_loop_more fuel k c rec i w r w' :
  readChunks_loop fuel c rec i w = (r, w') -> r <> Err OutOfFuel ->
  readChunks_loop (fuel + k) c rec i w = (r, w').
Proof.
  revert rec i w. induction fuel as [|fuel IH]; intros rec i w E Hr.
  { by injection E as <- <-. }
  cbn [Nat.add readChunks_loop] in E |- *.
  io_inv E as [(np & w1 & E1 & E)|(e & E1 & ->)]; io_run E1; [|done].
  case_decide; [done|].
  io_inv E as [(pt & w2 & E2 & E)|(e & E2 & ->)]; io_run E2; [|done].
  case_decide; [done|].
  io_inv E as [(u & w3 & E3 & E)|(e & E3 & ->)]; io_run E3; [|done].
  destruct np as [n|]; [|done].
  io_inv E as [(rec' & w4 & E4 & E)|(e & E4 & ->)]; io_run E4; [|done].
  by apply IH.
Qed.

Lemma readChunks_more fuel k c w r w' :
  readChunks fuel c w = (r, w') -> r <> Err OutOfFuel ->
  readChunks (fuel + k) c w = (r, w').
Proof.
  intros E Hr. unfold readChunks in *.
  io_inv E as [(np & w1 & E1 & E)|(e & E1 & ->)]; io_run E1; [|done].
  destruct np as [n|]; [|done].
  io_inv E as [(rec & w4 & E4 & E)|(e & E4 & ->)]; io_run E4; [|done].
  by apply readChunks_loop_more.
Qed.

Lemma frame_length recs : len (frame recs) = 4 * len recs + foldr (fun r n => len r + n) 0 recs.
Proof.
  induction recs as [|r recs IH]; [done|]. rewrite frame_cons, !len_app, IH.
  rewrite len_cons. cbn [foldr]. unfold len at 1. rewrite length_be_put. lia.
Qed.

Context {CL : CryptoLaws C}.

Lemma seal_records_size a c i cs :
  foldr (fun r n => len r + n) 0 (seal_records a c i cs) = 16 * len cs + len (concat cs).
Proof.
  revert i. induction cs as [|pt cs IH]; intros i; [done|]. cbn [seal_records foldr concat].
  rewrite IH, len_app, len_cons.
  assert (forall nonce aad, length nonce = 12%nat -> len (Seal a nonce pt aad) = len pt + 16) as ->.
  { intros nonce aad Hn. unfold len. rewrite Seal_length by done. lia. }
  - lia.
  - apply length_chunkNonce.
Qed.
End fuel.

(** The number of chunks of a payload of [n] bytes. *)
Definition chunk_count (n chunkSize : Z) : Z := Z.max 1 ((n + chunkSize - 1) / chunkSize).

Lemma chunking_count n cs bs : (0 < n)%nat -> chunking n cs bs ->
  len cs = chunk_count (len bs) (Z.of_nat n).
Proof.
  intros Hn. unfold chunk_count. induction 1 as [pt Hl|c cs bs Hl Hne Hch IH].
  - change (len [pt]) with 1. unfold len. rewrite Z.max_l; [done|].
    apply Z.lt_succ_r. apply Z.div_lt_upper_bound; lia.
  - rewrite len_cons, IH. assert (0 < len bs) as Hb by (destruct bs; [done|rewrite len_cons; pose proof (len_nonneg bs); lia]).
    rewrite len_app. replace (len c) with (Z.of_nat n) by (unfold len; lia).
    replace (Z.of_nat n + len bs + Z.of_nat n - 1) with ((len bs + Z.of_nat n - 1) + 1 * Z.of_nat n) by lia.
    rewrite Z.div_add by lia.
    assert (1 <= (len bs + Z.of_nat n - 1) / Z.of_nat n) by (apply Z.div_le_lower_bound; lia). lia.
Qed.

(** ** Reading the KEM header back *)

Section kem_header_inv.
Context {X : Type} {P : Platform X}.

Lemma readLenPrefix_inv w bs n w' :
  delivers (w_src w) bs -> readLenPrefix w = (Ok (Some n), w') ->
  exists r rest, w' = set_src w r /\ bs = be_put 4 n ++ rest /\ delivers r rest /\ 0 <= n < 2 ^ 32.
Proof.
  intros Hd E. destruct (readLenPrefix_delivers w bs Hd) as (r & E1 & Hr).
  rewrite E1 in E. injection E as E <-. exists r, (drop 4 bs). split; [done|].
  unfold len_prefix in E. repeat case_decide; simplify_eq.
  assert (length (take 4 bs) = 4%nat) as H4 by (rewrite length_take; unfold len in *; lia).
  pose proof (be_get_bound (take 4 bs)) as Hb. unfold len in Hb. rewrite H4 in Hb.
  rewrite be_put_get, take_drop by done. auto.
Qed.

Lemma readRecordExact_inv n w bs b w' : 0 <= n ->
  delivers (w_src w) bs -> readRecordExact n w = (Ok b, w') ->
  exists r rest, w' = set_src w r /\ bs = b ++ rest /\ delivers r rest /\ len b = n.
Proof.
  intros Hn Hd E. destruct (readRecordExact_delivers n w bs Hn Hd) as (r & E1 & Hr).
  rewrite E1 in E. case_decide; [done|]. injection E as <- <-.
  exists r, (drop (Z.to_nat n) bs). rewrite take_drop. split_and!; auto.
  unfold len in *. rewrite length_take. lia.
Qed.

(** Reading leaves the writer alone. *)
Definition keeps_dst {A} (m : io A) : Prop := forall w, w_dst (m w).2 = w_dst w.

Lemma keeps_dst_bind {A B} (m : io A) (k : A -> io B) :
  keeps_dst m -> (forall a, keeps_dst (k a)) -> keeps_dst (m ≫= k).
Proof.
  intros Hm Hk w. unfold mbind, io_bind. specialize (Hm w).
  destruct (m w) as [[a|e] w1]; [|done]. by rewrite (Hk a w1).
Qed.

Lemma keeps_dst_readFull n : keeps_dst (readFull n).
Proof. intros w. unfold readFull. by destruct (readFull_loop _ _ _) as [[d []] src]. Qed.

Lemma readKEMEnvelope_keeps s : keeps_dst (readKEMEnvelope s).
Proof.
  unfold readKEMEnvelope, readLenPrefix, readRecordExact.
  repeat first
    [ intro | apply keeps_dst_readFull | apply keeps_dst_bind | case_decide | case_match
    | solve [intros ?; reflexivity] | reflexivity ].
Qed.

(** A KEM header that is accepted is the serialization of a well-formed
    envelope, and the reader stands right behind it. *)
Lemma readKEMEnvelope_inv s w bs env w' :
  delivers (w_src w) bs -> readKEMEnvelope s w = (Ok env, w') ->
  exists r rest, w' = set_src w r /\ bs = serializeKEMHeader env ++ rest /\ delivers r rest /\
    mlKemCiphertextLen s = Some (len (EncapsulatedKey env)) /\ len (Nonce env) = NonceLen /\
    len (WrappedCEK env) = CEKLen + TagLen.
Proof.
  intros Hd E. unfold readKEMEnvelope in E.
  destruct (mlKemCiphertextLen s) as [expected|] eqn:Hs; [|done].
  assert (0 <= expected) as He by (apply mlkem_suite in Hs; lia).
  io_inv E as [([n|] & w1 & E1 & E)|(e & _ & [=])]; [|done].
  case_decide as Hn; [done|]. assert (n = expected) as -> by lia.
  apply (readLenPrefix_inv _ bs) in E1 as (r1 & bs1 & -> & -> & H1 & _); [|done].
  io_inv E as [(ek & w2 & E2 & E)|(e & _ & [=])].
  apply (readRecordExact_inv _ _ bs1) in E2 as (r2 & bs2 & -> & -> & H2 & L2); [|done|exact H1].
  io_inv E as [(nonce & w3 & E3 & E)|(e & _ & [=])].
  apply (readRecordExact_inv _ _ bs2) in E3 as (r3 & bs3 & -> & -> & H3 & L3); [|done|exact H2].
  io_inv E as [([n|] & w4 & E4 & E)|(e & _ & [=])]; [|done].
  apply (readLenPrefix_inv _ bs3) in E4 as (r4 & bs4 & -> & -> & H4 & _); [|exact H3].
  case_decide as Hw; [done|]. assert (n = CEKLen + TagLen) as -> by lia.
  io_inv E as [(ct & w5 & E5 & E)|(e & _ & [=])].
  apply (readRecordExact_inv _ _ bs4) in E5 as (r5 & bs5 & -> & -> & H5 & L5); [|done|exact H4].
  injection E as <- <-. exists r5, bs5. cbn [EncapsulatedKey Nonce WrappedCEK].
  unfold serializeKEMHeader. cbn [EncapsulatedKey Nonce WrappedCEK].
  rewrite L2, L5, <-!app_assoc. split_and!; done.
Qed.
End kem_header_inv.

(** ** The decryptors on hostile input *)

Section authentic_entry.
Context {X : Type} {P : Platform X} {PL : PlatformLaws P} {C : Crypto} {K : Circl P}.

(** [s] is a stream with the parameters of the header [h]. *)
Definition stream_for (h : streamHeader) (s : session) : Prop :=
  cc_suiteID s.1 = suiteID h /\ cc_streamID s.1 = streamID h /\ cc_chunkSize s.1 = chunkSize h.

(** What a decryptor may have released when it returns [res] in [w']. *)
Definition released_one_stream (sessions : list session) (input : bytes) (w : world P)
    (res : result error ()) (w' : world P) : Prop :=
  exists rel, written (w_dst w') = written (w_dst w) ++ rel /\
    ((rel = [] /\ res <> Ok ()) \/
     exists h s, header_at input = Ok h /\ s ∈ sessions /\ stream_for h s /\
       rel `prefix_of` concat s.2 /\ (res = Ok () -> rel = concat s.2)).

Lemma released_nothing sessions input w e w' :
  w_dst w' = w_dst w -> released_one_stream sessions input w (Err e) w'.
Proof. intros E. exists []. rewrite E, app_nil_r. split; [done|]. by left. Qed.

Lemma decrypt_tail_authentic fuel h key sessions bs input (w0 w : world P) res w' :
  header_at input = Ok h -> w_dst w0 = w_dst w ->
  (forall s, s ∈ sessions -> session_wf s) -> distinct_streams sessions ->
  delivers (w_src w) bs -> len bs < 2 ^ 64 ->
  (forall mk, deriveMessageKey (streamSalt h) key (suiteID h) (streamID h) = Ok mk ->
    unforged (context_of h mk) sessions bs) ->
  (messageKey ← lift (deriveMessageKey (streamSalt h) key (suiteID h) (streamID h));
     with_wiped messageKey (readChunks fuel (context_of h messageKey))) w = (res, w') ->
  released_one_stream sessions input w0 res w'.
Proof.
  intros Hh Hw Hs Hds Hr Hl Hu E.
  io_inv E as [(mk & w1 & E1 & E)|(e & E1 & ->)]; injection E1 as E1 <-;
    [|by apply released_nothing].
  apply with_wiped_inv in E as (w2 & E & ->).
  pose proof (header_at_inv _ _ Hh) as [Hwf _].
  apply (readChunks_authentic fuel _ sessions bs) in E as (rel & W & Hrel); auto.
  2: { destruct Hwf. by constructor. }
  exists rel. rewrite Hw. split; [exact W|].
  destruct Hrel as [Hrel|(s & Hin & Hsame & Hp & Hok)]; [by left|right].
  exists h, s. auto.
Qed.
End authentic_entry.
