(* ===== verification/StreamFaults.v ===== *)
(** Package [stream] when the outside fails: what a call did to the reader, the
    writer and the random source, as the history of its calls of them, and what
    it made of their errors.

    Every computation of the package is [observed]: either none of its calls
    failed, or exactly one did, it was the last one made of that party, and its
    error is the result. The proof composes as the program does. *)

From S2P Require Import Prelude GoError IO Crypto Format Chunks Errors Pb Client Aead Kem Stream StreamAgree.

(** ** Histories *)

(** [src.Read(p)] with [len(p) = re_asked]; [dst.Write(p)]; [rand.Read(buf)], by the
    package or by [circl] inside [Encapsulate]. *)
Record read_event := mkReadEvent { re_asked : nat; re_data : bytes; re_err : option error }.
Record write_event := mkWriteEvent { we_data : bytes; we_err : option error }.
Inductive drawer := ByPackage | ByCircl.
Record draw_event := mkDrawEvent { de_by : drawer; de_asked : nat; de_err : option error }.

(** Events of which [f] tells the fault. *)
Section events.
Context {E : Type} (f : E -> option error).

Definition clean (l : list E) : Prop := Forall (fun ev => f ev = None) l.

(** The last event is the only fault, with the error [e]. *)
Definition ends_in (l : list E) (e : error) : Prop :=
  exists l0 ev, l = l0 ++ [ev] /\ clean l0 /\ f ev = Some e.

Lemma clean_nil : clean [].
Proof. constructor. Qed.

Lemma clean_app l1 l2 : clean (l1 ++ l2) <-> clean l1 /\ clean l2.
Proof. apply Forall_app. Qed.

Lemma clean_one ev : f ev = None -> clean [ev].
Proof. by repeat constructor. Qed.

Lemma ends_in_one ev e : f ev = Some e -> ends_in [ev] e.
Proof. exists [], ev. split; [done|]. split; [apply clean_nil|done]. Qed.

Lemma ends_in_app l1 l2 e : clean l1 -> ends_in l2 e -> ends_in (l1 ++ l2) e.
Proof.
  intros H1 (l0 & ev & -> & H0 & H). exists (l1 ++ l0), ev. rewrite app_assoc.
  split; [done|]. split; [by apply clean_app|done].
Qed.
End events.

(** A platform whose reader, writer and random source remember their calls. Any
    platform becomes one by keeping the lists beside their states. *)
Class History {X : Type} (P : Platform X) := {
  reads : R -> list read_event;
  writes : W -> list write_event;
  draws : G -> list draw_event;
  reads_Read : forall r n d e r', Read r n = (d, e, r') -> reads r' = reads r ++ [mkReadEvent n d e];
  writes_Write : forall d p e d', Write d p = (e, d') -> writes d' = writes d ++ [mkWriteEvent p e];
  draws_rand_Read : forall g n b e g', rand_Read g n = (b, e, g') ->
    draws g' = draws g ++ [mkDrawEvent ByPackage n e];
}.

(** [Encapsulate] draws its coins itself: when a draw fails it makes no more, and
    returns an error. *)
Class KemHistory {X : Type} {P : Platform X} (H : History P) (K : Circl P) := {
  draws_Encapsulate : forall scheme pk g r g', Encapsulate scheme pk g = (r, g') ->
    exists l, draws g' = draws g ++ l /\ Forall (fun ev => de_by ev = ByCircl) l /\
      (clean de_err l \/ (exists e, ends_in de_err l e) /\ is_ok r = false);
}.

(** *** Every platform remembers, once the lists are kept beside its states *)

Section recorded.
Context {X : Type} (P : Platform X).

Definition recorded : Platform X := {|
  R := R * list read_event;
  W := W * list write_event;
  G := G * list draw_event;
  Read '(r, l) n := let '(d, e, r) := Read r n in (d, e, (r, l ++ [mkReadEvent n d e]));
  Write '(d, l) p := let '(e, d) := Write d p in (e, (d, l ++ [mkWriteEvent p e]));
  written d := written d.1;
  rand_Read '(g, l) n := let '(b, e, g) := rand_Read g n in (b, e, (g, l ++ [mkDrawEvent ByPackage n e]));
|}.

#[global] Instance recorded_history : History recorded.
Proof.
  refine {| reads := snd : R (Platform := recorded) -> _; writes := snd : W (Platform := recorded) -> _;
    draws := snd : G (Platform := recorded) -> _ |}.
  - intros [r l] n d e r'. cbn. destruct (Read r n) as [[??]?]. by intros [= <- <- <-].
  - intros [d l] p e d'. cbn. destruct (Write d p) as [??]. by intros [= <- <-].
  - intros [g l] n b e g'. cbn. destruct (rand_Read g n) as [[??]?]. by intros [= <- <- <-].
Defined.

#[global] Instance recorded_laws {PL : PlatformLaws P} : PlatformLaws recorded.
Proof.
  split.
  - intros [d l] p e d'. cbn. destruct (Write d p) as [e1 d1] eqn:E. intros [= <- <-].
    exact (Write_contract _ _ _ _ E).
  - intros [g l] n b g'. cbn. destruct (rand_Read g n) as [[b1 e1] g1] eqn:E. intros [= <- -> <-].
    exact (rand_Read_length _ _ _ _ E).
Qed.

(** The coins of a call of [Encapsulate], 32 bytes, are one draw here. *)
Definition coin_event (r : result error (bytes * bytes)) : draw_event :=
  mkDrawEvent ByCircl 32 (match r with Ok _ => None | Err e => Some e end).

Definition recorded_circl (K : Circl P) : Circl recorded := {|
  mlkem512_Scheme := mlkem512_Scheme;
  mlkem768_Scheme := mlkem768_Scheme;
  mlkem1024_Scheme := mlkem1024_Scheme;
  SeedSize := SeedSize;
  DeriveKeyPair := DeriveKeyPair;
  UnmarshalBinaryPublicKey := UnmarshalBinaryPublicKey;
  MarshalBinary := MarshalBinary;
  Encapsulate scheme pk (g : G (Platform := recorded)) :=
    let '(r, g') := @Encapsulate X P K scheme pk g.1 in (r, (g', g.2 ++ [coin_event r]) : G (Platform := recorded));
  Decapsulate := Decapsulate;
|}.

#[global] Instance recorded_kem (K : Circl P) : KemHistory recorded_history (recorded_circl K).
Proof.
  split. intros scheme pk [g l] r g'. cbn. destruct (@Encapsulate X P K scheme pk g) as [r1 g1]. intros [= -> <-].
  exists [coin_event r]. split; [done|]. split; [by constructor|].
  destruct r as [p|e]; [left; by apply clean_one|right]. split; [|done]. exists e. by apply ends_in_one.
Qed.
End recorded.

(** What a computation added to the three histories. *)
Record trace := mkTrace {
  t_reads : list read_event;
  t_writes : list write_event;
  t_draws : list draw_event;
}.

#[global] Instance trace_empty : Empty trace := mkTrace [] [] [].
Definition trace_app (t1 t2 : trace) : trace :=
  mkTrace (t_reads t1 ++ t_reads t2) (t_writes t1 ++ t_writes t2) (t_draws t1 ++ t_draws t2).

(** ** Faults

    The end of the input is no fault. A failing random source is reported with
    the package's prefix or, from inside [Encapsulate], as a bad public key. *)
Definition read_fault (ev : read_event) : option error :=
  match re_err ev with
  | Some e => if decide (e = EOF) then None else Some e
  | None => None
  end.
Definition draw_fault (ev : draw_event) : option error :=
  (fun e => match de_by ev with
            | ByPackage => Wrapf "basil/stream: rng failure: %w" [] e
            | ByCircl => ErrBadPublicKey
            end) <$> de_err ev.

Lemma circl_clean l : clean de_err l -> clean draw_fault l.
Proof. intros H. apply (Forall_impl _ _ _ H). unfold draw_fault. by intros ev ->. Qed.

Lemma circl_ends_in l e : Forall (fun ev => de_by ev = ByCircl) l -> ends_in de_err l e ->
  ends_in draw_fault l ErrBadPublicKey.
Proof.
  intros Hby (l0 & ev & -> & Hc & He). exists l0, ev. split; [done|]. split; [by apply circl_clean|].
  apply Forall_app in Hby as [_ [Hev _]%Forall_cons]. unfold draw_fault. by rewrite He, Hev.
Qed.


Definition faultless (t : trace) : Prop :=
  clean read_fault (t_reads t) /\ clean we_err (t_writes t) /\ clean draw_fault (t_draws t).

(** One call failed, the last one of its party, with the error [e]. *)
Inductive faulted (t : trace) (e : error) : Prop :=
| faulted_read : ends_in read_fault (t_reads t) e -> clean we_err (t_writes t) ->
    clean draw_fault (t_draws t) -> faulted t e
| faulted_write : clean read_fault (t_reads t) -> ends_in we_err (t_writes t) e ->
    clean draw_fault (t_draws t) -> faulted t e
| faulted_draw : clean read_fault (t_reads t) -> clean we_err (t_writes t) ->
    ends_in draw_fault (t_draws t) e -> faulted t e.

(** A fault is the result. *)
Definition reported {A} (t : trace) (r : result error A) : Prop :=
  faultless t \/ exists e, r = Err e /\ faulted t e.

Lemma faultless_empty : faultless ∅.
Proof. split_and!; apply clean_nil. Qed.

Lemma faultless_app t1 t2 : faultless t1 -> faultless t2 -> faultless (trace_app t1 t2).
Proof. intros (?&?&?) (?&?&?). split_and!; by apply clean_app. Qed.

Lemma faulted_app t1 t2 e : faultless t1 -> faulted t2 e -> faulted (trace_app t1 t2) e.
Proof.
  intros (?&?&?) [???|???|???]; [apply faulted_read|apply faulted_write|apply faulted_draw]; cbn;
    (by apply ends_in_app) || by apply clean_app.
Qed.

Lemma reported_Ok {A} t (a : A) : reported t (Ok a) -> faultless t.
Proof. intros [?|(e & [=] & _)]. done. Qed.

#[export] Hint Resolve faultless_empty clean_nil clean_one ends_in_one : basil.

Section observed.
Context {X : Type} {P : Platform X} {PL : PlatformLaws P} {H : History P}.

(** From [w] to [w'], the three histories grew by [t], and the writer took what
    it was handed: all of it unless it failed. *)
Record traced (w : world P) (t : trace) (w' : world P) : Prop := mkTraced {
  traced_reads : reads (w_src w') = reads (w_src w) ++ t_reads t;
  traced_writes : writes (w_dst w') = writes (w_dst w) ++ t_writes t;
  traced_draws : draws (w_rng w') = draws (w_rng w) ++ t_draws t;
  traced_written : exists q, written (w_dst w') = written (w_dst w) ++ q /\
    q `prefix_of` concat (we_data <$> t_writes t) /\
    (clean we_err (t_writes t) -> q = concat (we_data <$> t_writes t));
}.

Definition observed {A} (m : io A) : Prop := forall w r w', m w = (r, w') ->
  exists t, traced w t w' /\ reported t r.

Lemma traced_same (w w' : world P) : reads (w_src w') = reads (w_src w) -> w_dst w' = w_dst w ->
  draws (w_rng w') = draws (w_rng w) -> traced w ∅ w'.
Proof.
  intros E1 E2 E3. split; cbn; rewrite ?app_nil_r; auto; [by rewrite E2|].
  exists []. rewrite E2, app_nil_r. split_and!; [done|apply prefix_nil|done].
Qed.

Lemma traced_app w1 t1 w2 t2 w3 : clean we_err (t_writes t1) ->
  traced w1 t1 w2 -> traced w2 t2 w3 -> traced w1 (trace_app t1 t2) w3.
Proof.
  intros Hc [R1 S1 T1 (q1 & W1 & _ & A1)] [R2 S2 T2 (q2 & W2 & P2 & A2)]. rewrite (A1 Hc) in W1.
  split; cbn; rewrite ?app_assoc; try congruence.
  rewrite fmap_app, concat_app. eexists. rewrite W2, W1, <-app_assoc. split; [done|].
  split; [by apply prefix_app|]. intros [_ H2]%clean_app. by rewrite A2.
Qed.

(** What leaves the three parties alone. *)
Lemma observed_pure {A} (m : io A) :
  (forall w, w_src (m w).2 = w_src w /\ w_dst (m w).2 = w_dst w /\
    draws (w_rng (m w).2) = draws (w_rng w)) -> observed m.
Proof.
  intros Hm w r w' E. specialize (Hm w). rewrite E in Hm. cbn in Hm. destruct Hm as (E1 & E2 & E3).
  exists ∅. split; [apply traced_same; congruence|by left; apply faultless_empty].
Qed.

Lemma observed_ret {A} (a : A) : observed (mret a).
Proof. by apply observed_pure. Qed.

Lemma observed_fail {A} e : observed (@fail X P A e).
Proof. by apply observed_pure. Qed.

Lemma observed_lift {A} (r : result error A) : observed (lift r).
Proof. by apply observed_pure. Qed.

Lemma observed_bind {A B} (m : io A) (k : A -> io B) :
  observed m -> (forall a, observed (k a)) -> observed (m ≫= k).
Proof.
  intros Hm Hk w r w' E. io_inv E as [(a & w1 & E1 & E)|(e & E1 & ->)].
  - destruct (Hm _ _ _ E1) as (t1 & T1 & R1), (Hk _ _ _ _ E) as (t2 & T2 & R2).
    apply reported_Ok in R1 as F1. exists (trace_app t1 t2). split; [eapply traced_app; eauto; apply F1|].
    destruct R2 as [?|(e & -> & ?)]; [left; by apply faultless_app|right].
    exists e. split; [done|by apply faulted_app].
  - destruct (Hm _ _ _ E1) as (t & T & R1). exists t. split; [done|].
    destruct R1 as [?|(e' & [= ->] & ?)]; [by left|right; eauto].
Qed.

Lemma observed_keep_secret k : observed (keep_secret k).
Proof. by apply observed_pure. Qed.

Lemma observed_with_wiped {A} k (m : io A) : observed m -> observed (with_wiped k m).
Proof.
  intros Hm w r w' E. apply with_wiped_inv in E as (w1 & E & ->).
  destruct (Hm _ _ _ E) as (t & [] & R). exists t. split; [by split|done].
Qed.

Lemma observed_dst_Write p : observed (dst_Write p).
Proof.
  intros w r w' E. unfold dst_Write in E. destruct (Write (w_dst w) p) as [e d] eqn:Ew. injection E as <- <-.
  destruct (Write_contract _ _ _ _ Ew) as (q & Hw & Hp & Hq).
  exists (mkTrace [] [mkWriteEvent p e] []). split.
  - split; cbn; rewrite ?app_nil_r; auto; [by eapply writes_Write|].
    exists q. split; [done|]. split; [done|]. intros Hc. apply Hq. by apply Forall_inv in Hc.
  - destruct e as [e|]; [right; exists e; split; [done|apply faulted_write]|left; split_and!]; cbn;
      auto with basil.
Qed.

Lemma observed_fillRandom n : observed (fillRandom n).
Proof.
  intros w r w' E. unfold fillRandom in E.
  destruct (rand_Read _ _) as [[b e] g] eqn:Eg. injection E as <- <-.
  exists (mkTrace [] [] [mkDrawEvent ByPackage (Z.to_nat n) e]). split.
  - split; cbn; rewrite ?app_nil_r; auto; [by eapply draws_rand_Read|].
    exists []. rewrite app_nil_r. split_and!; [done|apply prefix_nil|done].
  - destruct e as [e|]; [right; eexists; split; [done|apply faulted_draw]|left; split_and!]; cbn;
      auto with basil.
Qed.
End observed.

(** ** Reading with any reader *)

(** A read that left room in the buffer and made [readFull] give up: the end of
    the input, or nothing at all. *)
Definition gave_up (ev : read_event) : bool :=
  bool_decide (length (re_data ev) < re_asked ev)%nat &&
  (bool_decide (re_err ev = Some EOF) || bool_decide (re_data ev = [])).

(** The bytes the reader delivered, and whether it delivered any after a read
    [readFull] gave up on. *)
Definition delivered (evs : list read_event) : bytes := concat (re_data <$> evs).

Fixpoint resumes (evs : list read_event) : bool :=
  match evs with
  | [] => false
  | ev :: evs => if gave_up ev then bool_decide (delivered evs <> []) else resumes evs
  end.

Lemma delivered_app e1 e2 : delivered (e1 ++ e2) = delivered e1 ++ delivered e2.
Proof. unfold delivered. by rewrite fmap_app, concat_app. Qed.

(** The reads of one [readFull] of [want] bytes: no read but the last gave up,
    and the last one did if the buffer was not filled. *)
Definition fills (want : nat) (evs : list read_event) : Prop :=
  (length (delivered evs) = want /\ Forall (fun ev => gave_up ev = false) evs) \/
  ((length (delivered evs) < want)%nat /\ exists evs0 ev, evs = evs0 ++ [ev] /\
    Forall (fun ev => gave_up ev = false) evs0 /\ gave_up ev = true).

Lemma resumes_fills want evs rest : fills want evs ->
  resumes (evs ++ rest) =
    if decide (length (delivered evs) = want) then resumes rest else bool_decide (delivered rest <> []).
Proof.
  assert (forall l tl, Forall (fun ev => gave_up ev = false) l -> resumes (l ++ tl) = resumes tl) as Hskip.
  { induction 1 as [|ev l Hev _ IH]; [done|]. cbn. by rewrite Hev. }
  intros [[Hl Hf]|(Hl & evs0 & ev & -> & Hf & Hev)].
  - rewrite decide_True by done. by apply Hskip.
  - rewrite decide_False by lia. rewrite <-app_assoc, Hskip by done. cbn. by rewrite Hev.
Qed.

Section reading.
Context {X : Type} {P : Platform X} {PL : PlatformLaws P} {H : History P}.

(** [io.Reader]: at most [len(p)] bytes are stored. *)
Definition within_buffer : Prop := forall (r : R) n d e r', Read r n = (d, e, r') -> (length d <= n)%nat.

Lemma readFull_loop_history fuel want r d err r' : (want <= fuel)%nat ->
  readFull_loop fuel want r = (d, err, r') ->
  exists evs, reads r' = reads r ++ evs /\ d = delivered evs /\
    match err with None => clean read_fault evs | Some e => ends_in read_fault evs e end /\
    (within_buffer -> err = None -> fills want evs).
Proof.
  revert want r d err r'. induction fuel as [|fuel IH]; intros [|want] r d err r' Hf E; cbn [readFull_loop] in E;
    try lia;
    try (injection E as <- <- <-; exists []; rewrite app_nil_r; split; [done|]; split; [done|];
      split; [apply clean_nil|]; intros _ _; left; split; [done|constructor]).
  destruct (Read r (S want)) as [[d1 e1] r1] eqn:E1. pose proof (reads_Read _ _ _ _ _ E1) as Hr.
  assert (delivered [mkReadEvent (S want) d1 e1] = d1) as Hd1 by (cbn; by rewrite app_nil_r).
  destruct e1 as [e1|]; [|case_decide as Hd].
  - injection E as <- <- <-. eexists. split; [exact Hr|]. split; [done|]. split.
    + case_decide; [apply clean_one|apply ends_in_one]; unfold read_fault; cbn; by case_decide.
    + intros Hb He. case_decide; [subst e1|done]. specialize (Hb _ _ _ _ _ E1). unfold fills. rewrite Hd1.
      destruct (decide (length d1 = S want)); [left; split; [done|]|right; split; [lia|]].
      * constructor; [|done]. unfold gave_up. cbn. by rewrite bool_decide_eq_false_2 by lia.
      * exists [], (mkReadEvent (S want) d1 (Some EOF)). split_and!; [done..|]. unfold gave_up. cbn.
        by rewrite bool_decide_eq_true_2 by lia.
  - subst d1. injection E as <- <- <-. eexists. split; [exact Hr|]. split_and!; [done|by apply clean_one|].
    intros _ _. right. split; [simpl; lia|]. exists [], (mkReadEvent (S want) [] None).
    split_and!; [done..|]. unfold gave_up. cbn. by rewrite bool_decide_eq_true_2 by lia.
  - destruct (readFull_loop fuel _ r1) as [[d2 e2] r2] eqn:E2. injection E as <- <- <-.
    assert (0 < length d1)%nat by (destruct d1; [done|simpl; lia]).
    apply IH in E2 as (evs & Hr2 & -> & He & Hfill); [|lia].
    exists (mkReadEvent (S want) d1 None :: evs). split; [by rewrite Hr2, Hr, <-app_assoc|].
    split; [done|]. split; [destruct e2; [apply (ends_in_app _ [_]); [by apply clean_one|done]|by constructor]|].
    intros Hb ->. specialize (Hfill Hb eq_refl). specialize (Hb _ _ _ _ _ E1).
    assert (gave_up (mkReadEvent (S want) d1 None) = false) as Hg.
    { unfold gave_up. cbn. by rewrite (bool_decide_eq_false_2 (d1 = [])), andb_false_r. }
    unfold fills. change (delivered (?ev :: ?l)) with (re_data ev ++ delivered l). cbn [re_data].
    rewrite length_app.
    destruct Hfill as [[Hl Hall]|(Hl & l0 & ev & -> & Hall & Hev)].
    + left. split; [lia|by constructor].
    + right. split; [lia|]. exists (mkReadEvent (S want) d1 None :: l0), ev. split_and!; [done| |done].
      by constructor.
Qed.

Lemma observed_readFull n : observed (readFull n).
Proof.
  intros w r w' E. unfold readFull in E.
  destruct (readFull_loop _ _ _) as [[d err] src] eqn:Er. injection E as <- <-.
  apply readFull_loop_history in Er as (evs & Hr & _ & He & _); [|done].
  exists (mkTrace evs [] []). split.
  - split; cbn; rewrite ?app_nil_r; auto. exists []. rewrite app_nil_r. split_and!; [done|apply prefix_nil|done].
  - destruct err as [e|]; [right; exists e; split; [done|apply faulted_read]|left; split_and!]; cbn;
      auto with basil.
Qed.

(** A successful [readFull], as seen from the reader. *)
Lemma readFull_history n (w w' : world P) d : within_buffer -> 0 <= n -> readFull n w = (Ok d, w') ->
  exists evs r, w' = set_src w r /\ reads r = reads (w_src w) ++ evs /\ d = delivered evs /\ fills (Z.to_nat n) evs.
Proof.
  intros Hb Hn E. unfold readFull in E.
  destruct (readFull_loop _ _ _) as [[d' err] src] eqn:Er. destruct err; [done|]. injection E as -> <-.
  apply readFull_loop_history in Er as (evs & Hr & -> & _ & Hf); [|done].
  exists evs, src. split_and!; auto.
Qed.
End reading.

#[export] Hint Resolve observed_ret observed_fail observed_lift observed_keep_secret observed_with_wiped observed_dst_Write
  observed_fillRandom observed_readFull : basil.

(** A straight-line program, down to its calls of the three parties. *)
Ltac observe :=
  repeat first
    [ progress intros
    | progress cbv zeta
    | solve [auto with basil]
    | apply observed_with_wiped
    | apply observed_bind
    | case_decide
    | case_match ].

(** ** The package is observed *)

Section package.
Context {X : Type} {P : Platform X} {PL : PlatformLaws P} {H : History P} {C : Crypto}.

Lemma observed_readLenPrefix : observed readLenPrefix.
Proof. unfold readLenPrefix. observe. Qed.

Lemma observed_readRecordExact n : observed (readRecordExact n).
Proof. unfold readRecordExact. observe. Qed.
Hint Resolve observed_readLenPrefix observed_readRecordExact : basil.

Lemma observed_readRecord n m : observed (readRecord n m).
Proof. unfold readRecord. observe. Qed.

Lemma observed_readFixedHeader : observed readFixedHeader.
Proof. unfold readFixedHeader. observe. Qed.
Hint Resolve observed_readRecord observed_readFixedHeader : basil.

Lemma observed_writeChunks fuel header c : observed (writeChunks fuel header c).
Proof.
  assert (forall current index, observed (writeChunks_loop fuel c current index)).
  { induction fuel; intros; cbn [writeChunks_loop]; observe. }
  unfold writeChunks. observe.
Qed.

Lemma observed_readChunks fuel c : observed (readChunks fuel c).
Proof.
  assert (forall current index, observed (readChunks_loop fuel c current index)).
  { induction fuel; intros; cbn [readChunks_loop]; observe. }
  unfold readChunks. observe.
Qed.

Lemma observed_readKEMEnvelope suite : observed (readKEMEnvelope suite).
Proof. unfold readKEMEnvelope. observe. Qed.
Hint Resolve observed_writeChunks observed_readChunks observed_readKEMEnvelope : basil.

Lemma observed_DecryptAEAD fuel cek : observed (DecryptAEAD fuel cek).
Proof. unfold DecryptAEAD. observe. Qed.

Context {K : Circl P}.

Lemma observed_openCEKLocal seed suite env aad : observed (openCEKLocal seed suite env aad).
Proof. unfold openCEKLocal. observe. Qed.

(** A recovery that is observed itself. *)
Lemma observed_DecryptMLKEM {Rec} {Rc : CEKRecovery P Rec} fuel ctx (rec : Rec) :
  (forall env aad, observed (RecoverCEK rec ctx env aad)) -> observed (DecryptMLKEM fuel ctx rec).
Proof. intros Hr. unfold DecryptMLKEM. observe. Qed.

Lemma observed_EncryptAEAD fuel suite cek cs : observed (EncryptAEAD fuel suite cek cs).
Proof. unfold EncryptAEAD, establishCEK. observe. Qed.

Context {KH : KemHistory H K}.

Lemma observed_encapsulate scheme pk : observed (encapsulate scheme pk).
Proof.
  intros w r w' E. unfold encapsulate in E. destruct (Encapsulate _ _ _) as [p g] eqn:Ee. injection E as <- <-.
  destruct (draws_Encapsulate _ _ _ _ _ Ee) as (l & Hg & Hby & Hl). exists (mkTrace [] [] l). split.
  - split; cbn; rewrite ?app_nil_r; auto. exists []. rewrite app_nil_r. split_and!; [done|apply prefix_nil|done].
  - destruct Hl as [Hc|[(e & He) Hp]]; [left; split_and!; cbn; auto using circl_clean with basil|right].
    destruct p as [?|?]; [done|]. eexists. split; [done|].
    apply faulted_draw; cbn; eauto using circl_ends_in with basil.
Qed.
Hint Resolve observed_encapsulate : basil.

Lemma observed_EncryptMLKEM fuel suite pub cs : observed (EncryptMLKEM fuel suite pub cs).
Proof. unfold EncryptMLKEM, wrapCEK. observe. Qed.
End package.

#[export] Hint Resolve observed_DecryptAEAD observed_EncryptAEAD observed_EncryptMLKEM observed_openCEKLocal
  observed_DecryptMLKEM : basil.

Section entry_points.
Context {Gr : Grpc} {GS : GrpcStatus} {P : Platform B} {PL : PlatformLaws P} {C : Crypto} {K : Circl P}.
Context {H : History P} {KH : KemHistory H K}.

Lemma observed_via_broker {A} (m : rpc A) : observed (via_broker m).
Proof. apply observed_pure. intros w. unfold via_broker. by destruct (m _). Qed.
Hint Resolve observed_via_broker : basil.

Lemma observed_entry_run fuel e : observed (entry_run fuel e).
Proof.
  destruct e; cbn [entry_run]; apply observed_bind || idtac; auto with basil;
    apply observed_DecryptMLKEM; intros; cbn; [|unfold broker_RecoverCEK]; observe.
Qed.
End entry_points.
