(* ===== verification/StreamReaders.v ===== *)
(** [EncryptAEAD] with any reader at all, and what its container is worth: the
    reader's history decides whether the container can be read back. *)

From S2P Require Import Prelude GoError IO Crypto Format Chunks ChunkSpec Client Kem Stream StreamAgree.
From S2P Require Import StreamLemmas KemLemmas StreamFaults.

(** Every piece but the last has [n] bytes. *)
Definition full_pieces (n : nat) (ps : list bytes) : Prop :=
  Forall (fun p => length p = n) (removelast ps).

Lemma full_pieces_cons n p ps :
  full_pieces n (p :: ps) <-> (ps = [] \/ length p = n /\ full_pieces n ps).
Proof.
  unfold full_pieces. destruct ps as [|p' ps]; [by split; [left|constructor]|].
  change (removelast (p :: p' :: ps)) with (p :: removelast (p' :: ps)). rewrite Forall_cons.
  split; [by right|by intros [?|?]].
Qed.

(** What the pieces after the first are. *)
Definition pieces (n : nat) (ps : list bytes) : Prop :=
  Forall (fun p => p <> [] /\ (length p <= n)%nat) ps.

Lemma pieces_nil_concat n ps : pieces n ps -> concat ps = [] -> ps = [].
Proof. intros [|p l [Hp _] _]; [done|]. by intros [??]%app_nil. Qed.

Lemma full_pieces_chunking n p ps : (length p <= n)%nat -> pieces n ps -> full_pieces n (p :: ps) ->
  chunking n (p :: ps) (concat (p :: ps)).
Proof.
  intros Hp Hps. revert p Hp. induction Hps as [|p' ps [Hne Hl] Hps IH]; intros p Hp Hf.
  - cbn. rewrite app_nil_r. by constructor.
  - apply full_pieces_cons in Hf as [[=]|[Hn Hf]]. change (concat (p :: ?l)) with (p ++ concat l).
    constructor; [done| |by apply IH]. by intros [??]%app_nil.
Qed.

(** One more [readFull] in front: the pieces stay full exactly while no bytes
    follow a read that gave up. *)
Lemma resumes_pieces n evs rest ps : fills n evs -> pieces n ps -> concat ps = delivered rest ->
  (resumes rest = false <-> full_pieces n ps) ->
  (resumes (evs ++ rest) = false <-> full_pieces n (delivered evs :: ps)).
Proof.
  intros Hf Hps Hcat Hrest. rewrite (resumes_fills n) by done. rewrite full_pieces_cons, <-Hcat.
  assert (concat ps = [] <-> ps = []) as Hnil.
  { split; [by apply (pieces_nil_concat n)|by intros ->]. }
  case_decide as Hl.
  - rewrite Hrest. split; [by right|]. intros [->|[_ ?]]; [constructor|done].
  - rewrite bool_decide_eq_false. split.
    + intros Hn. left. apply Hnil. by apply dec_stable.
    + intros [->|[? _]]; [by intros []|done].
Qed.

Section write.
Context {X : Type} {P : Platform X} {PL : PlatformLaws P} {H : History P} {C : Crypto}.

Lemma dst_Write_Ok (w w' : world P) p u : dst_Write p w = (Ok u, w') ->
  exists d, w' = set_dst w d /\ written d = written (w_dst w) ++ p.
Proof.
  intros E. destruct (dst_Write_any w p) as (r & d & q & Ew & Hw & _ & Hq). rewrite Ew in E.
  injection E as -> <-. destruct u. exists d. by rewrite <-(Hq eq_refl).
Qed.

Context (c : chunkCrypto) (a : AEAD).
Hypothesis Ha : newAEAD (cc_chunkAEAD c) (cc_messageKey c) = Ok a.
Hypothesis Hc : 1 <= cc_chunkSize c.
Hypothesis Hbuf : within_buffer (P := P).
Let n := Z.to_nat (cc_chunkSize c).

Lemma writeChunks_loop_any fuel current i (w w' : world P) u :
  writeChunks_loop fuel c current i w = (Ok u, w') ->
  exists ps evs, reads (w_src w') = reads (w_src w) ++ evs /\ concat ps = delivered evs /\
    pieces n ps /\ (resumes evs = false <-> full_pieces n ps) /\
    written (w_dst w') = written (w_dst w) ++ frame (seal_records a c i (current :: ps)).
Proof.
  revert current i w. induction fuel as [|fuel IH]; intros current i w E; [done|]. cbn [writeChunks_loop] in E.
  io_inv E as [(next & w1 & E1 & E)|(e & _ & [=])].
  apply readFull_history in E1 as (er & r & -> & Hr & -> & Hfill); [|done|lia]. fold n in Hfill.
  cbv zeta in E. unfold aeadSeal in E. rewrite Ha in E. cbn [mbind result_bind] in E. rewrite io_lift_Ok in E.
  set (rec := Seal a _ _ _) in E.
  io_inv E as [(u1 & w2 & E2 & E)|(e & _ & [=])]. apply dst_Write_Ok in E2 as (d2 & -> & W2).
  io_inv E as [(u2 & w3 & E3 & E)|(e & _ & [=])]. apply dst_Write_Ok in E3 as (d3 & -> & W3).
  cbn in W2, W3. rewrite W2, <-app_assoc in W3. case_bool_decide as Hfin.
  - injection E as _ <-. exists [], er. split; [done|].
    assert (delivered er = []) as Hd by (apply nil_length_inv; unfold len in Hfin; lia).
    split; [done|]. split; [constructor|]. split.
    + pose proof (resumes_fills n er [] Hfill) as Hres. rewrite app_nil_r in Hres. rewrite Hres.
      split; [constructor|]. by case_decide.
    + cbn [seal_records]. rewrite frame_cons, frame_nil, app_nil_r.
      rewrite bool_decide_eq_true_2 by done. exact W3.
  - apply IH in E as (ps & evs & Hr' & Hcat & Hps & Hres & W). cbn in Hr', W.
    exists (delivered er :: ps), (er ++ evs).
    split; [by rewrite Hr', Hr, <-app_assoc|]. split; [by rewrite delivered_app; cbn; rewrite Hcat|].
    assert (delivered er <> [] /\ (length (delivered er) <= n)%nat) as Hp.
    { split; [by intros E0; rewrite E0 in Hfin|]. destruct Hfill as [[]|[]]; lia. }
    split; [by constructor|]. split; [by apply resumes_pieces|].
    rewrite W, W3. rewrite <-!app_assoc. f_equal.
Qed.

Lemma writeChunks_any fuel header (w w' : world P) u :
  writeChunks fuel header c w = (Ok u, w') ->
  exists p ps evs, reads (w_src w') = reads (w_src w) ++ evs /\ concat (p :: ps) = delivered evs /\
    (length p <= n)%nat /\ pieces n ps /\ (resumes evs = false <-> full_pieces n (p :: ps)) /\
    written (w_dst w') = written (w_dst w) ++ header ++ frame (seal_records a c 0 (p :: ps)).
Proof.
  intros E. unfold writeChunks in E.
  io_inv E as [(u1 & w1 & E1 & E)|(e & _ & [=])]. apply dst_Write_Ok in E1 as (d1 & -> & W1).
  io_inv E as [(p & w2 & E2 & E)|(e & _ & [=])].
  apply readFull_history in E2 as (er & r & -> & Hr & -> & Hfill); [|done|lia]. fold n in Hfill.
  apply writeChunks_loop_any in E as (ps & evs & Hr' & Hcat & Hps & Hres & W). cbn in Hr, Hr', W.
  exists (delivered er), ps, (er ++ evs).
  split; [by rewrite Hr', Hr, <-app_assoc|]. split; [by rewrite delivered_app; cbn; rewrite Hcat|].
  split; [destruct Hfill as [[]|[]]; lia|]. split; [done|]. split; [by apply resumes_pieces|].
  by rewrite W, W1, <-app_assoc.
Qed.
End write.

(** ** A piece that is not full cannot be read back *)

Section refuse.
Context {X : Type} {P : Platform X} {PL : PlatformLaws P} {C : Crypto} {CL : CryptoLaws C}.
Context (c : chunkCrypto) (a : AEAD).
Hypothesis Ha : newAEAD (cc_chunkAEAD c) (cc_messageKey c) = Ok a.
Hypothesis Hc : 1 <= cc_chunkSize c <= MaxChunkSize.
Let n := Z.to_nat (cc_chunkSize c).

Definition sealed_piece (i : Z) (last : bool) (p : bytes) : bytes :=
  Seal a (chunkNonce i) p (chunk_aad c i last (len p)).

Lemma len_sealed_piece i last p : len (sealed_piece i last p) = len p + TagLen.
Proof. unfold len, sealed_piece. rewrite Seal_length by apply length_chunkNonce. unfold TagLen. lia. Qed.

Lemma readChunks_loop_short fuel p ps i (w : world P) :
  Forall (fun p => (length p <= n)%nat) ps -> ~ full_pieces n (p :: ps) -> (length ps < fuel)%nat ->
  delivers (w_src w) (frame (seal_records a c (wrapu 64 (i + 1)) ps)) -> reliable (w_dst w) ->
  exists w', readChunks_loop fuel c (sealed_piece i (bool_decide (ps = [])) p) i w = (Err ErrAuthFailed, w').
Proof.
  unfold MaxChunkSize in Hc.
  revert fuel p i w. induction ps as [|p' ps IH]; intros fuel p i w Hle Hnf Hf Hr Hd.
  { destruct Hnf. constructor. }
  destruct fuel as [|fuel]; [simpl in Hf; lia|]. cbn [readChunks_loop]. apply Forall_cons in Hle as [Hp' Hle].
  destruct (readLenPrefix_delivers w _ Hr) as (r1 & E1 & Hr1). cbn [seal_records] in E1, Hr1.
  set (rec' := Seal a _ p' _) in E1, Hr1.
  assert (rec' = sealed_piece (wrapu 64 (i + 1)) (bool_decide (ps = [])) p') as Hrec' by done.
  assert (len rec' = len p' + TagLen) as Hl' by (rewrite Hrec'; apply len_sealed_piece).
  pose proof (len_nonneg p) as Hp0. pose proof (len_nonneg p') as Hp0'.
  assert (len p' <= cc_chunkSize c) as Hpn by (unfold len; lia). unfold TagLen in Hl'.
  rewrite len_prefix_frame in E1 by lia. io_run E1. cbv zeta. rewrite bool_decide_eq_false_2 by done.
  rewrite len_sealed_piece, decide_False by lia. replace (len p + TagLen - TagLen) with (len p) by lia.
  pose proof (seal_opens_as c a i false p Ha) as Ho. red in Ho. fold (sealed_piece i false p) in Ho.
  rewrite len_sealed_piece in Ho. replace (len p + TagLen - TagLen) with (len p) in Ho by lia.
  rewrite Ho, io_lift_Ok. case_decide as Hs; [by eexists|].
  destruct (dst_Write_reliable (set_src w r1) p Hd) as (d2 & E2 & Hd2 & _). io_run E2.
  rewrite drop4_frame in Hr1.
  destruct (readRecord_delivers (len rec') (cc_chunkSize c + TagLen) (set_dst (set_src w r1) d2) _ (len_nonneg _) Hr1)
    as (r3 & E3 & Hr3). rewrite record_at_app in E3 by (unfold TagLen; lia). io_run E3.
  specialize (Hr3 ltac:(unfold TagLen; lia)). unfold len in Hr3. rewrite Nat2Z.id, drop_app_length in Hr3.
  rewrite Hrec'. apply IH; auto; [|simpl in Hf; lia].
  intros Hfull. apply Hnf, full_pieces_cons. right. split; [|done].
  destruct (decide (len p = cc_chunkSize c)) as [Hlp|]; [unfold n, len in *; lia|by destruct Hs].
Qed.

Lemma readChunks_short fuel p ps (w : world P) :
  Forall (fun p => (length p <= n)%nat) (p :: ps) -> ~ full_pieces n (p :: ps) -> (length ps < fuel)%nat ->
  delivers (w_src w) (frame (seal_records a c 0 (p :: ps))) -> reliable (w_dst w) ->
  exists w', readChunks fuel c w = (Err ErrAuthFailed, w').
Proof.
  intros [Hp Hle]%Forall_cons Hnf Hf Hr Hd. unfold readChunks. cbn [seal_records] in Hr.
  fold (sealed_piece 0 (bool_decide (ps = [])) p) in Hr. set (rec := sealed_piece _ _ p) in Hr.
  assert (len rec = len p + TagLen) as Hl by apply len_sealed_piece.
  assert (len p <= cc_chunkSize c) as Hpn by (unfold len; lia).
  unfold TagLen, MaxChunkSize in *. pose proof (len_nonneg p).
  destruct (readLenPrefix_delivers w _ Hr) as (r1 & E1 & Hr1).
  rewrite len_prefix_frame in E1 by lia. io_run E1. rewrite drop4_frame in Hr1.
  destruct (readRecord_delivers (len rec) (cc_chunkSize c + 16) (set_src w r1) _ (len_nonneg _) Hr1)
    as (r2 & E2 & Hr2). rewrite record_at_app in E2 by lia. io_run E2.
  specialize (Hr2 ltac:(lia)). unfold len in Hr2. rewrite Nat2Z.id, drop_app_length in Hr2.
  by apply readChunks_loop_short.
Qed.
End refuse.

(** ** The entry points *)

Section entry.
Context {X : Type} {P : Platform X} {PL : PlatformLaws P} {C : Crypto} {K : Circl P}.

Lemma fillRandom_Ok n (w w' : world P) b : fillRandom n w = (Ok b, w') ->
  exists g, w' = set_rng w g /\ length b = Z.to_nat n.
Proof.
  unfold fillRandom. destruct (rand_Read _ _) as [[b' [e|]] g] eqn:E; [done|]. intros [= -> <-].
  apply rand_Read_length in E. by exists g.
Qed.

Lemma establishCEK_Ok cek (w w' : world P) key : establishCEK cek w = (Ok key, w') ->
  exists g, w' = add_secret key (set_rng w g) /\ length key = 32%nat /\ (forall k, provided cek = Some k -> key = k).
Proof.
  unfold establishCEK. intros E. io_inv E as [(key' & w1 & E1 & E)|(? & _ & [=])]. injection E as -> <-.
  destruct (provided cek) as [k|].
  - case_decide as Hl; [done|]. injection E1 as -> <-. exists (w_rng w). unfold CEKLen, len in Hl.
    split; [by destruct w|]. split; [lia|by intros ? [= ->]].
  - apply fillRandom_Ok in E1 as (g & -> & Hl). by exists g.
Qed.

(** What a successful [EncryptAEAD] did before its chunks. *)
Lemma EncryptAEAD_Ok fuel suite cek cs (w w' : world P) key :
  EncryptAEAD fuel suite cek cs w = (Ok key, w') ->
  exists id salt mk w1 w2 u, let h := mkHeader suite cs id salt in
    aead_suite suite /\ header_wf h /\ length key = 32%nat /\ (forall k, provided cek = Some k -> key = k) /\
    deriveMessageKey salt key suite id = Ok mk /\ w_src w1 = w_src w /\ w_dst w1 = w_dst w /\
    writeChunks fuel (writeFixedHeader [] suite cs id salt) (context_of h mk) w1 = (Ok u, w2) /\
    w_src w' = w_src w2 /\ w_dst w' = w_dst w2.
Proof.
  unfold EncryptAEAD. case_decide as Hs; [done|]. apply aead_suite_check in Hs. intros E.
  io_inv E as [(? & w0 & E0 & E)|(? & _ & [=])]. unfold lift, validateChunkSize in E0.
  case_decide as Hcs; [done|]. injection E0 as _ <-. cbv zeta in E.
  io_inv E as [(k & w1 & E1 & E)|(? & _ & [=])]. apply establishCEK_Ok in E1 as (g1 & -> & Hk & Hprov).
  io_inv E as [(id & w2 & E2 & E)|(? & _ & [=])]. apply fillRandom_Ok in E2 as (g2 & -> & Hid).
  io_inv E as [(salt & w3 & E3 & E)|(? & _ & [=])]. apply fillRandom_Ok in E3 as (g3 & -> & Hsalt).
  rewrite wrapu_small in E by (unfold MaxChunkSize in Hcs; lia).
  io_inv E as [(mk & w4 & E4 & E)|(? & _ & [=])]. unfold lift in E4. injection E4 as Ek <-.
  apply with_wiped_inv in E as (w5 & E & ->).
  io_inv E as [(u & w6 & E5 & E)|(? & _ & [=])]. injection E as -> <-.
  eexists id, salt, mk, _, w6, u. split; [done|]. split; [apply header_fields_wf; auto using aead_suite_known; lia|].
  split_and!; [done|done|exact Ek| | |exact E5| |]; done.
Qed.

Context {CL : CryptoLaws C} {KL : CirclLaws K}.

(** What a successful [EncryptMLKEM] for a seed's public key did before its chunks. *)
Lemma EncryptMLKEM_Ok fuel suite seed publicKey cs (w w' : world P) u :
  PublicKeyFromSeed seed suite = Ok publicKey -> EncryptMLKEM fuel suite publicKey cs w = (Ok u, w') ->
  exists n cek id salt env mk w1 w2 u', let h := mkHeader suite cs id salt in
    mlKemCiphertextLen suite = Some n /\ header_wf h /\ length cek = 32%nat /\ envelope_wf suite env /\
    local_opens seed suite env (buildCEKWrapAAD suite id) cek /\
    deriveMessageKey salt cek suite id = Ok mk /\ w_src w1 = w_src w /\ w_dst w1 = w_dst w /\
    writeChunks fuel (writeFixedHeader [] suite cs id salt ++ serializeKEMHeader env) (context_of h mk) w1
      = (Ok u', w2) /\
    w_src w' = w_src w2 /\ w_dst w' = w_dst w2.
Proof.
  intros Hpk. unfold EncryptMLKEM. destruct (mlKemCiphertextLen suite) as [n|] eqn:Hs; [|done]. intros E.
  io_inv E as [(? & w0 & E0 & E)|(? & _ & [=])]. unfold lift, validateChunkSize in E0.
  case_decide as Hcs; [done|]. injection E0 as _ <-.
  io_inv E as [(cek & w1 & E1 & E)|(? & _ & [=])]. apply fillRandom_Ok in E1 as (g1 & -> & Hk).
  apply with_wiped_inv in E as (w2 & E & ->).
  io_inv E as [(id & w3 & E2 & E)|(? & _ & [=])]. apply fillRandom_Ok in E2 as (g2 & -> & Hid).
  io_inv E as [(salt & w4 & E3 & E)|(? & _ & [=])]. apply fillRandom_Ok in E3 as (g3 & -> & Hsalt).
  cbv zeta in E. io_inv E as [(env & w5 & E4 & E)|(? & _ & [=])].
  apply (wrapCEK_Ok suite n seed) in E4 as (S5 & D5 & _ & He & Ho); [|done..].
  rewrite wrapu_small in E by (unfold MaxChunkSize in Hcs; lia).
  io_inv E as [(mk & w6 & E5 & E)|(? & _ & [=])]. unfold lift in E5. injection E5 as Ek <-.
  apply with_wiped_inv in E as (w7 & E & ->).
  exists n, cek, id, salt, env, mk, (add_secret mk w5), w7, u. cbv zeta. split; [done|].
  split; [apply header_fields_wf; auto; [by rewrite (mlkem_chunkAEAD _ _ Hs)|lia]|].
  split_and!; [done|done|done|exact Ek|exact S5|exact D5| |done|done].
  by rewrite (context_of_mlkem (mkHeader suite cs id salt) mk n Hs).
Qed.

(** A frame has more bytes than its payload and its records together. *)
Lemma seal_records_shorter a c i l :
  (length (concat l) + length l <= length (frame (seal_records a c i l)))%nat.
Proof.
  revert i. induction l as [|pt l IH]; intros i; [done|]. cbn [seal_records concat].
  rewrite frame_cons, !length_app, length_be_put, Seal_length by apply length_chunkNonce.
  simpl. specialize (IH (wrapu 64 (i + 1))). lia.
Qed.

Lemma container_shorter h kem a c p ps :
  (length (concat (p :: ps)) < length (container h kem (seal_records a c 0 (p :: ps))))%nat /\
  (length ps < length (container h kem (seal_records a c 0 (p :: ps))))%nat.
Proof.
  pose proof (seal_records_shorter a c 0 (p :: ps)) as Hl. unfold container. rewrite !length_app.
  cbn [length] in *. lia.
Qed.

(** *** What the decryptors make of pieces that are not full *)

Section pieces.
Context (h : streamHeader) (key mk : bytes) (a : AEAD) (p : bytes) (ps : list bytes).
Hypothesis Hh : header_wf h.
Hypothesis Hk : length key = 32%nat.
Hypothesis Ek : deriveMessageKey (streamSalt h) key (suiteID h) (streamID h) = Ok mk.
Hypothesis Ha : newAEAD (cc_chunkAEAD (context_of h mk)) mk = Ok a.
Let n := Z.to_nat (chunkSize h).
Let recs := seal_records a (context_of h mk) 0 (p :: ps).
Hypothesis Hp : (length p <= n)%nat.
Hypothesis Hps : pieces n ps.

Lemma open_stream_short fuel (w : world P) : ~ full_pieces n (p :: ps) -> (length ps < fuel)%nat ->
  delivers (w_src w) (frame recs) -> reliable (w_dst w) ->
  exists w', (messageKey ← lift (deriveMessageKey (streamSalt h) key (suiteID h) (streamID h));
    with_wiped messageKey (readChunks fuel (context_of h messageKey))) w = (Err ErrAuthFailed, w').
Proof.
  intros Hnf Hf Hr Hd. rewrite Ek, io_lift_Ok.
  destruct (readChunks_short (context_of h mk) a Ha (wf_chunkSize _ Hh) fuel p ps (add_secret mk w))
    as (v' & E'); auto.
  { constructor; [done|]. by eapply Forall_impl; [exact Hps|intros ? []]. }
  eexists. by apply with_wiped_run.
Qed.

Lemma full_pieces_stream kem : full_pieces n (p :: ps) -> stream_of h key kem (concat (p :: ps)) (container h kem recs).
Proof. intros Hf. exists mk, a, (p :: ps). split_and!; auto. by apply full_pieces_chunking. Qed.

Lemma DecryptAEAD_short fuel (v : world P) : aead_suite (suiteID h) ->
  ~ full_pieces n (p :: ps) -> (length ps < fuel)%nat ->
  delivers (w_src v) (container h [] recs) -> reliable (w_dst v) ->
  exists v', DecryptAEAD fuel key v = (Err ErrAuthFailed, v').
Proof.
  intros Hs Hnf Hf Hr Hd. unfold DecryptAEAD. rewrite decide_False by (unfold len; rewrite Hk; auto).
  destruct (readFixedHeader_delivers v _ Hr) as (r & E & Hr').
  unfold container in E, Hr'. rewrite header_at_write in E by done. rewrite drop_header in Hr' by done.
  io_run E. rewrite decide_False by (by apply aead_suite_check). by apply open_stream_short.
Qed.

Lemma DecryptMLKEM_short {Rec} {Rc : CEKRecovery P Rec} fuel ctx (rec : Rec) s env (v : world P) :
  mlKemCiphertextLen (suiteID h) = Some s -> envelope_wf (suiteID h) env ->
  recovers rec ctx env (buildCEKWrapAAD (suiteID h) (streamID h)) key ->
  ~ full_pieces n (p :: ps) -> (length ps < fuel)%nat ->
  delivers (w_src v) (container h (serializeKEMHeader env) recs) -> reliable (w_dst v) ->
  exists v', DecryptMLKEM fuel ctx rec v = (Err ErrAuthFailed, v').
Proof.
  intros Hs He Hrec Hnf Hf Hr Hd.
  destruct (DecryptMLKEM_run fuel ctx rec h s env key recs v Hs Hh He Hrec Hk Hr) as (v1 & D1 & Hr1 & Hrun).
  destruct (open_stream_short fuel v1) as (v2 & E2); [done..|by rewrite D1|].
  destruct (Hrun _ _ E2) as (v' & E & _). by exists v'.
Qed.
End pieces.

(** *** The chunks, whichever the encryptor *)

(** The container [out] is worth what the reads [evs] it was made from say:
    [decrypt] gives their bytes back, unless bytes followed a read that gave up. *)
Definition worth (evs : list read_event) (out : bytes) (decrypt : nat -> io ()) : Prop :=
  forall fuel (v : world P), (length out <= fuel)%nat -> delivers (w_src v) out -> reliable (w_dst v) ->
    if resumes evs then exists v', decrypt fuel v = (Err ErrAuthFailed, v')
    else exists v', decrypt fuel v = (Ok (), v') /\ written (w_dst v') = written (w_dst v) ++ delivered evs.

Context {H : History P}.

Lemma writeChunks_container fuel h key kem mk (w w' : world P) u : within_buffer (P := P) -> header_wf h ->
  deriveMessageKey (streamSalt h) key (suiteID h) (streamID h) = Ok mk ->
  writeChunks fuel (writeFixedHeader [] (suiteID h) (chunkSize h) (streamID h) (streamSalt h) ++ kem)
    (context_of h mk) w = (Ok u, w') ->
  exists a p ps evs, newAEAD (cc_chunkAEAD (context_of h mk)) mk = Ok a /\
    reads (w_src w') = reads (w_src w) ++ evs /\
    written (w_dst w') = written (w_dst w) ++ container h kem (seal_records a (context_of h mk) 0 (p :: ps)) /\
    concat (p :: ps) = delivered evs /\ (length p <= Z.to_nat (chunkSize h))%nat /\
    pieces (Z.to_nat (chunkSize h)) ps /\ (resumes evs = false <-> full_pieces (Z.to_nat (chunkSize h)) (p :: ps)).
Proof.
  intros Hb Hh Ek E. pose proof (wf_chunkSize _ Hh) as Hcs.
  destruct (deriveMessageKey_ok (streamSalt h) key (suiteID h) (streamID h)) as (mk' & Ek' & Hmk).
  rewrite Ek in Ek'. injection Ek' as <-.
  destruct (newAEAD_32 (cc_chunkAEAD (context_of h mk)) mk Hmk) as (a & Ha).
  apply (writeChunks_any (context_of h mk) a Ha ltac:(cbn in *; lia) Hb) in E
    as (p & ps & evs & Hr & Hcat & Hp & Hps & Hres & W).
  exists a, p, ps, evs. split_and!; try done. rewrite W. unfold container. by rewrite <-app_assoc.
Qed.
End entry.
