(* ===== verification/StreamSteps.v ===== *)
(** [writeChunks] as a state machine: one step per turn of its loop, with the
    chunks it has sealed so far on record.  The runs of the function are the
    paths of the machine, and what holds in every reachable state holds at
    every moment of a call, whether or not it is cut short by its reader or
    its writer. *)

From stdpp Require Import relations.
From S2P Require Import Prelude GoError IO Crypto Format Chunks ChunkSpec.

(** A call of [aeadSeal] that succeeded. *)
Record sealed := mkSealed {
  se_nonce : bytes;
  se_aad : bytes;
  se_plaintext : bytes;
  se_final : bool;
  se_record : bytes;
}.

(** Where the call stands: before its first read, about to seal [current], or
    returned. *)
Inductive phase := Fresh | Sealing (current : bytes) | Finished | Failed (e : error).

Section steps.
Context {X : Type} {P : Platform X} {C : Crypto}.

Record run := mkRun {
  rn_phase : phase;
  rn_index : Z;
  rn_sealed : list sealed;
  rn_world : world P;
}.

Definition seal_at (c : chunkCrypto) (i : Z) (current : bytes) (isFinal : bool) (record : bytes) : sealed :=
  mkSealed (chunkNonce i) (chunk_aad c i isFinal (len current)) current isFinal record.

(** [seals c e]: [e] is what [c]'s AEAD makes of its fields. *)
Definition seals (c : chunkCrypto) (e : sealed) : Prop :=
  aeadSeal (cc_chunkAEAD c) (cc_messageKey c) (se_nonce e) (se_plaintext e) (se_aad e) = Ok (se_record e).

Definition write_record (record : bytes) : io () :=
  dst_Write (be_put 4 (len record));; dst_Write record.

Definition is_last (next : bytes) : bool := bool_decide (len next = 0).

Inductive step (header : bytes) (c : chunkCrypto) : run -> run -> Prop :=
| step_start w w1 w2 current :
    dst_Write header w = (Ok (), w1) -> readFull (cc_chunkSize c) w1 = (Ok current, w2) ->
    step header c (mkRun Fresh 0 [] w) (mkRun (Sealing current) 0 [] w2)
| step_start_fails w e w1 :
    (dst_Write header;; readFull (cc_chunkSize c)) w = (Err e, w1) ->
    step header c (mkRun Fresh 0 [] w) (mkRun (Failed e) 0 [] w1)
| step_read_fails current i log w e w1 :
    readFull (cc_chunkSize c) w = (Err e, w1) ->
    step header c (mkRun (Sealing current) i log w) (mkRun (Failed e) i log w1)
| step_seal_fails current i log w next w1 e :
    readFull (cc_chunkSize c) w = (Ok next, w1) ->
    aeadSeal (cc_chunkAEAD c) (cc_messageKey c) (chunkNonce i) current
      (chunk_aad c i (is_last next) (len current)) = Err e ->
    step header c (mkRun (Sealing current) i log w) (mkRun (Failed e) i log w1)
| step_write_fails current i log w next w1 record e w2 :
    readFull (cc_chunkSize c) w = (Ok next, w1) ->
    seals c (seal_at c i current (is_last next) record) ->
    write_record record w1 = (Err e, w2) ->
    step header c (mkRun (Sealing current) i log w)
      (mkRun (Failed e) i (log ++ [seal_at c i current (is_last next) record]) w2)
| step_chunk current i log w next w1 record w2 :
    readFull (cc_chunkSize c) w = (Ok next, w1) ->
    seals c (seal_at c i current (is_last next) record) ->
    write_record record w1 = (Ok (), w2) ->
    step header c (mkRun (Sealing current) i log w)
      (mkRun (if is_last next then Finished else Sealing next) (wrapu 64 (i + 1))
        (log ++ [seal_at c i current (is_last next) record]) w2).

(** The result of a call that stands at [s]. *)
Definition outcome (s : run) : result error () :=
  match rn_phase s with
  | Finished => Ok ()
  | Failed e => Err e
  | Fresh | Sealing _ => Err OutOfFuel
  end.

Definition halted (s : run) : Prop :=
  match rn_phase s with Finished | Failed _ => True | Fresh | Sealing _ => False end.

(** ** The runs of the function are the paths of the machine *)

Lemma write_record_inv record w r w' (k : io ()) :
  (dst_Write (be_put 4 (len record));; dst_Write record;; k) w = (r, w') ->
  (exists w1, write_record record w = (Ok (), w1) /\ k w1 = (r, w')) \/
  (exists e, write_record record w = (Err e, w') /\ r = Err e).
Proof.
  unfold write_record. intros E.
  io_inv E as [([] & w1 & E1 & E)|(e & E1 & ->)]; io_run E1; [|eauto].
  io_inv E as [([] & w2 & E2 & E)|(e & E2 & ->)]; eauto.
Qed.

Lemma write_record_run record w w1 (k : io ()) :
  write_record record w = (Ok (), w1) ->
  (dst_Write (be_put 4 (len record));; dst_Write record;; k) w = k w1.
Proof.
  unfold write_record. intros E.
  io_inv E as [([] & w2 & E1 & E)|(e & E1 & [=])]. io_run E1. by io_run E.
Qed.

Lemma write_record_fails record w e w1 (k : io ()) :
  write_record record w = (Err e, w1) ->
  (dst_Write (be_put 4 (len record));; dst_Write record;; k) w = (Err e, w1).
Proof.
  unfold write_record. intros E.
  io_inv E as [([] & w2 & E1 & E)|(e' & E1 & [= ->])]; io_run E1; [|done]. by io_run E.
Qed.

Lemma seals_run c i current isFinal record :
  seals c (seal_at c i current isFinal record) ->
  aeadSeal (cc_chunkAEAD c) (cc_messageKey c) (chunkNonce i) current
    (chunk_aad c i isFinal (len current)) = Ok record.
Proof. exact id. Qed.

Lemma loop_path header c fuel current i log w r w' :
  writeChunks_loop fuel c current i w = (r, w') ->
  exists s, rtc (step header c) (mkRun (Sealing current) i log w) s /\
    rn_world s = w' /\ outcome s = r.
Proof.
  revert current i log w. induction fuel as [|fuel IH]; intros current i log w E.
  { injection E as <- <-. eexists. split; [done|]. done. }
  cbn [writeChunks_loop] in E.
  io_inv E as [(next & w1 & E1 & E)|(e & E1 & ->)].
  2: { eexists. split; [by apply rtc_once, step_read_fails|done]. }
  cbv zeta in E. fold (is_last next) in E.
  io_inv E as [(record & w2 & E2 & E)|(e & E2 & ->)]; injection E2 as E2 <-.
  2: { eexists. split; [by eapply rtc_once, step_seal_fails|done]. }
  apply write_record_inv in E as [(w3 & E3 & E)|(e & E3 & ->)].
  2: { eexists. split; [apply rtc_once; eapply step_write_fails; [exact E1|exact E2|exact E3]|done]. }
  pose proof (step_chunk header c current i log w next w1 record w3 E1 E2 E3) as Hst.
  destruct (is_last next).
  - injection E as <- <-. eexists. split; [by apply rtc_once|done].
  - apply (IH _ _ (log ++ [seal_at c i current false record])) in E as (s & Hs & Hw & Ho).
    exists s. split; [by eapply rtc_l|done].
Qed.

Lemma path_loop header c s s' current :
  rtc (step header c) s s' -> rn_phase s = Sealing current -> halted s' ->
  exists fuel, writeChunks_loop fuel c current (rn_index s) (rn_world s) = (outcome s', rn_world s').
Proof.
  intros Hs. revert current. induction Hs as [s|s1 s2 s3 Hst Hrest IH]; intros current Hp Hh.
  { unfold halted in Hh. by rewrite Hp in Hh. }
  assert (halted s2 -> s3 = s2) as Hstop.
  { intros H2. inversion Hrest as [|? ? ? Hst2]; subst; [done|].
    destruct Hst2; by cbn in H2. }
  inversion Hst as [| |? i log w e w1 E1|? i log w next w1 e E1 E2|? i log w next w1 record e w2 E1 E2 E3
    |? i log w next w1 record w2 E1 E2 E3]; subst; cbn in Hp; simplify_eq/=.
  - rewrite (Hstop I). exists 1%nat. cbn [writeChunks_loop rn_index rn_world]. by io_run E1.
  - rewrite (Hstop I). exists 1%nat. cbn [writeChunks_loop rn_index rn_world]. io_run E1. cbv zeta.
    fold (is_last next). by rewrite E2.
  - rewrite (Hstop I). exists 1%nat. cbn [writeChunks_loop rn_index rn_world]. io_run E1. cbv zeta.
    fold (is_last next). rewrite (seals_run _ _ _ _ _ E2), io_lift_Ok.
    by apply write_record_fails.
  - destruct (is_last next) eqn:Hl.
    + rewrite (Hstop I). exists 1%nat. cbn [writeChunks_loop]. io_run E1. cbv zeta.
      fold (is_last next). rewrite Hl. rewrite (seals_run _ _ _ _ _ E2), io_lift_Ok.
      by rewrite (write_record_run _ _ _ _ E3).
    + destruct (IH next eq_refl Hh) as (fuel & E). exists (S fuel). cbn [writeChunks_loop]. io_run E1. cbv zeta.
      fold (is_last next). rewrite Hl. rewrite (seals_run _ _ _ _ _ E2), io_lift_Ok.
      by rewrite (write_record_run _ _ _ _ E3).
Qed.

Lemma run_path fuel header c w r w' :
  writeChunks fuel header c w = (r, w') ->
  exists s, rtc (step header c) (mkRun Fresh 0 [] w) s /\ rn_world s = w' /\ outcome s = r.
Proof.
  unfold writeChunks. intros E.
  io_inv E as [([] & w1 & E1 & E)|(e & E1 & ->)].
  2: { eexists. split; [apply rtc_once, step_start_fails, io_bind_Err; exact E1|done]. }
  io_inv E as [(current & w2 & E2 & E)|(e & E2 & ->)].
  2: { eexists. split; [apply rtc_once, step_start_fails; rewrite (io_bind_Ok _ _ _ _ _ E1); exact E2|done]. }
  apply (loop_path header c _ _ _ []) in E as (s & Hs & H). exists s. split; [|done].
  eapply rtc_l; [by eapply step_start|exact Hs].
Qed.

Lemma path_run header c w s :
  rtc (step header c) (mkRun Fresh 0 [] w) s -> halted s ->
  exists fuel, writeChunks fuel header c w = (outcome s, rn_world s).
Proof.
  intros Hs Hh. inversion Hs as [|? s1 ? Hst Hrest]; subst; [done|].
  inversion Hst as [? w1 w2 current E1 E2|? e w1 E1| | | |]; subst.
  - destruct (path_loop header c _ s current Hrest eq_refl Hh) as (fuel & E).
    exists fuel. unfold writeChunks. io_run E1. io_run E2. exact E.
  - assert (s = mkRun (Failed e) 0 [] w1) as ->.
    { inversion Hrest as [|? ? ? Hst2]; subst; [done|inversion Hst2]. }
    exists 0%nat. unfold writeChunks.
    io_inv E1 as [([] & w2 & E1 & E2)|(e' & E1 & [= <-])]; io_run E1; [by io_run E2|done].
Qed.

(** ** The invariant *)

(** Entry [j] was sealed as chunk [j]; only the last can be the final one. *)
Definition log_wf (c : chunkCrypto) (log : list sealed) : Prop :=
  forall j e, log !! j = Some e ->
    se_nonce e = chunkNonce (wrapu 64 (Z.of_nat j)) /\
    se_aad e = chunk_aad c (wrapu 64 (Z.of_nat j)) (se_final e) (len (se_plaintext e)) /\
    seals c e /\ (se_final e = true -> S j = length log).

(** What the log is in each phase, and what the writer, which held [w0], has. *)
Definition phase_wf (header w0 : bytes) (s : run) : Prop :=
  let out := header ++ frame (se_record <$> rn_sealed s) in
  let w := written (w_dst (rn_world s)) in
  match rn_phase s with
  | Fresh => rn_sealed s = [] /\ w = w0
  | Sealing _ => rn_index s = wrapu 64 (len (rn_sealed s)) /\
      Forall (fun e => se_final e = false) (rn_sealed s) /\ w = w0 ++ out
  | Finished => (exists l e, rn_sealed s = l ++ [e] /\ se_final e = true) /\ w = w0 ++ out
  | Failed _ => exists q, w = w0 ++ q /\ q `prefix_of` out
  end.

Record invariant (header w0 : bytes) (c : chunkCrypto) (s : run) : Prop := {
  inv_log : log_wf c (rn_sealed s);
  inv_phase : phase_wf header w0 s;
}.

Lemma log_wf_snoc c log current f record :
  log_wf c log -> Forall (fun e => se_final e = false) log ->
  seals c (seal_at c (wrapu 64 (len log)) current f record) ->
  log_wf c (log ++ [seal_at c (wrapu 64 (len log)) current f record]).
Proof.
  intros Hl Hf Hs j e Hj. apply lookup_app_Some in Hj as [Hj|[Hge Hj]].
  - destruct (Hl j e Hj) as (H1 & H2 & H3 & _). split_and!; auto.
    intros Ht. rewrite Forall_lookup in Hf. specialize (Hf j e Hj). congruence.
  - apply list_lookup_singleton_Some in Hj as [H0 <-].
    assert (j = length log) as -> by lia. split_and!; try done.
    intros _. rewrite length_app. simpl. lia.
Qed.

Lemma frame_snoc recs r : frame (recs ++ [r]) = frame recs ++ frame_record r.
Proof. unfold frame. rewrite map_app, concat_app. cbn [map concat]. by rewrite app_nil_r. Qed.

Lemma frame_log_snoc log e :
  frame (se_record <$> log ++ [e]) = frame (se_record <$> log) ++ frame_record (se_record e).
Proof. rewrite fmap_app. apply frame_snoc. Qed.

Context {PL : PlatformLaws P}.

Lemma dst_Write_written p w r w' : dst_Write p w = (r, w') ->
  exists q, written (w_dst w') = written (w_dst w) ++ q /\ q `prefix_of` p /\ (r = Ok () -> q = p).
Proof.
  intros E. destruct (dst_Write_any w p) as (r' & d & q & E' & Hw & Hq). rewrite E in E'.
  injection E' as -> ->. by exists q.
Qed.

Lemma write_record_written record w r w' : write_record record w = (r, w') ->
  exists q, written (w_dst w') = written (w_dst w) ++ q /\ q `prefix_of` frame_record record /\
    (r = Ok () -> q = frame_record record).
Proof.
  unfold write_record, frame_record. intros E.
  io_inv E as [([] & w1 & E1 & E)|(e & E1 & ->)];
    apply dst_Write_written in E1 as (q1 & W1 & P1 & Q1).
  - apply dst_Write_written in E as (q2 & W2 & P2 & Q2). rewrite Q1 in W1 by done.
    exists (be_put 4 (len record) ++ q2). rewrite W2, W1, <-app_assoc. split_and!; [done| |].
    + by apply prefix_app.
    + intros Hr. by rewrite Q2.
  - exists q1. split_and!; [done| |done]. by apply prefix_app_r.
Qed.

Lemma readFull_keeps n w r w' : readFull n w = (r, w') -> w_dst w' = w_dst w.
Proof.
  unfold readFull. destruct (readFull_loop _ _ _) as [[d [e|]] src]; by intros [= <- <-].
Qed.

Lemma invariant_step header w0 c s s' :
  invariant header w0 c s -> step header c s s' -> invariant header w0 c s'.
Proof.
  intros [Hl Hp] Hst.
  destruct Hst as [w w1 w2 current E1 E2|w e w1 E1|current i log w e w1 E1|current i log w next w1 e E1 E2
    |current i log w next w1 record e w2 E1 E2 E3|current i log w next w1 record w2 E1 E2 E3];
    unfold phase_wf in Hp; cbn [rn_phase rn_sealed rn_index rn_world] in Hl, Hp.
  - split; [done|]. destruct Hp as [_ Hw]. apply readFull_keeps in E2.
    apply dst_Write_written in E1 as (q & W & _ & Hq). unfold phase_wf. cbn. rewrite E2, W, Hq, Hw by done.
    by rewrite app_nil_r.
  - split; [done|]. destruct Hp as [_ Hw]. unfold phase_wf. cbn. rewrite app_nil_r.
    io_inv E1 as [([] & w2 & E1 & E2)|(e' & E1 & _)]; apply dst_Write_written in E1 as (q & W & Hq & _);
      exists q; [apply readFull_keeps in E2; rewrite E2|]; by rewrite W, Hw.
  - split; [done|]. destruct Hp as (_ & _ & Hw). apply readFull_keeps in E1. unfold phase_wf. cbn.
    rewrite E1, Hw. by eexists.
  - split; [done|]. destruct Hp as (_ & _ & Hw). apply readFull_keeps in E1. unfold phase_wf. cbn.
    rewrite E1, Hw. by eexists.
  - destruct Hp as (-> & Hf & Hw). split; [by apply log_wf_snoc|]. apply readFull_keeps in E1.
    apply write_record_written in E3 as (q & W & Hq & _). unfold phase_wf. cbn [rn_phase rn_world rn_sealed].
    exists ((header ++ frame (se_record <$> log)) ++ q). rewrite W, E1, Hw, <-app_assoc. split; [done|].
    rewrite frame_log_snoc, !app_assoc. by apply prefix_app.
  - destruct Hp as (-> & Hf & Hw). split; [by apply log_wf_snoc|]. apply readFull_keeps in E1.
    apply write_record_written in E3 as (q & W & _ & Hq). rewrite Hq in W by done.
    assert (written (w_dst w2) = w0 ++ header ++
      frame (se_record <$> log ++ [seal_at c (wrapu 64 (len log)) current (is_last next) record])) as Hw2
      by (rewrite W, E1, Hw, frame_log_snoc, <-!app_assoc; done).
    unfold phase_wf. cbn [rn_phase rn_world rn_sealed rn_index]. destruct (is_last next) eqn:Hn.
    + split; [|exact Hw2]. eexists _, _. split; [reflexivity|done].
    + split; [|split; [|exact Hw2]].
      * rewrite len_app. unfold wrapu. rewrite Zplus_mod_idemp_l. done.
      * by apply Forall_app_2; [|constructor].
Qed.

Lemma invariant_reachable header c w s :
  rtc (step header c) (mkRun Fresh 0 [] w) s -> invariant header (written (w_dst w)) c s.
Proof.
  intros Hs. assert (invariant header (written (w_dst w)) c (mkRun Fresh 0 [] w)) as H0 by (by split).
  revert H0. generalize (written (w_dst w)) as w0. intros w0.
  induction Hs as [|s1 s2 s3 H12 Hs IH]; [done|]. intros H. apply IH. by eapply invariant_step.
Qed.

(** While the 64-bit index has not wrapped the nonces are pairwise distinct. *)
Lemma log_wf_NoDup c log :
  log_wf c log -> len log <= 2 ^ 64 -> NoDup (se_nonce <$> log).
Proof.
  intros Hl Hn. apply NoDup_alt. intros i j x Hi Hj. rewrite list_lookup_fmap in Hi, Hj.
  destruct (log !! i) as [e1|] eqn:E1; [|done]. destruct (log !! j) as [e2|] eqn:E2; [|done].
  cbn in Hi, Hj. destruct (Hl i e1 E1) as (N1 & _). destruct (Hl j e2 E2) as (N2 & _).
  apply lookup_lt_Some in E1, E2. unfold len in Hn.
  rewrite wrapu_small in N1, N2 by lia.
  assert (Z.of_nat i = Z.of_nat j) by (apply chunkNonce_inj; [lia|lia|congruence]). lia.
Qed.
End steps.
