(* ===== verification/StreamProps.v ===== *)
(** The properties of package [stream]. *)

From stdpp Require Import relations.
From S2P Require Import Prelude GoError IO Crypto Format Chunks ChunkSpec Errors Pb Client Aead Kem.
From S2P Require Import Stream StreamAgree StreamLemmas KemLemmas StreamSafety StreamSteps.

(** ** Round trips *)

Section roundtrips.
Context {X : Type} {P : Platform X} {PL : PlatformLaws P} {C : Crypto} {CL : CryptoLaws C}
  {K : Circl P} {KL : CirclLaws K}.

(** C1: the AEAD round trip. On any conforming reader of a payload, a writer
    that accepts its bytes and a random source that works, [EncryptAEAD]
    returns a key (the provided one, if one was) and writes a container,
    and on any conforming reader of that container [DecryptAEAD] with that
    key succeeds and writes exactly the payload. *)
Theorem AEAD_roundtrip fuel suite cek chunkSize pt (w : world P) :
  aead_suite suite -> cek_usable cek -> 1 <= chunkSize <= MaxChunkSize ->
  delivers (w_src w) pt -> reliable (w_dst w) -> entropic (w_rng w) -> (length pt < fuel)%nat ->
  exists key out w', EncryptAEAD fuel suite cek chunkSize w = (Ok key, w') /\
    written (w_dst w') = written (w_dst w) ++ out /\
    (forall k, provided cek = Some k -> key = k) /\
    forall v : world P, delivers (w_src v) out -> reliable (w_dst v) ->
      exists v', DecryptAEAD fuel key v = (Ok (), v') /\
        written (w_dst v') = written (w_dst v) ++ pt.
Proof.
  intros Hs Hu Hcs Hr Hd Hg Hf.
  destruct (EncryptAEAD_ok fuel suite cek chunkSize pt w)
    as (key & id & salt & out & w' & E & Hk & Hprov & Hh & Hst & W); auto.
  exists key, out, w'. split_and!; auto.
  intros v Hrv Hdv. by apply (DecryptAEAD_ok fuel (mkHeader suite chunkSize id salt) key pt out).
Qed.

(** The ML-KEM round trip with the private key at hand. What
    [EncryptMLKEM] writes for the public key of a seed, [DecryptMLKEM] with
    that seed's [LocalSeedCEKRecovery] reads back, under any context. *)
Theorem MLKEM_roundtrip_local fuel suite seed publicKey chunkSize pt (w : world P) :
  is_Some (mlKemCiphertextLen suite) -> PublicKeyFromSeed seed suite = Ok publicKey ->
  1 <= chunkSize <= MaxChunkSize ->
  delivers (w_src w) pt -> reliable (w_dst w) -> entropic (w_rng w) -> (length pt < fuel)%nat ->
  exists out w', EncryptMLKEM fuel suite publicKey chunkSize w = (Ok (), w') /\
    written (w_dst w') = written (w_dst w) ++ out /\
    forall ctx (v : world P), delivers (w_src v) out -> reliable (w_dst v) ->
      exists v', DecryptMLKEM fuel ctx (NewLocalSeedCEKRecovery seed suite) v = (Ok (), v') /\
        written (w_dst v') = written (w_dst v) ++ pt.
Proof.
  intros [n Hs] Hm Hcs Hr Hd Hg Hf.
  destruct (EncryptMLKEM_ok fuel suite n seed publicKey chunkSize pt w)
    as (cek & id & salt & env & out & w' & E & Hk & Hh & He & Ho & Hst & W); auto.
  exists out, w'. split_and!; auto.
  intros ctx v Hrv Hdv. eapply (DecryptMLKEM_ok fuel ctx _ (mkHeader suite chunkSize id salt)); eauto.
  by apply local_recovers.
Qed.
End roundtrips.

Section roundtrip_broker.
Context {Gr : Grpc} {GS : GrpcStatus} {P : Platform B} {PL : PlatformLaws P}
  {C : Crypto} {CL : CryptoLaws C} {K : Circl P} {KL : CirclLaws K}.

(** C3: the ML-KEM round trip through the broker. When the broker holds the
    private key under [keyID] (its [UnwrapEnvelope] opens what that key
    opens), the same container is read back by [DecryptMLKEM] with a
    [BrokerCEKRecovery], the private key never leaving the broker. *)
Theorem MLKEM_roundtrip_broker fuel suite seed publicKey chunkSize pt (w : world P) client keyID :
  is_Some (mlKemCiphertextLen suite) -> PublicKeyFromSeed seed suite = Ok publicKey ->
  broker_holds client keyID suite seed ->
  1 <= chunkSize <= MaxChunkSize ->
  delivers (w_src w) pt -> reliable (w_dst w) -> entropic (w_rng w) -> (length pt < fuel)%nat ->
  exists out w', EncryptMLKEM fuel suite publicKey chunkSize w = (Ok (), w') /\
    written (w_dst w') = written (w_dst w) ++ out /\
    forall ctx (v : world P), delivers (w_src v) out -> reliable (w_dst v) ->
      exists v', DecryptMLKEM fuel ctx (NewBrokerCEKRecovery client keyID suite) v = (Ok (), v') /\
        written (w_dst v') = written (w_dst v) ++ pt.
Proof.
  intros [n Hs] Hm Hb Hcs Hr Hd Hg Hf.
  destruct (EncryptMLKEM_ok fuel suite n seed publicKey chunkSize pt w)
    as (cek & id & salt & env & out & w' & E & Hk & Hh & He & Ho & Hst & W); auto.
  exists out, w'. split_and!; auto.
  intros ctx v Hrv Hdv. eapply (DecryptMLKEM_ok fuel ctx _ (mkHeader suite chunkSize id salt)); eauto.
  by eapply broker_recovers.
Qed.
End roundtrip_broker.

(** ** Authenticity *)

Section authenticity.
Context {X : Type} {P : Platform X} {PL : PlatformLaws P} {C : Crypto} {K : Circl P}.

(** C2: [DecryptAEAD] on any input, with any writer. If no record of it was
    forged (each that opens under the stream's key was sealed by one of the
    honest [sessions], for that place), then what is written is a prefix of
    the payload of one session that has the header's suite, stream
    identifier and chunk size; it is that whole payload when the call
    succeeds, and nothing at all otherwise when no session matches. So
    records are never reordered, duplicated, dropped, or spliced from
    another stream, and a truncated stream never succeeds. *)
Theorem DecryptAEAD_authentic fuel cek sessions input (w w' : world P) res :
  (forall s, s ∈ sessions -> session_wf s) -> distinct_streams sessions ->
  delivers (w_src w) input -> len input < 2 ^ 64 ->
  (forall h mk, header_at input = Ok h ->
    deriveMessageKey (streamSalt h) cek (suiteID h) (streamID h) = Ok mk ->
    unforged (context_of h mk) sessions (drop 61 input)) ->
  DecryptAEAD fuel cek w = (res, w') ->
  released_one_stream sessions input w res w'.
Proof.
  intros Hs Hds Hr Hl Hu E. unfold DecryptAEAD in E.
  case_decide; [injection E as <- <-; by apply released_nothing|].
  destruct (readFixedHeader_delivers w _ Hr) as (r & Eh & Hr').
  io_inv E as [(h & w1 & E1 & E)|(e & E1 & ->)]; rewrite Eh in E1; injection E1 as Hh <-;
    [|by apply released_nothing].
  case_decide; [injection E as <- <-; by apply released_nothing|].
  pose proof (len_drop_le 61 input).
  eapply decrypt_tail_authentic in E; eauto. lia.
Qed.

(** C4: the same for [DecryptMLKEM], with any recovery that leaves the
    stream's reader and writer alone, whatever keys it may return. *)
Theorem DecryptMLKEM_authentic {Rec} {Rc : CEKRecovery P Rec} fuel ctx (recovery : Rec) sessions
    input (w w' : world P) res :
  (forall s, s ∈ sessions -> session_wf s) -> distinct_streams sessions ->
  delivers (w_src w) input -> len input < 2 ^ 64 ->
  (forall env aad (w1 : world P),
    w_src (RecoverCEK recovery ctx env aad w1).2 = w_src w1 /\
    w_dst (RecoverCEK recovery ctx env aad w1).2 = w_dst w1) ->
  (forall h env rest cek mk, header_at input = Ok h -> envelope_wf (suiteID h) env ->
    drop 61 input = serializeKEMHeader env ++ rest ->
    (exists w1 : world P, (RecoverCEK recovery ctx env
      (buildCEKWrapAAD (suiteID h) (streamID h)) w1).1 = Ok cek) ->
    deriveMessageKey (streamSalt h) cek (suiteID h) (streamID h) = Ok mk ->
    unforged (context_of h mk) sessions rest) ->
  DecryptMLKEM fuel ctx recovery w = (res, w') ->
  released_one_stream sessions input w res w'.
Proof.
  intros Hs Hds Hr Hl Hrec Hu E. unfold DecryptMLKEM in E.
  destruct (readFixedHeader_delivers w _ Hr) as (r & Eh & Hr').
  io_inv E as [(h & w1 & E1 & E)|(e & E1 & ->)]; rewrite Eh in E1; injection E1 as Hh <-;
    [|by apply released_nothing].
  destruct (mlKemCiphertextLen (suiteID h)) as [n|] eqn:Hn;
    [|injection E as <- <-; by apply released_nothing].
  pose proof (readKEMEnvelope_keeps (suiteID h) (set_src w r)) as Hkeep.
  io_inv E as [(env & w2 & E2 & E)|(e & E2 & ->)]; rewrite E2 in Hkeep; cbn in Hkeep;
    [|by apply released_nothing].
  apply (readKEMEnvelope_inv _ _ (drop 61 input)) in E2 as (r2 & rest & -> & Hin & Hr2 & L1 & L2 & L3);
    [|exact Hr'].
  cbv zeta in E. set (aad := buildCEKWrapAAD _ _) in E.
  destruct (Hrec env aad (set_src (set_src w r) r2)) as [Hsrc Hdst].
  io_inv E as [(cek & w3 & E3 & E)|(e & E3 & ->)]; rewrite E3 in Hsrc, Hdst; cbn in Hsrc, Hdst;
    [|by apply released_nothing].
  apply with_wiped_inv in E as (w4 & E & ->).
  case_decide; [injection E as <- <-; by apply released_nothing|].
  assert (len rest < 2 ^ 64) as Hlr.
  { assert (len rest <= len (drop 61 input)) as Hle by (rewrite Hin, len_app; pose proof (len_nonneg (serializeKEMHeader env)); lia).
    pose proof (len_drop_le 61 input). lia. }
  change (released_one_stream sessions input w res w4).
  apply (decrypt_tail_authentic fuel h cek sessions rest input w (add_secret cek w3)); auto.
  - cbn. by rewrite Hsrc.
  - intros mk. apply (Hu h env rest cek mk Hh ltac:(by constructor) Hin). exists (set_src (set_src w r) r2). fold aad. by rewrite E3.
  - rewrite <-E. apply io_bind_ext. intros mk w5. by rewrite (context_of_mlkem h mk n Hn).
Qed.
End authenticity.

(** ** The format *)

(** C26: the fixed header. [parseFixedHeader] accepts exactly the byte strings
    that begin with what [writeFixedHeader] writes for a well-formed header,
    and returns that header: every accepted header has one encoding. *)
Theorem parseFixedHeader_iff buf h :
  parseFixedHeader buf = Ok h <->
  header_wf h /\ exists rest,
    buf = writeFixedHeader [] (suiteID h) (chunkSize h) (streamID h) (streamSalt h) ++ rest.
Proof.
  split.
  - intros (Hwf & _ & E)%parse_inv. split; [done|]. exists (drop 61 buf). by rewrite <-E, take_drop.
  - intros (Hwf & rest & ->). by apply parse_write.
Qed.

(** C27: the additional data separates everything it is meant to bind. Two
    chunks with the same additional data agree on the suite, the stream, the
    index, the final flag, the length and the chunk size; the additional data
    that wraps a content key determines suite and stream, and is never that
    of a chunk; two chunk indices have the same nonce only if they are equal. *)
Theorem additional_data_separation s1 id1 i1 f1 n1 cs1 s2 id2 i2 f2 n2 cs2 :
  length id1 = 16%nat -> length id2 = 16%nat ->
  0 <= i1 < 2 ^ 64 -> 0 <= i2 < 2 ^ 64 -> 0 <= n1 < 2 ^ 32 -> 0 <= n2 < 2 ^ 32 ->
  0 <= cs1 < 2 ^ 32 -> 0 <= cs2 < 2 ^ 32 ->
  (buildChunkAAD s1 id1 i1 f1 n1 cs1 = buildChunkAAD s2 id2 i2 f2 n2 cs2 <->
    s1 = s2 /\ id1 = id2 /\ i1 = i2 /\ f1 = f2 /\ n1 = n2 /\ cs1 = cs2) /\
  (buildCEKWrapAAD s1 id1 = buildCEKWrapAAD s2 id2 <-> s1 = s2 /\ id1 = id2) /\
  buildCEKWrapAAD s1 id1 <> buildChunkAAD s2 id2 i2 f2 n2 cs2 /\
  (chunkNonce i1 = chunkNonce i2 <-> i1 = i2).
Proof.
  intros. split; [|split; [|split]].
  - split; [by apply buildChunkAAD_inj|]. by intros (-> & -> & -> & -> & -> & ->).
  - split; [|by intros [-> ->]]. unfold buildCEKWrapAAD. intros E.
    apply app_split_eq in E as [_ E]; [|done]. apply app_split_eq in E as [_ E]; [|done].
    by apply app_split_eq in E as [[= ->] ->].
  - intros E. by apply app_split_eq in E as [[=] _].
  - split; [by apply chunkNonce_inj|by intros ->].
Qed.

Section format.
Context {X : Type} {P : Platform X} {PL : PlatformLaws P} {C : Crypto} {K : Circl P}.

(** The KEM header. [readKEMEnvelope] inverts [serializeKEMHeader] on
    envelopes with the lengths of the suite, wherever they stand in the
    input, and accepts nothing else, consuming exactly the header. *)
Theorem kem_header_roundtrip s (w : world P) bs :
  delivers (w_src w) bs ->
  (forall env rest, envelope_wf s env -> bs = serializeKEMHeader env ++ rest ->
    exists r, readKEMEnvelope s w = (Ok env, set_src w r) /\ delivers r rest) /\
  (forall env w', readKEMEnvelope s w = (Ok env, w') ->
    exists r rest, w' = set_src w r /\ envelope_wf s env /\
      bs = serializeKEMHeader env ++ rest /\ delivers r rest).
Proof.
  intros Hd. split.
  - intros env rest He ->. by apply readKEMEnvelope_serialize.
  - intros env w' E. apply (readKEMEnvelope_inv s w bs) in E as (r & rest & -> & Hb & Hr & H); [|done].
    destruct H as (H1 & H2 & H3). exists r, rest. split_and!; auto. by constructor.
Qed.

(** C23: the record part. On a conforming reader and a writer that accepts its
    bytes, [readChunks] succeeds and writes [out] exactly when the input is
    a framed sequence of records, each of them full but the last, that open
    in order, the last one as final, to [out]. *)
Theorem readChunks_accepts fuel c input out (w : world P) :
  1 <= cc_chunkSize c <= MaxChunkSize ->
  delivers (w_src w) input -> reliable (w_dst w) -> (length input <= fuel)%nat ->
  (exists w', readChunks fuel c w = (Ok (), w') /\
    written (w_dst w') = written (w_dst w) ++ out) <->
  (exists recs, input = frame recs /\ opens c 0 recs out).
Proof.
  intros Hcs Hr Hd Hf. split.
  - intros (w' & E & W). apply (readChunks_sound fuel c w w' input Hr) in E
      as (recs & out' & -> & Ho & W').
    exists recs. rewrite W in W'. apply app_inv_head in W' as ->. done.
  - intros (recs & -> & Ho).
    assert (length recs <= fuel)%nat as Hl.
    { pose proof (frame_length recs) as Hlen.
      assert (0 <= foldr (fun r n => len r + n) 0 recs)
        by (clear; induction recs as [|r l IH]; simpl; [lia|]; pose proof (len_nonneg r); lia).
      pose proof (len_nonneg recs). assert (len recs <= len (frame recs)) as Hle by lia.
      unfold len in Hle. lia. }
    destruct (readChunks_complete fuel c recs out w Hcs Ho Hl Hr Hd) as (r & d & E & _ & W).
    eexists. by split.
Qed.

Context {CL : CryptoLaws C}.

(** C24: what [EncryptAEAD] writes, and how much. Its stream identifier and salt
    are fresh: the 16 and the 32 bytes the random source gives next, after the
    content key unless the caller provided that. It writes the fixed header with
    these, then the payload cut into chunks of the chunk size (the last one
    shorter, and an empty one for the empty payload), each sealed under the key
    derived from the content key and the header, with its index, its finality and
    its length authenticated, and framed by its length: 61 bytes, the payload, and
    20 bytes per chunk. *)
Theorem EncryptAEAD_format fuel suite cek chunkSize pt (w : world P) :
  aead_suite suite -> cek_usable cek -> 1 <= chunkSize <= MaxChunkSize ->
  delivers (w_src w) pt -> reliable (w_dst w) -> entropic (w_rng w) -> (length pt < fuel)%nat ->
  exists key id salt mk a cs w', EncryptAEAD fuel suite cek chunkSize w = (Ok key, w') /\
    stream_drawn cek (w_rng w) key id salt (w_rng w') /\
    let h := mkHeader suite chunkSize id salt in
    let out := writeFixedHeader [] suite chunkSize id salt ++
               frame (seal_records a (context_of h mk) 0 cs) in
    written (w_dst w') = written (w_dst w) ++ out /\
    deriveMessageKey salt key suite id = Ok mk /\
    newAEAD (default aeadAES256GCM (chunkAEADForSuite suite)) mk = Ok a /\
    chunking (Z.to_nat chunkSize) cs pt /\
    len out = FixedHeaderLen + len pt + 20 * chunk_count (len pt) chunkSize.
Proof.
  intros Hs Hu Hcs Hr Hd Hg Hf.
  destruct (EncryptAEAD_run fuel suite cek chunkSize pt w)
    as (key & id & salt & out & w' & E & Hk & Hdrawn & Hh & (mk & a & cs & E1 & E2 & Hch & ->) & W); auto.
  exists key, id, salt, mk, a, cs, w'. split; [done|]. split; [exact Hdrawn|]. cbv zeta.
  split; [exact W|]. split; [exact E1|]. split; [exact E2|]. split; [exact Hch|].
  cbn in Hch. rewrite len_app, frame_length, seal_records_size.
  rewrite (chunking_concat _ _ _ Hch). unfold len at 1. rewrite length_writeFixedHeader by apply Hh.
  unfold len at 1. rewrite seal_records_length. fold (len cs).
  rewrite (chunking_count (Z.to_nat chunkSize) cs pt) by (auto; lia). rewrite Z2Nat.id by lia.
  unfold FixedHeaderLen. lia.
Qed.
End format.

(** ** Secrets, termination, refusals *)

Section wiping.
Context {Gr : Grpc} {GS : GrpcStatus} {P : Platform B} {C : Crypto} {K : Circl P}.

(** What a call does not wipe. *)
Definition left_over (e : entry_call) (w : world P) (r : result error bytes) (left : list bytes) : Prop :=
  match e with
  | Call_EncryptAEAD suite cek chunkSize =>
      left = content_key suite cek chunkSize w /\ forall key, r = Ok key -> left = [key]
  | Call_DecryptMLKEM_broker _ _ _ _ => left = [] \/ dropped left r
  | _ => left = []
  end.

(** The buffers a successful call wipes: the message key; for [EncryptMLKEM] also
    the content key, the shared secret and the wrapping key; for [DecryptMLKEM]
    the recovered content key, and what the local recovery made to recover it. *)
Definition wiped_buffers (e : entry_call) : nat :=
  match e with
  | Call_EncryptAEAD _ _ _ | Call_DecryptAEAD _ => 1
  | Call_EncryptMLKEM _ _ _ | Call_DecryptMLKEM_local _ _ _ => 4
  | Call_DecryptMLKEM_broker _ _ _ _ => 2
  end.

(** C15: which secrets are wiped, and which are not. On every path of every
    entry point, with any reader, writer and random source, each buffer that
    held a key of the call is zero when it returns, with two exceptions. The
    content key of [EncryptAEAD], once established, is never wiped: it is the
    result of a successful call, and it is left behind by a call that fails
    later. And a key of a wrong length from the broker is dropped as it is, by
    the call that fails for it. *)
Theorem secrets_wiped fuel (e : entry_call) (w w' : world P) r : entry_run fuel e w = (r, w') ->
  exists left wiped, w_secrets w' = w_secrets w ++ left ++ wiped /\ Forall zeroed wiped /\
    left_over e w r left /\ (is_ok r = true -> length wiped = wiped_buffers e).
Proof.
  assert (forall n (m : io bytes), wipes n m -> m w = (r, w') ->
    exists left wiped, w_secrets w' = w_secrets w ++ left ++ wiped /\ Forall zeroed wiped /\
      left = [] /\ (is_ok r = true -> length wiped = n)) as Hall.
  { intros n m Hm (more & E & Hz & Hl)%Hm. by exists [], more. }
  destruct e; cbn [entry_run left_over wiped_buffers].
  - intros (wiped & E & Hz & Hr)%EncryptAEAD_secrets. eexists _, wiped. split; [exact E|]. split; [done|].
    split; [split; [done|]; by intros key [? _]%Hr|]. destruct r as [key|]; [|done]. intros _. by apply (Hr key).
  - apply Hall, (wipes_bind 1 0); [apply wipes_DecryptAEAD|]. intros _. apply wipes_ret.
  - apply Hall, (wipes_bind 4 0); [apply wipes_EncryptMLKEM|]. intros _. apply wipes_ret.
  - apply Hall, (wipes_bind 4 0); [|intros _; apply wipes_ret]. apply (wipes_DecryptMLKEM 2).
    intros env aad. apply wipes_openCEKLocal.
  - apply (wipes_or_drops_bind 2 0); [|intros _; apply wipes_ret]. apply (DecryptMLKEM_wipes_or_drops 0).
    intros env aad. apply broker_wipes_or_drops.
Qed.
End wiping.

Section discipline.
Context {X : Type} {P : Platform X} {C : Crypto} {K : Circl P}.

(** C13: a call that cannot proceed touches nothing. For an ML-KEM or unknown
    suite, a chunk size outside 1..=1 MiB, or a provided key that is not 32
    bytes, [EncryptAEAD] returns the documented error with nothing read,
    written or drawn; so does [EncryptMLKEM] for an AEAD or unknown suite or
    a bad chunk size, and [DecryptAEAD] for a key that is not 32 bytes. *)
Theorem refusals fuel suite cek chunkSize publicKey key (w : world P) :
  (~ aead_suite suite ->
    exists e, EncryptAEAD fuel suite cek chunkSize w = (Err e, w) /\ Is e ErrSuiteMismatch = true) /\
  (aead_suite suite -> ~ (1 <= chunkSize <= MaxChunkSize) ->
    exists e, EncryptAEAD fuel suite cek chunkSize w = (Err e, w) /\ Is e ErrBadChunkSize = true) /\
  (aead_suite suite -> 1 <= chunkSize <= MaxChunkSize -> ~ cek_usable cek ->
    EncryptAEAD fuel suite cek chunkSize w = (Err ErrBadCEKLength, w)) /\
  (mlKemCiphertextLen suite = None ->
    exists e, EncryptMLKEM fuel suite publicKey chunkSize w = (Err e, w) /\
      Is e ErrSuiteMismatch = true) /\
  (is_Some (mlKemCiphertextLen suite) -> ~ (1 <= chunkSize <= MaxChunkSize) ->
    exists e, EncryptMLKEM fuel suite publicKey chunkSize w = (Err e, w) /\
      Is e ErrBadChunkSize = true) /\
  (len key <> CEKLen -> DecryptAEAD fuel key w = (Err ErrBadCEKLength, w)).
Proof.
  split_and!.
  - intros Hs. eexists. unfold EncryptAEAD.
    rewrite decide_True by (unfold aead_suite in Hs; naive_solver). split; reflexivity.
  - intros Hs Hc. eexists. unfold EncryptAEAD, validateChunkSize.
    rewrite decide_False by (by apply aead_suite_check). rewrite decide_True by lia.
    split; reflexivity.
  - intros Hs Hc Hu. unfold EncryptAEAD. rewrite decide_False by (by apply aead_suite_check).
    rewrite validateChunkSize_ok, io_lift_Ok by done. cbv zeta.
    unfold establishCEK. unfold cek_usable in Hu.
    destruct (provided cek) as [k|]; [|exfalso; by apply Hu].
    rewrite decide_True; [reflexivity|]. intros Hk. apply Hu. by intros ? [= <-].
  - intros Hs. eexists. unfold EncryptMLKEM. rewrite Hs. split; reflexivity.
  - intros [n Hs] Hc. eexists. unfold EncryptMLKEM, validateChunkSize. rewrite Hs.
    rewrite decide_True by lia. split; reflexivity.
  - intros Hk. unfold DecryptAEAD. by rewrite decide_True.
Qed.
End discipline.

Section reading_props.
Context {X : Type} {P : Platform X} {PL : PlatformLaws P} {C : Crypto} {K : Circl P}.

(** C25: decryption terminates. On any conforming reader, honest or hostile
    input, and a writer that accepts its bytes, one unit of fuel per input
    byte is enough for [readChunks] to return a result of the code, and
    more fuel does not change it. *)
Theorem readChunks_total fuel c input (w : world P) :
  delivers (w_src w) input -> reliable (w_dst w) -> (length input <= fuel)%nat ->
  exists res w', readChunks fuel c w = (res, w') /\ res <> Err OutOfFuel /\
    forall k, readChunks (fuel + k) c w = (res, w').
Proof.
  intros Hr Hd Hf. destruct (readChunks fuel c w) as [res w'] eqn:E.
  assert (res <> Err OutOfFuel) as Hres.
  { intros ->. by apply (readChunks_terminates fuel c w w' input Hr Hd Hf). }
  exists res, w'. split_and!; auto. intros k. by apply readChunks_more.
Qed.

(** The two decryptors partition the containers. A well-formed header
    of an ML-KEM suite is refused by [DecryptAEAD], and one of an AEAD suite
    by [DecryptMLKEM] before any key is asked for, both with
    [ErrSuiteMismatch], only the header having been read. *)
Theorem suite_confusion {Rec} {Rc : CEKRecovery P Rec} fuel ctx (recovery : Rec) key h rest
    (w : world P) :
  header_wf h -> len key = CEKLen ->
  delivers (w_src w)
    (writeFixedHeader [] (suiteID h) (chunkSize h) (streamID h) (streamSalt h) ++ rest) ->
  exists r, delivers r rest /\
    match mlKemCiphertextLen (suiteID h) with
    | Some _ => exists e, DecryptAEAD fuel key w = (Err e, set_src w r) /\
        Is e ErrSuiteMismatch = true
    | None => exists e, DecryptMLKEM fuel ctx recovery w = (Err e, set_src w r) /\
        Is e ErrSuiteMismatch = true
    end.
Proof.
  intros Hh Hk Hd. destruct (readFixedHeader_delivers w _ Hd) as (r & E & Hr).
  rewrite header_at_write in E by done. rewrite drop_header in Hr by done.
  exists r. split; [done|].
  pose proof (suite_partition (suiteID h) (wf_suite _ Hh)) as Hp.
  destruct (mlKemCiphertextLen (suiteID h)) as [n|] eqn:Hn.
  - eexists. unfold DecryptAEAD. rewrite decide_False by auto. io_run E.
    rewrite decide_True by (apply Hp; eauto). split; reflexivity.
  - eexists. unfold DecryptMLKEM. io_run E. rewrite Hn. split; reflexivity.
Qed.

(** An oversized record is refused on its length prefix. When a prefix
    announces more than the chunk size and the tag, [readRecord] returns
    [ErrChunkTooLarge] without reading or allocating the record; a longer
    input than announced is never read past the record. *)
Theorem readRecord_bounds n maxRecord bs (w : world P) :
  0 <= n -> delivers (w_src w) bs ->
  (maxRecord < n -> readRecord n maxRecord w = (Err ErrChunkTooLarge, w)) /\
  (n <= maxRecord -> exists r,
    delivers r (drop (Z.to_nat n) bs) /\
    readRecord n maxRecord w =
      (if decide (len bs < n) then Err ErrTruncated else Ok (take (Z.to_nat n) bs), set_src w r)).
Proof.
  intros Hn Hd. unfold readRecord. split; intros H.
  - by rewrite decide_True by lia.
  - rewrite decide_False by lia. destruct (readRecordExact_delivers n w bs Hn Hd) as (r & E & Hr).
    by exists r.
Qed.
End reading_props.

(** ** Every moment of a call *)

Section moments.
Context {X : Type} {P : Platform X} {PL : PlatformLaws P} {C : Crypto}.

(** C5: no nonce is used twice, at any moment of any run. Take [writeChunks]
    as a machine that makes one step per turn of its loop, with any reader
    and any writer, which may fail anywhere. Its runs are exactly the paths
    of that machine. In every reachable state the chunks sealed so far, also
    the one whose record could not be written, have pairwise distinct nonces
    (until the 64-bit index has wrapped), each the nonce of its position,
    each with additional data that binds its position, length and finality;
    nothing is sealed after a final chunk; and the writer has received a
    prefix of the header and the framed records, all of it unless the call
    failed. *)
Theorem nonces_never_reused header c (w : world P) :
  (forall fuel res w', writeChunks fuel header c w = (res, w') ->
    exists s, rtc (step header c) (mkRun Fresh 0 [] w) s /\ rn_world s = w' /\ outcome s = res) /\
  (forall s, rtc (step header c) (mkRun Fresh 0 [] w) s ->
    (halted s -> exists fuel, writeChunks fuel header c w = (outcome s, rn_world s)) /\
    (len (rn_sealed s) <= 2 ^ 64 -> NoDup (se_nonce <$> rn_sealed s)) /\
    (forall j e, rn_sealed s !! j = Some e ->
      se_nonce e = chunkNonce (wrapu 64 (Z.of_nat j)) /\
      se_aad e = chunk_aad c (wrapu 64 (Z.of_nat j)) (se_final e) (len (se_plaintext e)) /\
      seals c e /\
      (se_final e = true -> S j = length (rn_sealed s) /\ halted s)) /\
    exists q, written (w_dst (rn_world s)) = written (w_dst w) ++ q /\
      q `prefix_of` header ++ frame (se_record <$> rn_sealed s) /\
      (outcome s = Ok () -> q = header ++ frame (se_record <$> rn_sealed s))).
Proof.
  split; [intros fuel res w' E; by apply run_path in E|].
  intros s Hs. destruct (invariant_reachable _ _ _ _ Hs) as [Hl Hp].
  split; [by apply path_run|]. split; [by apply (log_wf_NoDup c)|]. split.
  - intros j e Hj. destruct (Hl j e Hj) as (H1 & H2 & H3 & H4). split_and!; auto.
    intros Hf. split; [auto|]. unfold halted. unfold phase_wf in Hp. destruct (rn_phase s); try done.
    + destruct Hp as [Hp _]. by rewrite Hp in Hj.
    + destruct Hp as (_ & Hp & _). rewrite Forall_lookup in Hp. specialize (Hp j e Hj). congruence.
  - unfold outcome. unfold phase_wf in Hp. destruct (rn_phase s) as [|current| |e].
    + exists []. destruct Hp as [_ ->]. rewrite app_nil_r. split_and!; [done|apply prefix_nil|done].
    + destruct Hp as (_ & _ & ->). by eexists.
    + destruct Hp as (_ & ->). by eexists.
    + destruct Hp as (q & -> & Hq). by exists q.
Qed.
End moments.

(** ** A stalled reader *)

Section stalled.
Context {X : Type} {P : Platform X} {PL : PlatformLaws P} {C : Crypto} {CL : CryptoLaws C}
  {K : Circl P}.

(** A reader that returns [(0, nil)], which [io.Reader] permits and which
    says nothing about the end of the data, ends the stream for [readFull].
    When the caller's reader stalls so at once, [EncryptAEAD] reports
    success with the complete container of the empty payload, whatever the
    reader still holds. *)
Theorem EncryptAEAD_stalled_reader fuel suite cek chunkSize (w : world P) :
  aead_suite suite -> cek_usable cek -> 1 <= chunkSize <= MaxChunkSize ->
  (forall n, (0 < n)%nat -> Read (w_src w) n = ([], None, w_src w)) ->
  reliable (w_dst w) -> entropic (w_rng w) -> (0 < fuel)%nat ->
  exists key id salt out w', EncryptAEAD fuel suite cek chunkSize w = (Ok key, w') /\
    w_src w' = w_src w /\ written (w_dst w') = written (w_dst w) ++ out /\
    stream_of (mkHeader suite chunkSize id salt) key [] [] out.
Proof.
  intros Hs Hu Hcs Hr Hd Hg Hf.
  destruct (EncryptAEAD_stalled_ok fuel suite cek chunkSize w)
    as (key & id & salt & out & w' & E & Hsrc & Hst & W); auto.
  exists key, id, salt, out, w'. auto.
Qed.
End stalled.
