(* ===== verification/StreamAgreeProps.v ===== *)
(** What two runs of package [stream] have in common: the caller's reader and
    writer only matter by their bytes, and it makes no difference whether the
    private key is at hand or with the broker. *)

From Stdlib Require Import Morphisms.
From S2P Require Import Prelude GoError IO Crypto Format Chunks Errors Pb Client Aead Kem.
From S2P Require Import Stream StreamLemmas StreamSafety StreamAgree.

(** ** The entry points *)

Section entry_points.
Context {Gr : Grpc} {GS : GrpcStatus} {P : Platform B} {PL : PlatformLaws P} {C : Crypto} {K : Circl P}.

(** C10: the bytes are all that matters. Take any call of an entry point of
    package [stream] in two worlds that [agree]: the readers deliver the same
    bytes, honest or hostile, but may split them differently and report the end
    with the last bytes or alone; the writers are of any kind that does not
    fail. Then the two calls return the same result, key or error; the writers have
    accepted the same bytes, and the readers have the same bytes left; the random
    source and the broker are in the same state. *)
Theorem reader_independence fuel (e : entry_call) (w1 w2 : world P) : agree w1 w2 ->
  (entry_run fuel e w1).1 = (entry_run fuel e w2).1 /\
  agree (entry_run fuel e w1).2 (entry_run fuel e w2).2.
Proof. intros Hw. apply io_rel_run; [|exact Hw]. destruct e; cbn [entry_run]; rel_auto. Qed.
End entry_points.

(** ** Where the private key is *)

(** A key [DecryptMLKEM] goes on with. *)
Definition usable (r : result error bytes) : Prop :=
  match r with Ok cek => len cek = CEKLen | Err _ => False end.

Section transparent.
Context {X : Type} {P : Platform X} {C : Crypto}.

(** Two recoveries that find the same usable keys, and leave the files alone. *)
Definition same_recovery (m1 m2 : io bytes) : Prop := forall w1 w2 : world P, same_files w1 w2 ->
  ((m1 w1).1 = (m2 w2).1 \/ ~ usable (m1 w1).1 /\ ~ usable (m2 w2).1) /\
  same_files (m1 w1).2 w1 /\ same_files (m2 w2).2 w2.

(** What a call returned in two runs: the same, or two errors from before
    anything was released. *)
Definition same_outcome {A} (d : W) (p1 p2 : result error A * world P) : Prop :=
  (p1.1 = p2.1 \/ is_ok p1.1 = false /\ is_ok p2.1 = false /\ w_dst p1.2 = d) /\ same_files p1.2 p2.2.

Lemma same_outcome_step {A A'} (m : io A) (k1 k2 : A -> io A') (w1 w2 : world P) :
  keeps_dst m -> Proper (io_rel same_files) m -> same_files w1 w2 ->
  (forall a v1 v2, w_dst v1 = w_dst w1 -> same_files v1 v2 -> same_outcome (w_dst w1) (k1 a v1) (k2 a v2)) ->
  same_outcome (w_dst w1) ((m ≫= k1) w1) ((m ≫= k2) w2).
Proof.
  intros Hkeep Hm Hw Hk. unfold mbind, io_bind. specialize (Hkeep w1).
  destruct (Hm w1 w2 Hw) as [Hr Hs]. destruct (m w1) as [r1 v1], (m w2) as [r2 v2]. cbn in Hr, Hs, Hkeep.
  subst r2. destruct r1 as [a|e]; [by apply Hk|]. by split; [left|].
Qed.

Lemma same_outcome_recovery {A} (m1 m2 : io bytes) (k : bytes -> io A) (w1 w2 : world P) :
  same_recovery m1 m2 -> same_files w1 w2 -> (forall cek, Proper (io_rel same_files) (k cek)) ->
  (forall cek w, len cek <> CEKLen -> is_ok (k cek w).1 = false /\ same_files (k cek w).2 w) ->
  same_outcome (w_dst w1) ((m1 ≫= k) w1) ((m2 ≫= k) w2).
Proof.
  intros Hm Hw Hk Hbad. destruct (Hm w1 w2 Hw) as (Hr & H1 & H2). unfold mbind, io_bind.
  destruct (m1 w1) as [r1 v1], (m2 w2) as [r2 v2]. cbn [fst snd] in *.
  assert (same_files v1 v2) as Hv by (rewrite H1, Hw; by symmetry).
  assert (forall r (v : world P), ~ usable r -> let p := match r with Ok a => k a v | Err e => (Err e, v) end in
    is_ok p.1 = false /\ same_files p.2 v) as Hno.
  { intros [cek|e] v Hu; [by apply Hbad|by split]. }
  destruct Hr as [->|[N1 N2]].
  - destruct r2 as [cek|e]; [|by split; [left|]]. destruct (Hk cek v1 v2 Hv). split; [by left|done].
  - destruct (Hno r1 v1 N1) as [O1 S1], (Hno r2 v2 N2) as [O2 S2]. split.
    + right. split_and!; [exact O1|exact O2|]. destruct S1 as [_ ->]. apply H1.
    + rewrite S1, S2. exact Hv.
Qed.

Lemma readFixedHeader_keeps : keeps_dst (P := P) readFixedHeader.
Proof. apply keeps_dst_bind; [apply keeps_dst_readFull|]. intros buf w. by case_decide. Qed.

Context {K : Circl P}.

Lemma DecryptMLKEM_outcome {Rec1 Rec2} {Rc1 : CEKRecovery P Rec1} {Rc2 : CEKRecovery P Rec2} fuel ctx1 ctx2
    (rec1 : Rec1) (rec2 : Rec2) (w1 w2 : world P) :
  (forall env aad, same_recovery (RecoverCEK rec1 ctx1 env aad) (RecoverCEK rec2 ctx2 env aad)) ->
  same_files w1 w2 -> same_outcome (w_dst w1) (DecryptMLKEM fuel ctx1 rec1 w1) (DecryptMLKEM fuel ctx2 rec2 w2).
Proof.
  intros Hrec Hw. unfold DecryptMLKEM.
  apply same_outcome_step; [apply readFixedHeader_keeps|apply _|exact Hw|]. intros h u1 u2 <- Hu.
  destruct (mlKemCiphertextLen (suiteID h)); [|by split; [left|]].
  apply same_outcome_step; [apply readKEMEnvelope_keeps|apply _|exact Hu|]. intros env v1 v2 <- Hv.
  apply same_outcome_recovery; [apply Hrec|exact Hv|intros cek; rel_auto|].
  intros cek w Hcek. unfold with_wiped. rewrite decide_True by done. by split.
Qed.

(** The shared secret and the wrapping key are not the world's business. *)
Lemma openCEKLocal_world seed suite env aad (w1 w2 : world P) :
  (openCEKLocal seed suite env aad w1).1 = (openCEKLocal seed suite env aad w2).1 /\
  same_files (openCEKLocal seed suite env aad w1).2 w1.
Proof.
  unfold openCEKLocal. destruct (schemeForSuite suite); [|done]. case_decide; [done|].
  destruct (DeriveKeyPair _ _) as [pk sk]. destruct (MarshalBinary pk); [|done].
  destruct (Decapsulate _ _ _); [|done]. unfold with_wiped, mbind, io_bind, lift.
  by destruct (deriveKEMAEADKey _ _ _ _).
Qed.
End transparent.

Section broker_mirror.
Context {Gr : Grpc} {GS : GrpcStatus} {P : Platform B} {C : Crypto} {K : Circl P}.

(** The broker opens, under [keyID], exactly what the private key of [seed] opens. *)
Definition broker_mirrors (c : Client) (keyID : bytes) (suite : Suite) (seed : bytes) : Prop :=
  forall ctx env aad (w : world P),
    match (openCEKLocal seed suite env aad w).1,
      (Invoke AeadService_UnwrapEnvelope (conn c) ctx
        (mkUnwrapEnvelopeRequest keyID
          (Some (mkKemEnvelope (kemAlgorithm (mkBrokerCEKRecovery c keyID suite))
            EnvelopeAlgorithmAES256GCM 0 (EncapsulatedKey env) (Nonce env) (WrappedCEK env)))
          (Some aad)) [] (w_ext w)).1 with
    | Ok cek, Ok resp => UnwrapEnvelopeResponse_Plaintext resp = cek
    | Err _, Err _ => True
    | _, _ => False
    end.

Lemma broker_mirrors_recovery c keyID suite seed ctx1 ctx2 env aad : broker_mirrors c keyID suite seed ->
  same_recovery (RecoverCEK (NewLocalSeedCEKRecovery seed suite) ctx1 env aad)
    (RecoverCEK (NewBrokerCEKRecovery c keyID suite) ctx2 env aad).
Proof.
  intros Hb w1 w2 _. cbn [RecoverCEK LocalSeed_recovery Broker_recovery local_seed local_suite NewLocalSeedCEKRecovery].
  destruct (openCEKLocal_world seed suite env aad w1 w2) as [E S1]. rewrite E.
  specialize (Hb (effective c ctx2 (w_ext w2)) env aad w2).
  unfold broker_RecoverCEK, mbind, io_bind, via_broker, UnwrapEnvelope. rewrite unary_eq.
  cbn [broker_client broker_keyID NewBrokerCEKRecovery kemEnvelopeToProto env_KemAlgorithm
    env_EnvelopeAlgorithm env_KeyVersion env_EncapsulatedKey env_Nonce env_Bytes].
  unfold NewBrokerCEKRecovery.
  destruct (openCEKLocal _ _ _ _ w2).1 as [cek|e], (Invoke _ _ _ _ _ _) as [[resp|e'] b']; cbn in *;
    try done; [subst cek; cbn; case_decide; (split; [|done])|].
  - right. by split; [|intros []].
  - by left.
  - split; [right; by split; intros []|done].
Qed.

(** C11: where the private key is makes no difference. Let the broker open, under
    [keyID], exactly the envelopes that the private key of [seed] opens. Then on
    any input, honest or hostile, with any reader and any writer,
    [DecryptMLKEM] with a [BrokerCEKRecovery] and [DecryptMLKEM] with the
    [LocalSeedCEKRecovery] leave the same reader and the same writer behind, and
    return the same: success, or the same error, or each an error of its own
    when no content key was recovered, and then nothing has been written. *)
Theorem recovery_transparent fuel ctx1 ctx2 suite seed client keyID (w1 w2 : world P) :
  broker_mirrors client keyID suite seed -> same_files w1 w2 ->
  let l := DecryptMLKEM fuel ctx1 (NewLocalSeedCEKRecovery seed suite) w1 in
  let b := DecryptMLKEM fuel ctx2 (NewBrokerCEKRecovery client keyID suite) w2 in
  same_files l.2 b.2 /\
  (l.1 = b.1 \/ is_ok l.1 = false /\ is_ok b.1 = false /\ w_dst l.2 = w_dst w1).
Proof.
  intros Hb Hw l b. assert (same_outcome (w_dst w1) l b) as [H1 H2]; [|by split].
  apply DecryptMLKEM_outcome; [|exact Hw]. intros env aad. by apply broker_mirrors_recovery.
Qed.
End broker_mirror.
