(* ===== verification/StreamFaultProps.v ===== *)
(** The properties of package [stream] towards a failing or misbehaving outside:
    every fault is reported, and what a success is worth with any reader. *)

From S2P Require Import Prelude GoError IO Crypto Format Chunks ChunkSpec Errors Pb Client Kem Stream.
From S2P Require Import StreamAgree StreamLemmas KemLemmas StreamFaults StreamReaders.

Section faults.
Context {Gr : Grpc} {GS : GrpcStatus} {P : Platform B} {PL : PlatformLaws P} {C : Crypto} {K : Circl P}.
Context {H : History P} {KH : KemHistory H K}.

(** C28: no fault is swallowed. Take any call of an entry point of package
    [stream], with a reader, a writer and a random source that may fail at any
    call, and [t] what the call did to them. Either none of their calls failed,
    and the writer has accepted everything it was handed; or exactly one failed,
    it was the last one made of its party, and the result is its error: the very
    error of the reader or the writer, the random source's with the package's
    prefix, or [ErrBadPublicKey] when it failed on a draw [circl] made inside
    [Encapsulate]. In particular a call that returns no error met none, the end
    of the input apart. *)
Theorem faults_reported fuel (e : entry_call) (w w' : world P) r : entry_run fuel e w = (r, w') ->
  exists t, traced w t w' /\ reported t r /\
    (is_ok r = true -> faultless t /\ written (w_dst w') = written (w_dst w) ++ concat (we_data <$> t_writes t)).
Proof.
  intros E. destruct (observed_entry_run fuel e w r w' E) as (t & Ht & Hr). exists t. split_and!; [done..|].
  intros Hok. destruct r; [|done]. apply reported_Ok in Hr as Hf. split; [done|].
  destruct (traced_written _ _ _ Ht) as (q & Hw & _ & Hq). by rewrite Hw, Hq by apply Hf.
Qed.
End faults.

Section any_reader.
Context {X : Type} {P : Platform X} {PL : PlatformLaws P} {C : Crypto} {CL : CryptoLaws C}.
Context {K : Circl P} {KL : CirclLaws K} {H : History P}.

(** C40: what a success of an encryption is worth, with any writer, any random
    source and any reader that stores no more than fits. Let [evs] be the reads
    of a call of [EncryptAEAD] that returned a key, or of a call of
    [EncryptMLKEM] for the public key of [seed] that returned no error. If the
    reader never delivered bytes after a read [readFull] gave up on, then
    decrypting what the call has written, with that key or that seed, gives back
    exactly the bytes the reader delivered. If it did, as a reader may that
    returns [(0, nil)] once, which [io.Reader] permits, then the container is
    lost: the decryption refuses it with [ErrAuthFailed], although the
    encryption reported success. *)
Theorem encrypt_any_reader fuel suite cs (w w' : world P) : within_buffer (P := P) ->
  (forall cek key, EncryptAEAD fuel suite cek cs w = (Ok key, w') ->
    exists evs out, reads (w_src w') = reads (w_src w) ++ evs /\ written (w_dst w') = written (w_dst w) ++ out /\
      worth evs out (fun fuel' => DecryptAEAD fuel' key)) /\
  (forall seed publicKey u, PublicKeyFromSeed seed suite = Ok publicKey ->
    EncryptMLKEM fuel suite publicKey cs w = (Ok u, w') ->
    exists evs out, reads (w_src w') = reads (w_src w) ++ evs /\ written (w_dst w') = written (w_dst w) ++ out /\
      forall ctx, worth evs out (fun fuel' => DecryptMLKEM fuel' ctx (NewLocalSeedCEKRecovery seed suite))).
Proof.
  intros Hb. split.
  - intros cek key E. apply EncryptAEAD_Ok in E
      as (id & salt & mk & w1 & w2 & u & Hs & Hh & Hk & _ & Ek & Hsrc & Hdst & E & -> & ->).
    set (h := mkHeader suite cs id salt) in *. rewrite <-(app_nil_r (writeFixedHeader _ _ _ _ _)) in E.
    apply (writeChunks_container fuel h key [] mk) in E
      as (a & p & ps & evs & Ha & Hr & W & Hcat & Hp & Hps & Hres); [|done..].
    exists evs. eexists. rewrite <-Hsrc, <-Hdst. split; [exact Hr|]. split; [exact W|]. intros fuel' v Hf Hrv Hdv.
    pose proof (container_shorter h [] a (context_of h mk) p ps) as [Hl1 Hl2].
    destruct (resumes evs).
    + eapply (DecryptAEAD_short h); eauto; [|lia]. intros Hfull. by apply Hres in Hfull.
    + rewrite <-Hcat. eapply (DecryptAEAD_ok _ h); eauto; [|lia]. apply full_pieces_stream; auto. by apply Hres.
  - intros seed publicKey u Hpk E. apply (EncryptMLKEM_Ok _ _ seed) in E
      as (n & cek & id & salt & env & mk & w1 & w2 & u' & Hs & Hh & Hk & He & Ho & Ek & Hsrc & Hdst & E & -> & ->);
      [|done].
    set (h := mkHeader suite cs id salt) in *. apply (writeChunks_container fuel h cek (serializeKEMHeader env) mk) in E
      as (a & p & ps & evs & Ha & Hr & W & Hcat & Hp & Hps & Hres); [|done..].
    exists evs. eexists. rewrite <-Hsrc, <-Hdst. split; [exact Hr|]. split; [exact W|]. intros ctx fuel' v Hf Hrv Hdv.
    pose proof (container_shorter h (serializeKEMHeader env) a (context_of h mk) p ps) as [Hl1 Hl2].
    pose proof (local_recovers _ _ ctx _ _ _ Ho) as Hrec. destruct (resumes evs).
    + eapply (DecryptMLKEM_short h); eauto; [|lia]. intros Hfull. by apply Hres in Hfull.
    + rewrite <-Hcat. eapply (DecryptMLKEM_ok _ _ _ h); eauto; [|lia].
      apply full_pieces_stream; auto. by apply Hres.
Qed.
End any_reader.
