(* ===== verification/ClientProps.v ===== *)
(** The properties of the client's core in package [basil]: errors, dialing,
    deadlines, and the AEAD, signing, secret and invocation methods. *)

From S2P Require Import Prelude GoError Errors Pb Client Keytype Aead Signing Secret Invocation.

(** ** Errors *)

Section errors.
Context {GS : GrpcStatus} {GSL : GrpcStatusLaws GS}.

(** C29: [FromError] normalises. Nil stays nil; an error that neither is nor
    wraps a gRPC status is returned as it is; any other becomes a
    [*StatusError] with the status code, the reason and operation of the
    first [BrokerErrorInfo] detail (empty without one), and the status
    message, or the text of the whole error when the status was wrapped.
    [AsStatusError] finds that error again. *)
Theorem FromError_spec (e : error) :
  FromError None = None /\
  (chain_status e = None -> FromError (Some e) = Some e) /\
  (forall st, chain_status e = Some st -> exists se,
    FromError (Some e) = Some (EStatusError se) /\ AsStatusError (EStatusError se) = Some se /\
    Code se = st_Code st /\
    Message se = match Unwrap e with Some _ => error_text e | None => st_Message st end /\
    match first_info (st_Details st) with
    | Some i => Reason se = BrokerErrorInfo_reason i /\ Op se = BrokerErrorInfo_op i
    | None => Reason se = [] /\ Op se = []
    end).
Proof.
  split; [done|]. split.
  - intros H%FromError_other. simpl. destruct (status_FromError e) as [st ok]. simpl in H. by subst.
  - intros st H. destruct (Unwrap e) as [c|] eqn:Hu.
    + exists (status_error_of (mkStatus (st_Code st) (error_text e) (st_Details st))).
      unfold FromError. rewrite (FromError_wrapped _ _ H) by (by rewrite Hu). simpl.
      rewrite fill_details_eq. split_and!; auto. by destruct (first_info _).
    + exists (status_error_of st). unfold FromError. rewrite (FromError_direct _ _ H Hu). simpl.
      rewrite fill_details_eq. destruct st. split_and!; auto. simpl. by destruct (first_info _).
Qed.

(** Normalising twice loses the broker's reason. [FromError] applied to
    an error it has already normalised keeps the code and the message but
    drops [Reason] and [Op]; applied to an error that wraps one, it also
    replaces the message. *)
Theorem FromError_renormalise (se : StatusError) fmt args :
  FromError (Some (EStatusError se)) =
    Some (EStatusError (mkStatusError (Code se) [] [] (Message se))) /\
  FromError (Some (Wrapf fmt args (EStatusError se))) =
    Some (EStatusError (mkStatusError (Code se) [] []
      (error_text (Wrapf fmt args (EStatusError se))))).
Proof.
  unfold FromError. split.
  - by rewrite (FromError_direct (EStatusError se) (GRPCStatus se)).
  - rewrite (FromError_wrapped (Wrapf fmt args (EStatusError se)) (GRPCStatus se)); [done..|].
    by eexists.
Qed.
End errors.

(** ** Dialing *)

(** The options the package offers, as data. *)
Inductive option_spec := OptTimeout (d : Z) | OptDial (opts : list DialOption).

Definition to_option (o : option_spec) : Option :=
  match o with OptTimeout d => WithTimeout d | OptDial opts => WithDialOptions opts end.

Definition credentials_of (o : DialOption) : option bool :=
  match o with WithTransportCredentials i => Some i | _ => None end.
Definition dialer_of (o : DialOption) : option (bytes * bytes) :=
  match o with WithContextDialer n a => Some (n, a) | _ => None end.

Definition user_options (specs : list option_spec) : list DialOption :=
  concat (map (fun o => match o with OptDial opts => opts | OptTimeout _ => [] end) specs).
Definition last_timeout (specs : list option_spec) : Z :=
  foldl (fun t o => match o with OptTimeout d => d | OptDial _ => t end) DefaultTimeout specs.

Lemma config_of_specs specs t opts :
  foldl (fun cfg (opt : Option) => opt cfg) (mkConfig t opts) (to_option <$> specs) =
  mkConfig (foldl (fun t o => match o with OptTimeout d => d | OptDial _ => t end) t specs)
    (opts ++ user_options specs).
Proof.
  revert t opts. induction specs as [|[d|os] specs IH]; intros t opts; simpl.
  - by rewrite app_nil_r.
  - unfold WithTimeout. cbn [cfg_dialOptions]. by rewrite IH.
  - unfold WithDialOptions. cbn [cfg_dialOptions cfg_timeout]. rewrite IH.
    unfold user_options. cbn [map concat]. by rewrite app_assoc.
Qed.

Section dial.
Context {Gr : Grpc} {GS : GrpcStatus}.

(** C30: [Dial]. The empty path is refused before anything is dialed. For any
    other, whatever options the caller gives in whatever order, the
    connection is made to the passthrough target of that path with all of
    the caller's dial options and, winning over any of them, plaintext
    credentials, the authority localhost and a dialer for that Unix socket;
    the client's timeout is that of the last [WithTimeout], 30 seconds
    without one; an error of grpc is wrapped, not replaced. *)
Theorem Dial_spec socketPath specs :
  (socketPath = [] -> exists e, Dial socketPath (to_option <$> specs) = Err e /\ Unwrap e = None) /\
  (socketPath <> [] -> exists dialOpts,
    user_options specs `prefix_of` dialOpts /\
    last_of credentials_of dialOpts = Some true /\
    last_of authority_of dialOpts = Some (str "localhost") /\
    last_of dialer_of dialOpts = Some (str "unix", socketPath) /\
    match NewClient (str "passthrough:///" ++ socketPath) dialOpts with
    | Ok conn => Dial socketPath (to_option <$> specs) = Ok (mkClient conn (last_timeout specs))
    | Err err => exists e, Dial socketPath (to_option <$> specs) = Err e /\ Is e err = true
    end).
Proof.
  unfold Dial. split; intros Hp.
  - eexists. rewrite decide_True by done. split; reflexivity.
  - rewrite decide_False, config_of_specs by done. cbn [cfg_dialOptions cfg_timeout app].
    exists (user_options specs ++ [WithTransportCredentials true; WithAuthority (str "localhost");
      WithContextDialer (str "unix") socketPath]).
    split; [by eexists|]. split; [|split; [|split]].
    1-3: rewrite last_of_app; reflexivity.
    destruct (NewClient _ _) as [conn|err]; [done|]. eexists. split; [done|].
    apply Is_wrap, Is_refl.
Qed.

(** The deadline of an RPC. A context that has a deadline is passed on as
    it is; one without gets the client's timeout from now, and is passed on
    as it is when that timeout is disabled (zero or less). The broker is
    called under that context by every unary method, as by [Sign] here, and
    its error is normalised. *)
Theorem rpc_deadline c ctx keyID message b :
  Sign c ctx keyID message b =
    (let (r, b') := Invoke SigningService_Sign (conn c) (effective c ctx b)
       (mkSignRequest keyID message SigningAlgorithmUnspecified) [] b in
     match r with
     | Ok resp => (Ok (SignResponse_Signature resp), b')
     | Err err => (Err (statusError err), b')
     end) /\
  Deadline (effective c ctx b) =
    match Deadline ctx with
    | Some t => Some t
    | None => if decide (timeout c <= 0) then None else Some (now b + timeout c)
    end.
Proof.
  split.
  - unfold Sign, SignWithAlgorithm. rewrite unary_eq. by destruct (Invoke _ _ _ _ _ _) as [[] ?].
  - unfold effective, context_WithTimeout. destruct ctx as [[t|]]; simpl; by case_decide.
Qed.

(** ** Encryption through the broker *)

(** The broker decrypts what it encrypted: a [Decrypt] (or [UnwrapEnvelope])
    with the envelope, key id and additional data of a successful [Encrypt]
    ([WrapEnvelope]) returns the plaintext, later and under any context. *)
Definition broker_decrypts (c : Client) : Prop :=
  forall ctx ctx' keyID alg plaintext aad env b b1 b2,
    Invoke AeadService_Encrypt (conn c) ctx (mkEncryptRequest keyID alg plaintext aad) [] b =
      (Ok (mkEncryptResponse (Some env)), b1) ->
    exists b3, Invoke AeadService_Decrypt (conn c) ctx' (mkDecryptRequest keyID (Some env) aad) [] b2 =
      (Ok (mkDecryptResponse plaintext), b3).

Definition broker_unwraps (c : Client) : Prop :=
  forall ctx ctx' keyID kem env plaintext aad envelope b b1 b2,
    Invoke AeadService_WrapEnvelope (conn c) ctx
      (mkWrapEnvelopeRequest keyID kem env plaintext aad) [] b =
      (Ok (mkWrapEnvelopeResponse (Some envelope)), b1) ->
    exists b3, Invoke AeadService_UnwrapEnvelope (conn c) ctx'
      (mkUnwrapEnvelopeRequest keyID (Some envelope) aad) [] b2 =
      (Ok (mkUnwrapEnvelopeResponse plaintext), b3).

(** The client transports envelopes faithfully. With a broker that
    decrypts what it encrypted, what [Encrypt] returned is decrypted by
    [Decrypt] to the same plaintext, nil and empty additional data kept
    apart; likewise [WrapEnvelope] and [UnwrapEnvelope]; and a response
    without an envelope is an error. *)
Theorem envelope_roundtrip c ctx ctx' keyID alg kem plaintext aad b b1 b2 :
  broker_decrypts c -> broker_unwraps c ->
  (forall ct, Encrypt c ctx keyID alg plaintext aad b = (Ok ct, b1) ->
    exists b3, Decrypt c ctx' keyID (Some ct) aad b2 = (Ok plaintext, b3)) /\
  (forall env, WrapEnvelope c ctx keyID kem alg plaintext aad b = (Ok env, b1) ->
    exists b3, UnwrapEnvelope c ctx' keyID (Some env) aad b2 = (Ok plaintext, b3)).
Proof.
  intros Hd Hw. split.
  - intros ct E. unfold Encrypt in E. rewrite unary_eq in E.
    destruct (Invoke AeadService_Encrypt _ _ _ _ _) as [[[[env|]]|] b'] eqn:Ei; try done.
    injection E as <- <-.
    destruct (Hd _ (effective c ctx' b2) _ _ _ _ _ _ _ b2 Ei) as (b3 & E3).
    exists b3. unfold Decrypt. rewrite unary_eq. cbn [ciphertextToProto ct_Algorithm ct_KeyVersion
      ct_Nonce ct_Bytes]. destruct env. simpl. by rewrite E3.
  - intros en E. unfold WrapEnvelope in E. rewrite unary_eq in E.
    destruct (Invoke AeadService_WrapEnvelope _ _ _ _ _) as [[[[env|]]|] b'] eqn:Ei; try done.
    injection E as <- <-.
    destruct (Hw _ (effective c ctx' b2) _ _ _ _ _ _ _ _ b2 Ei) as (b3 & E3).
    exists b3. unfold UnwrapEnvelope. rewrite unary_eq. cbn [kemEnvelopeToProto env_KemAlgorithm
      env_EnvelopeAlgorithm env_KeyVersion env_EncapsulatedKey env_Nonce env_Bytes].
    destruct env. simpl. by rewrite E3.
Qed.
End dial.

(** ** The catalog stream *)

Section catalog.
Context {Gr : Grpc} {GS : GrpcStatus}.

Lemma drain_yields s b evs last b' entries fuel :
  yields s b evs last b' -> (length evs < fuel)%nat ->
  drain fuel entries s b =
    (if Is last EOF then Ok (entries ++ map catalogEntryFromProto evs) else Err (statusError last), b').
Proof.
  intros Hy. revert entries fuel. induction Hy as [s b last b' E|s b e s' b1 evs last b' E Hy IH];
    intros entries fuel Hf; (destruct fuel as [|fuel]; [simpl in Hf; lia|]); cbn [drain]; rewrite E.
  - rewrite app_nil_r. by destruct (Is last EOF).
  - rewrite IH by (simpl in Hf; lia). cbn [map]. by rewrite <-app_assoc.
Qed.

(** [ListCatalog] returns the whole listing or an error, never a part of
    it: the entries in the order of the stream when that ends cleanly, the
    stream's normalised error when it breaks off, however many entries came
    before. *)
Theorem ListCatalog_spec fuel c ctx prefix b s b1 evs last b' :
  NewStream SecretService_ListCatalog (conn c) (effective c ctx b) (mkListCatalogRequest prefix) b =
    (Ok s, b1) ->
  yields s b1 evs last b' -> (length evs < fuel)%nat ->
  ListCatalog fuel c ctx prefix b =
    (if Is last EOF then Ok (map catalogEntryFromProto evs) else Err (statusError last), b').
Proof.
  intros Hs Hy Hf. unfold ListCatalog.
  rewrite (rpc_bind_Ok _ _ _ _ _ (withTimeout_eq c ctx b)).
  unfold open_stream, mbind, rpc_bind. rewrite Hs. by rewrite (drain_yields _ _ _ _ _ [] _ Hy Hf).
Qed.
End catalog.

(** ** Importing keys *)

Section import.
Context {Gr : Grpc} {GS : GrpcStatus}.

Definition import_entry (e : Entry) (m : Material) : ImportEntry :=
  mkImportEntry (entry_KeyID e) (entry_KeyType e) (Some (material_toProto m)).

Lemma import_entries_ok i entries ms :
  map entry_Material entries = map Some ms ->
  import_entries i entries = Ok (zip_with import_entry entries ms).
Proof.
  revert i ms. induction entries as [|e entries IH]; intros i [|m ms] E; try done.
  injection E as E1 E2. cbn [import_entries]. by rewrite E1, (IH _ ms E2).
Qed.

Lemma import_entries_err i pre e post ms :
  map entry_Material pre = map Some ms -> entry_Material e = None ->
  import_entries i (pre ++ e :: post) =
    Err (Errorf "basil: ImportSet entry %d (%q) requires non-nil key material"
      [AInt (i + len pre); AStr (entry_KeyID e)]).
Proof.
  revert i ms. induction pre as [|p pre IH]; intros i [|m ms] E He; try done; cbn [app import_entries].
  - rewrite He. do 4 f_equal. unfold len. simpl. lia.
  - injection E as E1 E2. rewrite E1, (IH _ ms E2 He). simpl. do 4 f_equal. rewrite len_cons. lia.
Qed.

(** [ImportSet] is all or nothing on the client's side. When an entry has
    no material the call fails naming the first such entry, and the broker
    is not called; otherwise one request carries every entry, in order, with
    its own key type and material, and the handles are returned in the
    order of the response. *)
Theorem ImportSet_spec c ctx b :
  (forall pre e post ms, map entry_Material pre = map Some ms -> entry_Material e = None ->
    ImportSet c ctx (pre ++ e :: post) b =
      (Err (Errorf "basil: ImportSet entry %d (%q) requires non-nil key material"
         [AInt (len pre); AStr (entry_KeyID e)]), b)) /\
  (forall entries ms, map entry_Material entries = map Some ms ->
    ImportSet c ctx entries b =
      (let (r, b') := Invoke SigningService_ImportSet (conn c) (effective c ctx b)
         (mkImportSetRequest (zip_with import_entry entries ms)) [] b in
       match r with
       | Ok resp => (Ok (map (fun k => mkKeyHandle (ImportedKey_KeyId k) (ImportedKey_PublicKey k))
           (ImportSetResponse_Keys resp)), b')
       | Err err => (Err (statusError err), b')
       end)).
Proof.
  split.
  - intros pre e post ms E He. unfold ImportSet. by rewrite (import_entries_err 0 _ _ _ ms E He).
  - intros entries ms E. unfold ImportSet. rewrite (import_entries_ok 0 _ ms E), unary_eq.
    by destruct (Invoke _ _ _ _ _ _) as [[] ?].
Qed.
End import.

(** Key types from the wire. The twelve known values are kept, as
    [keyTypeToProto] sends them; every other value of the wire, known to a
    newer broker or not, is unspecified. *)
Theorem keyType_closed v :
  (1 <= v <= 12 -> keyTypeFromProto (keyTypeToProto v) = v) /\
  (~ 1 <= v <= 12 -> keyTypeFromProto v = KeyTypeUnspecified).
Proof. unfold keyTypeToProto. rewrite keyTypeFromProto_eq. split; intros H; by case_decide. Qed.

(** ** The invocation listener *)

Section invocation.
Context {Gr : Grpc} {GS : GrpcStatus}.

(** The invocation listener's answers are closed. Capabilities are only
    returned with the host or the courier profile, each under its own wire
    value, the other fields as the broker sent them; a challenge is only
    asked for a 32-byte thumbprint and only returned with 32 bytes; without
    an observed source the request has none, rather than an empty one. *)
Theorem invocation_closed c ctx jkt source b b' :
  (forall ic, GetInvocationCapabilities c ctx b = (Ok ic, b') -> exists resp,
    Invoke InvocationService_GetInvocationCapabilities (conn c) (effective c ctx b)
      mkGetInvocationCapabilitiesRequest [] b = (Ok resp, b') /\
    (ic_ListenerProfile ic = InvocationListenerHost \/ ic_ListenerProfile ic = InvocationListenerCourier) /\
    resp = mkGetInvocationCapabilitiesResponse (ic_ListenerProfile ic) (ic_RequireChallenge ic)
      (ic_CourierProtocolVersion ic)) /\
  (len jkt <> 32 -> exists e, GetInvocationChallenge c ctx jkt source b = (Err e, b)) /\
  (forall ch, GetInvocationChallenge c ctx jkt source b = (Ok ch, b') ->
    len jkt = 32 /\ len (ich_Challenge ch) = 32 /\
    Invoke InvocationService_GetInvocationChallenge (conn c) (effective c ctx b)
      (mkGetInvocationChallengeRequest jkt (if decide (source = []) then None else Some source)) [] b =
      (Ok (mkGetInvocationChallengeResponse (ich_Challenge ch) (ich_Generation ch)
         (ich_ExpiresAtUnix ch)), b')).
Proof.
  split_and!.
  - intros ic E. unfold GetInvocationCapabilities in E. rewrite unary_eq in E.
    destruct (Invoke _ _ _ _ _ _) as [[[p rc v]|err] b1] eqn:Ei; [|done].
    cbn [GetInvocationCapabilitiesResponse_ListenerProfile
      GetInvocationCapabilitiesResponse_RequireChallenge
      GetInvocationCapabilitiesResponse_CourierProtocolVersion] in E.
    case_decide as H1; [|case_decide as H2; [|case_decide; done]];
      injection E as <- <-; eexists; (split; [done|]); simpl; subst p; auto.
  - intros Hj. unfold GetInvocationChallenge. rewrite decide_True by done. eexists. reflexivity.
  - intros ch E. unfold GetInvocationChallenge in E. case_decide as Hj; [done|].
    rewrite unary_eq in E.
    destruct (Invoke _ _ _ _ _ _) as [[[chal gen exp]|err] b1] eqn:Ei; [|done].
    cbn in E. case_decide as Hc; [done|]. injection E as <- <-. cbn.
    unfold InvocationChallengeLen in *. split_and!; auto; lia.
Qed.
End invocation.
