(* ===== verification/ServiceProps.v ===== *)
(** The properties of the minting and administration methods of package
    [basil]. *)

From stdpp Require Import pretty.
From S2P Require Import Prelude GoTime GoText GoError Errors Pb Client Minting Admin.

(** ** Claim documents *)

Section claims.
Context {Gr : Grpc} {GS : GrpcStatus} {WK : WellKnown} {JE : JsonEncoder}.

(** The text a claims value stands for. *)
Definition encoding (v : any) : result error bytes :=
  match v with
  | AnyRawMessage v | AnyBytes v | AnyString v => Ok v
  | AnyOther v => json_Marshal v
  end.

(** The request carries no claims. *)
Definition refuses_claims (req : JwtRequest) : Prop :=
  exists v, jr_Claims req = Some v /\ is_ok (objectJSON (Some v) "jwt claims") = false.

Lemma objectJSON_Ok value label doc : objectJSON (Some value) label = Ok doc ->
  exists raw, encoding value = Ok raw /\ doc = TrimSpace raw /\ json_Valid doc = true /\
    head doc = Some x7b.
Proof.
  unfold objectJSON. intros H.
  assert (exists raw, encoding value = Ok raw /\ (let raw := TrimSpace raw in
    if decide (len raw = 0) then Err (Errorf "basil: invalid %s: missing JSON object" [AStr (str label)])
    else if negb (json_Valid raw) then Err (Errorf "basil: invalid %s: malformed JSON" [AStr (str label)])
    else if decide (head raw <> Some x7b) then
      Err (Errorf "basil: invalid %s: expected JSON object" [AStr (str label)])
    else Ok raw) = Ok doc) as (raw & E & H').
  { destruct value as [v|v|v|v]; [by exists v..|]. simpl in *.
    destruct (json_Marshal v) as [raw|]; [by exists raw|done]. }
  exists raw. cbv zeta in H'. case_decide; [done|].
  destruct (json_Valid (TrimSpace raw)) eqn:Ev; [|done]. cbn [negb] in H'.
  destruct (decide (head (TrimSpace raw) <> Some x7b)) as [|Hh]; [done|]. injection H' as <-.
  split_and!; try done. by destruct (decide (head (TrimSpace raw) = Some x7b)).
Qed.

(** C31: claim documents. What is sent as claims is a valid JSON object,
    cut out of the caller's text between white space, nothing else changed;
    every valid braced document, with whatever white space around it, is
    accepted and sent as that document; and when [SignNatsJwt] has no such
    document, or [MintJwt] has claims that are not one, the call fails
    without reaching the broker. *)
Theorem claims_document value label pre body post :
  let doc := x7b :: body ++ [x7d] in
  (forall sent, objectJSON (Some value) label = Ok sent -> exists raw pre post,
    encoding value = Ok raw /\ raw = concat pre ++ sent ++ concat post /\
    Forall is_space pre /\ Forall is_space post /\ json_Valid sent = true /\ head sent = Some x7b) /\
  (encoding value = Ok (concat pre ++ doc ++ concat post) ->
    Forall is_space pre -> Forall is_space post -> json_Valid doc = true ->
    objectJSON (Some value) label = Ok doc) /\
  (forall c ctx req b, refuses_claims req -> exists e, MintJwt c ctx req b = (Err e, b)) /\
  (forall c ctx req b, (forall doc, objectJSON (nj_Claims req) "nats jwt claims" <> Ok doc) ->
    exists e, SignNatsJwt c ctx req b = (Err e, b)).
Proof.
  intros doc. split_and!.
  - intros sent H. apply objectJSON_Ok in H as (raw & E & -> & Hv & Hh).
    destruct (TrimSpace_spec raw) as (p & q & Er & Hp & Hq). exists raw, p, q. done.
  - intros E Hp Hq Hv.
    assert (TrimSpace (concat pre ++ doc ++ concat post) = doc) as Ht by by apply TrimSpace_braced.
    revert Ht E. generalize (concat pre ++ doc ++ concat post). intros raw Ht E.
    unfold objectJSON. destruct value as [v|v|v|v]; cbn [encoding] in E.
    1-3: injection E as ->; rewrite Ht, Hv; done.
    rewrite E, Ht, Hv. done.
  - intros c ctx req b (v & E & H). unfold MintJwt. rewrite E. cbn [optionalObjectJSON].
    destruct (objectJSON (Some v) "jwt claims") as [|e]; [done|]. by exists e.
  - intros c ctx req b H. unfold SignNatsJwt, NatsClient_SignNatsJwt.
    destruct (objectJSON _ _) as [d|e]; [by destruct (H d)|]. by exists e.
Qed.
End claims.

(** ** Lifetimes *)

Section lifetimes.
Context {Gr : Grpc} {GS : GrpcStatus} {WK : WellKnown} {WKL : WellKnownLaws WK} {JE : JsonEncoder}.

(** The value of a message in nanoseconds. *)
Definition pb_nanos (d : pbDuration) : Z := Duration_Seconds d * Second + Duration_Nanos d.

Definition with_TTL (req : JwtRequest) (d : Z) : JwtRequest :=
  mkJwtRequest (jr_KeyID req) (jr_Subject req) d (jr_Claims req).

(** A time the [time] package can hold. *)
Definition time_ok (t : Time) : Prop := - 2 ^ 63 <= t_sec t < 2 ^ 63 /\ 0 <= t_nsec t < Second.

(** Lifetimes cross the wire exactly. A positive TTL is sent, and is sent
    as that many nanoseconds; any other sends none, so a negative TTL mints
    what a zero one does, a token without expiry. The zero time is not sent;
    any other time is sent as the message that means it. The credential has
    the token of the broker, the broker's expiry, and the zero time without
    one. *)
Theorem lifetimes_exact d t c ctx req b :
  - 2 ^ 63 <= d < 2 ^ 63 -> time_ok t ->
  (pb_nanos <$> durationOrNil d = if decide (0 < d) then Some d else None) /\
  (AsTime <$> timestampOrNil t = if decide (t = zeroTime) then None else Some t) /\
  (d <= 0 -> MintJwt c ctx (with_TTL req d) b = MintJwt c ctx (with_TTL req 0) b) /\
  (forall token, credentialFromProto (mkCredentialResponse token None) = mkCredential token zeroTime /\
    credentialFromProto (mkCredentialResponse token (Some (timestamppb_New t))) = mkCredential token t).
Proof.
  intros Hd [Hs Hn]. split_and!.
  - unfold durationOrNil. case_decide; case_decide; try lia; [done|].
    simpl. unfold pb_nanos. by rewrite durationpb_New_denotes.
  - unfold timestampOrNil, IsZero, zeroTime. destruct t as [s n]. simpl in *.
    case_decide as E; [by injection E as -> ->|].
    assert (bool_decide (s = 0) && bool_decide (n = 0) = false) as ->.
    { apply not_true_is_false. intros [H1 H2]%andb_prop. apply bool_decide_eq_true in H1, H2. by subst. }
    simpl. by rewrite AsTime_New.
  - intros H. unfold MintJwt, durationOrNil. cbn [with_TTL jr_TTL jr_KeyID jr_Subject jr_Claims].
    by rewrite decide_True by done.
  - intros token. unfold credentialFromProto. simpl. by rewrite AsTime_New.
Qed.
End lifetimes.

(** ** Validating a NATS token *)

Section validate.
Context {Gr : Grpc} {GS : GrpcStatus}.

Definition usable (s : AllowedSigner) : Prop := signer_keyID s <> [] \/ signer_natsPublicKey s <> [].

(** The candidate on the wire: the key id wins. *)
Definition signer_message (s : AllowedSigner) : AllowedNatsSigner :=
  mkAllowedNatsSigner (Some (if decide (signer_keyID s = [])
    then AllowedNatsSigner_NatsPublicKey (signer_natsPublicKey s)
    else AllowedNatsSigner_KeyId (signer_keyID s))).

Lemma allowed_signers_ok signers : Forall usable signers ->
  allowed_signers signers = Ok (map signer_message signers).
Proof.
  induction 1 as [|s signers Hs _ IH]; [done|]. cbn [allowed_signers map].
  unfold AllowedSigner_toProto, signer_message. rewrite IH.
  destruct Hs; repeat case_decide; done.
Qed.

Lemma allowed_signers_err pre s post : Forall usable pre -> ~ usable s ->
  exists e, allowed_signers (pre ++ s :: post) = Err e.
Proof.
  intros Hp Hs. induction Hp as [|p pre Hu Hp [e IH]]; cbn [app allowed_signers].
  - unfold AllowedSigner_toProto. rewrite decide_False, decide_True; [by eexists|..]; unfold usable in Hs.
    + destruct (decide (signer_natsPublicKey s = [])); tauto.
    + tauto.
  - rewrite IH. destruct (AllowedSigner_toProto p) as [m|e']; [by exists e|by exists e'].
Qed.

(** The time [t] is what became of the seconds [u] of the wire, an uint64: exact
    while it fits the seconds [time.Time] can hold (0 means none), and before 1970
    beyond those. *)
Definition wire_time (u : Z) (t : Time) : Prop :=
  (0 <= u < 2 ^ 63 - unixToInternal ->
    t = if decide (u = 0) then zeroTime else mkTime (u + unixToInternal) 0) /\
  (2 ^ 63 - unixToInternal <= u < 2 ^ 64 -> t_sec t < unixToInternal).

Lemma wire_time_of u : wire_time u (if decide (u <> 0) then time_Unix (wraps 64 u) else zeroTime).
Proof.
  unfold wire_time, unixToInternal. split.
  - intros H. destruct (decide (u = 0)) as [->|Hn]; [done|]. rewrite decide_True by done.
    unfold time_Unix, unixToInternal. rewrite (wraps_small 64 u), wraps_small by lia. done.
  - intros H. rewrite decide_True by lia. cbn [time_Unix t_sec]. unfold unixToInternal, wraps.
    change (64 - 1) with 63. destruct (decide (u < 2 ^ 63)).
    + rewrite (Z.mod_small (u + 2 ^ 63)) by lia.
      replace (u + 2 ^ 63 - 2 ^ 63 + 62135596800 + 2 ^ 63)
        with (u + 62135596800 - 2 ^ 63 + 1 * 2 ^ 64) by lia.
      rewrite Z.mod_add by lia. rewrite Z.mod_small by lia. lia.
    + replace (u + 2 ^ 63) with (u - 2 ^ 63 + 1 * 2 ^ 64) by lia.
      rewrite Z.mod_add by lia. rewrite (Z.mod_small (u - 2 ^ 63)) by lia.
      rewrite Z.mod_small by lia. lia.
Qed.

(** C36: [ValidateNatsJwt]. With an unusable candidate signer the call fails and
    the broker is not asked; otherwise it is asked about the token with every
    candidate, in order, and the verdict, the reason, the subject, the issuer, the
    matched signer and the type come back as the broker gave them. The expiry and
    the time of issue are exact while they fit the seconds [time.Time] can hold,
    0 standing for none; an expiry beyond those is reported as one before 1970,
    never as one in the future, and so is a time of issue. *)
Theorem ValidateNatsJwt_spec c ctx req b :
  (forall pre s post, vr_AllowedSigners req = pre ++ s :: post -> Forall usable pre -> ~ usable s ->
    exists e, ValidateNatsJwt c ctx req b = (Err e, b)) /\
  (Forall usable (vr_AllowedSigners req) ->
    ValidateNatsJwt c ctx req b =
      (let (r, b') := Invoke NatsService_ValidateNatsJwt (conn c) (effective c ctx b)
         (mkValidateNatsJwtRequest (vr_JWT req) (map signer_message (vr_AllowedSigners req))
           (vr_ExpectedType req)) [] b in
       match r with
       | Ok resp => (Ok (natsJwtValidationFromProto resp), b')
       | Err err => (Err (statusError err), b')
       end)) /\
  (forall r, let v := natsJwtValidationFromProto r in
    nv_Valid v = ValidateNatsJwtResponse_Valid r /\
    nv_Reason v = ValidateNatsJwtResponse_Reason r /\
    nv_Subject v = ValidateNatsJwtResponse_Subject r /\
    nv_Issuer v = ValidateNatsJwtResponse_Issuer r /\
    nv_MatchedSignerKeyID v = ValidateNatsJwtResponse_MatchedSignerKeyId r /\
    nv_JWTType v = ValidateNatsJwtResponse_JwtType r /\
    wire_time (ValidateNatsJwtResponse_ExpiresAtUnix r) (nv_ExpiresAt v) /\
    wire_time (ValidateNatsJwtResponse_IssuedAtUnix r) (nv_IssuedAt v)).
Proof.
  split_and!.
  - intros pre s post E Hp Hs. unfold ValidateNatsJwt, NatsClient_ValidateNatsJwt. rewrite E.
    destruct (allowed_signers_err pre s post Hp Hs) as [e ->]. by exists e.
  - intros Hu. unfold ValidateNatsJwt, NatsClient_ValidateNatsJwt.
    rewrite allowed_signers_ok, unary_eq by done. simpl.
    by destruct (Invoke _ _ _ _ _ _) as [[] ?].
  - intros r v. split_and!; try reflexivity; apply wire_time_of.
Qed.
End validate.

(** ** The event stream *)

Section watch.
Context {Gr : Grpc} {GS : GrpcStatus} {GSL : GrpcStatusLaws GS} {WK : WellKnown}
  {Ca : Cancellation} {CL : CancellationLaws}.

(** What a loop over the iterator sees: the pairs in order, until its body
    stops. *)
Fixpoint consume {Y P} (body : P -> Y -> bool * Y) (pairs : list P) (y : Y) : Y :=
  match pairs with
  | [] => y
  | p :: pairs => let '(continue, y) := body p y in if continue then consume body pairs y else y
  end.

(** A body that does not touch the connection. *)
Definition pure_body {Y P} (body : P -> Y -> bool * Y) : P -> Y -> B -> bool * Y * B :=
  fun p y b => (body p y, b).

Definition event_pairs (evs : list Event) (last : error) : list (option WatchEvent * option error) :=
  map (fun ev => (Some (eventFromProto ev), None)) evs ++
  if Is last EOF then [] else [(None, Some (statusError last))].

Lemma Is_statusError_EOF e : Is e EOF = false -> Is (statusError e) EOF = false.
Proof.
  intros H. destruct (chain_status e) as [st|] eqn:E; [|by rewrite statusError_other].
  destruct (Unwrap e) eqn:Eu.
  - by rewrite (statusError_wrapped _ _ E) by (rewrite Eu; eauto).
  - by rewrite (statusError_direct _ _ E Eu).
Qed.

(** C37: the event iterator. A loop over it sees every event of the stream, in
    order, with a nil error; then, if the stream broke off, one pair of nil
    and the normalised error, and nothing if the broker closed it cleanly.
    It sees no more once its body stops, and a body that never stops has
    the whole stream read. *)
Theorem Events_trace {Y} (body : option WatchEvent * option error -> Y -> bool * Y)
    s b evs last b' y fuel :
  yields (ws_stream s) b evs last b' -> (length evs < fuel)%nat ->
  exists b1, Events fuel (pure_body body) s y b = (Ok (consume body (event_pairs evs last) y), b1) /\
    ((forall p y, (body p y).1 = true) -> b1 = b').
Proof.
  destruct s as [st f]. cbn [ws_stream]. intros Hy. revert y fuel.
  induction Hy as [st b last b' E|st b ev st' b1 evs last b' E Hy IH]; intros y fuel Hf;
    (destruct fuel as [|fuel]; [simpl in Hf; lia|]); cbn [Events]; unfold WatchStream_Recv;
    cbn [ws_stream ws_cancel]; rewrite E.
  - unfold event_pairs. destruct (Is last EOF) eqn:El; cbn [map app consume].
    + rewrite Is_refl. cbn [negb]. by exists b'.
    + rewrite (Is_statusError_EOF _ El). cbn [negb]. unfold pure_body.
      destruct (body _ y) as [k y']. exists b'. by destruct k.
  - unfold event_pairs. cbn [map app consume]. unfold pure_body at 1.
    destruct (body (Some (eventFromProto ev), None) y) as [k y'] eqn:Eb. destruct k; cbn [negb].
    + apply IH. simpl in Hf. lia.
    + exists b1. split; [done|]. intros H. specialize (H (Some (eventFromProto ev), None) y).
      by rewrite Eb in H.
Qed.

(** [Watch]. The stream is opened for exactly the given kinds, under a
    cancellable context with the caller's own deadline: the client's default
    timeout never applies. If it cannot be opened the context is cancelled
    and the normalised error returned; otherwise closing it cancels that
    context, and closing it again does nothing more. *)
Theorem Watch_open c ctx kinds b :
  exists streamCtx f b1, context_WithCancel ctx b = (streamCtx, f, b1) /\
    Deadline streamCtx = Deadline ctx /\
    match NewStream AdminService_Watch (conn c) streamCtx (mkWatchRequest kinds) b1 with
    | (Err err, b2) => Watch c ctx kinds b = (Err (statusError err), cancel f b2)
    | (Ok stream, b2) => exists s, Watch c ctx kinds b = (Ok s, b2) /\ ws_stream s = stream /\
        forall b, WatchStream_Close s b = (None, cancel f b) /\
          WatchStream_Close s (WatchStream_Close s b).2 = WatchStream_Close s b
    end.
Proof.
  unfold Watch. destruct (context_WithCancel ctx b) as [[streamCtx f] b1] eqn:E.
  exists streamCtx, f, b1. split; [done|]. split; [by eapply WithCancel_Deadline|].
  rewrite map_id. destruct (NewStream _ _ _ _ _) as [[stream|err] b2]; [|done].
  eexists. split; [done|]. split; [done|]. intros b0. split; [done|].
  unfold WatchStream_Close. cbn [ws_cancel snd]. by rewrite cancel_idempotent.
Qed.
End watch.

(** ** Results of administration *)

Section results.
Context {WK : WellKnown}.

(** What [Explain] and the events report is what the broker decided. Two
    decisions on the wire are never reported alike: allow and deny are the
    two known ones, and any other keeps its number. An event carries the
    detail the broker sent and no other, with the broker's kind, whether or
    not the two agree, and the zero time when the broker sent none. *)
Theorem decisions_and_details d1 d2 k at_ det :
  (explainDecision d1 = explainDecision d2 -> d1 = d2) /\
  (explainDecision d1 = str "allow" <-> d1 = EXPLAIN_DECISION_ALLOW) /\
  (explainDecision d1 = str "deny" <-> d1 = EXPLAIN_DECISION_DENY) /\
  (let ev := eventFromProto (mkEvent k at_ det) in
   we_Kind ev = k /\ we_At ev = default zeroTime (AsTime <$> at_) /\
   match det with
   | None => we_KeyRotated ev = None /\ we_BundleChanged ev = None /\ we_Revoked ev = None
   | Some (Event_KeyRotated d) =>
       we_KeyRotated ev = Some (mkRotatedKey (KeyRotated_KeyId d) (KeyRotated_NewVersion d)) /\
       we_BundleChanged ev = None /\ we_Revoked ev = None
   | Some (Event_BundleChanged d) =>
       we_BundleChanged ev = Some (mkChangedBundle (BundleChanged_TrustDomain d)) /\
       we_KeyRotated ev = None /\ we_Revoked ev = None
   | Some (Event_Revoked d) =>
       we_Revoked ev = Some (mkRevokedCredential (Revoked_TrustDomain d) (Revoked_Id d)) /\
       we_KeyRotated ev = None /\ we_BundleChanged ev = None
   end).
Proof.
  assert (forall d, explainDecision d = str "allow" <-> d = EXPLAIN_DECISION_ALLOW) as Ha.
  { intros d. unfold explainDecision. split; [|by intros ->]. repeat case_decide; done. }
  assert (forall d, explainDecision d = str "deny" <-> d = EXPLAIN_DECISION_DENY) as Hd.
  { intros d. unfold explainDecision. split; [|by intros ->]. repeat case_decide; done. }
  split; [|split; [done|split; [done|]]]; last first.
  { split; [done|]. split; [by destruct at_|]. by destruct det as [[]|]. }
  intros E. destruct (decide (d1 = EXPLAIN_DECISION_ALLOW)) as [->|H1].
  { symmetry. by apply Ha. }
  destruct (decide (d1 = EXPLAIN_DECISION_DENY)) as [->|H2].
  { symmetry. by apply Hd. }
  destruct (decide (d2 = EXPLAIN_DECISION_ALLOW)) as [->|H3]; [by apply Ha in E|].
  destruct (decide (d2 = EXPLAIN_DECISION_DENY)) as [->|H4]; [by apply Hd in E|].
  unfold explainDecision in E. rewrite !decide_False in E by done.
  apply app_inv_head, app_inv_tail, str_inj in E. by apply (inj pretty) in E.
Qed.
End results.
