(* ===== verification/ProgramProps.v ===== *)
(** The properties of the command basil-sign and of the example secrets-and-aead,
    from end to end: what passing says of the broker, and that they pass against
    an honest one. *)

From stdpp Require Import gmap.
From S2P Require Import Prelude GoTime GoText GoError Errors Pb Client Keytype Aead Signing Secret SecretStore Enums Program.
From S2P Require CmdSign ExSecrets.

(** ** Programs that do not call [os.Exit] *)

Section no_exit.
Context {S : Type}.

Definition no_exit {A} (m : prog S A) : Prop := forall p c p', m p <> (Exits c, p').

Lemma no_exit_bind {A A'} (m : prog S A) (k : A -> prog S A') :
  no_exit m -> (forall a, no_exit (k a)) -> no_exit (m ≫= k).
Proof.
  intros Hm Hk p c p'. unfold mbind, prog_bind. specialize (Hm p).
  destruct (m p) as [[a|e|c1] p1]; [apply Hk|done|naive_solver].
Qed.

Lemma no_exit_call {A} (m : S -> result error A * S) : no_exit (call_on m).
Proof. intros p c p'. unfold call_on. by destruct (m _) as [[] ?]. Qed.

Lemma no_exit_wrapping {A} fmt args (m : prog S A) : no_exit m -> no_exit (wrapping fmt args m).
Proof. intros Hm p c p'. unfold wrapping. specialize (Hm p). destruct (m p) as [[] ?]; naive_solver. Qed.

Lemma no_exit_act {A} (m : S -> A * S) : no_exit (act m).
Proof. intros p c p'. unfold act. by destruct (m _). Qed.

(** Status 0 is the end of [run]. *)
Lemma main_of_0 prefix (m : prog S ()) p p' : no_exit m ->
  main_of prefix m p = (0, p') <-> m p = (Done (), p').
Proof.
  intros Hm. unfold main_of. specialize (Hm p). destruct (m p) as [[[]|e|c] q]; [..|naive_solver]; split; congruence.
Qed.
End no_exit.

Ltac no_exit_auto :=
  repeat first
    [ progress intros
    | progress cbv zeta
    | apply no_exit_call | apply no_exit_act | apply no_exit_wrapping | apply no_exit_bind
    | case_decide | case_match
    | solve [intros ? ? ?; done] ].

Section runs.
Context {Gr : Grpc}.

Lemma background_timeout_run d (p : process B) :
  background_timeout d p = (Done (mkContext (Some (now (ps_state p) + d))), p).
Proof. by destruct p. Qed.

(** A call whose error is wrapped. *)
Lemma wrapped_call_run {A} fmt args (m : B -> result error A * B) b o a b' :
  m b = (Ok a, b') -> wrapping fmt args (call_on m) (mkProcess b o) = (Done a, mkProcess b' o).
Proof. intros E. unfold wrapping, call_on. cbn [ps_state ps_out]. by rewrite E. Qed.

Lemma wrapped_call_inv {A} fmt args (m : B -> result error A * B) b o a p' :
  wrapping fmt args (call_on m) (mkProcess b o) = (Done a, p') ->
  exists b', m b = (Ok a, b') /\ p' = mkProcess b' o.
Proof.
  intros E%wrapping_Done_inv%call_on_Done_inv. cbn in E. destruct E as [E O]. exists (ps_state p').
  split; [exact E|]. destruct p'. cbn in *. by subst.
Qed.

Lemma act_run {A} (m : B -> A * B) b o a b' : m b = (a, b') -> act m (mkProcess b o) = (Done a, mkProcess b' o).
Proof. intros E. unfold act. cbn [ps_state ps_out]. by rewrite E. Qed.
End runs.

(** ** secrets-and-aead *)

Section secrets.
Import ExSecrets.
Context {Gr : Grpc} {GS : GrpcStatus} {Pi : Protoimpl}.

(** The calls of a passing version cycle, from [b] to [b'], with the versions. *)
Definition cycle_passed (client : Client) (ctx : context) (id : bytes) (b b' : B) (v1 v2 v3 : Z) : Prop :=
  v1 < v2 < v3 /\ exists value b1 b2 b3 b4,
    SetSecret client ctx id first b = (Ok v1, b1) /\
    GetSecret client ctx id None b1 = (Ok (mkSecret first v1), b2) /\
    SetSecret client ctx id second b2 = (Ok v2, b3) /\
    RotateSecret client ctx id b3 = (Ok v3, b4) /\
    GetSecret client ctx id None b4 = (Ok (mkSecret value v3), b') /\ value <> second.

(** And of a passing round trip. *)
Definition aead_passed (client : Client) (ctx : context) (keyID : bytes) (b b' : B) (ct : Ciphertext) : Prop :=
  ct_Bytes ct <> [] /\ exists b1 b2 err,
    Encrypt client ctx keyID AeadAlgorithmAES256GCM plaintext (Some aad) b = (Ok ct, b1) /\
    Decrypt client ctx keyID (Some ct) (Some aad) b1 = (Ok plaintext, b2) /\
    Decrypt client ctx keyID (Some ct) (Some wrongAAD) b2 = (Err err, b').

Definition cycle_lines (id : bytes) (v1 v2 v3 : Z) : list line :=
  [Out "PASS set %s version=%d" [AStr id; AInt v1];
   Out "PASS get %s roundtrip version=%d" [AStr id; AInt v1];
   Out "PASS set %s version=%d" [AStr id; AInt v2];
   Out "PASS rotate %s version=%d" [AStr id; AInt v3];
   Out "PASS version cycle %d<%d<%d rotated-value-differs" [AInt v1; AInt v2; AInt v3]].

Definition aead_lines (keyID : bytes) (ct : Ciphertext) : list line :=
  [Out "PASS encrypt %s alg=%s ciphertext_len=%d" [AStr keyID; AStr (AeadAlgorithm_String (ct_Algorithm ct)); AInt (len (ct_Bytes ct))];
   Out "PASS decrypt roundtrip matching-aad" []; Out "PASS decrypt rejected mismatched-aad" []].

Lemma secretVersionCycle_iff ctx client id b o p' :
  secretVersionCycle ctx client id (mkProcess b o) = (Done (), p') <->
  exists b' v1 v2 v3, cycle_passed client ctx id b b' v1 v2 v3 /\ p' = mkProcess b' (o ++ cycle_lines id v1 v2 v3).
Proof.
  unfold secretVersionCycle. split.
  - intros E.
    prog_inv E as v1 p1 E1. apply wrapped_call_inv in E1 as (b1 & E1 & ->).
    prog_inv E as u1 q1 O1. injection O1 as _ <-.
    prog_inv E as got1 p2 E2. apply wrapped_call_inv in E2 as (b2 & E2 & ->).
    case_decide as H1; [done|].  case_decide as H2; [done|].
    prog_inv E as u2 q2 O2. injection O2 as _ <-.
    prog_inv E as v2 p3 E3. apply wrapped_call_inv in E3 as (b3 & E3 & ->).
    case_decide as H3; [done|].
    prog_inv E as u3 q3 O3. injection O3 as _ <-.
    prog_inv E as v3 p4 E4. apply wrapped_call_inv in E4 as (b4 & E4 & ->).
    case_decide as H4; [done|].
    prog_inv E as u4 q4 O4. injection O4 as _ <-.
    prog_inv E as got3 p5 E5. apply wrapped_call_inv in E5 as (b5 & E5 & ->).
    case_decide as H5; [done|]. case_decide as H6; [done|].
    injection E as <-. destruct got1 as [x1 y1], got3 as [x3 y3]. cbn in H1, H2, H5, H6. subst x1 y1 y3.
    exists b5, v1, v2, v3. split; [|by rewrite <-!app_assoc].
    split; [lia|]. by exists x3, b1, b2, b3, b4.
  - intros (b' & v1 & v2 & v3 & (Hv & value & b1 & b2 & b3 & b4 & E1 & E2 & E3 & E4 & E5 & Hne) & ->).
    unfold wrapping, call_on, print, mbind, prog_bind. cbn [ps_state ps_out].
    rewrite E1. cbn [ps_state ps_out]. rewrite E2. cbn [ps_state ps_out secret_Value secret_Version].
    rewrite !(decide_False (P := ~ _)) by auto. cbn [ps_state ps_out]. rewrite E3. cbn [ps_state ps_out].
    rewrite decide_False by lia. cbn [ps_state ps_out]. rewrite E4. cbn [ps_state ps_out].
    rewrite decide_False by lia. cbn [ps_state ps_out]. rewrite E5. cbn [ps_state ps_out secret_Value secret_Version].
    rewrite !decide_False by auto. cbn [ps_state ps_out]. unfold cycle_lines. by rewrite <-!app_assoc.
Qed.

Lemma aeadRoundTrip_iff ctx client keyID b o p' :
  aeadRoundTripWithAAD ctx client keyID (mkProcess b o) = (Done (), p') <->
  exists b' ct, aead_passed client ctx keyID b b' ct /\ p' = mkProcess b' (o ++ aead_lines keyID ct).
Proof.
  unfold aeadRoundTripWithAAD. split.
  - intros E.
    prog_inv E as ct p1 E1. apply wrapped_call_inv in E1 as (b1 & E1 & ->).
    case_decide as H1; [done|].
    prog_inv E as u1 q1 O1. injection O1 as _ <-.
    prog_inv E as recovered p2 E2. apply wrapped_call_inv in E2 as (b2 & E2 & ->).
    case_decide as H2; [done|].
    prog_inv E as u2 q2 O2. injection O2 as _ <-.
    prog_inv E as r p3 E3. unfold act in E3. cbn [ps_state ps_out] in E3.
    destruct (Decrypt client ctx keyID (Some ct) (Some wrongAAD) b2) as [r' b3] eqn:E3'. injection E3 as -> <-.
    destruct r as [x|err]; [done|]. injection E as <-. subst recovered.
    exists b3, ct. split; [|by unfold aead_lines; rewrite <-!app_assoc].
    split; [|by exists b1, b2, err]. intros H. apply H1. by rewrite H.
  - intros (b' & ct & (Hct & b1 & b2 & err & E1 & E2 & E3) & ->).
    unfold wrapping, call_on, act, print, mbind, prog_bind. cbn [ps_state ps_out].
    rewrite E1. cbn [ps_state ps_out]. rewrite decide_False.
    2: { intros H. apply Hct. destruct (ct_Bytes ct); [done|]. unfold len in H. cbn [length] in H. lia. }
    cbn [ps_state ps_out]. rewrite E2. cbn [ps_state ps_out]. rewrite decide_False by auto.
    cbn [ps_state ps_out]. rewrite E3. cbn [ps_state ps_out]. unfold aead_lines. by rewrite <-!app_assoc.
Qed.

(** *** An honest broker *)

(** The broker encrypts under [keyID], and opens what it encrypted for the same
    additional data and no other. [live n ctx b] says that it will answer the next [n]
    such calls under [ctx]. *)
Class AeadService (c : Client) (keyID : bytes) (live : nat -> context -> B -> Prop) := {
  serves_encrypt : forall n ctx alg pt aad b, live (S n) ctx b -> exists env b',
    Invoke AeadService_Encrypt (conn c) ctx (mkEncryptRequest keyID alg pt aad) [] b =
      (Ok (mkEncryptResponse (Some env)), b') /\ CiphertextEnvelope_Ciphertext env <> [] /\ live n ctx b' /\
    forall n ctx aad' b, live (S n) ctx b -> exists b', live n ctx b' /\ if decide (aad' = aad) then
        Invoke AeadService_Decrypt (conn c) ctx (mkDecryptRequest keyID (Some env) aad') [] b =
          (Ok (mkDecryptResponse pt), b')
      else exists err, Invoke AeadService_Decrypt (conn c) ctx (mkDecryptRequest keyID (Some env) aad') [] b = (Err err, b');
}.

Lemma effective_deadline c t b : effective c (mkContext (Some t)) b = mkContext (Some t).
Proof. unfold effective. by case_decide. Qed.

Lemma cycle_honest client holds {Sv : SecretService client holds} t id b st :
  let ctx := mkContext (Some t) in holds 5%nat ctx b st ->
  let n := len (versions st id) in exists b' st', holds 0%nat ctx b' st' /\
    cycle_passed client ctx id b b' (n + 1) (n + 2) (n + 3).
Proof.
  intros ctx H n. assert (forall b, effective client ctx b = ctx) as He by apply effective_deadline.
  assert (forall st v, last (versions (push st id v) id) = Some v /\
    len (versions (push st id v) id) = len (versions st id) + 1) as Hpush.
  { intros st' v. rewrite versions_push, decide_True by done. rewrite last_snoc, len_app. done. }
  destruct (SetSecret_serves client holds ctx He 4 id first b st H) as (b1 & E1 & H1).
  destruct (Hpush st first) as [L1 N1].
  destruct (GetSecret_serves client holds ctx He 3 id None b1 _ H1) as (b2 & H2 & E2).
  rewrite (lookup_latest _ _ _ L1), N1 in E2.
  destruct (SetSecret_serves client holds ctx He 2 id second b2 _ H2) as (b3 & E3 & H3).
  destruct (Hpush (push st id first) second) as [L3 N3].
  destruct (RotateSecret_serves client holds ctx He 1 id b3 _ H3) as (b4 & E4).
  rewrite decide_False in E4 by (intros Hn; by rewrite Hn in L3).
  destruct E4 as (value & Hv & H4 & E4). destruct (Hpush (push (push st id first) id second) value) as [L4 N4].
  destruct (GetSecret_serves client holds ctx He 0 id None b4 _ H4) as (b5 & H5 & E5).
  rewrite (lookup_latest _ _ _ L4), N4 in E5. rewrite N3 in E4, E5. rewrite N1 in E3, E4, E5.
  exists b5. eexists. split; [exact H5|]. split; [lia|]. exists value, b1, b2, b3, b4. fold n in E1, E2, E3, E4, E5.
  replace (n + 2) with (n + 1 + 1) by lia. replace (n + 3) with (n + 1 + 1 + 1) by lia.
  split_and!; auto. intros ->. by apply Hv.
Qed.

Lemma aead_honest client keyID live {Sv : AeadService client keyID live} t b :
  let ctx := mkContext (Some t) in live 3%nat ctx b -> exists b' ct, aead_passed client ctx keyID b b' ct.
Proof.
  intros ctx H. assert (forall b, effective client ctx b = ctx) as He by apply effective_deadline.
  destruct (serves_encrypt 2%nat ctx AeadAlgorithmAES256GCM plaintext (Some aad) b H)
    as (env & b1 & E1 & Hne & H1 & Hd).
  destruct (Hd 1%nat ctx (Some aad) b1 H1) as (b2 & H2 & E2). rewrite decide_True in E2 by done.
  destruct (Hd 0%nat ctx (Some wrongAAD) b2 H2) as (b3 & _ & E3). rewrite decide_False in E3 by done.
  destruct E3 as (err & E3). destruct env as [alg version nonce ct].
  exists b3, (mkCiphertext alg version nonce ct). split; [exact Hne|]. exists b1, b2, (statusError err).
  unfold Encrypt, Decrypt. rewrite !unary_eq, !He.
  cbn [ciphertextToProto ct_Algorithm ct_KeyVersion ct_Nonce ct_Bytes]. by rewrite E1, E2, E3.
Qed.

Lemma run_no_exit cfg : no_exit (run cfg).
Proof. unfold run, secretVersionCycle, aeadRoundTripWithAAD, background_timeout, pure. no_exit_auto. Qed.

Lemma run_iff cfg p p' :
  let ctx := mkContext (Some (now (ps_state p) + 30 * Second)) in
  run cfg p = (Done (), p') <->
  exists client b1 b2 v1 v2 v3 ct, Dial (socket cfg) [] = Ok client /\
    cycle_passed client ctx (secretID cfg) (ps_state p) b1 v1 v2 v3 /\
    aead_passed client ctx (aeadKeyID cfg) b1 b2 ct /\
    p' = mkProcess b2 (ps_out p ++ cycle_lines (secretID cfg) v1 v2 v3 ++ aead_lines (aeadKeyID cfg) ct).
Proof.
  intros ctx. destruct p as [b o]. unfold run. cbn [ps_state ps_out] in *. split.
  - intros E. prog_inv E as client p1 E1. apply wrapping_Done_inv, pure_Done_inv in E1 as [Hd ->].
    prog_inv E as ctx' p2 E2. rewrite background_timeout_run in E2. injection E2 as <- <-.
    prog_inv E as u p3 E3. destruct u. apply secretVersionCycle_iff in E3 as (b1 & v1 & v2 & v3 & H1 & ->).
    apply aeadRoundTrip_iff in E as (b2 & ct & H2 & ->).
    exists client, b1, b2, v1, v2, v3, ct. by rewrite <-app_assoc.
  - intros (client & b1 & b2 & v1 & v2 & v3 & ct & Hd & H1 & H2 & ->). rewrite Hd.
    unfold wrapping, pure, call_on, mbind, prog_bind. cbn [ps_state ps_out].
    rewrite background_timeout_run. cbn [ps_state].
    rewrite (proj2 (secretVersionCycle_iff _ _ _ _ _ _)) by eauto 10.
    rewrite (proj2 (aeadRoundTrip_iff _ _ _ _ _ _)) by eauto 10. by rewrite <-app_assoc.
Qed.

(** C20: the example secrets-and-aead. It exits with status 0 if and only if the
    versions the broker assigned increased with every call, the value set was
    read back with its version, the rotated value differed, the ciphertext was not
    empty and decrypted to the plaintext, and the mismatched additional data were
    refused; it then prints its eight lines. Against a broker that answers the
    eight calls before the deadline, serves the versioned store and opens what
    it encrypted, it does. *)
Theorem secrets_example getenv (p : process B) :
  let cfg := loadConfig getenv in
  let ctx := mkContext (Some (now (ps_state p) + 30 * Second)) in
  (forall p', main getenv p = (0, p') <->
    exists client b1 b2 v1 v2 v3 ct, Dial (socket cfg) [] = Ok client /\
      cycle_passed client ctx (secretID cfg) (ps_state p) b1 v1 v2 v3 /\
      aead_passed client ctx (aeadKeyID cfg) b1 b2 ct /\
      p' = mkProcess b2 (ps_out p ++ cycle_lines (secretID cfg) v1 v2 v3 ++ aead_lines (aeadKeyID cfg) ct)) /\
  (forall client holds live st, Dial (socket cfg) [] = Ok client -> SecretService client holds ->
    AeadService client (aeadKeyID cfg) live -> (forall b st, holds 0%nat ctx b st -> live 3%nat ctx b) ->
    holds 5%nat ctx (ps_state p) st -> exists p', main getenv p = (0, p')).
Proof.
  intros cfg ctx.
  assert (forall p', main getenv p = (0, p') <-> exists client b1 b2 v1 v2 v3 ct, Dial (socket cfg) [] = Ok client /\
      cycle_passed client ctx (secretID cfg) (ps_state p) b1 v1 v2 v3 /\
      aead_passed client ctx (aeadKeyID cfg) b1 b2 ct /\
      p' = mkProcess b2 (ps_out p ++ cycle_lines (secretID cfg) v1 v2 v3 ++ aead_lines (aeadKeyID cfg) ct)) as Hmain.
  { intros p'. unfold main. rewrite main_of_0 by apply run_no_exit. apply run_iff. }
  split; [exact Hmain|]. intros client holds live st Hd Sv Sa Hlive H.
  destruct (cycle_honest client holds (now (ps_state p) + 30 * Second) (secretID cfg) (ps_state p) st H)
    as (b1 & st1 & Hb1 & H1).
  destruct (aead_honest client (aeadKeyID cfg) live _ b1 (Hlive _ _ Hb1)) as (b2 & ct & H2).
  eexists. apply Hmain. exists client, b1, b2. eauto 10.
Qed.
End secrets.

(** ** basil-sign *)

Section sign.
Import CmdSign.
Context {Gr : Grpc} {GS : GrpcStatus} {Pi : Protoimpl}.

(** The calls of a run that verifies its signature. *)
Definition sign_passed (f : flags) (client : Client) (ctx : context) (b b' : B) (pub : PublicKey) (sig : bytes) : Prop :=
  exists b1 b2, GetPublicKey client ctx (fl_key f) None b = (Ok pub, b1) /\
    Sign client ctx (fl_key f) (fl_message f) b1 = (Ok sig, b2) /\
    Verify client ctx (fl_key f) (fl_message f) sig b2 = (Ok true, b').

Definition sign_lines (f : flags) (pub : PublicKey) (sig : bytes) : list line :=
  [Out "key %s: type=%s version=%d public=%s"
     [AStr (pk_KeyID pub); AStr (KeyType_String (pk_KeyType pub)); AInt (pk_Version pub); AStr (base64_StdEncoding (pk_Bytes pub))];
   Out "signature: %s" [AStr (base64_StdEncoding sig)]; Out "verify: %t" [ABool true]].

Lemma sign_no_exit f : no_exit (run f).
Proof. unfold run, background_timeout, pure. no_exit_auto. Qed.

Lemma sign_run_iff f p p' :
  let ctx := mkContext (Some (now (ps_state p) + fl_timeout f)) in
  run f p = (Done (), p') <->
  fl_socket f <> [] /\ fl_key f <> [] /\
  exists client b' pub sig, Dial (fl_socket f) [] = Ok client /\
    sign_passed f client ctx (ps_state p) b' pub sig /\ p' = mkProcess b' (ps_out p ++ sign_lines f pub sig).
Proof.
  intros ctx. destruct p as [b o]. subst ctx. unfold run. cbn [ps_state ps_out] in *. split.
  - case_decide as Hf; [done|]. intros E.
    prog_inv E as client p1 E1. apply pure_Done_inv in E1 as [Hd ->].
    prog_inv E as ctx' p2 E2. rewrite background_timeout_run in E2. injection E2 as <- <-.
    prog_inv E as pub p3 E3. apply wrapped_call_inv in E3 as (b1 & E3 & ->).
    prog_inv E as u1 q1 O1. injection O1 as _ <-.
    prog_inv E as sig p4 E4. apply wrapped_call_inv in E4 as (b2 & E4 & ->).
    prog_inv E as u2 q2 O2. injection O2 as _ <-.
    prog_inv E as ok p5 E5. apply wrapped_call_inv in E5 as (b3 & E5 & ->).
    prog_inv E as u3 q3 O3. injection O3 as _ <-.
    destruct ok; [|done]. injection E as <-. split; [tauto|]. split; [tauto|].
    exists client, b3, pub, sig. split; [done|]. split; [by exists b1, b2|]. unfold sign_lines. by rewrite <-!app_assoc.
  - intros (Hs & Hk & client & b' & pub & sig & Hd & (b1 & b2 & E1 & E2 & E3) & ->).
    rewrite decide_False by tauto. rewrite Hd.
    unfold wrapping, pure, call_on, print, mbind, prog_bind. cbn [ps_state ps_out].
    rewrite background_timeout_run. cbn [ps_state ps_out]. rewrite E1. cbn [ps_state ps_out].
    rewrite E2. cbn [ps_state ps_out]. rewrite E3. cbn [ps_state ps_out negb]. unfold sign_lines. by rewrite <-!app_assoc.
Qed.

(** The broker describes the key, signs with it, and accepts its own signatures. *)
Class SigningService (c : Client) (keyID : bytes) := {
  serves_key : forall ctx b, exists pub b',
    Invoke SigningService_GetPublicKey (conn c) ctx (mkGetPublicKeyRequest keyID None) [] b = (Ok pub, b');
  serves_sign : forall ctx message b, exists sig b',
    Invoke SigningService_Sign (conn c) ctx (mkSignRequest keyID message SigningAlgorithmUnspecified) [] b =
      (Ok (mkSignResponse sig), b') /\
    forall ctx b, exists b',
      Invoke SigningService_Verify (conn c) ctx (mkVerifyRequest keyID message sig SigningAlgorithmUnspecified) [] b =
        (Ok (mkVerifyResponse true), b');
}.

Lemma sign_honest f client ctx b {Sv : SigningService client (fl_key f)} :
  exists b' pub sig, sign_passed f client ctx b b' pub sig.
Proof.
  destruct (serves_key (effective client ctx b) b) as (pub & b1 & E1).
  destruct (serves_sign (effective client ctx b1) (fl_message f) b1) as (sig & b2 & E2 & Hv).
  destruct (Hv (effective client ctx b2) b2) as (b3 & E3).
  exists b3. eexists. exists sig, b1, b2.
  unfold GetPublicKey, Sign, SignWithAlgorithm, Verify, VerifyWithAlgorithm. rewrite !unary_eq.
  by rewrite E1, E2, E3.
Qed.

(** C22: the command basil-sign. It exits with status 0 if and only if a socket and a
    key were given and, within the timeout, the broker described the key, signed
    the message and verified that signature on that message; it then prints the
    key, the signature and the verdict. Against a broker that accepts its own
    signatures it does; and without a socket or a key it prints its usage and
    fails before it dials. *)
Theorem basil_sign_spec f (p : process B) :
  let ctx := mkContext (Some (now (ps_state p) + fl_timeout f)) in
  (forall p', main f p = (0, p') <->
    fl_socket f <> [] /\ fl_key f <> [] /\
    exists client b' pub sig, Dial (fl_socket f) [] = Ok client /\
      sign_passed f client ctx (ps_state p) b' pub sig /\ p' = mkProcess b' (ps_out p ++ sign_lines f pub sig)) /\
  (forall client, fl_socket f <> [] -> fl_key f <> [] -> Dial (fl_socket f) [] = Ok client ->
    SigningService client (fl_key f) -> exists p', main f p = (0, p')) /\
  (fl_socket f = [] \/ fl_key f = [] -> exists e,
    main f p = (1, mkProcess (ps_state p) (ps_out p ++ [Usage; ErrLine "basil-sign:" e]))).
Proof.
  intros ctx.
  assert (forall p', main f p = (0, p') <->
    fl_socket f <> [] /\ fl_key f <> [] /\
    exists client b' pub sig, Dial (fl_socket f) [] = Ok client /\
      sign_passed f client ctx (ps_state p) b' pub sig /\ p' = mkProcess b' (ps_out p ++ sign_lines f pub sig)) as Hmain.
  { intros p'. unfold main. rewrite main_of_0 by apply sign_no_exit. apply sign_run_iff. }
  split; [exact Hmain|]. split.
  - intros client Hs Hk Hd Sv. destruct (sign_honest f client ctx (ps_state p)) as (b' & pub & sig & H).
    eexists. apply Hmain. eauto 10.
  - intros H. eexists. unfold main, main_of, run. rewrite decide_True by done. destruct p as [b o].
    unfold print, fails, mbind, prog_bind. cbn [ps_state ps_out]. by rewrite <-app_assoc.
Qed.
End sign.
