(* ===== verification/WebProps.v ===== *)
(** The properties of the example web-service: what each request is answered
    with, and which of them reach the broker. *)

From S2P Require Import Prelude GoTime GoPath GoText GoError Errors Pb Client Minting Program Http ExWeb.

(** ** Paths *)

Lemma PathUnescape_plain s : x25 ∉ s -> PathUnescape s = Some s.
Proof.
  induction s as [|b s IH]; [done|]. intros [Hb Hs]%not_elem_of_cons. cbn [PathUnescape].
  rewrite decide_False by done. by rewrite IH.
Qed.

Lemma split_slash_single l c : split_slash l = [c] -> l = c /\ slash ∉ l.
Proof.
  revert c. induction l as [|b l IH]; intros c; cbn [split_slash]; [intros [= <-]; by split; [|apply not_elem_of_nil]|].
  case_decide as Hb; [intros [= _ E]; by destruct (split_slash_nonempty l)|].
  destruct (split_slash l) as [|x xs] eqn:E; [by destruct (split_slash_nonempty l)|]. intros [= <- ->].
  destruct (IH x eq_refl) as [<- Hl]. split; [done|]. apply not_elem_of_cons. by split.
Qed.

(** A rooted path without escapes has the one segment [seg] when it is that
    segment behind a slash. *)
Lemma segments_single seg rest : seg <> [] -> slash ∉ seg -> seg <> [slash] -> x25 ∉ rest -> x25 ∉ seg ->
  segments (slash :: rest) = [seg] <-> rest = seg.
Proof.
  intros H1 H2 H3 H4 H5. cbn [segments]. rewrite decide_False by (by intros []). split.
  - destruct (split_slash rest) as [|c [|d cs]] eqn:E; cbn [segments_of]; [done| |by destruct cs].
    apply split_slash_single in E as [<- _]. case_decide; [by intros [= <-]|]. intros [= <-].
    unfold pathUnescape. by rewrite PathUnescape_plain.
  - intros ->. rewrite split_slash_simple by done. cbn [segments_of]. rewrite decide_False by done.
    unfold pathUnescape. by rewrite PathUnescape_plain.
Qed.

(** ** The service *)

Section web.
Context {Gr : Grpc} {GS : GrpcStatus} {WK : WellKnown} {J : JsonEncoder} {GV : GoValues}.

(** The path of the request has the one segment [seg]. *)
Definition requests (r : Request) (seg : string) : Prop := segments (EscapedPath r) = [str seg].

(** A request the multiplexer answers itself, before it looks for a route. *)
Definition canonical (r : Request) : Prop :=
  RequestURI r <> str "*" /\ (Method r = str "CONNECT" \/ cleanPath (EscapedPath r) = EscapedPath r).

#[local] Instance requests_dec r seg : Decision (requests r seg).
Proof. unfold requests. apply _. Defined.
#[local] Instance canonical_dec r : Decision (canonical r).
Proof. unfold canonical. apply _. Defined.

(** The call of the broker a token takes: its context and its request. *)
Definition mint_context (r : Request) (b : B) : context :=
  mkContext (Some (match Deadline (req_Context r) with
                   | Some t => Z.min t (now b + 10 * Second)
                   | None => now b + 10 * Second
                   end)).
Definition mint_message (s : service) (claims : bytes) : MintJwtRequest :=
  mkMintJwtRequest (svc_keyID s) (Some (str "web-service-go-demo")) (Some (durationpb_New (5 * Minute))) claims.
Definition bad_gateway (err : error) : answer :=
  Handled (mkHttpResponse 502 (str "mint refused: " ++ error_text err ++ [x0a])).

Lemma token_run s r b : Handled (token s (req_Context r) b).1 =
    match objectJSON (jr_Claims (token_request s)) "jwt claims" with
    | Err err => bad_gateway err
    | Ok claims =>
        match (Invoke MintingService_MintJwt (conn (svc_client s)) (mint_context r b) (mint_message s claims) [] b).1 with
        | Ok resp => Handled (mkHttpResponse 200 (CredentialResponse_Token resp))
        | Err err => bad_gateway (statusError err)
        end
    end /\
  (token s (req_Context r) b).2 =
    match objectJSON (jr_Claims (token_request s)) "jwt claims" with
    | Err _ => b
    | Ok claims =>
        (Invoke MintingService_MintJwt (conn (svc_client s)) (mint_context r b) (mint_message s claims) [] b).2
    end.
Proof.
  unfold token, MintJwt. cbn [jr_Claims token_request optionalObjectJSON].
  destruct (objectJSON _ _) as [claims|err]; [|done].
  rewrite mint_eq. unfold stub.
  assert (effective (svc_client s) (context_WithTimeout (now b) (req_Context r) (10 * Second)) b = mint_context r b) as ->.
  { unfold effective. by case_decide. }
  change (mkMintJwtRequest _ _ _ claims) with (mint_message s claims).
  by destruct (Invoke _ _ _ _ _ _) as [[resp|err] b'].
Qed.

(** The two routes, by the segments of the path. *)
Lemma newMux_routes s :
  newMux s = [mkRoute (str "GET") [str "healthz"] healthz; mkRoute (str "POST") [str "token"] (token s)].
Proof. reflexivity. Qed.

Lemma find_newMux s m segs :
  find_route (newMux s) m segs =
    if decide (m = str "GET" /\ segs = [str "healthz"]) then Some (mkRoute (str "GET") [str "healthz"] healthz)
    else if decide (m = str "POST" /\ segs = [str "token"]) then Some (mkRoute (str "POST") [str "token"] (token s))
    else None.
Proof.
  rewrite newMux_routes. unfold find_route. cbn [find rt_method rt_segments].
  case_bool_decide as H1; [by rewrite decide_True by naive_solver|]. rewrite (decide_False (P := _ /\ _)) by naive_solver.
  case_bool_decide as H2; [by rewrite decide_True by naive_solver|]. by rewrite decide_False by naive_solver.
Qed.

Lemma match_newMux s m path :
  match_route (newMux s) m path =
    if decide (segments path = [str "token"]) then
      if decide (m = str "POST") then Some (mkRoute (str "POST") [str "token"] (token s)) else None
    else if decide (segments path = [str "healthz"]) then
      if decide (m = str "GET" \/ m = str "HEAD") then Some (mkRoute (str "GET") [str "healthz"] healthz) else None
    else None.
Proof.
  unfold match_route. rewrite !find_newMux.
  destruct (decide (segments path = [str "token"])) as [E|E]; [rewrite E|];
    [|destruct (decide (segments path = [str "healthz"])) as [E'|E']; [rewrite E'|]].
  - repeat case_decide; naive_solver.
  - repeat case_decide; naive_solver.
  - repeat case_decide; naive_solver.
Qed.

Lemma matching_newMux s path :
  matching_methods (newMux s) path =
    if decide (segments path = [str "token"]) then [str "POST"]
    else if decide (segments path = [str "healthz"]) then [str "GET"; str "HEAD"] else [].
Proof.
  rewrite newMux_routes. unfold matching_methods. cbn [List.filter rt_segments].
  destruct (decide (segments path = [str "token"])) as [E|E]; [by rewrite E|].
  destruct (decide (segments path = [str "healthz"])) as [E'|E']; [by rewrite E'|].
  by rewrite !bool_decide_eq_false_2 by congruence.
Qed.

(** What the multiplexer does with any request. *)
Lemma ServeHTTP_newMux s r b :
  ServeHTTP (newMux s) r b =
    if decide (RequestURI r = str "*") then (BadRequest, b)
    else if decide (canonical r) then
      if decide (segments (EscapedPath r) = [str "token"]) then
        if decide (Method r = str "POST")
        then let '(resp, b') := token s (req_Context r) b in (Handled resp, b')
        else (MethodNotAllowed [str "POST"], b)
      else if decide (segments (EscapedPath r) = [str "healthz"]) then
        if decide (Method r = str "GET" \/ Method r = str "HEAD")
        then (Handled (mkHttpResponse 200 (str "ok" ++ [x0a])), b)
        else (MethodNotAllowed [str "GET"; str "HEAD"], b)
      else (NotFound, b)
    else (Redirected (cleanPath (EscapedPath r)) (RawQuery r), b).
Proof.
  unfold ServeHTTP. case_decide as Hu; [done|].
  set (path := if bool_decide _ then _ else _).
  assert (canonical r <-> path = EscapedPath r) as Hc.
  { unfold canonical, path. case_bool_decide; naive_solver. }
  destruct (decide (path <> EscapedPath r)) as [Hp|Hp].
  - rewrite (decide_False (P := canonical r)) by naive_solver. unfold path in Hp |- *. by case_bool_decide.
  - apply dec_stable in Hp. rewrite (decide_True (P := canonical r)) by naive_solver.
    rewrite Hp, match_newMux, matching_newMux. by repeat case_decide.
Qed.

Lemma requests_path r rest : EscapedPath r = slash :: rest -> x25 ∉ rest ->
  (requests r "token" <-> rest = str "token") /\ (requests r "healthz" <-> rest = str "healthz").
Proof.
  intros E Hr. unfold requests. rewrite E.
  split; apply segments_single; try done; try (by apply (bool_decide_unpack _); vm_compute).
Qed.

(** C21: the token service. A request for the health page is answered with
    [ok]; a POST of the token page, under any spelling of its path, makes one
    call of the broker, for the service's key, the fixed subject, claims and
    lifetime of five minutes, and within ten seconds or the request's own
    deadline, and is answered with the token of the broker, or with 502 and the
    error. No other request reaches the broker: another method is answered with
    the methods allowed, any other path is not found, and a path that is not
    clean is redirected. *)
Theorem web_service_routes s r b :
  let '(a, b') := ServeHTTP (newMux s) r b in
  (Method r = str "POST" /\ canonical r /\ requests r "token" ->
    match objectJSON (jr_Claims (token_request s)) "jwt claims" with
    | Err err => a = bad_gateway err /\ b' = b
    | Ok claims =>
        let '(res, b1) := Invoke MintingService_MintJwt (conn (svc_client s)) (mint_context r b)
          (mint_message s claims) [] b in
        b' = b1 /\ a = match res with
          | Ok resp => Handled (mkHttpResponse 200 (CredentialResponse_Token resp))
          | Err err => bad_gateway (statusError err)
          end
    end) /\
  (~ (Method r = str "POST" /\ canonical r /\ requests r "token") -> b' = b /\
    a = if decide (RequestURI r = str "*") then BadRequest
        else if decide (canonical r) then
          if decide (requests r "token") then MethodNotAllowed [str "POST"]
          else if decide (requests r "healthz") then
            if decide (Method r = str "GET" \/ Method r = str "HEAD")
            then Handled (mkHttpResponse 200 (str "ok" ++ [x0a])) else MethodNotAllowed [str "GET"; str "HEAD"]
          else NotFound
        else Redirected (cleanPath (EscapedPath r)) (RawQuery r)) /\
  (forall rest, EscapedPath r = slash :: rest -> x25 ∉ rest ->
    (requests r "token" <-> rest = str "token") /\ (requests r "healthz" <-> rest = str "healthz")).
Proof.
  destruct (ServeHTTP (newMux s) r b) as [a b'] eqn:E. apply and_assoc. split; [|apply requests_path].
  rewrite ServeHTTP_newMux in E. unfold requests.
  destruct (decide (RequestURI r = str "*")) as [Hu|Hu]; [|destruct (decide (canonical r)) as [Hc|Hc]].
  - injection E as <- <-. split; [|done]. by intros (_ & [] & _).
  - destruct (decide (segments _ = _)) as [Ht|Ht]; [destruct (decide (Method r = str "POST")) as [Hm|Hm]|].
    + split; [intros _|naive_solver]. destruct (token_run s r b) as [Ha Hb].
      destruct (token s (req_Context r) b) as [resp b2]. cbn [fst snd] in *. injection E as <- <-.
      destruct (objectJSON _ _); [|done]. subst b2. by destruct (Invoke _ _ _ _ _ _).
    + injection E as <- <-. split; [naive_solver|done].
    + split; [naive_solver|]. intros _. repeat case_decide; by injection E as <- <-.
  - injection E as <- <-. split; [naive_solver|done].
Qed.
End web.
