(* ===== verification/SpiffeProps.v ===== *)
(** The properties of package [spiffe]. *)

From stdpp Require Import gmap.
From S2P Require Import Prelude Slices GoTime GoText GoError Errors Client Spiffe.

(** ** One-shot calls *)

Section calls.
Context {Rt : GoRuntime} {WA : WorkloadApi} {GS : GrpcStatus} {GSL : GrpcStatusLaws GS}.

(** The one-shot methods and the go-spiffe call behind each. *)
Inductive one_shot : forall {T}, (Client -> context -> sp (T * option error)) ->
    (WlClient -> context -> E -> T * option error * E) -> Prop :=
| one_shot_X509SVID : one_shot FetchX509SVID wl_FetchX509SVID
| one_shot_X509SVIDs : one_shot FetchX509SVIDs wl_FetchX509SVIDs
| one_shot_X509Bundles : one_shot FetchX509Bundles wl_FetchX509Bundles
| one_shot_X509Context : one_shot FetchX509Context wl_FetchX509Context
| one_shot_JWTSVID audience extra :
    one_shot (fun c ctx => FetchJWTSVID c ctx audience extra)
      (fun cl ctx => wl_FetchJWTSVID cl ctx (mkParams audience extra))
| one_shot_JWTSVIDs audience extra :
    one_shot (fun c ctx => FetchJWTSVIDs c ctx audience extra)
      (fun cl ctx => wl_FetchJWTSVIDs cl ctx (mkParams audience extra))
| one_shot_JWTBundles : one_shot FetchJWTBundles wl_FetchJWTBundles
| one_shot_Validate token audience :
    one_shot (fun c ctx => ValidateJWTSVID c ctx token audience)
      (fun cl ctx => wl_ValidateJWTSVID cl ctx token audience).

(** The watches, likewise. *)
Inductive watch : (Client -> context -> sp (option error)) ->
    (WlClient -> context -> E -> option error * E) -> Prop :=
| watch_X509Context watcher :
    watch (fun c ctx => WatchX509Context c ctx watcher)
      (fun cl ctx => wl_WatchX509Context cl ctx watcher)
| watch_JWTBundles watcher :
    watch (fun c ctx => WatchJWTBundles c ctx watcher)
      (fun cl ctx => wl_WatchJWTBundles cl ctx watcher).

(** The ids of live timers are below the next one. *)
Definition timers_wf (w : spworld) : Prop := forall i, i ∈ sw_timers w -> (i < sw_next w)%nat.

(** The deadline a one-shot call runs under, started at time [t]. *)
Definition call_deadline (c : Client) (ctx : context) (t : Z) : option Z :=
  match Deadline ctx with
  | Some d => Some d
  | None => if decide (timeout c <= 0) then None else Some (t + timeout c)
  end.

Lemma one_shot_run {T} (f : context -> E -> T * option error * E) c ctx w :
  timers_wf w -> exists ctx' n,
  Deadline ctx' = call_deadline c ctx (clock (sw_ext w)) /\
  ('(ctx, cancel) ← withTimeout c ctx;
   deferred cancel ('(v, err) ← ext (f ctx); mret (v, FromError err))) w =
    (let '(v, err, e) := f ctx' (sw_ext w) in
     ((v, FromError err), mkSpworld e (sw_heap w) (sw_timers w) n)) /\
  (sw_next w <= n)%nat.
Proof.
  intros Hw. unfold withTimeout, call_deadline, deferred, mbind, sp_bind, ext, mret, sp_ret.
  case_decide as Ht; [|destruct (Deadline ctx) as [d|] eqn:Hd].
  - exists ctx, (sw_next w). split; [by destruct (Deadline ctx)|]. split; [|done].
    by destruct (f ctx (sw_ext w)) as [[v err] e].
  - exists ctx, (sw_next w). split; [done|]. split; [|done].
    by destruct (f ctx (sw_ext w)) as [[v err] e].
  - exists (context_WithTimeout (clock (sw_ext w)) ctx (timeout c)), (S (sw_next w)).
    split; [unfold context_WithTimeout; by rewrite Hd|]. split; [|lia].
    unfold WithTimeoutContext. cbn [sw_ext sw_heap sw_timers sw_next].
    destruct (f _ (sw_ext w)) as [[v err] e]. cbn [run_cancel sw_ext sw_heap sw_timers sw_next].
    repeat f_equal. assert (sw_next w ∉ sw_timers w) by (intros H; specialize (Hw _ H); lia).
    set_solver.
Qed.

Lemma FromError_none err : FromError err = None <-> err = None.
Proof.
  split; [|by intros ->]. destruct err as [e|]; [|done]. simpl.
  destruct (status_FromError e) as [st []]; done.
Qed.

Lemma FromError_typed e st : chain_status e = Some st ->
  exists se, FromError (Some e) = Some (EStatusError se) /\ Code se = st_Code st.
Proof.
  intros H. unfold FromError. destruct (Unwrap e) as [c|] eqn:Hu.
  - rewrite (FromError_wrapped _ _ H) by (by rewrite Hu). cbn. rewrite fill_details_eq. by eexists.
  - rewrite (FromError_direct _ _ H Hu). cbn. rewrite fill_details_eq. by eexists.
Qed.

(** C33: the calls of the Workload API. Each of the eight one-shot methods makes
    its go-spiffe call once, under the caller's deadline if there is one and
    the client's timeout from now otherwise (none if it is disabled), returns
    the call's value and its error, nil exactly when that is nil and typed
    when it carries a gRPC status, and leaves no timer running. A watch runs
    under the caller's context itself, never under the timeout. *)
Theorem workload_calls c ctx (w : spworld) :
  timers_wf w ->
  (forall T (m : Client -> context -> sp (T * option error)) f, one_shot m f ->
    exists ctx' v err w', f (wl c) ctx' (sw_ext w) = (v, err, sw_ext w') /\
      m c ctx w = ((v, FromError err), w') /\
      Deadline ctx' = call_deadline c ctx (clock (sw_ext w)) /\
      (FromError err = None <-> err = None) /\
      (forall e st, err = Some e -> chain_status e = Some st ->
        exists se, FromError err = Some (EStatusError se) /\ Code se = st_Code st) /\
      sw_timers w' = sw_timers w /\ timers_wf w' /\ sw_heap w' = sw_heap w) /\
  (forall m f, watch m f ->
    exists err w', f (wl c) ctx (sw_ext w) = (err, sw_ext w') /\
      m c ctx w = (FromError err, w') /\ sw_timers w' = sw_timers w /\ sw_heap w' = sw_heap w).
Proof.
  intros Hw. split.
  - intros T m f H.
    assert (m c ctx w = ('(ctx, cancel) ← withTimeout c ctx;
      deferred cancel ('(v, err) ← ext (f (wl c) ctx); mret (v, FromError err))) w) as ->
      by (destruct H; reflexivity).
    destruct (one_shot_run (f (wl c)) c ctx w Hw) as (ctx' & n & Hd & -> & Hn).
    destruct (f (wl c) ctx' (sw_ext w)) as [[v err] e] eqn:Ef.
    exists ctx', v, err, (mkSpworld e (sw_heap w) (sw_timers w) n). split; [exact Ef|]. split; [reflexivity|]. split; [exact Hd|].
    split; [apply FromError_none|]. split; [intros e0 st -> Hst; by apply FromError_typed|].
    split; [reflexivity|]. split; [|reflexivity].
    intros i Hi. specialize (Hw i Hi). simpl in *. lia.
  - intros m f []; unfold WatchX509Context, WatchJWTBundles, mbind, sp_bind, ext; cbv beta.
    1: destruct (wl_WatchX509Context (wl c) ctx watcher (sw_ext w)) as [err e].
    2: destruct (wl_WatchJWTBundles (wl c) ctx watcher (sw_ext w)) as [err e].
    all: by exists err, (mkSpworld e (sw_heap w) (sw_timers w) (sw_next w)).
Qed.
End calls.

(** ** Dialing *)

Definition addr_of (o : ClientOption) : option bytes :=
  match o with WithAddr a => Some a | _ => None end.

(** The gRPC dial options in a list of client options, in order: they accumulate. *)
Definition dial_options (opts : list ClientOption) : list DialOption :=
  concat (map (fun o => match o with WorkloadDialOptions os => os | _ => [] end) opts).

(** The options [Dial] and the sources add. *)
Definition fixed_options (socketPath : bytes) : list ClientOption :=
  [WithAddr (socketAddr socketPath); WorkloadDialOptions [WithAuthority (str "localhost")]].

(** The endpoint and the authority go-spiffe ends up with. *)
Definition pinned (socketPath : bytes) (opts : list ClientOption) : Prop :=
  last_of addr_of opts = Some (socketAddr socketPath) /\
  last_of authority_of (dial_options opts) = Some (str "localhost").

Lemma fixed_pinned socketPath opts : pinned socketPath (opts ++ fixed_options socketPath).
Proof.
  split; [by rewrite last_of_app|].
  unfold dial_options. by rewrite map_app, concat_app, last_of_app.
Qed.

(** An endpoint always carries a scheme, and is kept when it does. *)
Lemma socketAddr_scheme path :
  Contains (socketAddr path) (str "://") = true /\ socketAddr (socketAddr path) = socketAddr path.
Proof.
  assert (Contains (socketAddr path) (str "://") = true) as H.
  { unfold socketAddr. destruct (Contains path _) eqn:E; [done|].
    exact (Contains_app (str "unix") (str "://") path). }
  split; [done|]. unfold socketAddr at 1. by rewrite H.
Qed.

Section dial.
Context {Rt : GoRuntime} {WA : WorkloadApi} {GS : GrpcStatus}.

(** The options the package offers, as data. *)
Inductive option_spec := OptTimeout (d : Z) | OptClient (s : goslice).

Definition to_option (o : option_spec) : Option :=
  match o with OptTimeout d => WithTimeout d | OptClient s => WithClientOptions s end.

Definition user_options (h : heap ClientOption) (specs : list option_spec) : list ClientOption :=
  concat (map (fun o => match o with OptClient s => read h s | OptTimeout _ => [] end) specs).
Definition last_timeout (t : Z) (specs : list option_spec) : Z :=
  foldl (fun t o => match o with OptTimeout d => d | OptClient _ => t end) t specs.

Definition with_heap (w : spworld) (h : heap ClientOption) : spworld :=
  mkSpworld (sw_ext w) h (sw_timers w) (sw_next w).

(** A configuration under construction shares no array with the caller. *)
Definition config_wf (h0 h : heap ClientOption) (cfg : config) : Prop :=
  h0 `prefix_of` h /\ slice_wf h (cfg_clientOpts cfg) /\ private h0 (cfg_clientOpts cfg).

Lemma apply_options_run h0 specs cfg w :
  (forall s, OptClient s ∈ specs -> slice_wf h0 s) -> config_wf h0 (sw_heap w) cfg ->
  exists cfg' h', apply_options (to_option <$> specs) cfg w = (cfg', with_heap w h') /\
    config_wf h0 h' cfg' /\ cfg_timeout cfg' = last_timeout (cfg_timeout cfg) specs /\
    read h' (cfg_clientOpts cfg') = read (sw_heap w) (cfg_clientOpts cfg) ++ user_options h0 specs.
Proof.
  revert cfg w. induction specs as [|o specs IH]; intros cfg w Hs Hc.
  - exists cfg, (sw_heap w). rewrite app_nil_r. split_and!; try done; [by destruct w|apply Hc..].
  - assert (forall s, OptClient s ∈ specs -> slice_wf h0 s) as Hs' by (intros s ?; apply Hs; set_solver).
    cbn [fmap list_fmap apply_options]. destruct o as [d|s]; cbn [to_option].
    + destruct (IH (mkConfig d (cfg_clientOpts cfg)) w Hs' Hc) as (cfg' & h' & E & H).
      exists cfg', h'. by rewrite <-E.
    + destruct Hc as (Hp & Hw & Hv). assert (slice_wf h0 s) as Hso by (apply Hs; set_solver).
      destruct (append NilClientOption growslice_spare (cfg_clientOpts cfg) (read (sw_heap w) s) (sw_heap w))
        as [s' h1] eqn:E.
      destruct (append_spec _ _ _ _ _ _ Hw E) as (Hw1 & Hr1 & _).
      destruct (append_private _ _ _ _ _ _ _ Hp Hv E) as [Hp1 Hv1].
      destruct (IH (mkConfig (cfg_timeout cfg) s') (with_heap w h1) Hs') as (cfg' & h' & E' & Hc' & Ht & Hr);
        [done|].
      exists cfg', h'. split; [|split; [exact Hc'|split; [exact Ht|]]].
      * unfold WithClientOptions, elements, on_heap, mbind, sp_bind. cbv beta iota. rewrite E. exact E'.
      * rewrite Hr. cbn [sw_heap with_heap cfg_clientOpts]. rewrite Hr1, <-app_assoc.
        unfold user_options. cbn [map concat]. do 2 f_equal. by apply read_prefix.
Qed.

(** C34: [Dial]. The empty path is refused before go-spiffe is called. For any
    other, whatever options the caller gives, go-spiffe is handed all of the
    caller's client options, as their slices stand when [Dial] is called, and
    after them the fixed ones, so that the endpoint is the path's socket
    address and the authority localhost, over any the caller gave; the
    client's timeout is that of the last [WithTimeout], 30 seconds without
    one; an error is wrapped; and no array of the caller is written. *)
Theorem Dial_pinned ctx socketPath specs (w : spworld) :
  (forall s, OptClient s ∈ specs -> slice_wf (sw_heap w) s) ->
  (socketPath = [] -> exists e, Dial ctx socketPath (to_option <$> specs) w = (Err e, w) /\
    Unwrap e = None) /\
  (socketPath <> [] -> exists opts r e h',
    user_options (sw_heap w) specs `prefix_of` opts /\ pinned socketPath opts /\
    workloadapi_New ctx opts (sw_ext w) = (r, e) /\ sw_heap w `prefix_of` h' /\
    exists res, Dial ctx socketPath (to_option <$> specs) w =
      (res, mkSpworld e h' (sw_timers w) (sw_next w)) /\
      match r with
      | Ok cl => res = Ok (mkClient cl (last_timeout DefaultTimeout specs))
      | Err err => exists e', res = Err e' /\ Is e' err = true
      end).
Proof.
  intros Hs. split; intros Hp.
  { eexists. unfold Dial. rewrite decide_True by done. by split. }
  destruct (apply_options_run (sw_heap w) specs (mkConfig DefaultTimeout nil_slice) w Hs)
    as (cfg & h1 & E1 & (Hp1 & Hw1 & Hv1) & Ht & Hr).
  { split_and!; [done|apply slice_wf_nil|by left]. }
  destruct (append NilClientOption growslice_spare (cfg_clientOpts cfg) (fixed_options socketPath) h1)
    as [s h2] eqn:E2.
  destruct (append_spec _ _ _ _ _ _ Hw1 E2) as (_ & Hr2 & _).
  destruct (append_private _ _ _ _ _ _ _ Hp1 Hv1 E2) as [Hp2 _].
  destruct (workloadapi_New ctx (read h2 s) (sw_ext w)) as [r e] eqn:E3.
  exists (read h2 s), r, e, h2. split; [|split; [|split; [exact E3|split; [exact Hp2|]]]].
  - rewrite Hr2, Hr. cbn [cfg_clientOpts app]. by eexists.
  - rewrite Hr2. apply fixed_pinned.
  - unfold Dial. rewrite decide_False by done. unfold clientOptions, elements, on_heap, ext, mbind, sp_bind.
    rewrite E1. cbn [sw_heap with_heap]. fold (fixed_options socketPath). rewrite E2.
    cbn [sw_heap sw_ext sw_timers sw_next with_heap]. rewrite E3.
    eexists. split; [reflexivity|]. cbn [cfg_timeout] in Ht. rewrite Ht.
    destruct r; [done|]. eexists. split; [done|]. apply Is_wrap, Is_refl.
Qed.

(** ** The sources *)

(** A source constructor hands go-spiffe the caller's options followed by the
    fixed ones, and touches of the caller's arrays what [append] does. *)
Definition source_spec {S} (m : sp (result error S))
    (new : context -> list ClientOption -> E -> result error S * E)
    (ctx : context) (socketPath : bytes) (extra : goslice) (w : spworld) : Prop :=
  let opts := read (sw_heap w) extra ++ fixed_options socketPath in
  exists r e h' res, new ctx opts (sw_ext w) = (r, e) /\ pinned socketPath opts /\
    m w = (res, mkSpworld e h' (sw_timers w) (sw_next w)) /\
    match r with
    | Ok src => res = Ok src
    | Err err => exists e', res = Err e' /\ Is e' err = true
    end /\
    (sl_cap extra < sl_len extra + 2 -> sw_heap w `prefix_of` h')%nat /\
    (sl_len extra + 2 <= sl_cap extra ->
      cell h' (sl_array extra) (sl_off extra + sl_len extra) =
        Some (WithAddr (socketAddr socketPath)) /\
      cell h' (sl_array extra) (sl_off extra + sl_len extra + 1) =
        Some (WorkloadDialOptions [WithAuthority (str "localhost")]) /\
      forall a i, a < length (sw_heap w) ->
        (a <> sl_array extra \/ i < sl_off extra + sl_len extra \/
          sl_off extra + sl_len extra + 2 <= i) ->
        cell h' a i = cell (sw_heap w) a i)%nat.

Lemma source_run {S} (new : context -> list ClientOption -> E -> result error S * E) fmt
    ctx socketPath extra w :
  slice_wf (sw_heap w) extra ->
  source_spec (s ← clientOptions socketPath extra; xs ← elements s; r ← ext (new ctx xs);
    mret (match r with
          | Err err => Err (Wrapf fmt [AStr socketPath] err)
          | Ok src => Ok src
          end)) new ctx socketPath extra w.
Proof.
  intros Hw. unfold source_spec, clientOptions, on_heap. cbv zeta. fold (fixed_options socketPath).
  destruct (append NilClientOption growslice_spare extra (fixed_options socketPath) (sw_heap w))
    as [s h'] eqn:E.
  destruct (append_spec _ _ _ _ _ _ Hw E) as (_ & Hr & _).
  destruct (new ctx (read (sw_heap w) extra ++ fixed_options socketPath) (sw_ext w)) as [r e] eqn:En.
  eexists r, e, h', _. split; [done|]. split; [apply fixed_pinned|]. split.
  { unfold elements, ext, mbind, sp_bind. rewrite E. cbn [sw_heap sw_ext sw_timers sw_next].
    rewrite Hr, En. reflexivity. }
  split; [destruct r; [done|]; eexists; split; [done|]; apply Is_wrap, Is_refl|].
  split; [by apply (append_moves _ _ _ _ _ _ E)|]. intros Hc.
  pose proof (append_overwrites _ _ _ _ _ _ 0 _ Hw E Hc eq_refl) as H0.
  pose proof (append_overwrites _ _ _ _ _ _ 1 _ Hw E Hc eq_refl) as H1.
  rewrite Nat.add_0_r in H0. split_and!; [done|done|].
  intros a i Ha Hi. by apply (append_keeps _ _ _ _ _ _ _ _ E).
Qed.

(** C35: the sources pin the endpoint too, but write into their argument. Both
    constructors build their source from the caller's options and the fixed
    ones, whatever these hold. When the caller's slice has no room for two
    more elements the caller's arrays are untouched; when it has, the two
    cells behind its length, which another slice of the caller may hold
    options in, are overwritten with this call's address and authority, and
    no others. *)
Theorem sources_append ctx socketPath extra (w : spworld) :
  slice_wf (sw_heap w) extra ->
  source_spec (NewX509Source ctx socketPath extra) workloadapi_NewX509Source ctx socketPath extra w /\
  source_spec (NewJWTSource ctx socketPath extra) workloadapi_NewJWTSource ctx socketPath extra w.
Proof. intros Hw. split; by apply source_run. Qed.
End dial.
