(* ===== verification/CourierProps.v ===== *)
(** The properties of the example [nats-cose-courier]: its retry loop, and the
    sealed invocation it makes from end to end. *)

From S2P Require Import Prelude GoTime GoText GoError IO Crypto Errors Cbor Sealed SealedLemmas SealedFlow.
From S2P Require Import Keytype Program ExCourier.

(** ** The retry loop *)

Section retry.
Context {Na : Nats}.

(** The clock: a request takes no longer than its timeout when it fails, and a
    sleep at least its duration, at most [slack] more. *)
Record clock_ok (slack : Z) : Prop := {
  clock_nsec : forall n, 0 <= t_nsec (net_Now n) < Second;
  clock_request : forall nc subject payload d n r n', 0 <= d ->
    nats_Request nc subject payload d n = (r, n') ->
    nanos (net_Now n) <= nanos (net_Now n') /\
    (forall e, r = Err e -> nanos (net_Now n') <= nanos (net_Now n) + d);
  clock_sleep : forall d n, 0 <= d ->
    nanos (net_Now n) + d <= nanos (net_Now (time_Sleep d n)) <= nanos (net_Now n) + d + slack;
}.

Definition pause : Z := 150 * 1000000.

(** [up]: from that moment on the bridge answers. *)
Definition answers_from (up : Z) (nc : NatsConn) (subject payload : bytes) : Prop :=
  forall n, up <= nanos (net_Now n) ->
    exists reply n', nats_Request nc subject payload (2 * Second) n = (Ok reply, n').

Lemma retry_loop_total slack fuel nc subject payload deadline lastErr n :
  clock_ok slack -> 0 <= t_nsec deadline < Second ->
  nanos deadline - nanos (net_Now n) <= Z.of_nat fuel * pause ->
  exists r n', retry_loop fuel nc subject payload deadline lastErr n = (r, n') /\
    r <> Err OutOfFuel /\
    (forall reply, r = Ok reply -> exists n1, Before (net_Now n1) deadline = true /\
      nats_Request nc subject payload (2 * Second) n1 = (Ok reply, n')).
Proof.
  intros Hc Hd. revert lastErr n. induction fuel as [|fuel IH]; intros lastErr n Hf; cbn [retry_loop].
  - rewrite Before_nanos by (try apply Hc; done). rewrite bool_decide_eq_false_2 by lia. cbn [negb].
    eexists _, _. split; [reflexivity|]. by destruct lastErr.
  - destruct (Before (net_Now n) deadline) eqn:Hb; cbn [negb];
      [|eexists _, _; split; [reflexivity|]; by destruct lastErr].
    destruct (nats_Request nc subject payload (2 * Second) n) as [[reply|err] n1] eqn:E.
    + exists (Ok reply), n1. split_and!; [done|done|]. intros ? [= <-]. eauto.
    + apply IH. destruct (clock_request _ Hc _ _ _ (2 * Second) _ _ _ ltac:(done) E) as [Hn _].
      destruct (clock_sleep _ Hc pause n1 ltac:(done)) as [Hs _]. unfold pause in *. lia.
Qed.

Lemma retry_loop_live slack up fuel nc subject payload deadline lastErr n :
  clock_ok slack -> 0 <= t_nsec deadline < Second ->
  answers_from up nc subject payload -> up + 2 * Second + pause + slack <= nanos deadline ->
  nanos (net_Now n) < nanos deadline ->
  nanos deadline - nanos (net_Now n) <= Z.of_nat fuel * pause ->
  exists reply n', retry_loop fuel nc subject payload deadline lastErr n = (Ok reply, n').
Proof.
  intros Hc Hd Ha Hu. revert lastErr n. induction fuel as [|fuel IH]; intros lastErr n Hlt Hf; [lia|].
  cbn [retry_loop]. rewrite Before_nanos by (try apply Hc; done). rewrite bool_decide_eq_true_2 by done.
  cbn [negb]. destruct (nats_Request nc subject payload (2 * Second) n) as [[reply|err] n1] eqn:E; [eauto|].
  destruct (decide (up <= nanos (net_Now n))) as [Hup|Hup].
  { destruct (Ha n Hup) as (reply & n' & E'). congruence. }
  destruct (clock_request _ Hc _ _ _ (2 * Second) _ _ _ ltac:(done) E) as [Hn Hn2]. specialize (Hn2 err eq_refl).
  destruct (clock_sleep _ Hc pause n1 ltac:(done)) as [Hs Hs2].
  apply IH; unfold pause in *; lia.
Qed.

(** C32: the retry loop ends, and delivers. It makes at most 134 requests, none
    after 20 seconds, and returns the first reply it gets or an error. If
    the bridge answers every request from some moment on that leaves time
    for one failing request and one pause before those 20 seconds are over,
    a reply is returned, however many requests failed before. *)
Theorem requestWithRetry_live slack fuel nc subject payload n :
  clock_ok slack -> calendar (net_Now n) -> (134 <= fuel)%nat ->
  (exists r n', requestWithRetry fuel nc subject payload n = (r, n') /\ r <> Err OutOfFuel /\
    (forall reply, r = Ok reply -> exists n1,
      nanos (net_Now n1) < nanos (net_Now n) + 20 * Second /\
      nats_Request nc subject payload (2 * Second) n1 = (Ok reply, n'))) /\
  (forall up, answers_from up nc subject payload ->
    up + 2 * Second + pause + slack <= nanos (net_Now n) + 20 * Second ->
    exists reply n', requestWithRetry fuel nc subject payload n = (Ok reply, n')).
Proof.
  intros Hc Hcal Hf. destruct (Time_Add_nanos _ (20 * Second) Hcal ltac:(unfold Second; lia)) as [Hd Hns].
  assert (nanos (Time_Add (net_Now n) (20 * Second)) - nanos (net_Now n) <= Z.of_nat fuel * pause) as Hb
    by (rewrite Hd; unfold Second, pause; lia).
  unfold requestWithRetry. split.
  - destruct (retry_loop_total slack fuel nc subject payload _ None n Hc Hns Hb) as (r & n' & -> & Hr & Hok).
    exists r, n'. split_and!; [done|done|]. intros reply ->. destruct (Hok reply eq_refl) as (n1 & Ht & E).
    exists n1. split; [|done]. rewrite <-Hd.
    rewrite Before_nanos in Ht by (try apply Hc; done). by apply bool_decide_eq_true in Ht.
  - intros up Ha Hu. rewrite <-Hd in Hu. apply (retry_loop_live slack up); auto. rewrite Hd. unfold Second. lia.
Qed.
End retry.

(** ** The conversation *)

Section courier.
Context {P : Platform Time} {PL : PlatformLaws P} {C : Crypto} {CL : CryptoLaws C}
  {Cb : Cbor} {CbL : CborLaws Cb} {Co : Cose} {CoL : CoseLaws Co} {Na : Nats}.

Definition pass_line (response : signInvocationResponse) : line :=
  Out "PASS sealed sign invocation via basil-nats-bridge key=%s policy_generation=%d signature_len=%d"
    [AStr targetSigningKeyID; AInt (sir_PolicyGeneration response); AInt (len (sir_Signature response))].

(** What [hexEnv] reads. *)
Definition hex_var (getenv : bytes -> bytes) (key : string) (value : bytes) : Prop :=
  getenv (str key) <> [] /\ hex_DecodeString (getenv (str key)) = Ok value.

Lemma requiredEnv_inv getenv key p v p' :
  requiredEnv getenv key p = (Done v, p') -> v = getenv key /\ v <> [] /\ p' = p.
Proof. unfold requiredEnv. case_decide; [done|]. by intros [= <- <-]. Qed.

Lemma hexEnv_inv getenv key p v p' :
  hexEnv getenv (str key) p = (Done v, p') -> hex_var getenv key v /\ p' = p.
Proof.
  unfold hexEnv. intros E. prog_inv E as value p1 E1.
  apply requiredEnv_inv in E1 as (-> & Hne & ->). apply wrapping_Done_inv, pure_Done_inv in E as [E ->].
  done.
Qed.

Lemma requiredEnv_run getenv key p : getenv key <> [] -> requiredEnv getenv key p = (Done (getenv key), p).
Proof. intros H. unfold requiredEnv. by rewrite decide_False. Qed.

Lemma hexEnv_run getenv key v p :
  hex_var getenv key v -> hexEnv getenv (str key) p = (Done v, p).
Proof.
  intros [H1 H2]. unfold hexEnv. prog_run (requiredEnv_run getenv (str key) p H1).
  apply wrapping_Done. rewrite H2. by destruct p.
Qed.

Lemma sealed_call_inv {A} src dst (m : io A) p a p' :
  sealed_call src dst m p = (Done a, p') ->
  let w := World src dst (co_rng (ps_state p)) [] (net_Now (co_net (ps_state p))) in
  (exists w', m w = (Ok a, w') /\ co_rng (ps_state p') = w_rng w') /\
  co_net (ps_state p') = co_net (ps_state p) /\ ps_out p' = ps_out p.
Proof.
  unfold sealed_call. intros E. apply call_on_Done_inv in E as [E Ho]. cbv zeta.
  destruct (m _) as [r w'] eqn:Em. injection E as -> E. rewrite <-E. eauto.
Qed.

Lemma sealed_call_run {A} src dst (m : io A) p a w' :
  m (World src dst (co_rng (ps_state p)) [] (net_Now (co_net (ps_state p)))) = (Ok a, w') ->
  sealed_call src dst m p =
    (Done a, mkProcess (mkCourier (co_net (ps_state p)) (w_rng w')) (ps_out p)).
Proof. intros E. unfold sealed_call, call_on. by rewrite E. Qed.

Lemma on_net_inv {A} (f : Net -> result error A * Net) p a p' :
  on_net f p = (Done a, p') ->
  f (co_net (ps_state p)) = (Ok a, co_net (ps_state p')) /\ ps_out p' = ps_out p.
Proof.
  unfold on_net. intros E. apply call_on_Done_inv in E as [E Ho].
  destruct (f _) as [r n]. injection E as -> E. by rewrite <-E.
Qed.

Lemma on_net_run {A} (f : Net -> result error A * Net) p a n :
  f (co_net (ps_state p)) = (Ok a, n) ->
  on_net f p = (Done a, mkProcess (mkCourier n (co_rng (ps_state p))) (ps_out p)).
Proof. intros E. unfold on_net, call_on. by rewrite E. Qed.

(** What the program has established of the response when it passes, having read
    the clock at [now]. *)
Definition verified (now : Time) (reply : Msg) (request : Request) (brokerPublic targetPublic : bytes)
    (response : signInvocationResponse) : Prop :=
  exists opened protected raw signature tbs enc,
    let params := response_params (msg_Data reply) request now brokerPublic in
    len brokerPublic = 32 /\ sigStructure protected None raw = Ok tbs /\
    ed25519_Verify brokerPublic tbs signature = true /\ decodeEncrypt (default [] raw) = Ok enc /\
    answers params now (em_claims enc) /\ em_contentType enc = signResponseContentType /\
    openEncrypt enc (str "response.sealing") (replicate 32 x22) = Ok opened /\
    cbor_Unmarshal opened = Ok response /\ is_Code (sir_Status response) = statusOK /\
    len targetPublic = 32 /\
    ed25519_Verify targetPublic defaultRequestBody (sir_Signature response) = true.

Lemma now_of_same data request now brokerPublic (w : world P) : w_ext w = now ->
  now_of (response_params data request now brokerPublic) w = now.
Proof. intros H. unfold now_of. cbn [sp_Now response_params]. by destruct (IsZero now). Qed.

Lemma converse_inv fuel src dst nc subject request brokerPublic targetPublic p p' :
  converse fuel src dst nc subject request brokerPublic targetPublic p = (Done (), p') ->
  exists reply n response,
    requestWithRetry fuel nc subject (req_Message request) (co_net (ps_state p)) = (Ok reply, n) /\
    Header_Values reply (str "Basil-Bridge-Error") = [] /\
    verified (net_Now n) reply request brokerPublic targetPublic response /\
    ps_out p' = ps_out p ++ [pass_line response].
Proof.
  unfold converse. intros E. prog_inv E as reply p1 E1. apply on_net_inv in E1 as [E1 O1].
  destruct (Header_Values reply _) as [|v vs] eqn:Hh; [|done].
  prog_inv E as now p2 E2. injection E2 as <- <-.
  prog_inv E as opened p3 E3. apply sealed_call_inv in E3 as [(w' & E3 & _) (_ & O3)].
  apply OpenResponse_inv in E3 as (-> & protected & raw & signature & tbs & enc & E3).
  destruct E3 as (T1 & T2 & T3 & T4 & T5 & T6 & T7 & T8 & T9).
  prog_inv E as response p4 E4. apply wrapping_Done_inv, pure_Done_inv in E4 as [E4 ->].
  case_decide as Hst; [done|]. prog_inv E as valid p5 E5. apply pure_Done_inv in E5 as [E5 ->].
  destruct valid; [|done]. cbn [negb] in E. injection E as <-.
  exists reply, (co_net (ps_state p1)), response.
  split; [exact E1|]. split; [exact Hh|]. cbn [ps_out ps_state] in *. split; [|by rewrite O3, O1].
  unfold ed25519_verify in E5. case_decide as Hl; [done|]. injection E5 as E5.
  exists (resp_Plaintext opened), protected, raw, signature, tbs, enc. cbv zeta.
  split; [exact T2|]. split; [exact T1|]. split; [exact T3|]. split; [exact T4|].
  rewrite now_of_same in T5 by done. split; [exact T5|]. split; [|split; [exact T9|]].
  - unfold type_ok in T6. cbn in T6. destruct T6 as [[=]|T6]. done.
  - by split_and!.
Qed.

Lemma closing_Done {A} nc (body : prog courier A) p a p' :
  closing nc body p = (Done a, p') ->
  exists p1, body p = (Done a, p1) /\ ps_out p' = ps_out p1.
Proof. unfold closing. destruct (body p) as [r p1]. intros [= -> <-]. eauto. Qed.

(** C17: what a pass means. When the program returns nil, it built a request, at
    the time its clock showed at the start, for the recipient of its environment;
    connected to the server of its environment, it was given an answer to that
    request on the subject of its environment, without a bridge error. The answer
    is signed by the broker's key of the environment, names the broker's key id,
    answers that very request (its id and the hash of its bytes) in the window of
    the time the clock showed when the answer had arrived, has the content type
    of a sign response and opens for the program's response key; its status is
    OK and its signature verifies, under the target key of the environment, on the
    body the program asked to be signed; and one line is printed. *)
Theorem courier_sound fuel src dst getenv p p' :
  getenv (str "EXAMPLE_MODE") <> str "fixtures" ->
  run fuel src dst getenv p = (Done (), p') ->
  let n := co_net (ps_state p) in
  exists recipient brokerPublic targetPublic body request reply response nc n1 n2,
    hex_var getenv "BASIL_REQUEST_RECIPIENT_PUBLIC_HEX" recipient /\
    hex_var getenv "BASIL_BROKER_SIGNING_PUBLIC_HEX" brokerPublic /\
    hex_var getenv "BASIL_TARGET_SIGNING_PUBLIC_HEX" targetPublic /\
    cbor_Marshal (mkSignInvocationRequest targetSigningKeyID defaultRequestBody SigningAlgorithmEd25519)
      = Ok body /\
    (exists w', BuildRequest (P := P) (request_params body recipient (net_Now n))
      (World src dst (co_rng (ps_state p)) [] (net_Now n)) = (Ok request, w')) /\
    nats_Connect (getenv (str "BASIL_NATS_URL")) n = (Ok nc, n1) /\
    requestWithRetry fuel nc (getenv (str "BASIL_NATS_SUBJECT")) (req_Message request) n1 = (Ok reply, n2) /\
    Header_Values reply (str "Basil-Bridge-Error") = [] /\
    verified (net_Now n2) reply request brokerPublic targetPublic response /\
    ps_out p' = ps_out p ++ [pass_line response].
Proof.
  intros Hm E. unfold run in E. rewrite decide_False in E by done.
  prog_inv E as natsURL p1 E1. apply requiredEnv_inv in E1 as (-> & _ & ->).
  prog_inv E as subject p2 E2. apply requiredEnv_inv in E2 as (-> & _ & ->).
  prog_inv E as recipient p3 E3. apply hexEnv_inv in E3 as (H3 & ->).
  prog_inv E as brokerPublic p4 E4. apply hexEnv_inv in E4 as (H4 & ->).
  prog_inv E as targetPublic p5 E5. apply hexEnv_inv in E5 as (H5 & ->).
  prog_inv E as body p6 E6. apply wrapping_Done_inv, pure_Done_inv in E6 as [E6 ->].
  prog_inv E as now p7 E7. injection E7 as <- <-.
  prog_inv E as request p8 E8. apply sealed_call_inv in E8 as [(w' & E8 & _) (N8 & O8)].
  prog_inv E as nc p9 E9. apply wrapping_Done_inv, on_net_inv in E9 as [E9 O9].
  apply closing_Done in E as (p10 & E & O10). apply converse_inv in E as (reply & n2 & response & E).
  destruct E as (Er & Hh & Hv & Ho). cbn [ps_state ps_out] in *. rewrite N8 in E9.
  exists recipient, brokerPublic, targetPublic, body, request, reply, response, nc, (co_net (ps_state p9)), n2.
  split_and!; try done; [by exists w'|]. by rewrite O10, Ho, O9, O8.
Qed.

(** ** Against an honest bridge *)

(** The bridge carries a request to a broker that opens it with [kB], signs its
    body with the target's seed, and seals the response, in time, for the key
    pair [kC] of the program. *)
Definition honest_bridge (nc : NatsConn) (subject : bytes) (kB kC : X25519Key) (brokerSeed targetSeed : bytes)
    : Prop :=
  forall body msg t n,
    cbor_Marshal (mkSignInvocationRequest targetSigningKeyID defaultRequestBody SigningAlgorithmEd25519)
      = Ok body ->
    sealed_as msg signRequestContentType body
      (request_claims (request_params body (PublicKey_Bytes kB) t) t)
      (str "client.signing") (replicate 32 x07) requestSealingKeyID kB ->
    exists reply n' pt cs response,
      nats_Request nc subject msg (2 * Second) n = (Ok reply, n') /\
      Header_Values reply (str "Basil-Bridge-Error") = [] /\
      sealed_as (msg_Data reply) signResponseContentType pt cs (str "broker.signing") brokerSeed
        (str "response.sealing") kC /\
      cl_senderKeyID cs = str "broker.signing" /\
      cl_inReplyTo cs = Some (str "go-nats-bridge-request") /\
      cl_requestHash cs = Some (sha3_Sum256 msg) /\
      validateResponseClaims cs (net_Now n') Minute (5 * Minute) = Ok () /\
      cbor_Unmarshal pt = Ok response /\ is_Code (sir_Status response) = statusOK /\
      sir_Signature response = ed25519_Sign targetSeed defaultRequestBody.

Lemma retry_first fuel nc subject payload n reply n' : calendar (net_Now n) -> (0 < fuel)%nat ->
  nats_Request nc subject payload (2 * Second) n = (Ok reply, n') ->
  requestWithRetry fuel nc subject payload n = (Ok reply, n').
Proof.
  intros Hc Hf E. destruct (Time_Add_nanos _ (20 * Second) Hc ltac:(unfold Second; lia)) as [Hd Hns].
  unfold requestWithRetry. destruct fuel as [|fuel]; [lia|]. cbn [retry_loop].
  rewrite Before_nanos by (done || apply Hc). rewrite bool_decide_eq_true_2 by (rewrite Hd; unfold Second; lia).
  cbn [negb]. by rewrite E.
Qed.

Lemma converse_honest fuel src dst nc subject kB kC brokerSeed targetSeed body msg t p :
  honest_bridge nc subject kB kC brokerSeed targetSeed -> len targetSeed = 32 ->
  NewPrivateKey (replicate 32 x22) = Ok kC ->
  calendar (net_Now (co_net (ps_state p))) -> (0 < fuel)%nat ->
  cbor_Marshal (mkSignInvocationRequest targetSigningKeyID defaultRequestBody SigningAlgorithmEd25519)
    = Ok body ->
  sealed_as msg signRequestContentType body
    (request_claims (request_params body (PublicKey_Bytes kB) t) t)
    (str "client.signing") (replicate 32 x07) requestSealingKeyID kB ->
  exists response p', converse fuel src dst nc subject (mkRequest msg (str "go-nats-bridge-request"))
      (ed25519_Public brokerSeed) (ed25519_Public targetSeed) p = (Done (), p') /\
    ps_out p' = ps_out p ++ [pass_line response].
Proof.
  intros Hb Hts Hk Hcal Hf Hbody Hmsg.
  destruct (Hb body msg t (co_net (ps_state p)) Hbody Hmsg) as (reply & n' & pt & cs & response & E1 & Hh & Hr).
  destruct Hr as ((sign1 & raw & V1 & V2 & V3 & _) & A1 & A2 & A3 & A4 & Hu & Hst & Hsig).
  exists response. unfold converse. cbn [req_Message].
  prog_run (on_net_run _ p _ _ (retry_first fuel nc subject msg _ _ _ Hcal Hf E1)). rewrite Hh.
  cbn [ps_state co_rng ps_out]. set (p1 := mkProcess _ _).
  assert (now_in p1 = (Done (net_Now n'), p1)) as En by done. prog_run En.
  set (params := response_params _ _ _ _).
  assert (OpenResponse params (World src dst (co_rng (ps_state p1)) [] (net_Now (co_net (ps_state p1)))) =
    (Ok (mkResponse pt signResponseContentType), World src dst (co_rng (ps_state p1)) [] (net_Now n'))) as Eo.
  { apply (OpenResponse_run params _ sign1 raw signResponseContentType pt cs kC); auto.
    - unfold params. rewrite now_of_same by done. split_and!; auto.
    - by right. }
  prog_run (sealed_call_run _ _ _ _ _ _ Eo). cbn [resp_Plaintext w_rng ps_state ps_out co_net co_rng p1].
  rewrite Hu. unfold wrapping, pure, mbind, prog_bind, call_on. cbn [ps_state ps_out].
  rewrite decide_False by (intros H; by apply H). unfold ed25519_verify.
  rewrite decide_False by (rewrite ed25519_Public_32; auto). rewrite Hsig, Verify_Sign by done.
  cbn [negb]. eexists. split; [reflexivity|]. cbn [ps_out]. unfold pass_line. by rewrite Hsig.
Qed.

(** The surroundings of a successful run: the environment names the subject, the
    broker's public keys and the target's; a message can be encoded, random
    numbers can be had, the clock is set, and the network reaches the bridge. *)
Record honest_setting (getenv : bytes -> bytes) (kB kC : X25519Key) (brokerSeed targetSeed body : bytes)
    (s : courier) : Prop := {
  hs_mode : getenv (str "EXAMPLE_MODE") <> str "fixtures";
  hs_url : getenv (str "BASIL_NATS_URL") <> [];
  hs_subject : getenv (str "BASIL_NATS_SUBJECT") <> [];
  hs_recipient : hex_var getenv "BASIL_REQUEST_RECIPIENT_PUBLIC_HEX" (PublicKey_Bytes kB);
  hs_broker : hex_var getenv "BASIL_BROKER_SIGNING_PUBLIC_HEX" (ed25519_Public brokerSeed);
  hs_target : hex_var getenv "BASIL_TARGET_SIGNING_PUBLIC_HEX" (ed25519_Public targetSeed);
  hs_seed : len targetSeed = 32;
  hs_private : NewPrivateKey (replicate 32 x22) = Ok kC;
  hs_body : cbor_Marshal (mkSignInvocationRequest targetSigningKeyID defaultRequestBody SigningAlgorithmEd25519)
    = Ok body;
  hs_rng : entropic (co_rng s);
  hs_clock : calendar (net_Now (co_net s)) /\ IsZero (net_Now (co_net s)) = false;
  hs_network : exists nc n, nats_Connect (getenv (str "BASIL_NATS_URL")) (co_net s) = (Ok nc, n) /\
    calendar (net_Now n) /\
    honest_bridge nc (getenv (str "BASIL_NATS_SUBJECT")) kB kC brokerSeed targetSeed;
}.

Lemma run_honest fuel src dst getenv kB kC brokerSeed targetSeed body p :
  honest_setting getenv kB kC brokerSeed targetSeed body (ps_state p) -> (0 < fuel)%nat ->
  exists response p', run fuel src dst getenv p = (Done (), p') /\
    ps_out p' = ps_out p ++ [pass_line response].
Proof.
  intros [Hm Hurl Hsub H3 H4 H5 Hts Hk Hbody Hg [Hcal Hz] (nc & n & Econ & Hcaln & Hb)] Hf.
  set (t := net_Now (co_net (ps_state p))). set (params := request_params body (PublicKey_Bytes kB) t).
  destruct (BuildRequest_run params kB (World src dst (co_rng (ps_state p)) [] t)) as (msg & w' & Eb & Hmsg).
  { unfold request_ok. split_and!; try done. }
  { done. }
  { done. }
  { unfold issued_at, params. cbn [rp_IssuedAt request_params]. unfold t. by rewrite Hz. }
  { change (- 2 ^ 63 <= 120000000000 < 2 ^ 63). lia. }
  replace (issued_at params _) with t in Hmsg
    by (unfold issued_at, params; cbn [rp_IssuedAt request_params]; unfold t; by rewrite Hz).
  cbn [params rp_ContentType rp_Plaintext rp_SenderKeyID rp_SenderSeed rp_RecipientKeyID request_params] in Hmsg.
  destruct (converse_honest fuel src dst nc (getenv (str "BASIL_NATS_SUBJECT")) kB kC brokerSeed targetSeed
    body msg t (mkProcess (mkCourier n (w_rng w')) (ps_out p)) Hb Hts Hk Hcaln Hf Hbody Hmsg)
    as (response & p' & Ec & Ho).
  exists response. unfold run. rewrite decide_False by done.
  prog_run (requiredEnv_run getenv (str "BASIL_NATS_URL") p Hurl).
  prog_run (requiredEnv_run getenv (str "BASIL_NATS_SUBJECT") p Hsub).
  prog_run (hexEnv_run _ _ _ p H3). prog_run (hexEnv_run _ _ _ p H4). prog_run (hexEnv_run _ _ _ p H5).
  erewrite prog_bind_Done by (apply wrapping_Done, call_on_Done; by rewrite Hbody).
  assert (forall q, ps_state q = ps_state p -> now_in q = (Done t, q)) as En
    by (intros q Hq; unfold now_in, act; rewrite Hq; by destruct q; simpl in Hq; subst).
  rewrite (prog_bind_Done _ _ _ _ _ (En (mkProcess (ps_state p) (ps_out p)) eq_refl)).
  prog_run (sealed_call_run src dst _ (mkProcess (ps_state p) (ps_out p)) _ _ Eb).
  erewrite prog_bind_Done by (apply wrapping_Done, on_net_run, Econ). cbn [ps_state co_rng ps_out].
  unfold closing. cbn [rp_MessageID params request_params] in Ec |- *. rewrite Ec.
  eexists. split; [reflexivity|]. exact Ho.
Qed.

(** C16: from end to end against an honest bridge. When the environment names
    the subject, the broker's public keys and the target's, the network can
    be reached, random numbers can be had, and the bridge carries the request
    to a broker that opens, signs and answers it in time, the program
    prints its one line and exits with status 0. *)
Theorem courier_honest fuel src dst getenv kB kC brokerSeed targetSeed body p :
  honest_setting getenv kB kC brokerSeed targetSeed body (ps_state p) -> (0 < fuel)%nat ->
  exists response p', main fuel src dst getenv p = (0, p') /\
    ps_out p' = ps_out p ++ [pass_line response].
Proof.
  intros Hs Hf. destruct (run_honest fuel src dst getenv _ _ _ _ _ p Hs Hf) as (response & p' & E & Ho).
  exists response, p'. split; [|exact Ho]. unfold main, main_of. by rewrite E.
Qed.
End courier.
