(* ===== verification/TelemetryProps.v ===== *)
(** The property of the example [cose-nats-telemetry]: its two modes compose. *)

From S2P Require Import Prelude GoTime GoPath GoText GoError Errors Pb Client Keytype Signing Cbor Sealed Minting.
From S2P Require Import Program ExTelemetry.

Section telemetry.
Context {Gr : Grpc} {GS : GrpcStatus} {WK : WellKnown} {J : JsonEncoder} {GV : GoValues}.
Context {Di : Disk} {NK : NKeys} {GC : GoCose} {NB : NatsBus} {MR : MapRange} {Co : Cose} {CoL : CoseLaws Co}.

(** ** Provisioning *)

(** The files of [dir] are files of their own: what is written to one is read
    back from it, and the others keep their content. *)
Record disk_ok (dir : bytes) : Prop := {
  disk_written : forall name content perm d d', simple name ->
    os_WriteFile (Join dir name) content perm d = (None, d') -> os_ReadFile (Join dir name) d' = Ok content;
  disk_others : forall name other content perm d e d', simple name -> simple other -> name <> other ->
    os_WriteFile (Join dir name) content perm d = (e, d') ->
    os_ReadFile (Join dir other) d' = os_ReadFile (Join dir other) d;
}.

Lemma on_disk_inv f p u p' : on_disk f p = (Done u, p') ->
  f (m_disk (ps_state p)) = (None, m_disk (ps_state p')) /\ m_ext (ps_state p') = m_ext (ps_state p) /\
  ps_out p' = ps_out p.
Proof.
  unfold on_disk. intros E. apply call_on_Done_inv in E as [E Ho].
  destruct (f _) as [[e|] d]; [done|]. injection E as _ E. by rewrite <-E.
Qed.

(** The disk goes from [d] to [d'] when the entries are written in the order given,
    each readable by its owner alone. *)
Inductive written (dir : bytes) : list (bytes * bytes) -> D -> D -> Prop :=
| written_none d : written dir [] d d
| written_next name content writes d d1 d' : os_WriteFile (Join dir name) content 384 d = (None, d1) ->
    written dir writes d1 d' -> written dir ((name, content) :: writes) d d'.

Lemma write_files_inv dir writes p p' : write_files dir writes p = (Done (), p') ->
  written dir writes (m_disk (ps_state p)) (m_disk (ps_state p')) /\
  m_ext (ps_state p') = m_ext (ps_state p) /\ ps_out p' = ps_out p.
Proof.
  revert p. induction writes as [|[w content] writes IH]; intros p E.
  - injection E as <-. split; [constructor|done].
  - cbn [write_files] in E. prog_inv E as u p1 E1. apply wrapping_Done_inv, on_disk_inv in E1 as (E1 & B1 & O1).
    destruct (IH p1 E) as (W & B2 & O2). split; [econstructor; [exact E1|exact W]|by rewrite B2, B1, O2, O1].
Qed.

Lemma written_keeps dir writes name d d' : disk_ok dir -> simple name ->
  Forall (fun w => simple w.1 /\ w.1 <> name) writes -> written dir writes d d' ->
  os_ReadFile (Join dir name) d' = os_ReadFile (Join dir name) d.
Proof.
  intros Hd Hn Hf W. induction W as [|w content writes d d1 d' E W IH]; [done|].
  apply Forall_cons in Hf as [[Hw Hne] Hf]. cbn [fst] in *. rewrite (IH Hf).
  eapply (disk_others _ Hd); [exact Hw|exact Hn|exact Hne|exact E].
Qed.

(** Whatever the order: every entry is in its file at the end. *)
Lemma written_reads dir writes d d' : disk_ok dir -> Forall simple writes.*1 -> NoDup writes.*1 ->
  written dir writes d d' ->
  forall name content, (name, content) ∈ writes -> os_ReadFile (Join dir name) d' = Ok content.
Proof.
  intros Hd Hs Hn W. induction W as [|w content writes d d1 d' E W IH]; intros name c Hin.
  - by apply not_elem_of_nil in Hin.
  - cbn [fmap list_fmap fst] in *. apply Forall_cons in Hs as [Hw Hs]. apply NoDup_cons in Hn as [Hni Hn].
    apply elem_of_cons in Hin as [[= -> ->]|Hin]; [|by apply IH].
    assert (Forall (fun x => simple x.1 /\ x.1 <> w) writes) as Hf.
    { apply Forall_forall. intros x Hx. split; [exact (proj1 (Forall_forall _ _) Hs _ (list_elem_of_fmap_2 fst _ _ Hx))|].
      intros <-. apply Hni, list_elem_of_fmap_2, Hx. }
    rewrite (written_keeps dir writes w d1 d' Hd Hw Hf W).
    by apply (disk_written _ Hd w content _ _ _ Hw E).
Qed.

(** What a provisioning run leaves in the fixtures directory. *)
Definition fixtures (operatorToken accountToken accountPub userToken : bytes) : list (bytes * bytes) :=
  [(str "operator.jwt", operatorToken); (str "account.jwt", accountToken);
   (str "account.nkey", accountPub); (str "user.jwt", userToken)].

(** The directory is made private to its owner, and holds the fixtures at the end. *)
Definition stored (dir : bytes) (files : list (bytes * bytes)) (d d' : D) : Prop :=
  (exists d0 order, os_MkdirAll dir 448 d = (None, d0) /\ Permutation order files /\ written dir order d0 d') /\
  forall name content, (name, content) ∈ files -> os_ReadFile (Join dir name) d' = Ok content.

Lemma stored_written dir o a k u d d0 order d' : disk_ok dir -> os_MkdirAll dir 448 d = (None, d0) ->
  Permutation order (fixtures o a k u) -> written dir order d0 d' -> stored dir (fixtures o a k u) d d'.
Proof.
  intros Hd E Hp W. split; [by exists d0, order|]. intros name content Hin. rewrite <-Hp in Hin.
  eapply written_reads; [exact Hd| | |exact W|exact Hin]; rewrite (fmap_Permutation fst _ _ Hp);
    by apply (bool_decide_unpack _); vm_compute.
Qed.

Lemma broker_inv {A} (m : rpc A) p a p' : broker m p = (Done a, p') ->
  m (m_ext (ps_state p)) = (Ok a, m_ext (ps_state p')) /\
  m_disk (ps_state p') = m_disk (ps_state p) /\ ps_out p' = ps_out p.
Proof.
  unfold broker. intros E. apply call_on_Done_inv in E as [E Ho].
  destruct (m _) as [r b] eqn:Em. injection E as -> E. by rewrite <-E.
Qed.

(** [nkey] is the public key the broker has under [keyID], as an NKey of the kind
    [prefix]; asking for it takes the broker from [b] to [b']. *)
Definition fetched (client : Client) (ctx : context) (keyID : bytes) (prefix : PrefixByte) (b : B)
    (nkey : bytes) (b' : B) : Prop :=
  exists pub, GetPublicKey client ctx keyID None b = (Ok pub, b') /\ nkeys_Encode prefix (pk_Bytes pub) = Ok nkey.

Lemma publicNKey_inv ctx client keyID prefix p nkey p' : publicNKey ctx client keyID prefix p = (Done nkey, p') ->
  fetched client ctx keyID prefix (m_ext (ps_state p)) nkey (m_ext (ps_state p')) /\
  m_disk (ps_state p') = m_disk (ps_state p) /\ ps_out p' = ps_out p.
Proof.
  unfold publicNKey. intros E. prog_inv E as pub p1 E1. apply wrapping_Done_inv, broker_inv in E1 as (A1 & D1 & O1).
  apply wrapping_Done_inv, pure_Done_inv in E as [E ->]. split; [by exists pub|done].
Qed.

(** The six calls of a provisioning run, one after the other, all under one deadline of
    thirty seconds: the three public keys, each as an NKey of its own kind, and
    the three credentials: the operator's, the account's signed by the
    operator for the account's key, and the user's signed by the account
    for the user's key, for ten minutes and the telemetry subjects. *)
Record provisioned (client : Client) (b : B) (operatorPub accountPub userPub : bytes)
    (operatorJWT accountJWT userJWT : Credential) (b' : B) : Prop := {
  provisioned_calls :
    let ctx := context_WithTimeout (now b) (mkContext None) (30 * Second) in
    exists b1 b2 b3 b4 b5,
      fetched client ctx (str "nats.operator") PrefixByteOperator b operatorPub b1 /\
      fetched client ctx (str "nats.account") PrefixByteAccount b1 accountPub b2 /\
      fetched client ctx (str "nats.user") PrefixByteUser b2 userPub b3 /\
      MintNatsOperator client ctx (mkNatsOperatorRequest (str "nats.operator") []
        (str "basil-telemetry-operator") 0 [] [] []) b3 = (Ok operatorJWT, b4) /\
      SignNatsJwt client ctx (mkNatsJwtRequest (str "nats.operator") (Some (AnyOther (VMap [
          (str "sub", VString accountPub); (str "name", VString (str "TELEMETRY"));
          (str "nats", VMap [(str "type", VString (str "account")); (str "version", VInt 2);
            (str "limits", VMap [(str "subs", VInt (-1)); (str "data", VInt (-1)); (str "payload", VInt (-1));
              (str "conn", VInt (-1)); (str "leaf", VInt (-1)); (str "imports", VInt (-1));
              (str "exports", VInt (-1)); (str "wildcards", VBool true)])])])))
        NatsJwtTypeAccount 0 zeroTime zeroTime 0) b4 = (Ok accountJWT, b5) /\
      MintNatsUser client ctx (mkNatsUserRequest (str "nats.account") userPub (str "telemetry-workload")
        (10 * Minute) [str "telemetry.>"] [] [str "telemetry.>"] [] []) b5 = (Ok userJWT, b')
}.

(** The lease of a credential, as it is printed. *)
Definition lease (c : Credential) : arg :=
  AStr (if IsZero (cred_ExpiresAt c) then str "never" else Format_RFC3339 (cred_ExpiresAt c)).

(** The lines of provisioning: of each NKey the first twelve bytes. *)
Definition provision_lines (operatorPub accountPub userPub : bytes) (accountJWT userJWT : Credential) : list line :=
  [Out "PASS minted operator O=%s..." [AStr (take 12 operatorPub)];
   Out "PASS minted account A=%s... (lease exp=%s)" [AStr (take 12 accountPub); lease accountJWT];
   Out "PASS minted user U=%s... (lease exp=%s)" [AStr (take 12 userPub); lease userJWT]].

Lemma short_take nkey : short nkey = take 12 nkey.
Proof. unfold short. case_decide; [|done]. rewrite take_ge; [done|unfold len in *; lia]. Qed.

Lemma provision_inv cfg p p' : disk_ok (fixturesDir cfg) -> provision cfg p = (Done (), p') ->
  exists client operatorPub accountPub userPub operatorJWT accountJWT userJWT,
    Dial (socket cfg) [] = Ok client /\
    provisioned client (m_ext (ps_state p)) operatorPub accountPub userPub operatorJWT accountJWT userJWT
      (m_ext (ps_state p')) /\
    stored (fixturesDir cfg) (fixtures (cred_Token operatorJWT) (cred_Token accountJWT) accountPub (cred_Token userJWT))
      (m_disk (ps_state p)) (m_disk (ps_state p')) /\
    ps_out p' = ps_out p ++ provision_lines operatorPub accountPub userPub accountJWT userJWT.
Proof.
  intros Hd E. unfold provision in E.
  prog_inv E as client p1 E1. apply wrapping_Done_inv, pure_Done_inv in E1 as [E1 ->].
  prog_inv E as ctx p2 E2. injection E2 as Hctx <-.
  prog_inv E as operatorPub p3 E3. apply publicNKey_inv in E3 as (A3 & D3 & O3).
  prog_inv E as accountPub p4 E4. apply publicNKey_inv in E4 as (A4 & D4 & O4).
  prog_inv E as userPub p5 E5. apply publicNKey_inv in E5 as (A5 & D5 & O5).
  prog_inv E as operatorJWT p6 E6. apply wrapping_Done_inv, broker_inv in E6 as (A6 & D6 & O6).
  prog_inv E as accountJWT p7 E7. apply wrapping_Done_inv, broker_inv in E7 as (A7 & D7 & O7).
  prog_inv E as userJWT p8 E8. apply wrapping_Done_inv, broker_inv in E8 as (A8 & D8 & O8).
  prog_inv E as u9 p9 E9. apply on_disk_inv in E9 as (A9 & B9 & O9).
  prog_inv E as u10 p10 E10. destruct u10. apply write_files_inv in E10 as (W & B10 & O10).
  unfold print, mbind, prog_bind in E. injection E as <-. cbn [ps_state ps_out] in *.
  exists client, operatorPub, accountPub, userPub, operatorJWT, accountJWT, userJWT. split_and!.
  - done.
  - split. cbv zeta. rewrite Hctx, B10, B9. exists (m_ext (ps_state p3)), (m_ext (ps_state p4)), (m_ext (ps_state p5)),
      (m_ext (ps_state p6)), (m_ext (ps_state p7)). done.
  - eapply stored_written; [done| |apply range_map_perm|exact W]. rewrite <-A9, D8, D7, D6, D5, D4, D3. done.
  - rewrite O10, O9, O8, O7, O6, O5, O4, O3, <-!app_assoc, !short_take. done.
Qed.

(** ** Telemetry *)

(** The broker signs with the keys of [seed], and publishes their public halves. *)
Record signing_broker (c : Client) (seed : bytes -> bytes) : Prop := {
  sb_sign : forall ctx keyID message b, exists b', Invoke SigningService_Sign (conn c) ctx
    (mkSignRequest keyID message SigningAlgorithmUnspecified) [] b =
    (Ok (mkSignResponse (ed25519_Sign (seed keyID) message)), b');
  sb_public : forall ctx keyID b, exists resp b', Invoke SigningService_GetPublicKey (conn c) ctx
    (mkGetPublicKeyRequest keyID None) [] b = (Ok resp, b') /\
    GetPublicKeyResponse_PublicKey resp = ed25519_Public (seed keyID);
  sb_seed : forall keyID, len (seed keyID) = 32;
}.

Definition flip_last (l : bytes) : bytes :=
  alter (fun b => byte_of (Z.lxor (byte_val b) 1)) (length l - 1)%nat l.

(** Ed25519 signatures have 64 bytes, and one whose last byte is changed is no
    signature of the message. *)
Record ed25519_ok : Prop := {
  signature_64 : forall seed m, len (ed25519_Sign seed m) = 64;
  signature_flipped : forall seed m, len seed = 32 ->
    ed25519_Verify (ed25519_Public seed) m (flip_last (ed25519_Sign seed m)) = false;
}.

(** go-cose: [Sign1] hands the signer the bytes to be signed, which depend on the
    headers and the payload; a COSE_Sign1 message ends with its signature; it
    is decoded to its payload, and verified as those bytes' signature. *)
Record go_cose_ok : Prop := {
  NewVerifier_32 : forall pub, len pub = 32 -> exists v, NewVerifier AlgorithmEdDSA pub = Ok v;
  Sign1_ok : forall keyID payload, payload <> [] -> exists tbs pre,
    let headers := [HeaderAlgorithm AlgorithmEdDSA; HeaderKeyID keyID] in
    (forall S (sign : bytes -> S -> result error bytes * S) s sig s', sign tbs s = (Ok sig, s') -> len sig = 64 ->
      cose_Sign1 AlgorithmEdDSA sign headers payload s = (Ok (pre ++ sig), s')) /\
    (forall sig, len sig = 64 -> exists msg, msg_UnmarshalCBOR (pre ++ sig) = Ok msg /\ msg_Payload msg = payload /\
      forall pub v, NewVerifier AlgorithmEdDSA pub = Ok v ->
        (msg_Verify msg v = None <-> ed25519_Verify pub tbs sig = true));
}.

(** A NATS server and its clients: [live] says that a connection is open, [queue]
    what a subscription will deliver, in order; a connection to its [url] is accepted with
    the user's token and signatures of the server's nonces by the user's key. *)
Record bus_ok (live : Net -> NatsConn -> Prop) (on : Subscription -> bytes) (queue : Net -> Subscription -> list bytes)
    (url token userPublic : bytes) : Prop := {
  bus_connect : forall opts n b, opt_userCB opts = Ok token ->
    (forall nonce b, exists sig b', opt_sigCB opts nonce b = (Ok sig, b') /\
      ed25519_Verify userPublic nonce sig = true) ->
    exists c n' b', nats_Connect url opts (n, b) = (Ok c, (n', b')) /\ live n' c /\
      forall c', live n c' -> live n' c';
  bus_subscribe : forall c subj n, live n c -> exists sub n', SubscribeSync c subj n = (Ok sub, n') /\
    on sub = subj /\ queue n' sub = [] /\ forall c', live n c' -> live n' c';
  bus_flush : forall c n, live n c -> exists n', Flush c n = (None, n') /\
    queue n' = queue n /\ forall c', live n c' -> live n' c';
  bus_publish : forall c subj data n, live n c -> exists n', Publish c subj data n = (None, n') /\
    (forall sub, on sub = subj -> queue n' sub = queue n sub ++ [data]) /\ forall c', live n c' -> live n' c';
  bus_next : forall sub d n data rest, queue n sub = data :: rest -> 0 < d ->
    exists n', NextMsg sub d n = (Ok data, n') /\ queue n' sub = rest /\ forall c', live n c' -> live n' c';
}.

Lemma Sign_ok c seed ctx keyID message b : signing_broker c seed ->
  exists b', Sign c ctx keyID message b = (Ok (ed25519_Sign (seed keyID) message), b').
Proof.
  intros Hs. unfold Sign, SignWithAlgorithm. rewrite unary_eq.
  destruct (sb_sign _ _ Hs (effective c ctx b) keyID message b) as (b' & ->). by exists b'.
Qed.

Lemma GetPublicKey_ok c seed ctx keyID b : signing_broker c seed ->
  exists k b', GetPublicKey c ctx keyID None b = (Ok k, b') /\ pk_Bytes k = ed25519_Public (seed keyID).
Proof.
  intros Hs. unfold GetPublicKey. rewrite unary_eq.
  destruct (sb_public _ _ Hs (effective c ctx b) keyID b) as (resp & b' & -> & Hp). by eexists _, _.
Qed.

Lemma flip_last_app l1 l2 : l2 <> [] -> flip_last (l1 ++ l2) = l1 ++ flip_last l2.
Proof.
  intros H. unfold flip_last. assert (0 < length l2)%nat by (destruct l2; [done|simpl; lia]).
  rewrite length_app, alter_app_r_alt by lia. do 2 f_equal. lia.
Qed.

Lemma length_flip_last l : len (flip_last l) = len l.
Proof. unfold len, flip_last. by rewrite length_alter. Qed.

(** What the program signs is accepted by the verifier of the broker's key, and its
    tampered copy is not. *)
Lemma signTelemetry_ok c seed ctx b : signing_broker c seed -> ed25519_ok -> go_cose_ok ->
  exists signed tampered v b', signTelemetry ctx c payload b = (Ok signed, b') /\
    tampered_copy signed = Ok tampered /\
    NewVerifier AlgorithmEdDSA (ed25519_Public (seed coseKeyID)) = Ok v /\
    verifyTelemetry signed v = Ok payload /\ (exists e, verifyTelemetry tampered v = Err e).
Proof.
  intros Hs He Hc. destruct (Sign1_ok Hc coseKeyID payload) as (tbs & pre & H1 & H2); [by vm_compute|].
  destruct (Sign_ok c seed ctx coseKeyID tbs b Hs) as (b' & Eb).
  set (sig := ed25519_Sign (seed coseKeyID) tbs) in *. pose proof (signature_64 He (seed coseKeyID) tbs) as Hl. fold sig in Hl.
  assert (sig <> []) as Hne by (intros E; rewrite E in Hl; done).
  destruct (NewVerifier_32 Hc (ed25519_Public (seed coseKeyID))) as (v & Ev).
  { apply ed25519_Public_32, (sb_seed _ _ Hs). }
  exists (pre ++ sig), (flip_last (pre ++ sig)), v, b'. split_and!.
  - unfold signTelemetry, signer_Algorithm. apply (H1 _ _ _ _ _ Eb Hl).
  - unfold tampered_copy. rewrite decide_False; [done|]. intros E. by apply app_eq_nil in E as [_ E].
  - done.
  - unfold verifyTelemetry. destruct (H2 sig Hl) as (msg & -> & Hp & Hv). cbn.
    rewrite (proj2 (Hv _ _ Ev)); [by rewrite Hp|]. apply Verify_Sign, (sb_seed _ _ Hs).
  - rewrite flip_last_app by done. unfold verifyTelemetry.
    destruct (H2 (flip_last sig)) as (msg & -> & _ & Hv); [by rewrite length_flip_last|]. cbn.
    destruct (msg_Verify msg v) as [e|] eqn:E; [by exists e|].
    apply (Hv _ _ Ev) in E. unfold sig in E. rewrite (signature_flipped He) in E by apply (sb_seed _ _ Hs). done.
Qed.

Lemma from_net_run {A} (f : Net -> result error A * Net) b d n o a n' : f n = (Ok a, n') ->
  from_net f (mkProcess (mkMachine b d n) o) = (Done a, mkProcess (mkMachine b d n') o).
Proof. intros E. unfold from_net, call_on. cbn [ps_state m_net]. by rewrite E. Qed.

Lemma on_bus_run (f : Net -> option error * Net) b d n o n' : f n = (None, n') ->
  on_net f (mkProcess (mkMachine b d n) o) = (Done (), mkProcess (mkMachine b d n') o).
Proof. intros E. unfold on_net, call_on. cbn [ps_state m_net]. by rewrite E. Qed.

Lemma call_broker_run {A} (m : rpc A) b d n o a b' : m b = (Ok a, b') ->
  broker m (mkProcess (mkMachine b d n) o) = (Done a, mkProcess (mkMachine b' d n) o).
Proof. intros E. unfold broker, call_on. cbn [ps_state m_ext]. by rewrite E. Qed.

Section bus.
Context {live : Net -> NatsConn -> Prop} {on : Subscription -> bytes} {queue : Net -> Subscription -> list bytes}.
Context {url token userPublic : bytes} (Hbus : bus_ok live on queue url token userPublic).

(** A message sent is the next one received. *)
Lemma send_run fmt pubConn sub data b d n o : live n pubConn -> on sub = subject -> queue n sub = [] ->
  exists n', send pubConn fmt data (mkProcess (mkMachine b d n) o) = (Done (), mkProcess (mkMachine b d n') o) /\
    queue n' sub = [data] /\ live n' pubConn.
Proof.
  intros Hl Ho Hq. unfold send.
  destruct (bus_publish _ _ _ _ _ _ Hbus pubConn subject data n Hl) as (n1 & E1 & Q1 & L1).
  erewrite prog_bind_Done by (apply wrapping_Done, on_bus_run, E1).
  destruct (bus_flush _ _ _ _ _ _ Hbus pubConn n1 (L1 _ Hl)) as (n2 & E2 & Q2 & L2).
  exists n2. rewrite (on_bus_run _ _ _ _ _ _ E2). split; [done|]. split; [|auto]. by rewrite Q2, (Q1 sub Ho), Hq.
Qed.

Lemma receive_run sub data b d n o : queue n sub = [data] ->
  exists n', from_net (NextMsg sub (5 * Second)) (mkProcess (mkMachine b d n) o) =
    (Done data, mkProcess (mkMachine b d n') o) /\ queue n' sub = [] /\ forall c, live n c -> live n' c.
Proof.
  intros Hq. destruct (bus_next _ _ _ _ _ _ Hbus sub (5 * Second) n data [] Hq ltac:(done)) as (n' & E & Q & L).
  exists n'. split; [by apply from_net_run|done].
Qed.

Lemma connectNATS_run client seed b d n o : signing_broker client seed ->
  userPublic = ed25519_Public (seed userKeyID) ->
  exists c n' b', connectNATS url token client (mkProcess (mkMachine b d n) o) =
    (Done c, mkProcess (mkMachine b' d n') o) /\ live n' c /\ forall c', live n c' -> live n' c'.
Proof.
  intros Hs ->. destruct (bus_connect _ _ _ _ _ _ Hbus (connect_options token client) n b) as (c & n' & b' & E & Hl & L).
  - reflexivity.
  - intros nonce b0. destruct (Sign_ok client seed (context_WithTimeout (now b0) (mkContext None) (10 * Second))
      userKeyID nonce b0 Hs) as (b1 & E).
    exists (ed25519_Sign (seed userKeyID) nonce), b1. split; [exact E|]. apply Verify_Sign, (sb_seed _ _ Hs).
  - exists c, n', b'. split; [|done]. unfold connectNATS, call_on. cbn [ps_state m_net m_ext]. by rewrite E.
Qed.

(** The lines of the exchange. *)
Definition telemetry_lines (signed : bytes) : list line :=
  [Out "PASS nats connect authenticated via minted user JWT + in-place nonce signing" [];
   Out "PASS cose_sign1 built bytes=%d" [AInt (len signed)];
   Out "PASS subscriber verified cose_sign1 and payload matches" [];
   Out "PASS subscriber rejected tampered cose_sign1" []].

Lemma exchange_run ctx client seed subConn pubConn b d n o :
  signing_broker client seed -> ed25519_ok -> go_cose_ok -> live n subConn -> live n pubConn ->
  exists signed b' n', exchange ctx client subConn pubConn (mkProcess (mkMachine b d n) o) =
    (Done (), mkProcess (mkMachine b' d n') (o ++ telemetry_lines signed)).
Proof.
  intros Hs He Hc Ls Lp. unfold exchange. erewrite prog_bind_Done by apply print_run.
  destruct (bus_subscribe _ _ _ _ _ _ Hbus subConn subject n Ls) as (sub & n1 & E1 & O1 & Q1 & L1).
  erewrite prog_bind_Done by (apply wrapping_Done, from_net_run, E1).
  destruct (bus_flush _ _ _ _ _ _ Hbus subConn n1 (L1 _ Ls)) as (n2 & E2 & Q2 & L2).
  erewrite prog_bind_Done by (apply on_bus_run, E2).
  destruct (signTelemetry_ok client seed ctx b Hs He Hc) as (signed & tampered & v & b1 & E3 & Et & Ev & Vg & (e & Vb)).
  erewrite prog_bind_Done by (apply wrapping_Done, call_broker_run, E3).
  erewrite prog_bind_Done by apply print_run.
  destruct (GetPublicKey_ok client seed ctx coseKeyID b1 Hs) as (k & b2 & E4 & Hk).
  erewrite prog_bind_Done by (apply wrapping_Done, call_broker_run, E4).
  erewrite prog_bind_Done by (apply wrapping_Done; rewrite Hk, Ev; reflexivity). cbn [ps_state ps_out].
  destruct (send_run "publish: %w" pubConn sub signed b2 d n2
    ((o ++ [Out "PASS nats connect authenticated via minted user JWT + in-place nonce signing" []]) ++
     [Out "PASS cose_sign1 built bytes=%d" [AInt (len signed)]])) as (n3 & E5 & Q3 & L3); [auto|done|by rewrite Q2|].
  prog_run E5. destruct (receive_run sub signed b2 d n3
    ((o ++ [Out "PASS nats connect authenticated via minted user JWT + in-place nonce signing" []]) ++
     [Out "PASS cose_sign1 built bytes=%d" [AInt (len signed)]]) Q3) as (n4 & E6 & Q4 & L4).
  erewrite prog_bind_Done by (apply wrapping_Done, E6).
  erewrite prog_bind_Done by (apply wrapping_Done; rewrite Vg; reflexivity). cbn [ps_state ps_out].
  rewrite decide_False by auto. erewrite prog_bind_Done by apply print_run.
  erewrite prog_bind_Done by (rewrite Et; reflexivity). cbn [ps_state ps_out].
  edestruct (send_run "publish tampered: %w" pubConn sub tampered b2 d n4) as (n5 & E7 & Q5 & L5);
    [auto|done|done|]. prog_run E7.
  edestruct (receive_run sub tampered b2 d n5) as (n6 & E8 & _ & _); [exact Q5|].
  erewrite prog_bind_Done by (apply wrapping_Done, E8). rewrite Vb.
  exists signed, b2, n6. rewrite print_run. by rewrite <-!app_assoc.
Qed.
End bus.

Lemma closing_run {A} conn (body : prog machine A) p a b d n o : body p = (Done a, mkProcess (mkMachine b d n) o) ->
  closing conn body p = (Done a, mkProcess (mkMachine b d (nats_Close conn n)) o).
Proof. intros E. unfold closing. by rewrite E. Qed.

Lemma telemetry_run live on queue token cfg client seed p :
  bus_ok live on queue (natsURL cfg) token (ed25519_Public (seed userKeyID)) ->
  os_ReadFile (Join (fixturesDir cfg) (str "user.jwt")) (m_disk (ps_state p)) = Ok token ->
  Dial (socket cfg) [] = Ok client -> signing_broker client seed -> ed25519_ok -> go_cose_ok ->
  exists signed p', telemetry cfg p = (Done (), p') /\ ps_out p' = ps_out p ++ telemetry_lines signed.
Proof.
  intros Hb Hf Hd Hs He Hc. destruct p as [[b d n] o]. cbn [ps_state m_disk ps_out] in *. unfold telemetry.
  erewrite prog_bind_Done by (apply wrapping_Done; rewrite Hd; reflexivity).
  unfold timeout_30s, act at 1, mbind at 1, prog_bind at 1. cbn [ps_state ps_out m_ext].
  erewrite prog_bind_Done by (apply wrapping_Done, call_on_Done; cbn [ps_state m_disk]; by rewrite Hf).
  cbn [ps_state ps_out].
  destruct (connectNATS_run Hb client seed b d n o Hs eq_refl) as (c1 & n1 & b1 & E1 & Lc1 & L1).
  erewrite prog_bind_Done by (apply wrapping_Done, E1).
  destruct (connectNATS_run Hb client seed b1 d n1 o Hs eq_refl) as (c2 & n2 & b2 & E2 & Lc2 & L2).
  edestruct (exchange_run Hb (context_WithTimeout (now b) (mkContext None) (30 * Second)) client seed c1 c2 b2 d n2 o)
    as (signed & b3 & n3 & E3); [done|done|done|auto|done|].
  exists signed. eexists. split.
  - apply closing_run. erewrite prog_bind_Done by (apply wrapping_Done, E2). apply closing_run, E3.
  - done.
Qed.

(** *** What a run that passes has checked *)

Lemma on_bus_inv f p u p' : on_net f p = (Done u, p') ->
  f (m_net (ps_state p)) = (None, m_net (ps_state p')) /\ m_ext (ps_state p') = m_ext (ps_state p).
Proof.
  unfold on_net. intros E. apply call_on_Done_inv in E as [E _].
  destruct (f _) as [[e|] n]; [done|]. injection E as _ E. by rewrite <-E.
Qed.

Lemma from_bus_inv {A} (f : Net -> result error A * Net) p a p' : from_net f p = (Done a, p') ->
  f (m_net (ps_state p)) = (Ok a, m_net (ps_state p')) /\ m_ext (ps_state p') = m_ext (ps_state p).
Proof.
  unfold from_net. intros E. apply call_on_Done_inv in E as [E _].
  destruct (f _) as [r n]. injection E as -> E. by rewrite <-E.
Qed.

Lemma broker_net {A} (m : rpc A) p a p' : broker m p = (Done a, p') -> m_net (ps_state p') = m_net (ps_state p).
Proof.
  unfold broker. intros E. apply call_on_Done_inv in E as [E _].
  destruct (m _) as [r b]. injection E as _ E. by rewrite <-E.
Qed.

Lemma closing_inv {A} conn (body : prog machine A) p a p' : closing conn body p = (Done a, p') ->
  exists p1, body p = (Done a, p1) /\ m_net (ps_state p') = nats_Close conn (m_net (ps_state p1)).
Proof. unfold closing. destruct (body p) as [r p1]. intros [= -> <-]. by exists p1. Qed.

(** The verifier takes [raw], with that content. *)
Definition opens (raw : bytes) (v : Verifier) (content : bytes) : Prop :=
  exists msg, msg_UnmarshalCBOR raw = Ok msg /\ msg_Verify msg v = None /\ msg_Payload msg = content.

Lemma verifyTelemetry_iff raw v content : verifyTelemetry raw v = Ok content <-> opens raw v content.
Proof.
  unfold verifyTelemetry, opens. destruct (msg_UnmarshalCBOR raw) as [msg|e]; cbn; [|naive_solver].
  destruct (msg_Verify msg v) as [e|] eqn:E; naive_solver.
Qed.

(** [conn] publishes [raw] on the program's subject and flushes. *)
Definition sent (conn : NatsConn) (raw : bytes) (n n' : Net) : Prop :=
  exists n1, Publish conn (str "telemetry.metrics") raw n = (None, n1) /\ Flush conn n1 = (None, n').

Lemma send_inv fmt conn raw p u p' : send conn fmt raw p = (Done u, p') ->
  sent conn raw (m_net (ps_state p)) (m_net (ps_state p')).
Proof.
  unfold send. intros E. prog_inv E as u1 p1 E1. apply wrapping_Done_inv, on_bus_inv in E1 as [E1 _].
  apply on_bus_inv in E as [E _]. by eexists.
Qed.

(** An exchange that passes, from the broker's state [b] and the network's [n] to [n']:
    the message signed through the broker was published, and a message
    received that verifies, with the payload, under the key the broker has for the
    telemetry; then the copy with its last bit flipped was published, and a
    message received that does not verify. *)
Definition exchanged (client : Client) (ctx : context) (subConn pubConn : NatsConn) (b : B) (n n' : Net) : Prop :=
  exists sub signed pub v first second b1 b2 n1 n2 n3 n4 n5,
    SubscribeSync subConn (str "telemetry.metrics") n = (Ok sub, n1) /\ Flush subConn n1 = (None, n2) /\
    cose_Sign1 AlgorithmEdDSA (Sign client ctx (str "telemetry.sign"))
      [HeaderAlgorithm AlgorithmEdDSA; HeaderKeyID (str "telemetry.sign")] payload b = (Ok signed, b1) /\
    GetPublicKey client ctx (str "telemetry.sign") None b1 = (Ok pub, b2) /\
    NewVerifier AlgorithmEdDSA (pk_Bytes pub) = Ok v /\
    sent pubConn signed n2 n3 /\ NextMsg sub (5 * Second) n3 = (Ok first, n4) /\ opens first v payload /\
    sent pubConn (flip_last signed) n4 n5 /\ NextMsg sub (5 * Second) n5 = (Ok second, n') /\
    forall content, ~ opens second v content.

Lemma exchange_inv ctx client subConn pubConn p p' :
  exchange ctx client subConn pubConn p = (Done (), p') ->
  exchanged client ctx subConn pubConn (m_ext (ps_state p)) (m_net (ps_state p)) (m_net (ps_state p')).
Proof.
  unfold exchange. intros E. prog_inv E as u1 p1 E1. injection E1 as _ E1.
  prog_inv E as sub p2 E2. apply wrapping_Done_inv, from_bus_inv in E2 as [E2 B2].
  prog_inv E as u3 p3 E3. apply on_bus_inv in E3 as [E3 B3].
  prog_inv E as signed p4 E4. apply wrapping_Done_inv in E4. pose proof (broker_net _ _ _ _ E4) as N4.
  apply broker_inv in E4 as [E4 _]. prog_inv E as u5 p5 E5. injection E5 as _ E5.
  prog_inv E as pub p6 E6. apply wrapping_Done_inv in E6. pose proof (broker_net _ _ _ _ E6) as N6.
  apply broker_inv in E6 as [E6 _]. prog_inv E as v p7 E7. apply wrapping_Done_inv, pure_Done_inv in E7 as [E7 ->].
  prog_inv E as u8 p8 E8. apply send_inv in E8.
  prog_inv E as first p9 E9. apply wrapping_Done_inv, from_bus_inv in E9 as [E9 _].
  prog_inv E as got p10 E10. apply wrapping_Done_inv, pure_Done_inv in E10 as [E10 ->].
  case_decide as Hp; [done|]. subst got. prog_inv E as u11 p11 E11. injection E11 as _ E11.
  prog_inv E as tampered p12 E12. apply pure_Done_inv in E12 as [E12 ->].
  prog_inv E as u13 p13 E13. apply send_inv in E13.
  prog_inv E as second p14 E14. apply wrapping_Done_inv, from_bus_inv in E14 as [E14 _].
  destruct (verifyTelemetry second v) as [c|e] eqn:Ev; [done|]. injection E as E.
  unfold tampered_copy in E12. case_decide; [done|]. injection E12 as <-. subst p1 p5 p11 p'. cbn [ps_state] in *.
  rewrite N6, N4 in E8. rewrite B3, B2 in E4.
  exists sub, signed, pub, v, first, second. eexists _, _, _, _, _, _, _.
  split; [exact E2|]. split; [exact E3|]. split; [exact E4|]. split; [exact E6|]. split; [exact E7|].
  split; [exact E8|]. split; [exact E9|]. split; [by apply verifyTelemetry_iff|].
  split; [exact E13|]. split; [exact E14|].
  intros c Hc. apply verifyTelemetry_iff in Hc. by rewrite Ev in Hc.
Qed.

(** A telemetry run that passes: both connections were made to the configured server
    with the token of the fixtures and signatures by the user's key, and
    closed in the reverse order after the exchange. *)
Definition checked (cfg : config) (client : Client) (p p' : machine) : Prop :=
  let ctx := context_WithTimeout (now (m_ext p)) (mkContext None) (30 * Second) in
  exists token subConn pubConn n1 b1 n2 b2 n3,
    let opts := mkConnectOptions (Ok token)
      (fun nonce b => Sign client (context_WithTimeout (now b) (mkContext None) (10 * Second)) (str "nats.user") nonce b)
      (str "basil-cose-nats-telemetry") 3 (5 * Second) in
    os_ReadFile (Join (fixturesDir cfg) (str "user.jwt")) (m_disk p) = Ok token /\
    nats_Connect (natsURL cfg) opts (m_net p, m_ext p) = (Ok subConn, (n1, b1)) /\
    nats_Connect (natsURL cfg) opts (n1, b1) = (Ok pubConn, (n2, b2)) /\
    exchanged client ctx subConn pubConn b2 n2 n3 /\
    m_net p' = nats_Close subConn (nats_Close pubConn n3).

Lemma connectNATS_inv url token client p c p' : connectNATS url token client p = (Done c, p') ->
  nats_Connect url (connect_options token client) (m_net (ps_state p), m_ext (ps_state p)) =
    (Ok c, (m_net (ps_state p'), m_ext (ps_state p'))).
Proof.
  unfold connectNATS. intros E. apply call_on_Done_inv in E as [E _].
  destruct (nats_Connect _ _ _) as [r [n b]]. injection E as -> E. by rewrite <-E.
Qed.

Lemma telemetry_inv cfg p p' : telemetry cfg p = (Done (), p') ->
  exists client, Dial (socket cfg) [] = Ok client /\ checked cfg client (ps_state p) (ps_state p').
Proof.
  unfold telemetry. intros E. prog_inv E as client p1 E1. apply wrapping_Done_inv, pure_Done_inv in E1 as [E1 ->].
  prog_inv E as ctx p2 E2. injection E2 as <- <-. prog_inv E as token p3 E3.
  apply wrapping_Done_inv, call_on_Done_inv in E3 as [E3 _]. cbn [ps_state ps_out] in *. injection E3 as E3 E3'.
  prog_inv E as c1 p4 E4. apply wrapping_Done_inv, connectNATS_inv in E4.
  apply closing_inv in E as (p5 & E & C5). prog_inv E as c2 p6 E6. apply wrapping_Done_inv, connectNATS_inv in E6.
  apply closing_inv in E as (p7 & E & C7). apply exchange_inv in E. rewrite <-E3' in E4.
  exists client. split; [done|]. exists token, c1, c2. eexists _, _, _, _, _.
  split; [exact E3|]. split; [exact E4|]. split; [exact E6|]. split; [exact E|]. by rewrite C5, C7.
Qed.

Lemma run_telemetry cfg : mode cfg = str "telemetry" -> run cfg = telemetry cfg.
Proof. intros Hm. unfold run. rewrite decide_False by (rewrite Hm; by vm_compute). by rewrite decide_True. Qed.

(** C19: the two modes compose. When provisioning passes, it has asked the broker for
    the three public keys, each encoded as an NKey of its own kind, and
    minted, one call after the other and under one deadline, the operator's
    credential, the account's for the account's key and the user's for the
    user's key; the fixtures directory was made, and its files written, for
    their owner alone, in whatever order the map of files was visited; they
    hold the tokens and the account's public key; and the keys and the
    leases are printed. A telemetry run that passes has connected twice with
    the token of that directory, published what the broker signed, received a
    message that verifies under the broker's public key with the payload,
    published the copy with one bit flipped, received a message that does not
    verify, and closed both connections. And on the disk
    provisioning left a telemetry run does pass, with a broker that signs
    with its keys and a server at the configured address that accepts the
    minted user token with nonces signed in place by the user's key. *)
Theorem telemetry_example getenv1 getenv2 p p1 :
  let cfg := loadConfig getenv1 in let cfg2 := loadConfig getenv2 in
  mode cfg = str "provision" -> mode cfg2 = str "telemetry" -> fixturesDir cfg2 = fixturesDir cfg ->
  disk_ok (fixturesDir cfg) -> run cfg p = (Done (), p1) ->
  exists client operatorPub accountPub userPub operatorJWT accountJWT userJWT,
    Dial (socket cfg) [] = Ok client /\
    provisioned client (m_ext (ps_state p)) operatorPub accountPub userPub operatorJWT accountJWT userJWT
      (m_ext (ps_state p1)) /\
    stored (fixturesDir cfg) (fixtures (cred_Token operatorJWT) (cred_Token accountJWT) accountPub (cred_Token userJWT))
      (m_disk (ps_state p)) (m_disk (ps_state p1)) /\
    ps_out p1 = ps_out p ++ provision_lines operatorPub accountPub userPub accountJWT userJWT /\
    (forall p2 p3, run cfg2 p2 = (Done (), p3) -> exists client2, Dial (socket cfg2) [] = Ok client2 /\
      checked cfg2 client2 (ps_state p2) (ps_state p3)) /\
    forall p2 client2 seed live on queue, m_disk (ps_state p2) = m_disk (ps_state p1) ->
      Dial (socket cfg2) [] = Ok client2 -> signing_broker client2 seed -> ed25519_ok -> go_cose_ok ->
      bus_ok live on queue (natsURL cfg2) (cred_Token userJWT) (ed25519_Public (seed userKeyID)) ->
      exists signed p3, run cfg2 p2 = (Done (), p3) /\ main getenv2 p2 = (0, p3) /\
        ps_out p3 = ps_out p2 ++ telemetry_lines signed.
Proof.
  intros cfg cfg2 Hm Hm2 Hdir Hd E. unfold run in E. rewrite decide_True in E by done.
  apply provision_inv in E as (client & opub & apub & upub & o & a & u & Hcl & Hprov & Hst & Hout); [|done].
  exists client, opub, apub, upub, o, a, u. do 4 (split; [done|]). split.
  { intros p2 p3 E. rewrite run_telemetry in E by done. by eapply telemetry_inv. }
  intros p2 client2 seed live on queue Hdisk Hdial Hs He Hc Hb.
  destruct (telemetry_run live on queue (cred_Token u) cfg2 client2 seed p2 Hb) as (signed & p3 & E & O); try done.
  { rewrite Hdir, Hdisk. apply Hst. unfold fixtures. rewrite !elem_of_cons. tauto. }
  exists signed, p3. unfold main, main_of. fold cfg2. rewrite run_telemetry by done. by rewrite E.
Qed.
End telemetry.
