(* ===== verification/StreamFileProps.v ===== *)
(** The property of the example [stream-file-encryption]: the three demonstrations
    on files, composed from the round trips of package [stream]. *)

From stdpp Require Import gmap.
From S2P Require Import Prelude GoTime GoPath GoError IO Crypto Format Chunks ChunkSpec Errors Pb Client Keytype.
From S2P Require Import Signing Kem Stream StreamLemmas KemLemmas Program ExStreamFile.

(** ** A flipped byte *)

Section flipped.
Context {X : Type} {P : Platform X} {PL : PlatformLaws P} {C : Crypto} {CL : CryptoLaws C} {K : Circl P}.

(** The AEAD's integrity, for the change the example makes: a record whose first
    byte is flipped does not open. *)
Definition flip_detected : Prop := forall a nonce pt aad, length nonce = 12%nat ->
  Open a nonce (flip_byte 0 (Seal a nonce pt aad)) aad = None.

Lemma length_flip_byte i l : length (flip_byte i l) = length l.
Proof. apply length_alter. Qed.

(** Byte 65 of a container is the first byte of its first record. *)
Lemma flip_container h rec recs : header_wf h -> rec <> [] ->
  flip_byte 65 (container h [] (rec :: recs)) = container h [] (flip_byte 0 rec :: recs).
Proof.
  intros Hh Hr. unfold container, flip_byte. cbn [app]. rewrite !frame_cons.
  assert (0 < length rec)%nat by (destruct rec; [done|simpl; lia]).
  pose proof (length_writeFixedHeader (suiteID h) (chunkSize h) (streamID h) (streamSalt h)
    ltac:(apply Hh) ltac:(apply Hh)) as Hl.
  rewrite alter_app_r_alt by lia. rewrite Hl. f_equal.
  rewrite alter_app_r_alt by (rewrite length_be_put; lia). rewrite length_be_put.
  unfold len. rewrite length_alter. f_equal. by rewrite alter_app_l.
Qed.

Lemma readChunks_flipped fuel c a cs bs w :
  newAEAD (cc_chunkAEAD c) (cc_messageKey c) = Ok a -> 1 <= cc_chunkSize c <= MaxChunkSize ->
  chunking (Z.to_nat (cc_chunkSize c)) cs bs -> flip_detected -> (0 < fuel)%nat ->
  forall rec recs, seal_records a c 0 cs = rec :: recs ->
  delivers (w_src w) (frame (flip_byte 0 rec :: recs)) ->
  exists w', readChunks fuel c w = (Err ErrAuthFailed, w').
Proof.
  intros Ha Hc Hch Hflip Hf rec recs Hrec Hr. destruct fuel as [|fuel]; [lia|]. unfold MaxChunkSize in Hc.
  destruct cs as [|pt cs]; [done|]. cbn [seal_records] in Hrec. injection Hrec as Hrec Hrecs.
  pose proof (chunking_lengths _ _ _ Hch) as Hls. apply Forall_cons in Hls as [Hpt Hls].
  assert (forall i f (p : bytes), len (Seal a (chunkNonce i) p (chunk_aad c i f (len p))) = len p + 16) as Hsl
    by (intros; unfold len; rewrite Seal_length by apply length_chunkNonce; lia).
  assert (len (flip_byte 0 rec) = len pt + 16) as Hlr
    by (unfold len; rewrite length_flip_byte; fold (len rec); rewrite <-Hrec; apply Hsl).
  assert (len pt <= cc_chunkSize c) by (unfold len; lia).
  unfold readChunks. destruct (readLenPrefix_delivers w _ Hr) as (r1 & E1 & Hr1).
  rewrite len_prefix_frame in E1 by lia. io_run E1. rewrite drop4_frame in Hr1.
  destruct (readRecord_delivers (len (flip_byte 0 rec)) (cc_chunkSize c + TagLen) (set_src w r1) _
    (len_nonneg _) Hr1) as (r2 & E2 & Hr2).
  rewrite record_at_app in E2 by (unfold TagLen; lia). io_run E2.
  specialize (Hr2 ltac:(unfold TagLen; lia)).
  replace (Z.to_nat (len (flip_byte 0 rec))) with (length (flip_byte 0 rec)) in Hr2 by (unfold len; lia).
  rewrite drop_app_length in Hr2. cbn [readChunks_loop].
  destruct (readLenPrefix_delivers (set_src (set_src w r1) r2) _ Hr2) as (r3 & E3 & Hr3).
  assert (exists nextLen, len_prefix (frame recs) = Ok nextLen /\
    match nextLen with None => true | Some _ => false end = bool_decide (cs = [])) as (nextLen & En & Hfin).
  { destruct cs as [|pt2 cs]; cbn [seal_records] in Hrecs; subst recs; [by exists None|].
    apply Forall_cons in Hls as [Hpt2 _]. eexists (Some _). split; [|reflexivity].
    apply len_prefix_frame. rewrite Hsl. unfold len. lia. }
  rewrite En in E3. io_run E3. rewrite Hlr, decide_False by (unfold TagLen; pose proof (len_nonneg pt); lia). cbv zeta.
  rewrite Hfin. replace (len pt + 16 - TagLen) with (len pt) by (unfold TagLen; lia).
  unfold aeadOpen. rewrite Ha, <-Hrec, Hflip by apply length_chunkNonce.
  eexists. apply io_lift_Err.
Qed.

Lemma DecryptAEAD_flipped fuel h key pt out w :
  aead_suite (suiteID h) -> length key = 32%nat -> header_wf h -> stream_of h key [] pt out ->
  flip_detected -> (0 < fuel)%nat -> delivers (w_src w) (flip_byte 65 out) ->
  65 < len out /\ exists w', DecryptAEAD fuel key w = (Err ErrAuthFailed, w').
Proof.
  intros Hs Hk Hh (mk & a & cs & Ek & Ea & Hch & ->) Hflip Hf Hd.
  destruct (seal_records a (context_of h mk) 0 cs) as [|rec recs] eqn:Er.
  { apply (f_equal length) in Er. rewrite seal_records_length in Er. destruct cs; [|done].
    by apply chunking_not_nil in Hch. }
  assert (16 <= len rec) as Hrl.
  { destruct cs as [|p cs]; [done|]. cbn [seal_records] in Er. injection Er as <- _.
    unfold len. rewrite Seal_length by apply length_chunkNonce. lia. }
  assert (rec <> []) as Hne by (intros ->; unfold len in Hrl; simpl in Hrl; lia).
  pose proof (length_writeFixedHeader (suiteID h) (chunkSize h) (streamID h) (streamSalt h)
    ltac:(apply Hh) ltac:(apply Hh)) as Hl.
  split.
  { unfold container. rewrite frame_cons, !len_app. unfold len at 1 3. rewrite Hl, length_be_put.
    pose proof (len_nonneg (frame recs)). change (len (@nil byte)) with 0. lia. }
  rewrite flip_container in Hd by done. unfold container in Hd. cbn [app] in Hd.
  destruct (readFixedHeader_delivers w _ Hd) as (r & E & Hr).
  rewrite header_at_write in E by done. rewrite drop_header in Hr by done.
  destruct (readChunks_flipped fuel (context_of h mk) a cs pt (add_secret mk (set_src w r))
    Ea (wf_chunkSize _ Hh) Hch Hflip Hf rec recs Er Hr) as (w' & E').
  exists (wipe_secret (length (w_secrets (set_src w r))) w').
  unfold DecryptAEAD. rewrite decide_False by (unfold len; rewrite Hk; auto).
  io_run E. rewrite decide_False by (by apply aead_suite_check). cbv zeta. rewrite Ek, io_lift_Ok.
  apply with_wiped_run, E'.
Qed.
End flipped.

(** ** The program on its files *)

Section example.
Context {Gr : Grpc} {GS : GrpcStatus} {P : Platform B} {PL : PlatformLaws P} {F : Files P}
  {C : Crypto} {CL : CryptoLaws C} {K : Circl P} {KL : CirclLaws K}.

(** The file system and the random source work: an opened file delivers its
    bytes, a created one is empty and accepts what is written, closing fails for
    none, and files can be created in [dir]. *)
Record files_ok (dir : bytes) : Prop := {
  files_open : forall content, delivers (open_reader content) content;
  files_writer : reliable create_writer;
  files_empty : written create_writer = [];
  files_close : forall f, file_Close f = None;
  files_create : forall name, simple name -> creatable (Join dir name) = true;
  files_rng : forall g : G, entropic g;
}.

Lemma copyN_ok fuel n f g : (forall g : G, entropic g) -> reliable f -> (Z.to_nat n < fuel)%nat ->
  exists b f' g', copyN fuel n f g = (None, f', g') /\ written f' = written f ++ b /\ len b = Z.max n 0.
Proof.
  intros Hg. revert n f g. induction fuel as [|fuel IH]; intros n f g Hf Hn; [lia|]. cbn [copyN].
  case_decide as Hz.
  - exists [], f, g. rewrite app_nil_r. split_and!; [done..|]. unfold len. simpl. lia.
  - destruct (entropic_step g (Z.to_nat (Z.min n 32768)) (Hg g)) as (b & g1 & -> & _ & Hl).
    rewrite decide_False by (intros ->; simpl in Hl; lia).
    destruct (reliable_step f b Hf) as (f1 & -> & Hf1 & W).
    assert (len b = Z.min n 32768) as Hb by (unfold len; lia).
    destruct (IH (n - len b) f1 g1 Hf1 ltac:(lia)) as (b' & f' & g' & -> & W' & Hl').
    exists (b ++ b'), f', g'. split; [done|]. split; [by rewrite W', W, app_assoc|]. rewrite len_app. lia.
Qed.

Lemma os_Open_run path content s o : m_files s !! path = Some content ->
  os_Open path (mkProcess s o) = (Done (open_reader content), mkProcess s o).
Proof. intros H. unfold os_Open, call_on. cbn [ps_state ps_out]. by rewrite H. Qed.

Lemma os_Create_run path s o : creatable path = true ->
  os_Create path (mkProcess s o) =
    (Done create_writer, mkProcess (mkMachine (<[path := []]> (m_files s)) (m_rng s) (m_ext s)) o).
Proof. intros H. unfold os_Create, call_on. cbn [ps_state ps_out]. by rewrite H. Qed.

Lemma stream_call_run {A} src dst (m : io A) s o r w' :
  m (World src dst (m_rng s) [] (m_ext s)) = (r, w') ->
  stream_call src dst m (mkProcess s o) =
    (Done (r, w_dst w'), mkProcess (mkMachine (m_files s) (w_rng w') (w_ext w')) o).
Proof. intros H. unfold stream_call, act. cbn [ps_state ps_out]. by rewrite H. Qed.

Lemma close_run dir f p : files_ok dir -> close f p = (Done (), p).
Proof. intros H. unfold close, call_on. rewrite (files_close _ H). by destruct p. Qed.

Lemma checked_run {A} text (a : A) p : checked text (Ok a) p = (Done a, p).
Proof. by destruct p. Qed.

Lemma broker_run {A} (m : rpc A) s o a b : m (m_ext s) = (Ok a, b) ->
  broker m (mkProcess s o) = (Done a, mkProcess (mkMachine (m_files s) (m_rng s) b) o).
Proof. intros H. unfold broker, call_on. cbn [ps_state ps_out]. by rewrite H. Qed.

(** The content of [path] is [content] when [assertSameDigest] compares. *)
Lemma assertSameDigest_run path content s o : m_files s !! path = Some content ->
  assertSameDigest path (sha256_Sum content) (mkProcess s o) = (Done (), mkProcess s o).
Proof.
  intros H. unfold assertSameDigest, digest, mbind, prog_bind, call_on. cbn [ps_state ps_out].
  rewrite H. rewrite decide_False by auto. done.
Qed.

(** The step all the demonstrations are made of: a call of package [stream] from one
    file into a new one. [Q] is what the call establishes of its result and of
    the bytes it writes. *)
Lemma through_files {A} dir src dst text (m : io A) s content (Q : A -> bytes -> Prop) :
  files_ok dir -> simple dst -> m_files s !! src = Some content -> src <> Join dir dst ->
  (forall w : world P, delivers (w_src w) content -> reliable (w_dst w) -> entropic (w_rng w) ->
    exists a w' out, m w = (Ok a, w') /\ written (w_dst w') = written (w_dst w) ++ out /\ Q a out) ->
  exists a out g e, Q a out /\ forall o A' (k : A -> prog machine A'),
    (inp ← os_Open src;
     f ← os_Create (Join dir dst);
     '(r, f) ← stream_call inp f m;
     save (Join dir dst) f;;
     a ← checked text r;
     close f;;
     k a) (mkProcess s o) =
    k a (mkProcess (mkMachine (<[Join dir dst := out]> (m_files s)) g e) o).
Proof.
  intros Hok Hs Hsrc Hne Hm. set (path := Join dir dst).
  destruct (Hm (World (open_reader content) create_writer (m_rng s) [] (m_ext s)))
    as (a & w' & out & E & W & HQ); [apply (files_open _ Hok)|apply (files_writer _ Hok)|apply (files_rng _ Hok)|].
  exists a, out, (w_rng w'), (w_ext w'). split; [exact HQ|]. intros o A' k.
  prog_run (os_Open_run src content s o Hsrc).
  prog_run (os_Create_run path s o (files_create _ Hok dst Hs)).
  set (s1 := mkMachine (<[path := []]> (m_files s)) (m_rng s) (m_ext s)).
  prog_run (stream_call_run (open_reader content) create_writer m s1 o (Ok a) w' E).
  unfold save. unfold act at 1. unfold mbind at 1, prog_bind at 1. cbn [ps_state ps_out m_files m_rng m_ext].
  prog_run (checked_run text a (mkProcess (mkMachine (<[path := written (w_dst w')]> (m_files s1)) (w_rng w') (w_ext w')) o)).
  rewrite (prog_bind_Done _ _ _ _ _ (close_run dir (w_dst w') _ Hok)).
  do 3 f_equal. unfold s1. cbn [m_files]. rewrite insert_insert_eq. cbn in W.
  by rewrite W, (files_empty _ Hok).
Qed.

Definition plain (dir : bytes) : bytes := Join dir (str "plain.bin").

Ltac by_name := by apply (bool_decide_unpack _); vm_compute.

Lemma simple_aes_ct : simple (str "aes.ct"). Proof. by_name. Qed.
Lemma simple_aes_out : simple (str "aes.out"). Proof. by_name. Qed.
Lemma simple_mlkem_ct : simple (str "mlkem.ct"). Proof. by_name. Qed.
Lemma simple_mlkem_out : simple (str "mlkem.out"). Proof. by_name. Qed.
Lemma simple_plain : simple (str "plain.bin"). Proof. by_name. Qed.

Lemma plain_differs dir name : simple name -> name <> str "plain.bin" -> plain dir <> Join dir name.
Proof. intros Hs Hn E. by apply Join_inj in E; [subst|by apply simple_plain|]. Qed.

Lemma file_chunkSize_ok : 1 <= file_chunkSize <= MaxChunkSize.
Proof. by vm_compute. Qed.

(** [m] reads the payload [pt] back from the stream [out]. *)
Definition reads_back (m : io ()) (pt out : bytes) : Prop := forall w : world P,
  delivers (w_src w) out -> reliable (w_dst w) ->
  exists w', m w = (Ok (), w') /\ written (w_dst w') = written (w_dst w) ++ pt.

Lemma aes_reads_back fuel pt (w : world P) :
  delivers (w_src w) pt -> reliable (w_dst w) -> entropic (w_rng w) -> (length pt < fuel)%nat ->
  exists cek w' out, EncryptAEAD fuel SuiteAES256GCM GenerateCEK file_chunkSize w = (Ok cek, w') /\
    written (w_dst w') = written (w_dst w) ++ out /\ reads_back (DecryptAEAD fuel cek) pt out.
Proof.
  intros Hr Hd Hg Hf.
  destruct (EncryptAEAD_ok fuel SuiteAES256GCM GenerateCEK file_chunkSize pt w)
    as (cek & id & salt & out & w' & E & Hk & _ & Hh & Hst & W); auto using file_chunkSize_ok; [by left|done|].
  exists cek, w', out. split_and!; [done|done|]. intros v Hv Hdv.
  apply (DecryptAEAD_ok fuel (mkHeader SuiteAES256GCM file_chunkSize id salt) cek pt out); auto. by left.
Qed.

Lemma aesRoundTrip_ok fuel dir pt s o :
  files_ok dir -> m_files s !! plain dir = Some pt -> (length pt < fuel)%nat ->
  exists s', aesRoundTrip fuel dir (plain dir) (sha256_Sum pt) (mkProcess s o) =
      (Done (), mkProcess s' (o ++ [Out "PASS aes-256-gcm encrypt multi-chunk" [];
        Out "PASS aes-256-gcm roundtrip byte-identical" []])) /\
    m_files s' !! plain dir = Some pt /\ m_files s' !! Join dir (str "aes.out") = Some pt.
Proof.
  intros Hok Hp Hf. unfold aesRoundTrip.
  pose proof (plain_differs dir _ simple_aes_ct ltac:(done)) as N1.
  pose proof (plain_differs dir _ simple_aes_out ltac:(done)) as N2.
  assert (Join dir (str "aes.ct") <> Join dir (str "aes.out")) as N3
    by (intros E; apply Join_inj in E; auto using simple_aes_ct, simple_aes_out; done).
  edestruct (through_files dir (plain dir) (str "aes.ct") "AES encrypt: %w"
    (EncryptAEAD fuel SuiteAES256GCM GenerateCEK file_chunkSize)) with (s := s) (content := pt)
    (Q := fun cek out => reads_back (DecryptAEAD fuel cek) pt out)
    as (cek & ct & g & e & Hct & Er); auto using simple_aes_ct, aes_reads_back.
  cbv zeta. rewrite Er. clear Er. erewrite prog_bind_Done by apply print_run. set (s1 := mkMachine _ _ _).
  edestruct (through_files dir (Join dir (str "aes.ct")) (str "aes.out") "AES decrypt: %w"
    (DecryptAEAD fuel cek)) with (s := s1) (content := ct) (Q := fun (_ : ()) out => out = pt)
    as ([] & out & g' & e' & -> & Er); auto using simple_aes_out.
  { cbn. by rewrite lookup_insert_eq. }
  { intros w Hr Hd _. destruct (Hct w Hr Hd) as (w' & E & W). by exists (), w', pt. }
  rewrite Er. clear Er. set (s2 := mkMachine _ _ _).
  assert (m_files s2 !! Join dir (str "aes.out") = Some pt) as H2 by (cbn; by rewrite lookup_insert_eq).
  erewrite prog_bind_Done by (apply wrapping_Done, assertSameDigest_run, H2).
  exists s2. split; [by rewrite print_run, <-app_assoc|split; [cbn; by rewrite !lookup_insert_ne by done|done]].
Qed.

(** The broker custodies a fresh ML-KEM-768 key under [keyID]: it creates it,
    gives out its public key, and recovers content keys with the private one. *)
Record custody (c : Client) (keyID seed pub : bytes) : Prop := {
  custody_new : forall ctx b, exists resp b', Invoke SigningService_NewKey (conn c) ctx
    (mkNewKeyRequest keyID (keyTypeToProto KeyTypeMLKEM768)) [] b = (Ok resp, b');
  custody_public : forall ctx b, exists resp b', Invoke SigningService_GetPublicKey (conn c) ctx
    (mkGetPublicKeyRequest keyID None) [] b = (Ok resp, b') /\ GetPublicKeyResponse_PublicKey resp = pub;
  custody_pair : seed_of SuiteMLKEM768 seed pub;
  custody_holds : broker_holds c keyID SuiteMLKEM768 seed;
}.

Lemma NewKey_custody c keyID seed pub ctx b : custody c keyID seed pub ->
  exists h b', NewKey c ctx keyID KeyTypeMLKEM768 b = (Ok h, b').
Proof.
  intros Hc. unfold NewKey. rewrite unary_eq.
  destruct (custody_new _ _ _ _ Hc (effective c ctx b) b) as (resp & b' & ->). by eexists _, _.
Qed.

Lemma GetPublicKey_custody c keyID seed pub ctx b : custody c keyID seed pub ->
  exists k b', GetPublicKey c ctx keyID None b = (Ok k, b') /\ pk_Bytes k = pub.
Proof.
  intros Hc. unfold GetPublicKey. rewrite unary_eq.
  destruct (custody_public _ _ _ _ Hc (effective c ctx b) b) as (resp & b' & -> & Hp). by eexists _, _.
Qed.

Lemma mlkem_reads_back fuel ctx client keyID seed pub pt (w : world P) : custody client keyID seed pub ->
  delivers (w_src w) pt -> reliable (w_dst w) -> entropic (w_rng w) -> (length pt < fuel)%nat ->
  exists (u : ()) w' out, EncryptMLKEM fuel SuiteMLKEM768 pub file_chunkSize w = (Ok u, w') /\
    written (w_dst w') = written (w_dst w) ++ out /\
    reads_back (DecryptMLKEM fuel ctx (NewBrokerCEKRecovery client keyID SuiteMLKEM768)) pt out.
Proof.
  intros Hc Hr Hd Hg Hf.
  destruct (EncryptMLKEM_ok fuel SuiteMLKEM768 1088 seed pub file_chunkSize pt w)
    as (cek & id & salt & env & out & w' & E & Hcek & Hh & He & Ho & Hst & W);
    auto using file_chunkSize_ok; [exact (custody_pair _ _ _ _ Hc)|].
  exists (), w', out. split_and!; [done|done|]. intros v Hv Hdv.
  apply (DecryptMLKEM_ok fuel ctx (NewBrokerCEKRecovery client keyID SuiteMLKEM768)
    (mkHeader SuiteMLKEM768 file_chunkSize id salt) 1088 env cek pt out); auto.
  by apply (broker_recovers _ _ _ _ _ _ _ _ (custody_holds _ _ _ _ Hc)).
Qed.

Lemma mlkemRoundTrip_ok fuel ctx client cfg seed pub pt s o :
  files_ok (workDir cfg) -> custody client (kemKeyID cfg) seed pub ->
  m_files s !! plain (workDir cfg) = Some pt -> (length pt < fuel)%nat ->
  exists s', mlkemRoundTrip fuel ctx client cfg (plain (workDir cfg)) (sha256_Sum pt) (mkProcess s o) =
      (Done (), mkProcess s' (o ++ [
        Out "PASS ml-kem-768 provisioned key=%s public_len=%d" [AStr (kemKeyID cfg); AInt (len pub)];
        Out "PASS ml-kem-768 encrypt multi-chunk" [];
        Out "PASS ml-kem-768 roundtrip byte-identical broker-recovered-cek" []])) /\
    m_files s' !! Join (workDir cfg) (str "mlkem.out") = Some pt /\
    (forall name, simple name -> name <> str "mlkem.ct" -> name <> str "mlkem.out" ->
      m_files s' !! Join (workDir cfg) name = m_files s !! Join (workDir cfg) name).
Proof.
  intros Hok Hc Hp Hf. unfold mlkemRoundTrip.
  destruct (NewKey_custody client _ seed pub ctx (m_ext s) Hc) as (kh & b1 & E1).
  erewrite prog_bind_Done by (apply wrapping_Done, broker_run, E1).
  destruct (GetPublicKey_custody client _ seed pub ctx b1 Hc) as (k & b2 & E2 & Hk).
  erewrite prog_bind_Done by (apply wrapping_Done, broker_run; exact E2).
  erewrite prog_bind_Done by apply print_run. cbv zeta. rewrite Hk. set (s1 := mkMachine _ _ _).
  set (dir := workDir cfg) in *.
  pose proof (plain_differs dir _ simple_mlkem_ct ltac:(done)) as N1.
  assert (Join dir (str "mlkem.ct") <> Join dir (str "mlkem.out")) as N3
    by (intros E; apply Join_inj in E; auto using simple_mlkem_ct, simple_mlkem_out; done).
  set (dec := DecryptMLKEM fuel ctx (NewBrokerCEKRecovery client (kemKeyID cfg) SuiteMLKEM768)).
  edestruct (through_files dir (plain dir) (str "mlkem.ct") "ML-KEM encrypt: %w"
    (EncryptMLKEM fuel SuiteMLKEM768 pub file_chunkSize)) with (s := s1) (content := pt)
    (Q := fun (_ : ()) out => reads_back dec pt out)
    as ([] & ct & g & e & Hct & Er); eauto using simple_mlkem_ct, mlkem_reads_back.
  rewrite Er. clear Er. erewrite prog_bind_Done by apply print_run. set (s2 := mkMachine _ g e).
  edestruct (through_files dir (Join dir (str "mlkem.ct")) (str "mlkem.out")
    "ML-KEM decrypt (broker CEK recovery): %w" dec)
    with (s := s2) (content := ct) (Q := fun (_ : ()) out => out = pt)
    as ([] & out & g' & e' & -> & Er); auto using simple_mlkem_out.
  { cbn. by rewrite lookup_insert_eq. }
  { intros w Hr Hd _. destruct (Hct w Hr Hd) as (w' & E & W). by exists (), w', pt. }
  rewrite Er. clear Er. set (s3 := mkMachine _ _ _).
  assert (m_files s3 !! Join dir (str "mlkem.out") = Some pt) as H2 by (cbn; by rewrite lookup_insert_eq).
  erewrite prog_bind_Done by (apply wrapping_Done, assertSameDigest_run, H2).
  exists s3. split; [rewrite print_run; by rewrite <-!app_assoc|]. split; [done|].
  intros name Hn H3 H4. cbn. rewrite !lookup_insert_ne; [done|..]; intros E; apply Join_inj in E;
    auto using simple_mlkem_ct, simple_mlkem_out.
Qed.

Lemma tamperFailsClosed_ok fuel dir pt s o :
  files_ok dir -> flip_detected -> m_files s !! plain dir = Some pt -> (length pt < fuel)%nat ->
  exists g e, tamperFailsClosed fuel (plain dir) (mkProcess s o) =
    (Done (), mkProcess (mkMachine (m_files s) g e) (o ++ [Out "PASS tamper fails-closed ErrAuthFailed" []])).
Proof.
  intros Hok Hflip Hp Hf. unfold tamperFailsClosed. prog_run (os_Open_run _ _ s o Hp).
  destruct (EncryptAEAD_ok fuel SuiteAES256GCM GenerateCEK file_chunkSize pt
    (World (open_reader pt) create_writer (m_rng s) [] (m_ext s)))
    as (cek & id & salt & ct & w' & E & Hk & _ & Hh & Hst & W);
    auto using file_chunkSize_ok; [by left|done|apply (files_open _ Hok)|apply (files_writer _ Hok)|apply (files_rng _ Hok)|].
  erewrite prog_bind_Done by apply (stream_call_run _ _ _ _ _ _ _ E). cbv beta iota.
  erewrite prog_bind_Done by apply checked_run. cbv zeta.
  cbn in W. rewrite (files_empty _ Hok) in W. rewrite W. cbn [app].
  edestruct (DecryptAEAD_flipped fuel (mkHeader SuiteAES256GCM file_chunkSize id salt) cek pt ct
    (World (open_reader (flip_byte 65 ct)) create_writer (w_rng w') [] (w_ext w')))
    as (Hl & w2 & E2); auto; [by left|lia|apply (files_open _ Hok)|].
  rewrite decide_False by (unfold FixedHeaderLen; lia).
  change (Z.to_nat (FixedHeaderLen + 4)) with 65%nat.
  prog_run (stream_call_run (open_reader (flip_byte 65 ct)) create_writer (DecryptAEAD fuel cek)
    (mkMachine (m_files s) (w_rng w') (w_ext w')) o _ _ E2). cbv beta iota.
  rewrite Is_refl. eexists _, _. reflexivity.
Qed.

Lemma generateFile_ok dir n s o : files_ok dir -> 0 <= n ->
  exists pt g, generateFile (plain dir) n (mkProcess s o) =
    (Done (), mkProcess (mkMachine (<[plain dir := pt]> (m_files s)) g (m_ext s)) o) /\ len pt = n.
Proof.
  intros Hok Hn. unfold generateFile.
  prog_run (os_Create_run (plain dir) s o (files_create _ Hok _ simple_plain)).
  destruct (copyN_ok (S (Z.to_nat n)) n create_writer (m_rng s) (files_rng _ Hok) (files_writer _ Hok) ltac:(lia))
    as (pt & f & g & E & W & Hl).
  exists pt, g. split; [|lia]. unfold act at 1, mbind at 1, prog_bind at 1. cbn [ps_state m_rng ps_out m_files m_ext].
  rewrite E. unfold save, act, mbind, prog_bind. cbn [ps_state ps_out m_files m_rng m_ext].
  rewrite (close_run dir _ _ Hok), insert_insert_eq, W, (files_empty _ Hok). done.
Qed.

(** The lines of a run that passes. *)
Definition pass_lines (cfg : config) (publicLen : Z) : list line :=
  [Out "PASS input file bytes=%d chunk_size=%d" [AInt fileSize; AInt file_chunkSize];
   Out "PASS aes-256-gcm encrypt multi-chunk" [];
   Out "PASS aes-256-gcm roundtrip byte-identical" [];
   Out "PASS ml-kem-768 provisioned key=%s public_len=%d" [AStr (kemKeyID cfg); AInt publicLen];
   Out "PASS ml-kem-768 encrypt multi-chunk" [];
   Out "PASS ml-kem-768 roundtrip byte-identical broker-recovered-cek" [];
   Out "PASS tamper fails-closed ErrAuthFailed" []].

(** C18: the example program from end to end. On a file system and a random
    source that work, with a broker that custodies the key of the
    configuration, and an AEAD that rejects the record whose first byte is
    flipped, [main] exits with status 0 after printing its seven lines: the
    4 MiB file it generated is decrypted to the same bytes with the local
    key and with the key the broker recovers, into files of their own, and
    the tampered stream fails with [ErrAuthFailed]. *)
Theorem stream_file_example fuel getenv tempDir client seed pub p :
  let cfg := loadConfig getenv tempDir in
  files_ok (workDir cfg) -> flip_detected -> (Z.to_nat fileSize < fuel)%nat ->
  Dial (socket cfg) [] = Ok client -> custody client (kemKeyID cfg) seed pub ->
  exists p' pt, main fuel getenv tempDir p = (0, p') /\
    ps_out p' = ps_out p ++ pass_lines cfg (len pub) /\ len pt = fileSize /\
    forall name, name = str "plain.bin" \/ name = str "aes.out" \/ name = str "mlkem.out" ->
      m_files (ps_state p') !! Join (workDir cfg) name = Some pt.
Proof.
  intros cfg Hok Hflip Hf Hd Hc. destruct p as [s o]. unfold main, main_of, run. fold cfg.
  erewrite prog_bind_Done by (apply wrapping_Done; unfold pure; apply call_on_Done; by rewrite Hd).
  unfold act at 1, mbind at 1, prog_bind at 1. cbv zeta. cbn [ps_state ps_out]. fold (plain (workDir cfg)).
  destruct (generateFile_ok (workDir cfg) fileSize s o Hok ltac:(done)) as (pt & g & E1 & Hl).
  prog_run E1. set (s1 := mkMachine _ _ _).
  assert (m_files s1 !! plain (workDir cfg) = Some pt) as H1 by (cbn; by rewrite lookup_insert_eq).
  assert (length pt < fuel)%nat as Hpt by (unfold len in Hl; lia).
  erewrite prog_bind_Done by (unfold digest; apply call_on_Done; cbn [ps_state]; by rewrite H1).
  erewrite prog_bind_Done by apply print_run. cbn [ps_state ps_out].
  edestruct (aesRoundTrip_ok fuel (workDir cfg) pt s1) as (s2 & E2 & H2 & A2); [done|done|done|].
  erewrite prog_bind_Done by apply E2.
  edestruct (mlkemRoundTrip_ok fuel (context_WithTimeout (now (m_ext s)) (mkContext None) (60 * Second))
    client cfg seed pub pt s2) as (s3 & E3 & H3 & A3); [done|done|done|done|].
  erewrite prog_bind_Done by apply E3.
  assert (m_files s3 !! plain (workDir cfg) = Some pt) as P3
    by (unfold plain; rewrite A3; auto using simple_plain; done).
  edestruct (tamperFailsClosed_ok fuel (workDir cfg) pt s3) as (g4 & e4 & E4); [done|done|done|done|].
  rewrite E4. eexists _, pt. split; [reflexivity|]. split; [by rewrite <-!app_assoc|]. split; [done|].
  intros name [->|[->| ->]]; [exact P3| |exact H3]. cbn. rewrite A3; auto using simple_aes_out; done.
Qed.
End example.
