(* ===== verification/NixLemmas.v ===== *)
(** The specification of the strict codec and lemmas towards it: the fields of
    a wire message, the rule of each field as a predicate, the [seen] bit set. *)

From S2P Require Import Prelude GoText GoError Pb Nix NixCodec.

(** ** Values *)

Inductive wire_value := WBytes (v : bytes) | WVarint (v : Z).

Definition wire_type (v : wire_value) : Z :=
  match v with WBytes _ => BytesType | WVarint _ => VarintType end.

Definition control_free (v : bytes) : Prop := Forall (fun b => 32 <= byte_val b /\ byte_val b <> 127) v.
Definition nonzero (v : bytes) : Prop := Exists (fun b => b <> x00) v.

(** A key name: 1 to 128 letters, digits, dots, underscores and dashes, a letter
    or a digit first. *)
Definition name_char (b : byte) : Prop := is_alnum b = true \/ b ∈ str "._-".
Definition key_name (v : bytes) : Prop :=
  len v <= 128 /\ exists b rest, v = b :: rest /\ is_alnum b = true /\ Forall name_char rest.

Definition key_id (v : bytes) : Prop := utf8_Valid v = true /\ 1 <= len v <= 256 /\ control_free v.

Definition valid_value (k : nixCacheFieldKind) (v : wire_value) : Prop :=
  match k, v with
  | nixKeyID, WBytes v => key_id v
  | nixKeyName, WBytes v => key_name v
  | nixPublicKey, WBytes v => len v = 32
  | nixIdentifier, WBytes v => len v = 16 /\ nonzero v
  | nixProfile, WBytes v => v = str "PATH_INFO_V1"
  | nixFingerprint, WBytes v => 1 <= len v <= nixCacheFingerprintMax
  | nixSignature, WBytes v => len v = 64
  | nixBackendVersion, WVarint v => v = 1
  | nixEnrollmentDisposition, WVarint v => v = 1 \/ v = 2
  | _, _ => False
  end.

(** The fields of each message, by number from 1. *)
Definition schema_kinds (s : nixCacheSchema) : list nixCacheFieldKind :=
  match s with
  | nixDescribeRequest | nixEnrollRequest => [nixKeyID; nixIdentifier; nixIdentifier]
  | nixDescribeResponse => [nixKeyName; nixPublicKey; nixBackendVersion; nixIdentifier; nixIdentifier]
  | nixEnrollResponse => [nixKeyName; nixPublicKey; nixBackendVersion; nixEnrollmentDisposition;
      nixIdentifier; nixIdentifier]
  | nixSignRequest => [nixKeyID; nixProfile; nixFingerprint; nixIdentifier; nixIdentifier]
  | nixSignResponse => [nixKeyName; nixPublicKey; nixBackendVersion; nixSignature;
      nixIdentifier; nixIdentifier]
  end.

(** Field [f] of a message of schema [s] has a valid value. *)
Definition valid_field (s : nixCacheSchema) (f : Z * wire_value) : Prop :=
  exists k, 1 <= f.1 /\ schema_kinds s !! Z.to_nat (f.1 - 1) = Some k /\ valid_value k f.2.

(** ** The validators *)

Lemma control_free_spec v : existsb is_control v = false <-> control_free v.
Proof.
  unfold control_free. induction v as [|b v IH]; simpl; [done|].
  rewrite orb_false_iff, IH, Forall_cons. unfold is_control. rewrite orb_false_iff. 
  rewrite Z.ltb_ge, Z.eqb_neq. tauto.
Qed.

Lemma nonzero_spec v : allZero16 v = false <-> nonzero v.
Proof.
  unfold nonzero, allZero16. induction v as [|b v IH]; simpl; [by rewrite Exists_nil|].
  rewrite andb_false_iff, IH, Exists_cons, bool_decide_eq_false. done.
Qed.

Lemma key_name_loop_tail i v : key_name_loop (S i) v = true <-> Forall name_char v.
Proof.
  revert i. induction v as [|b v IH]; intros i; cbn [key_name_loop]; [done|].
  rewrite Forall_cons, <-(IH (S i)). unfold name_char at 1.
  assert ((is_alnum b || bool_decide (b = x2e) || bool_decide (b = x5f) || bool_decide (b = x2d)) = true
    <-> is_alnum b = true \/ b ∈ str "._-") as <-.
  { rewrite !orb_true_iff, !bool_decide_eq_true. change (str "._-") with [x2e; x5f; x2d].
    rewrite !elem_of_cons, elem_of_nil. tauto. }
  destruct (is_alnum b || _ || _ || _); simpl; naive_solver.
Qed.

Lemma validNixCacheKeyName_spec v : validNixCacheKeyName v = true <-> key_name v.
Proof.
  unfold validNixCacheKeyName, key_name. case_decide as H.
  - split; [done|]. intros (Hl & b & rest & -> & _). rewrite len_cons in H, Hl.
    pose proof (len_nonneg rest). lia.
  - destruct v as [|b v]; [by destruct H; left|]. cbn [key_name_loop].
    destruct (is_alnum b) eqn:Eb; simpl.
    + rewrite key_name_loop_tail. split.
      * intros Hv. split; [lia|]. eauto.
      * by intros (_ & b' & rest & [= <- <-] & _ & Hr).
    + split; [done|]. intros (_ & b' & rest & [= <- <-] & Ha & _). congruence.
Qed.

Lemma key_id_spec v :
  negb (utf8_Valid v) || bool_decide (len v < 1) || bool_decide (len v > 256) = false /\
    existsb is_control v = false <-> key_id v.
Proof.
  unfold key_id. rewrite control_free_spec, !orb_false_iff, !bool_decide_eq_false, negb_false_iff.
  intuition lia.
Qed.

Lemma validateNixCacheBytes_spec n k v :
  validateNixCacheBytes n k v = Ok () <-> valid_value k (WBytes v).
Proof.
  destruct k; simpl.
  - rewrite <-key_id_spec. destruct (negb _ || _ || _); [naive_solver|].
    destruct (existsb is_control v); naive_solver.
  - rewrite <-validNixCacheKeyName_spec. destruct (validNixCacheKeyName v); naive_solver.
  - case_decide; naive_solver.
  - change (allZeroBytes v) with (allZero16 v). rewrite <-nonzero_spec.
    case_bool_decide; simpl; [naive_solver|]. destruct (allZero16 v); naive_solver.
  - case_decide; naive_solver.
  - case_decide; naive_solver lia.
  - case_decide; naive_solver.
  - naive_solver.
  - naive_solver.
Qed.

Lemma validateNixCacheVarint_spec n k v :
  validateNixCacheVarint n k v = Ok () <-> valid_value k (WVarint v).
Proof.
  destruct k; simpl; try naive_solver; case_decide; try naive_solver.
  split; [intros _|done]. destruct (decide (v = 1)), (decide (v = 2)); naive_solver.
Qed.

Lemma validateNixCacheBytes_fuel n k v : validateNixCacheBytes n k v <> Err OutOfFuel.
Proof. destruct k; simpl; repeat case_match; done. Qed.

Lemma validateNixCacheVarint_fuel n k v : validateNixCacheVarint n k v <> Err OutOfFuel.
Proof. destruct k; simpl; repeat case_match; done. Qed.

Lemma missing_loop_fuel k fields seen : missing_loop k fields seen <> Err OutOfFuel.
Proof. induction k; cbn [missing_loop]; [done|]. by case_decide. Qed.

(** The rule table is the schema: kinds by number, each with the wire type its
    values have. *)
Definition kind_wire (k : nixCacheFieldKind) : Z :=
  match k with nixBackendVersion | nixEnrollmentDisposition => VarintType | _ => BytesType end.

Lemma nixCacheFieldRule_spec s n :
  nixCacheFieldRule s n =
    if decide (1 <= n) then (fun k => (k, kind_wire k)) <$> schema_kinds s !! Z.to_nat (n - 1) else None.
Proof.
  assert (n < 1 \/ n = 1 \/ n = 2 \/ n = 3 \/ n = 4 \/ n = 5 \/ n = 6 \/ 6 < n) as H by lia.
  destruct H as [H|[->|[->|[->|[->|[->|[->|H]]]]]]]; try (by destruct s).
  - rewrite decide_False by lia.
    destruct s; cbn [nixCacheFieldRule]; unfold nixCacheIdentityField;
      repeat (rewrite decide_False by lia); done.
  - rewrite decide_True by lia.
    rewrite lookup_ge_None_2 by (destruct s; simpl; lia).
    destruct s; cbn [nixCacheFieldRule]; unfold nixCacheIdentityField;
      repeat (rewrite decide_False by lia); done.
Qed.

Lemma valid_value_wire k v : valid_value k v -> wire_type v = kind_wire k.
Proof. by destruct k, v. Qed.

(** ** The seen set *)

(** [seen] has exactly the bits of the field numbers in [ns]. *)
Definition seen_set (seen : Z) (ns : list Z) : Prop :=
  forall n, 1 <= n -> Z.testbit seen (n - 1) = bool_decide (n ∈ ns).

Lemma bit64_test n : 1 <= n <= 64 -> forall seen,
  Z.land seen (bit64 (n - 1)) = 0 <-> Z.testbit seen (n - 1) = false.
Proof.
  intros Hn seen. unfold bit64. rewrite Z.shiftl_1_l, wrapu_small.
  2: { split; [apply Z.pow_nonneg; lia|]. apply Z.pow_lt_mono_r; lia. }
  split.
  - intros E. apply (f_equal (fun z => Z.testbit z (n - 1))) in E.
    rewrite Z.land_spec, Z.pow2_bits_true, andb_true_r, Z.bits_0 in E by lia. done.
  - intros E. apply Z.bits_inj'. intros i Hi. rewrite Z.land_spec, Z.bits_0.
    rewrite Z.pow2_bits_eqb by lia. destruct (Z.eqb_spec (n - 1) i) as [<-|Hne]; [by rewrite E|].
    apply andb_false_r.
Qed.

Lemma seen_set_add seen ns n : 1 <= n <= 64 -> seen_set seen ns ->
  seen_set (Z.lor seen (bit64 (n - 1))) (n :: ns).
Proof.
  intros Hn Hs i Hi. unfold bit64. rewrite Z.shiftl_1_l, wrapu_small.
  2: { split; [apply Z.pow_nonneg; lia|]. apply Z.pow_lt_mono_r; lia. }
  rewrite Z.lor_spec, Hs, Z.pow2_bits_eqb by lia.
  apply eq_true_iff_eq. rewrite orb_true_iff, !bool_decide_eq_true, Z.eqb_eq, elem_of_cons.
  split; intros [?|?]; solve [auto | left; lia | right; lia].
Qed.

Lemma seen_set_nil : seen_set 0 [].
Proof. intros n Hn. rewrite Z.bits_0. by rewrite bool_decide_eq_false_2 by apply not_elem_of_nil. Qed.

Section spec.
Context {Pr : Protobuf} {PrL : ProtobufLaws Pr}.

(** A well-formed field in front of [raw], of one of the two wire types the
    schema uses, and what follows it. *)
Inductive wire_field (raw : bytes) : Z * wire_value -> bytes -> Prop :=
| wire_bytes n1 number v n2 :
    ConsumeTag raw = (number, BytesType, n1) -> 0 <= n1 ->
    ConsumeBytes (drop (Z.to_nat n1) raw) = (v, n2) -> 0 <= n2 ->
    wire_field raw (number, WBytes v) (drop (Z.to_nat n2) (drop (Z.to_nat n1) raw))
| wire_varint n1 number v n2 :
    ConsumeTag raw = (number, VarintType, n1) -> 0 <= n1 ->
    ConsumeVarint (drop (Z.to_nat n1) raw) = (v, n2) -> 0 <= n2 ->
    wire_field raw (number, WVarint v) (drop (Z.to_nat n2) (drop (Z.to_nat n1) raw)).

(** [raw] is the sequence of fields [fs]. *)
Inductive wire_fields : bytes -> list (Z * wire_value) -> Prop :=
| wire_nil : wire_fields [] []
| wire_cons raw f rest fs : wire_field raw f rest -> wire_fields rest fs -> wire_fields raw (f :: fs).

Lemma wire_field_shorter raw f rest : wire_field raw f rest -> (length rest < length raw)%nat.
Proof.
  intros H. destruct H as [n1 num v n2 E Hn _ _|n1 num v n2 E Hn _ _];
    pose proof (ConsumeTag_length _ _ _ _ E Hn) as H; unfold len in H; rewrite !length_drop; lia.
Qed.

Lemma wire_field_not_nil raw f rest : wire_field raw f rest -> raw <> [].
Proof. intros H%wire_field_shorter ->. simpl in H. lia. Qed.

Lemma schema_numbers s n k : 1 <= n -> schema_kinds s !! Z.to_nat (n - 1) = Some k -> 1 <= n <= 64.
Proof. intros Hn H%lookup_lt_Some. destruct s; simpl in H; lia. Qed.

Lemma valid_field_number s f : valid_field s f -> 1 <= f.1 <= 64.
Proof. intros (k & H1 & H2 & _). by eapply schema_numbers. Qed.

(** A turn of the loop: it goes on exactly behind a valid field that was not
    seen, with that field's bit set. *)
Lemma preflight_step fuel s raw seen seen' : raw <> [] ->
  preflight_loop (S fuel) s raw seen = Ok seen' <->
  exists f rest, wire_field raw f rest /\ valid_field s f /\ Z.testbit seen (f.1 - 1) = false /\
    preflight_loop fuel s rest (Z.lor seen (bit64 (f.1 - 1))) = Ok seen'.
Proof.
  intros Hraw. assert (len raw <> 0) as Hl
    by (destruct raw; [done|rewrite len_cons; pose proof (len_nonneg raw); lia]).
  cbn [preflight_loop]. rewrite decide_False by done. split.
  - intros E. destruct (ConsumeTag raw) as [[number typ] n1] eqn:Et. case_decide as Hn1; [done|].
    rewrite nixCacheFieldRule_spec in E. case_decide as Hnum; [|done].
    destruct (schema_kinds s !! Z.to_nat (number - 1)) as [k|] eqn:Ek; [|done].
    cbn [fmap option_fmap option_map] in E.
    pose proof (schema_numbers _ _ _ Hnum Ek) as Hr.
    case_decide as Hdup; [done|]. case_decide as Ht; [done|].
    assert (typ = kind_wire k) as ->
      by (destruct (decide (typ = kind_wire k)); [done|by destruct Ht]).
    assert (Z.testbit seen (number - 1) = false) as Hfresh.
    { apply (bit64_test number Hr). by destruct (decide (Z.land seen (bit64 (number - 1)) = 0)). }
    case_decide as Hb; [|case_decide as Hv; [|done]].
    + rewrite Hb in Et. destruct (ConsumeBytes _) as [v n2] eqn:Ev. case_decide as Hn2; [done|].
      apply result_bind_Ok in E as ([] & Evalid%validateNixCacheBytes_spec & E).
      exists (number, WBytes v). eexists. split; [eapply wire_bytes; [exact Et|lia|exact Ev|lia]|].
      split_and!; auto. by exists k.
    + rewrite Hv in Et. destruct (ConsumeVarint _) as [v n2] eqn:Ev. case_decide as Hn2; [done|].
      apply result_bind_Ok in E as ([] & Evalid%validateNixCacheVarint_spec & E).
      exists (number, WVarint v). eexists. split; [eapply wire_varint; [exact Et|lia|exact Ev|lia]|].
      split_and!; auto. by exists k.
  - intros (f & rest & Hf & Hv & Hfresh & E). pose proof (valid_field_number _ _ Hv) as Hr.
    destruct Hv as (k & Hnum & Ek & Hv). pose proof (valid_value_wire _ _ Hv) as Hw.
    apply (bit64_test _ Hr) in Hfresh.
    destruct Hf as [n1 number v n2 Et Hn1 Ev Hn2|n1 number v n2 Et Hn1 Ev Hn2];
      cbn [fst snd wire_type] in *;
      rewrite Et, decide_False, nixCacheFieldRule_spec, decide_True, Ek by lia;
      cbn [fmap option_fmap option_map]; rewrite <-Hw, Hfresh;
      rewrite decide_False by auto; rewrite decide_False by auto.
    + rewrite decide_True by done. rewrite Ev, decide_False by lia.
      by rewrite (proj2 (validateNixCacheBytes_spec number k v) Hv).
    + rewrite decide_False, decide_True by done. rewrite Ev, decide_False by lia.
      by rewrite (proj2 (validateNixCacheVarint_spec number k v) Hv).
Qed.

Lemma preflight_loop_nil fuel s seen : preflight_loop fuel s [] seen = Ok seen.
Proof. by destruct fuel. Qed.

(** The loop accepts exactly the sequences of valid fields with numbers that
    are distinct and not seen before, and has then seen those too. *)
Lemma preflight_loop_sound fuel s raw seen ns seen' :
  seen_set seen ns -> NoDup ns -> (length raw <= fuel)%nat ->
  preflight_loop fuel s raw seen = Ok seen' ->
  exists fs, wire_fields raw fs /\ Forall (valid_field s) fs /\
    exists ns', NoDup ns' /\ ns' ≡ₚ fs.*1 ++ ns /\ seen_set seen' ns'.
Proof.
  revert raw seen ns. induction fuel as [|fuel IH]; intros raw seen ns Hs Hnd Hf E;
    (destruct raw as [|b raw]; [rewrite preflight_loop_nil in E; injection E as <-|]).
  1,3: exists []; split; [constructor|]; split; [constructor|]; by exists ns.
  - simpl in Hf. lia.
  - apply preflight_step in E as (f & rest & Hw & Hv & Hfresh & E); [|done].
    pose proof (valid_field_number _ _ Hv) as Hr. pose proof (wire_field_shorter _ _ _ Hw).
    apply (IH _ _ (f.1 :: ns)) in E as (fs & Hws & Hvs & ns' & Hnd' & Hp & Hs').
    + exists (f :: fs). split; [by eapply wire_cons|]. split; [by constructor|].
      exists ns'. split_and!; auto. rewrite Hp. simpl. by rewrite Permutation_middle.
    + by apply seen_set_add.
    + constructor; [|done]. intros Hin. rewrite (Hs f.1 ltac:(lia)), bool_decide_eq_true_2 in Hfresh; done.
    + simpl in *. lia.
Qed.

Lemma preflight_loop_complete fuel s raw fs seen ns :
  seen_set seen ns -> (length raw <= fuel)%nat ->
  wire_fields raw fs -> Forall (valid_field s) fs -> NoDup (fs.*1 ++ ns) ->
  exists seen', preflight_loop fuel s raw seen = Ok seen' /\
    exists ns', ns' ≡ₚ fs.*1 ++ ns /\ seen_set seen' ns'.
Proof.
  intros Hs Hf Hw. revert fuel seen ns Hs Hf.
  induction Hw as [|raw f rest fs Hw Hws IH]; intros fuel seen ns Hs Hf Hv Hnd.
  - exists seen. rewrite preflight_loop_nil. split; [done|]. by exists ns.
  - pose proof (wire_field_shorter _ _ _ Hw). destruct fuel as [|fuel]; [lia|].
    apply Forall_cons in Hv as [Hv Hvs]. pose proof (valid_field_number _ _ Hv) as Hr.
    simpl in Hnd. apply NoDup_cons in Hnd as [Hnew Hnd].
    apply not_elem_of_app in Hnew as [Hnew1 Hnew2].
    destruct (IH fuel (Z.lor seen (bit64 (f.1 - 1))) (f.1 :: ns)) as (seen' & E & ns' & Hp & Hs');
      [by apply seen_set_add|lia|done| |].
    { rewrite <-Permutation_middle. constructor; [|done]. by apply not_elem_of_app. }
    exists seen'. split.
    + apply preflight_step; [by eapply wire_field_not_nil|]. exists f, rest. split_and!; auto.
      rewrite (Hs f.1 ltac:(lia)). by apply bool_decide_eq_false_2.
    + exists ns'. split; [|done]. rewrite Hp. simpl. by rewrite Permutation_middle.
Qed.

(** The loop over the required fields. *)
Lemma missing_loop_spec k fields seen : Z.of_nat k <= fields <= 64 ->
  missing_loop k fields seen = Ok () <->
  forall n, fields - Z.of_nat k < n <= fields -> Z.testbit seen (n - 1) = true.
Proof.
  induction k as [|k IH]; intros Hk; cbn [missing_loop]; [split; [lia|done]|].
  case_decide as Hd; rewrite bit64_test in Hd by lia.
  - split; [done|]. intros H. rewrite H in Hd by lia. done.
  - rewrite IH by lia. apply not_false_iff_true in Hd. split.
    + intros H n Hn. destruct (decide (n = fields - Z.of_nat k)) as [->|]; [done|]. apply H. lia.
    + intros H n Hn. apply H. lia.
Qed.

Lemma required_bits fields n : 0 <= fields <= 64 -> 1 <= n <= fields ->
  Z.testbit (wrapu 64 (bit64 fields - 1)) (n - 1) = true.
Proof.
  intros Hf Hn. unfold bit64. rewrite Z.shiftl_1_l. unfold wrapu. rewrite Zminus_mod_idemp_l.
  replace (2 ^ fields - 1) with (Z.ones fields) by (rewrite Z.ones_equiv; lia).
  rewrite Z.mod_pow2_bits_low by lia. apply Z.ones_spec_low. lia.
Qed.

(** Whether the code compares with [required] first does not matter. *)
Lemma required_spec fields seen : 0 <= fields <= 64 ->
  (if decide (seen <> wrapu 64 (bit64 fields - 1)) then missing_loop (Z.to_nat fields) fields seen
   else Ok ()) = Ok () <->
  forall n, 1 <= n <= fields -> Z.testbit seen (n - 1) = true.
Proof.
  intros Hf. assert (missing_loop (Z.to_nat fields) fields seen = Ok () <->
    forall n, 1 <= n <= fields -> Z.testbit seen (n - 1) = true) as Hm.
  { rewrite missing_loop_spec by lia. split; intros H n Hn; apply H; lia. }
  case_decide as Hd; [done|]. split; [|done]. intros _ n Hn.
  destruct (decide (seen = wrapu 64 (bit64 fields - 1))) as [->|]; [|done].
  by apply required_bits.
Qed.
End spec.

(** The schema of a message, with its bounds. *)
Lemma nixCacheMessageSchema_fields m s maximum fields :
  nixCacheMessageSchema m = Ok (s, maximum, fields) -> fields = len (schema_kinds s).
Proof. destruct m; intros [= <- <- <-]; reflexivity. Qed.
