(* ===== verification/NixProps.v ===== *)
(** The properties of the Nix cache methods and of their strict codec. *)

From S2P Require Import Prelude GoText GoError Errors Pb Client Nix NixCodec NixLemmas.

(** ** The codec *)

Section codec.
Context {Pr : Protobuf} {PrL : ProtobufLaws Pr}.

(** C14: what the strict codec accepts. [preflightNixCacheProto] passes a wire
    message exactly when it is no longer than the maximum of its type and is
    a sequence of well-formed fields, in any order, with every field number
    of the schema exactly once and no other, each with the wire type and a
    value its rule allows. *)
Theorem preflight_accepts raw m :
  preflightNixCacheProto raw m = Ok () <->
  exists s maximum fields fs, nixCacheMessageSchema m = Ok (s, maximum, fields) /\
    len raw <= maximum /\ wire_fields raw fs /\ Forall (valid_field s) fs /\
    fs.*1 ≡ₚ seqZ 1 fields.
Proof.
  unfold preflightNixCacheProto.
  destruct (nixCacheMessageSchema m) as [[[s maximum] fields]|e] eqn:Es; [|naive_solver].
  pose proof (nixCacheMessageSchema_fields _ _ _ _ Es) as Hfields.
  assert (0 <= fields <= 64) as Hf by (rewrite Hfields; destruct s; unfold len; simpl; lia).
  cbn [mbind result_bind]. split.
  - case_decide as Hlen; [done|]. intros (seen & E & Hreq)%result_bind_Ok. cbv zeta in Hreq.
    pose proof (proj1 (required_spec fields seen Hf) Hreq) as Hall.
    apply (preflight_loop_sound _ _ _ _ []) in E as (fs & Hw & Hv & ns & Hnd & Hp & Hs);
      [|apply seen_set_nil|constructor|done].
    rewrite app_nil_r in Hp.
    exists s, maximum, fields, fs. split_and!; [done|lia|done|done|].
    rewrite <-Hp. apply NoDup_Permutation; [done|apply NoDup_seqZ|].
    intros n. rewrite elem_of_seqZ. split.
    + rewrite Hp. intros (f & -> & Hin)%list_elem_of_fmap.
      rewrite Forall_forall in Hv. destruct (Hv f Hin) as (k & H1 & Hk%lookup_lt_Some & _).
      rewrite Hfields. unfold len. lia.
    + intros Hn. specialize (Hall n ltac:(lia)). rewrite (Hs n ltac:(lia)) in Hall.
      by apply bool_decide_eq_true in Hall.
  - intros (s' & maximum' & fields' & fs & [= <- <- <-] & Hlen & Hw & Hv & Hp).
    rewrite decide_False by lia.
    destruct (preflight_loop_complete (length raw) s raw fs 0 []) as (seen & E & ns & Hp' & Hs);
      [apply seen_set_nil|done|done|done| |].
    { rewrite app_nil_r, Hp. apply NoDup_seqZ. }
    rewrite E. cbn [mbind result_bind]. apply (required_spec fields seen Hf).
    intros n Hn. rewrite (Hs n ltac:(lia)). apply bool_decide_eq_true.
    rewrite Hp', app_nil_r, Hp. apply elem_of_seqZ. lia.
Qed.

(** The check terminates. One turn of the loop per byte of the message is
    enough: it never runs out of fuel. *)
Theorem preflight_terminates raw m : preflightNixCacheProto raw m <> Err OutOfFuel.
Proof.
  assert (forall fuel s raw seen, (length raw <= fuel)%nat ->
    preflight_loop fuel s raw seen <> Err OutOfFuel) as Hloop.
  { clear raw m. induction fuel as [|fuel IH]; intros s raw seen Hf; cbn [preflight_loop];
      case_decide as Hl; try done; [unfold len in Hl; lia|].
    destruct (ConsumeTag raw) as [[number typ] n1] eqn:Et. case_decide as Hn1; [done|].
    pose proof (ConsumeTag_length _ _ _ _ Et ltac:(lia)) as Hc. unfold len in Hc.
    assert (forall n, (length (drop n (drop (Z.to_nat n1) raw)) <= fuel)%nat) as Hrest
      by (intros n; rewrite !length_drop; lia).
    destruct (nixCacheFieldRule s number) as [[k w]|]; [|done].
    repeat (case_decide; [done|]). case_decide; [|case_decide; [|done]].
    - destruct (ConsumeBytes _) as [v n2]. case_decide; [done|].
      destruct (validateNixCacheBytes number k v) eqn:Ev; [by apply IH|].
      intros [= ->]. by eapply validateNixCacheBytes_fuel.
    - destruct (ConsumeVarint _) as [v n2]. case_decide; [done|].
      destruct (validateNixCacheVarint number k v) eqn:Ev; [by apply IH|].
      intros [= ->]. by eapply validateNixCacheVarint_fuel. }
  unfold preflightNixCacheProto. destruct m; try done; cbn [nixCacheMessageSchema mbind result_bind];
    (case_decide; [done|]);
    match goal with |- context [preflight_loop ?f ?s ?r ?z] =>
      pose proof (Hloop f s r z ltac:(lia)); destruct (preflight_loop f s r z) as [seen|e] end;
    try (intros [= ->]; done); cbv zeta; cbn [mbind result_bind]; (case_decide; [|done]);
    apply missing_loop_fuel.
Qed.

(** The codec is strict in both directions. [Marshal] only returns what
    the ordinary encoder produced and the check passes; [Unmarshal] only
    calls the ordinary decoder on bytes the check passes, and otherwise
    returns the check's error; no other type of value gets through. *)
Theorem codec_strict raw value :
  (Marshal value = Ok raw <-> exists m, value = inl m /\ proto_Marshal m = Ok raw /\
    preflightNixCacheProto raw m = Ok ()) /\
  (forall m', Unmarshal raw value = Ok m' <-> exists m, value = inl m /\
    preflightNixCacheProto raw m = Ok () /\ proto_Unmarshal raw m = Ok m') /\
  (forall m e, value = inl m -> preflightNixCacheProto raw m = Err e ->
    Unmarshal raw value = Err e).
Proof.
  destruct value as [m|t]; [|split; [|split]; try done; split; naive_solver].
  split; [|split].
  - unfold Marshal. rewrite result_bind_Ok. split.
    + intros (r & E & (u & Ep & [= <-])%result_bind_Ok). destruct u. eauto.
    + intros (m' & [= <-] & E & Ep). exists raw. split; [done|]. apply result_bind_Ok. eauto.
  - intros m'. unfold Unmarshal. rewrite result_bind_Ok. split.
    + intros ([] & Ep & E). eauto.
    + intros (m2 & [= <-] & Ep & E). exists (). auto.
  - intros m' e [= <-] E. unfold Unmarshal. by rewrite E.
Qed.
End codec.

(** ** Sizes *)

(** The size of a minimal varint and of a field with a one-byte tag, in the
    protobuf wire format. *)
Fixpoint varint_size (fuel : nat) (v : Z) : Z :=
  match fuel with
  | O => 1
  | S fuel => if decide (v < 128) then 1 else 1 + varint_size fuel (v / 128)
  end.

Definition field_size (v : wire_value) : Z :=
  match v with
  | WBytes v => 1 + varint_size 9 (len v) + len v
  | WVarint v => 1 + varint_size 9 v
  end.

Definition message_size (vs : list wire_value) : Z := foldr (fun v n => field_size v + n) 0 vs.

(** The largest value of each kind. *)
Definition largest (k : nixCacheFieldKind) : Z :=
  match k with
  | nixKeyID => 1 + 2 + 256
  | nixKeyName => 1 + 2 + 128
  | nixPublicKey => 1 + 1 + 32
  | nixIdentifier => 1 + 1 + 16
  | nixProfile => 1 + 1 + 12
  | nixFingerprint => 1 + 3 + nixCacheFingerprintMax
  | nixSignature => 1 + 1 + 64
  | nixBackendVersion | nixEnrollmentDisposition => 2
  end.

Lemma varint_size_1 f v : 0 <= v < 128 -> varint_size f v = 1.
Proof. intros H. destruct f; simpl; [done|]. by rewrite decide_True by lia. Qed.

Lemma varint_size_2 f v : 0 <= v < 16384 -> varint_size f v <= 2.
Proof.
  intros H. destruct f; simpl; [lia|]. case_decide; [lia|].
  rewrite varint_size_1; [lia|]. split; [apply Z.div_pos; lia|apply Z.div_lt_upper_bound; lia].
Qed.

Lemma varint_size_3 f v : 0 <= v < 2097152 -> varint_size f v <= 3.
Proof.
  intros H. destruct f; simpl; [lia|]. case_decide; [lia|].
  pose proof (varint_size_2 f (v / 128)) as H2.
  assert (0 <= v / 128 < 16384) by (split; [apply Z.div_pos; lia|apply Z.div_lt_upper_bound; lia]).
  lia.
Qed.

Lemma valid_value_size k v : valid_value k v -> field_size v <= largest k.
Proof.
  destruct k, v as [v|v]; cbn [valid_value]; try done; cbn [field_size largest];
    unfold nixCacheFingerprintMax.
  - intros (_ & H & _). pose proof (varint_size_2 9 (len v)). lia.
  - intros (H & _). pose proof (len_nonneg v). pose proof (varint_size_2 9 (len v)). lia.
  - intros ->. reflexivity.
  - intros [-> _]. reflexivity.
  - intros ->. reflexivity.
  - intros H. pose proof (varint_size_3 9 (len v)). lia.
  - intros ->. reflexivity.
  - intros ->. reflexivity.
  - intros [-> | ->]; reflexivity.
Qed.

(** A largest value of each kind. *)
Definition largest_value (k : nixCacheFieldKind) : wire_value :=
  match k with
  | nixKeyID => WBytes (replicate 256 x61)
  | nixKeyName => WBytes (replicate 128 x61)
  | nixPublicKey => WBytes (replicate 32 x61)
  | nixIdentifier => WBytes (replicate 16 x61)
  | nixProfile => WBytes (str "PATH_INFO_V1")
  | nixFingerprint => WBytes (replicate (Z.to_nat nixCacheFingerprintMax) x61)
  | nixSignature => WBytes (replicate 64 x61)
  | nixBackendVersion | nixEnrollmentDisposition => WVarint 1
  end.

Lemma largest_value_valid k : valid_value k (largest_value k) /\ field_size (largest_value k) = largest k.
Proof.
  destruct k; cbn [largest_value valid_value field_size largest]; try (by split; vm_compute).
  - split; [|by vm_compute]. split; [by vm_compute|]. split; [by vm_compute|].
    apply Forall_replicate. by vm_compute.
  - split; [|by vm_compute]. split; [by vm_compute|]. exists x61, (replicate 127 x61).
    split; [done|]. split; [done|]. apply Forall_replicate. left. done.
  - split; [|by vm_compute]. split; [done|]. apply Exists_cons. by left.
  - split; [by left|done].
Qed.

(** The maximum sizes are exact. In the protobuf encoding (one-byte tags,
    minimal lengths) no valid message of a type exceeds the maximum the code
    gives that type, so the codec and the gRPC message limits reject nothing
    valid; and each maximum is reached by a valid message. *)
Theorem size_maxima m s maximum fields :
  nixCacheMessageSchema m = Ok (s, maximum, fields) ->
  (forall vs, Forall2 valid_value (schema_kinds s) vs -> message_size vs <= maximum) /\
  (exists vs, Forall2 valid_value (schema_kinds s) vs /\ message_size vs = maximum).
Proof.
  intros Hm.
  assert (maximum = foldr (fun k n => largest k + n) 0 (schema_kinds s)) as ->
    by (destruct m; [injection Hm as <- <- <-; reflexivity..|discriminate Hm]).
  generalize (schema_kinds s) as ks. intros ks. split.
  - intros vs H. induction H as [|k v ks vs Hv _ IH]; simpl; [lia|].
    pose proof (valid_value_size _ _ Hv). lia.
  - exists (map largest_value ks). induction ks as [|k ks IH]; simpl; [done|].
    destruct IH as [IH1 IH2], (largest_value_valid k) as [H1 H2]. split; [by constructor|].
    by rewrite H2, IH2.
Qed.

(** ** The client's own validation *)

(** The client and the codec agree. [validateNixCacheRequest] accepts the
    arguments of a request exactly when their fields pass the rules of the
    codec, for each of the three requests; so a request the client built is
    never refused by the codec for a value. *)
Theorem request_validation keyID batchID requestID fingerprint :
  length batchID = 16%nat -> length requestID = 16%nat ->
  (validateNixCacheRequest keyID batchID requestID = Ok () <->
    Forall2 valid_value (schema_kinds nixDescribeRequest)
      [WBytes keyID; WBytes batchID; WBytes requestID]) /\
  (validateNixCacheRequest keyID batchID requestID = Ok () /\
     1 <= len fingerprint <= nixCacheFingerprintMax <->
    Forall2 valid_value (schema_kinds nixSignRequest)
      [WBytes keyID; WBytes (str "PATH_INFO_V1"); WBytes fingerprint; WBytes batchID; WBytes requestID]).
Proof.
  intros Hb Hr.
  assert (validateNixCacheRequest keyID batchID requestID = Ok () <->
    key_id keyID /\ nonzero batchID /\ nonzero requestID) as Hv.
  { unfold validateNixCacheRequest. rewrite <-key_id_spec, <-!nonzero_spec.
    assert (bool_decide (len keyID < 1) = bool_decide (len keyID = 0)) as ->
      by (apply bool_decide_ext; pose proof (len_nonneg keyID); lia).
    destruct (negb _ || _ || _); [naive_solver|].
    destruct (existsb is_control keyID); [naive_solver|].
    destruct (allZero16 batchID), (allZero16 requestID); naive_solver. }
  assert (len batchID = 16 /\ len requestID = 16) as [Hb' Hr'] by (unfold len; lia).
  rewrite Hv. cbn [schema_kinds]. rewrite !Forall2_cons, Forall2_nil. cbn [valid_value]. tauto.
Qed.

Section client.
Context {Gr : Grpc} {GS : GrpcStatus}.

(** A key that may be handed to the caller. *)
Definition key_ok (k : NixCacheKey) : Prop :=
  key_name (KeyName k) /\ len (nix_PublicKey k) = 32 /\ BackendVersion k = 1.

Lemma nixCacheKey_ok name pk v k : nixCacheKey name pk v = Ok k <->
  k = mkNixCacheKey name pk v /\ key_ok k.
Proof.
  unfold nixCacheKey, key_ok. destruct (validNixCacheKeyName name) eqn:E; simpl.
  - apply validNixCacheKeyName_spec in E. repeat case_decide; split; naive_solver.
  - split; [done|]. intros [-> (H & _)]. simpl in H.
    apply validNixCacheKeyName_spec in H. congruence.
Qed.

Lemma echo_ok ab ar b r : validateNixCacheResponseEcho ab ar b r = Ok () <-> ab = b /\ ar = r.
Proof.
  unfold validateNixCacheResponseEcho. destruct (decide (ab = b)), (decide (ar = r)); case_decide;
    naive_solver.
Qed.

Lemma rpc_lift_bind {A A'} (r : result error A) (k : A -> rpc A') b :
  (rpc_lift r ≫= k) b = match r with Ok a => k a b | Err e => (Err e, b) end.
Proof. unfold rpc_lift, mbind, rpc_bind. by destruct r. Qed.

(** The checks on a response: they pass exactly for the response that is
    rebuilt from the result. *)
Lemma sign_response_checks (resp : SignNixCacheFingerprintResponse) batchID requestID sig b b' :
  (rpc_lift (validateNixCacheResponseEcho (SignNixCacheFingerprintResponse_BatchId resp)
    (SignNixCacheFingerprintResponse_RequestId resp) batchID requestID);;
  let signature := SignNixCacheFingerprintResponse_Signature resp in
  if decide (len signature <> 64) then
    rpc_fail (Errorf "basil: Nix cache response signature is %d bytes; expected 64"
      [AInt (len signature)])
  else
  key ← rpc_lift (nixCacheKey (SignNixCacheFingerprintResponse_KeyName resp)
    (SignNixCacheFingerprintResponse_PublicKey resp)
    (SignNixCacheFingerprintResponse_BackendVersion resp));
  mret (mkNixCacheSignature key signature)) b = (Ok sig, b') <->
  b = b' /\ len (Signature sig) = 64 /\ key_ok (sig_Key sig) /\
  resp = mkSignNixCacheFingerprintResponse (KeyName (sig_Key sig)) (nix_PublicKey (sig_Key sig))
    (BackendVersion (sig_Key sig)) (Signature sig) batchID requestID.
Proof.
  destruct resp as [name pk v sg ab ar], sig as [k sg']. cbn -[len]. rewrite rpc_lift_bind.
  destruct (validateNixCacheResponseEcho ab ar batchID requestID) as [[]|e] eqn:Ee.
  - apply echo_ok in Ee as [-> ->]. case_decide; [split; [done|naive_solver]|].
    rewrite rpc_lift_bind. destruct (nixCacheKey name pk v) as [k'|e] eqn:Ek.
    + apply nixCacheKey_ok in Ek as [-> Hk]. split.
      * intros [= <- <- <-]. split_and!; auto; by destruct (decide (len sg = 64)).
      * intros (-> & _ & _ & [= -> -> -> ->]). by destruct k.
    + split; [done|]. intros (_ & _ & Hk & [= -> -> -> _]).
      assert (nixCacheKey (KeyName k) (nix_PublicKey k) (BackendVersion k) = Ok k) as E
        by (apply nixCacheKey_ok; split; [by destruct k|done]). congruence.
  - split; [done|]. intros (_ & _ & _ & [= _ _ _ _ -> ->]).
    assert (validateNixCacheResponseEcho batchID requestID batchID requestID = Ok ()) as E
      by (by apply echo_ok). congruence.
Qed.

(** Nothing invalid leaves or enters. Arguments that fail the validation
    are refused before the broker is called; and a result of
    [SignNixCacheFingerprint] is returned exactly for valid arguments and a
    fingerprint of 1 to the maximum bytes, when the single RPC, with the
    profile PATH_INFO_V1, the strict codec and both size limits, answers with
    both identifiers echoed, a 64-byte signature, a valid key name, a
    32-byte public key and backend version 1; it is then what the broker
    sent. *)
Theorem SignNixCacheFingerprint_checked c ctx keyID fingerprint batchID requestID b :
  (forall e, validateNixCacheRequest keyID batchID requestID = Err e ->
    SignNixCacheFingerprint c ctx keyID fingerprint batchID requestID b = (Err e, b)) /\
  (forall sig b', SignNixCacheFingerprint c ctx keyID fingerprint batchID requestID b = (Ok sig, b') <->
    validateNixCacheRequest keyID batchID requestID = Ok () /\
    1 <= len fingerprint <= nixCacheFingerprintMax /\
    len (Signature sig) = 64 /\ key_ok (sig_Key sig) /\
    Invoke NixCacheService_SignNixCacheFingerprint (conn c) (effective c ctx b)
      (mkSignNixCacheFingerprintRequest keyID (str "PATH_INFO_V1") fingerprint batchID requestID)
      [ForceCodec_nixCacheProto; MaxCallSendMsgSize 524939; MaxCallRecvMsgSize 269] b =
      (Ok (mkSignNixCacheFingerprintResponse (KeyName (sig_Key sig)) (nix_PublicKey (sig_Key sig))
         (BackendVersion (sig_Key sig)) (Signature sig) batchID requestID), b')).
Proof.
  unfold SignNixCacheFingerprint. split.
  - intros e E. by rewrite rpc_lift_bind, E.
  - intros sig b'. rewrite rpc_lift_bind.
    destruct (validateNixCacheRequest keyID batchID requestID) as [[]|e]; [|naive_solver].
    pose proof (len_nonneg fingerprint).
    case_decide as Hf; [split; [done|lia]|]. rewrite unary_with_eq.
    set (req := mkSignNixCacheFingerprintRequest _ _ _ _ _).
    set (opts := [ForceCodec_nixCacheProto; _; _]). change (nixCacheCallOptions _ _) with opts.
    destruct (Invoke _ _ _ req opts b) as [[resp|e] b1]; [|split; [done|naive_solver]].
    rewrite sign_response_checks. split; [intros (-> & H1 & H2 & ->)|intros (_ & _ & H1 & H2 & [= -> ->])];
      split_and!; auto; lia.
Qed.

Lemma describe_response_checks (resp : DescribeNixCacheKeyResponse) batchID requestID k b b' :
  (rpc_lift (validateNixCacheResponseEcho (DescribeNixCacheKeyResponse_BatchId resp)
    (DescribeNixCacheKeyResponse_RequestId resp) batchID requestID);;
  rpc_lift (nixCacheKey (DescribeNixCacheKeyResponse_KeyName resp)
    (DescribeNixCacheKeyResponse_PublicKey resp)
    (DescribeNixCacheKeyResponse_BackendVersion resp))) b = (Ok k, b') <->
  b = b' /\ key_ok k /\
  resp = mkDescribeNixCacheKeyResponse (KeyName k) (nix_PublicKey k) (BackendVersion k)
    batchID requestID.
Proof.
  destruct resp as [name pk v ab ar]. cbn -[len]. rewrite rpc_lift_bind.
  destruct (validateNixCacheResponseEcho ab ar batchID requestID) as [[]|e] eqn:Ee.
  - apply echo_ok in Ee as [-> ->]. unfold rpc_lift.
    destruct (nixCacheKey name pk v) as [k'|e] eqn:Ek.
    + apply nixCacheKey_ok in Ek as [-> Hk]. split.
      * intros [= <- <-]. auto.
      * intros (-> & _ & [= -> -> ->]). by destruct k.
    + split; [done|]. intros (_ & Hk & [= -> -> ->]).
      assert (nixCacheKey (KeyName k) (nix_PublicKey k) (BackendVersion k) = Ok k) as E
        by (apply nixCacheKey_ok; split; [by destruct k|done]). congruence.
  - split; [done|]. intros (_ & _ & [= _ _ _ -> ->]).
    assert (validateNixCacheResponseEcho batchID requestID batchID requestID = Ok ()) as E
      by (by apply echo_ok). congruence.
Qed.

Lemma enroll_response_checks (resp : EnrollNixCacheKeyResponse) batchID requestID en b b' :
  (rpc_lift (validateNixCacheResponseEcho (EnrollNixCacheKeyResponse_BatchId resp)
    (EnrollNixCacheKeyResponse_RequestId resp) batchID requestID);;
  let disposition := EnrollNixCacheKeyResponse_Disposition resp in
  if decide (disposition <> NixCacheEnrollmentCreated /\ disposition <> NixCacheEnrollmentExisting) then
    rpc_fail (Errorf "basil: Nix cache response has invalid enrollment disposition %d" [AInt disposition])
  else
  key ← rpc_lift (nixCacheKey (EnrollNixCacheKeyResponse_KeyName resp)
    (EnrollNixCacheKeyResponse_PublicKey resp)
    (EnrollNixCacheKeyResponse_BackendVersion resp));
  mret (mkNixCacheEnrollment key disposition)) b = (Ok en, b') <->
  b = b' /\ (Disposition en = 1 \/ Disposition en = 2) /\ key_ok (enr_Key en) /\
  resp = mkEnrollNixCacheKeyResponse (KeyName (enr_Key en)) (nix_PublicKey (enr_Key en))
    (BackendVersion (enr_Key en)) (Disposition en) batchID requestID.
Proof.
  destruct resp as [name pk v d ab ar], en as [k d']. cbn -[len]. rewrite rpc_lift_bind.
  unfold NixCacheEnrollmentCreated, NixCacheEnrollmentExisting.
  destruct (validateNixCacheResponseEcho ab ar batchID requestID) as [[]|e] eqn:Ee.
  - apply echo_ok in Ee as [-> ->]. case_decide; [split; [done|naive_solver lia]|].
    rewrite rpc_lift_bind. destruct (nixCacheKey name pk v) as [k'|e] eqn:Ek.
    + apply nixCacheKey_ok in Ek as [-> Hk]. split.
      * intros [= <- <- <-]. split_and!; auto; lia.
      * intros (-> & _ & _ & [= -> -> -> ->]). by destruct k.
    + split; [done|]. intros (_ & _ & Hk & [= -> -> -> _]).
      assert (nixCacheKey (KeyName k) (nix_PublicKey k) (BackendVersion k) = Ok k) as E
        by (apply nixCacheKey_ok; split; [by destruct k|done]). congruence.
  - split; [done|]. intros (_ & _ & _ & [= _ _ _ _ -> ->]).
    assert (validateNixCacheResponseEcho batchID requestID batchID requestID = Ok ()) as E
      by (by apply echo_ok). congruence.
Qed.

(** The same for [DescribeNixCacheKey] and [EnrollNixCacheKey]: a result
    is returned exactly when the arguments are valid and the response of the
    single RPC, under the strict codec and the limits of its two messages,
    echoes both identifiers and carries a valid key (and a known
    disposition), and it is what the broker sent. *)
Theorem nix_key_methods_checked c ctx keyID batchID requestID b b' :
  (forall k, DescribeNixCacheKey c ctx keyID batchID requestID b = (Ok k, b') <->
    validateNixCacheRequest keyID batchID requestID = Ok () /\ key_ok k /\
    Invoke NixCacheService_DescribeNixCacheKey (conn c) (effective c ctx b)
      (mkDescribeNixCacheKeyRequest keyID batchID requestID)
      [ForceCodec_nixCacheProto; MaxCallSendMsgSize 295; MaxCallRecvMsgSize 203] b =
      (Ok (mkDescribeNixCacheKeyResponse (KeyName k) (nix_PublicKey k) (BackendVersion k)
         batchID requestID), b')) /\
  (forall en, EnrollNixCacheKey c ctx keyID batchID requestID b = (Ok en, b') <->
    validateNixCacheRequest keyID batchID requestID = Ok () /\
    (Disposition en = 1 \/ Disposition en = 2) /\ key_ok (enr_Key en) /\
    Invoke NixCacheService_EnrollNixCacheKey (conn c) (effective c ctx b)
      (mkEnrollNixCacheKeyRequest keyID batchID requestID)
      [ForceCodec_nixCacheProto; MaxCallSendMsgSize 295; MaxCallRecvMsgSize 205] b =
      (Ok (mkEnrollNixCacheKeyResponse (KeyName (enr_Key en)) (nix_PublicKey (enr_Key en))
         (BackendVersion (enr_Key en)) (Disposition en) batchID requestID), b')).
Proof.
  unfold DescribeNixCacheKey, EnrollNixCacheKey. split; intros r; rewrite rpc_lift_bind;
    (destruct (validateNixCacheRequest keyID batchID requestID) as [[]|e]; [|naive_solver]);
    cbv zeta; rewrite unary_with_eq.
  - set (req := mkDescribeNixCacheKeyRequest _ _ _).
    set (opts := [ForceCodec_nixCacheProto; _; _]). change (nixCacheCallOptions _ _) with opts.
    destruct (Invoke _ _ _ req opts b) as [[resp|e] b1]; [|split; [done|naive_solver]].
    rewrite describe_response_checks.
    split; [intros (-> & H & ->)|intros (_ & H & [= -> ->])]; auto.
  - set (req := mkEnrollNixCacheKeyRequest _ _ _).
    set (opts := [ForceCodec_nixCacheProto; _; _]). change (nixCacheCallOptions _ _) with opts.
    destruct (Invoke _ _ _ req opts b) as [[resp|e] b1]; [|split; [done|naive_solver]].
    rewrite enroll_response_checks.
    split; [intros (-> & H1 & H2 & ->)|intros (_ & H1 & H2 & [= -> ->])]; auto.
Qed.
End client.
