(* ===== verification/Concrete.v ===== *)
(** Concrete instances of the interfaces the model is parametric in, each with
    the laws the theorems assume of it: an in-memory platform, a toy AEAD and
    KDF, a toy KEM, and the text of gRPC errors.  They show that the laws can
    hold together, and the witnesses evaluate on them. *)

From S2P Require Import Prelude GoTime GoError IO Crypto Format Chunks ChunkSpec Errors Pb Client Keytype.
From S2P Require Import Aead Signing Kem KemLemmas Minting Admin.

(** ** An in-memory platform

    A reader hands out its bytes in pieces of at most [S step]; a writer appends
    to a buffer until its budget, if it has one, is exhausted; the random
    source counts. *)

Record mem_reader := mkReader { rd_step : nat; rd_bytes : bytes }.
Record mem_writer := mkWriter { wr_budget : option nat; wr_bytes : bytes }.

Definition mem_Read (r : mem_reader) (n : nat) : bytes * option error * mem_reader :=
  match rd_bytes r with
  | [] => ([], Some EOF, r)
  | bs => let k := Nat.min n (S (rd_step r)) in (take k bs, None, mkReader (rd_step r) (drop k bs))
  end.

Definition mem_Write (w : mem_writer) (p : bytes) : option error * mem_writer :=
  match wr_budget w with
  | None => (None, mkWriter None (wr_bytes w ++ p))
  | Some b =>
      if decide (length p <= b)%nat then (None, mkWriter (Some (b - length p)%nat) (wr_bytes w ++ p))
      else (Some (Foreign 1), mkWriter (Some 0%nat) (wr_bytes w ++ take b p))
  end.

Definition mem_rand (g : Z) (n : nat) : bytes * option error * Z :=
  (map (fun i => byte_of (g + Z.of_nat i)) (seq 0 n), None, g + Z.of_nat n).

#[export] Instance mem_platform (X : Type) : Platform X := {
  R := mem_reader;
  W := mem_writer;
  G := Z;
  Read := mem_Read;
  Write := mem_Write;
  written := wr_bytes;
  rand_Read := mem_rand;
}.

#[export] Instance mem_platform_laws X : PlatformLaws (mem_platform X).
Proof.
  split.
  - intros w p e w'. cbn. unfold mem_Write. destruct (wr_budget w) as [b|]; [case_decide|];
      intros [= <- <-]; cbn; eexists; (split; [reflexivity|]); split; try done.
    exists (drop b p). by rewrite take_drop.
  - intros g n b g'. cbn. intros [= <- <-]. by rewrite length_map, length_seq.
Qed.

Section memory.
Context (X : Type).

Lemma mem_delivers step bs : delivers (P := mem_platform X) (mkReader step bs) bs.
Proof.
  exists (fun r l => rd_bytes r = l). split; [|done]. intros [s l] ? n <- Hn. cbn. unfold mem_Read. cbn.
  destruct l as [|b l].
  - exists [], [], (Some EOF), (mkReader s []). cbn. split_and!; try done; [lia|by right].
  - destruct n as [|n]; [lia|]. eexists _, _, _, _. split; [reflexivity|].
    split; [by rewrite take_drop|]. split; [rewrite length_take; lia|]. split; [done|]. left. done.
Qed.

Lemma mem_reliable bs : reliable (P := mem_platform X) (mkWriter None bs).
Proof.
  exists (fun d => wr_budget d = None). split; [done|]. intros [b l] p Hb. cbn in Hb. subst b.
  eexists. split; reflexivity.
Qed.

Lemma mem_entropic g : entropic (P := mem_platform X) g.
Proof. exists (fun _ => True). split; [done|]. intros. eexists _, _. split; [reflexivity|done]. Qed.

(** A fresh call: the bytes to read, in pieces, an empty buffer, and the
    random source at 0. *)
Definition mem_world (step : nat) (input : bytes) (x : X) : world (mem_platform X) :=
  World (P := mem_platform X) (mkReader step input) (mkWriter None []) 0 [] x.
End memory.

(** ** A toy AEAD and KDF

    [Seal] appends a 16-byte checksum of the key, the nonce, the additional
    data and the plaintext; the KDF is a 32-byte checksum. *)

Definition checksum (l : bytes) : Z :=
  foldl (fun h b => (h * 257 + byte_val b + 1) `mod` (2 ^ 127 - 1)) 1 l.

Record toy_aead := mkToyAead { toy_alg : N; toy_key : bytes }.

Definition toy_tag (a : toy_aead) (nonce pt aad : bytes) : bytes :=
  be_put 16 (checksum (byte_of (Z.of_N (toy_alg a)) :: toy_key a ++ nonce ++ be_put 8 (len aad) ++ aad ++ pt)).

Definition toy_Seal (a : toy_aead) (nonce pt aad : bytes) : bytes := pt ++ toy_tag a nonce pt aad.

Definition toy_Open (a : toy_aead) (nonce ct aad : bytes) : option bytes :=
  let pt := take (length ct - 16) ct in
  if decide (toy_Seal a nonce pt aad = ct) then Some pt else None.

#[export] Instance toy_crypto : Crypto := {
  Block := bytes;
  AEAD := toy_aead;
  aes_NewCipher key := if decide (length key = 16 \/ length key = 24 \/ length key = 32)%nat
    then Some key else None;
  cipher_NewGCM key := Some (mkToyAead 1 key);
  chacha20poly1305_New key := if decide (length key = 32)%nat then Some (mkToyAead 2 key) else None;
  Seal := toy_Seal;
  Open := toy_Open;
  hkdf_sha256_Key secret salt info n :=
    Some (take (Z.to_nat n) (be_put 16 (checksum (secret ++ salt ++ info)) ++
      be_put 16 (checksum (info ++ salt ++ secret)) ++ replicate (Z.to_nat n) x00));
}.

#[export] Instance toy_crypto_laws : CryptoLaws toy_crypto.
Proof.
  split; cbn.
  - intros key H. eexists _, _. rewrite decide_True by lia. done.
  - intros key H. eexists. by rewrite decide_True by lia.
  - intros a nonce pt aad _. unfold toy_Open.
    assert (take (length (toy_Seal a nonce pt aad) - 16) (toy_Seal a nonce pt aad) = pt) as ->.
    { unfold toy_Seal, toy_tag. apply take_app_length'. rewrite length_app, length_be_put. lia. }
    by rewrite decide_True.
  - intros a nonce pt aad _. unfold toy_Seal, toy_tag. by rewrite length_app, length_be_put.
  - intros secret salt info. eexists. split; [done|].
    rewrite length_take, !length_app, !length_be_put, length_replicate. lia.
Qed.

(** ** A toy KEM

    Keys are seeds; the ciphertext is the shared secret, padded to the
    suite's length. *)

Inductive toy_scheme := Toy512 | Toy768 | Toy1024.

Definition toy_ct_len (s : toy_scheme) : nat :=
  match s with Toy512 => 768 | Toy768 => 1088 | Toy1024 => 1568 end%nat.

#[export] Instance toy_circl {X} : Circl (mem_platform X) := {
  Scheme := toy_scheme;
  KemPublicKey := bytes;
  KemPrivateKey := bytes;
  mlkem512_Scheme := Toy512;
  mlkem768_Scheme := Toy768;
  mlkem1024_Scheme := Toy1024;
  SeedSize _ := 64;
  DeriveKeyPair _ seed := (seed, seed);
  UnmarshalBinaryPublicKey _ b := if decide (len b = 64) then Ok b else Err (Foreign 2);
  MarshalBinary pk := Ok pk;
  Encapsulate s pk g :=
    let ss := be_put 32 (g * 8191 + checksum pk) in
    (Ok (ss ++ replicate (toy_ct_len s - 32) x00, ss), g + 1);
  Decapsulate _ sk ct := Ok (take 32 ct);
}.

#[export] Instance toy_circl_laws {X} : CirclLaws (@toy_circl X).
Proof.
  split.
  - intros scheme seed pk sk Hs [= <- <-]. exists seed. cbn in *. by rewrite decide_True.
  - intros scheme pk g Hg. eexists _, _, _. split; [reflexivity|]. apply mem_entropic.
  - intros scheme seed pk sk g ct ss g' Hs [= <- <-] [= <- <- <-].
    reflexivity.
  - intros pk g ct ss g'. split_and!; intros [= <- <- <-]; reflexivity.
Qed.

(** ** gRPC errors as text *)

Fixpoint toy_error_text (e : error) : bytes :=
  match e with
  | Wrapf fmt _ c => str fmt ++ toy_error_text c
  | EGrpc st => st_Message st
  | EStatusError e => Message e
  | _ => str "error"
  end.

#[export] Instance toy_status : GrpcStatus := {
  status_FromError e :=
    match chain_status e with
    | None => (mkStatus 2 [] [], false)
    | Some st => match Unwrap e with
                 | None => (st, true)
                 | Some _ => (mkStatus (st_Code st) (toy_error_text e) (st_Details st), true)
                 end
    end;
  error_text := toy_error_text;
  code_String c := [byte_of (48 + c)];
}.

#[export] Instance toy_status_laws : GrpcStatusLaws toy_status.
Proof.
  split.
  - intros e st H1 H2. cbn. by rewrite H1, H2.
  - intros e st H1 [c H2]. cbn. by rewrite H1, H2.
  - intros e H. cbn. by rewrite H.
Qed.

(** ** A toy broker

    Its state is the clock. It answers the AEAD calls as an honest broker that
    holds, under the key id ["k"], a symmetric key and the ML-KEM private keys
    of the seed [toy_seed], which in the toy KEM is also its public key; it lists
    two catalog entries; the remaining calls
    are unimplemented. *)

Definition toy_seed : bytes := replicate 64 x07.
Definition toy_key_id : bytes := str "k".
Definition toy_broker_aead : toy_aead := mkToyAead 1 (replicate 32 x55).
Definition toy_aad (aad : option bytes) : bytes :=
  match aad with None => [x00] | Some a => x01 :: a end.

Definition toy_unimplemented {A} : result error A := Err (EGrpc (mkStatus 12 (str "unimplemented") [])).
Definition toy_denied {A} : result error A :=
  Err (EGrpc (mkStatus 7 (str "denied")
    [DBrokerErrorInfo (mkBrokerErrorInfo (str "POLICY_DENIED") (str "decrypt"))])).

Definition toy_suite_of (kem : Z) : Suite :=
  if decide (kem = KemAlgorithmMLKEM512) then SuiteMLKEM512
  else if decide (kem = KemAlgorithmMLKEM768) then SuiteMLKEM768 else SuiteMLKEM1024.

Definition toy_Encrypt (req : EncryptRequest) (t : Z) : result error EncryptResponse :=
  if decide (EncryptRequest_KeyId req = toy_key_id) then
    let nonce := be_put 12 t in
    Ok (mkEncryptResponse (Some (mkCiphertextEnvelope 2 1 nonce
      (toy_Seal toy_broker_aead nonce (EncryptRequest_Plaintext req) (toy_aad (EncryptRequest_Aad req))))))
  else toy_denied.

Definition toy_Decrypt (req : DecryptRequest) : result error DecryptResponse :=
  match DecryptRequest_Envelope req with
  | Some env =>
      if decide (DecryptRequest_KeyId req = toy_key_id) then
        match toy_Open toy_broker_aead (CiphertextEnvelope_Nonce env) (CiphertextEnvelope_Ciphertext env)
          (toy_aad (DecryptRequest_Aad req)) with
        | Some pt => Ok (mkDecryptResponse pt)
        | None => toy_denied
        end
      else toy_denied
  | None => toy_denied
  end.

(** An X25519 envelope of the toy broker is sealed under its own key; the
    ML-KEM ones are opened with the seed. *)
Definition toy_Wrap (req : WrapEnvelopeRequest) (t : Z) : result error WrapEnvelopeResponse :=
  if decide (WrapEnvelopeRequest_KemAlgorithm req = KemAlgorithmX25519) then
    let nonce := be_put 12 t in
    Ok (mkWrapEnvelopeResponse (Some (mkKemEnvelope KemAlgorithmX25519
      (WrapEnvelopeRequest_EnvelopeAlgorithm req) 1 [] nonce
      (toy_Seal toy_broker_aead nonce (WrapEnvelopeRequest_Plaintext req)
        (toy_aad (WrapEnvelopeRequest_Aad req))))))
  else toy_unimplemented.

Definition toy_Unwrap (req : UnwrapEnvelopeRequest) : result error UnwrapEnvelopeResponse :=
  match UnwrapEnvelopeRequest_Envelope req with
  | None => toy_denied
  | Some env =>
      if decide (KemEnvelope_KemAlgorithm env = KemAlgorithmX25519) then
        match toy_Open toy_broker_aead (KemEnvelope_Nonce env) (KemEnvelope_Ciphertext env)
          (toy_aad (UnwrapEnvelopeRequest_Aad req)) with
        | Some pt => Ok (mkUnwrapEnvelopeResponse pt)
        | None => toy_denied
        end
      else
        match (openCEKLocal (P := mem_platform Z) toy_seed (toy_suite_of (KemEnvelope_KemAlgorithm env))
          (mkKEMEnvelope (KemEnvelope_EncapsulatedKey env) (KemEnvelope_Nonce env)
            (KemEnvelope_Ciphertext env)) (default [] (UnwrapEnvelopeRequest_Aad req))
          (mem_world Z 0 [] 0)).1 with
        | Ok cek => Ok (mkUnwrapEnvelopeResponse cek)
        | Err _ => toy_denied
        end
  end.

Definition toy_Invoke {Req Resp} (m : method Req Resp) :
    () -> context -> Req -> list CallOption -> Z -> result error Resp * Z :=
  match m in method Req Resp return
    () -> context -> Req -> list CallOption -> Z -> result error Resp * Z with
  | AeadService_Encrypt => fun _ _ req _ t => (toy_Encrypt req t, t + 1)
  | AeadService_Decrypt => fun _ _ req _ t => (toy_Decrypt req, t + 1)
  | AeadService_WrapEnvelope => fun _ _ req _ t => (toy_Wrap req t, t + 1)
  | AeadService_UnwrapEnvelope => fun _ _ req _ t => (toy_Unwrap req, t + 1)
  | SigningService_NewKey => fun _ _ req _ t => (Ok (mkNewKeyResponse (NewKeyRequest_KeyId req) toy_seed), t + 1)
  | SigningService_GetPublicKey => fun _ _ req _ t =>
      (Ok (mkGetPublicKeyResponse (GetPublicKeyRequest_KeyId req) KeyTypeMLKEM768 toy_seed 1), t + 1)
  | InvocationService_GetInvocationCapabilities => fun _ _ _ _ t =>
      (Ok (mkGetInvocationCapabilitiesResponse 3 true 1), t + 1)
  | InvocationService_GetInvocationChallenge => fun _ _ _ _ t =>
      (Ok (mkGetInvocationChallengeResponse (be_put 32 t) 7 (t + 60)), t + 1)
  | NixCacheService_DescribeNixCacheKey => fun _ _ req _ t =>
      (Ok (mkDescribeNixCacheKeyResponse (str "cache-1") (replicate 32 x09) 1
         (DescribeNixCacheKeyRequest_BatchId req) (DescribeNixCacheKeyRequest_RequestId req)), t + 1)
  | NixCacheService_SignNixCacheFingerprint => fun _ _ req _ t =>
      (Ok (mkSignNixCacheFingerprintResponse (str "cache-1") (replicate 32 x09) 1 (replicate 64 x0a)
         (SignNixCacheFingerprintRequest_BatchId req) (SignNixCacheFingerprintRequest_RequestId req)), t + 1)
  | NatsService_ValidateNatsJwt => fun _ _ req _ t =>
      (Ok (mkValidateNatsJwtResponse true 1 (str "U1") (str "A1") [] (ValidateNatsJwtRequest_ExpectedType req)
         (t + 3600) t), t + 1)
  | MintingService_MintJwt => fun _ _ req _ t =>
      (Ok (mkCredentialResponse (MintJwtRequest_ExtraClaimsJson req) None), t + 1)
  | _ => fun _ _ _ _ t => (toy_unimplemented, t + 1)
  end.

Definition toy_catalog : list CatalogEntry :=
  [mkCatalogEntry (str "web.tls") 1 (Some 3) 2; mkCatalogEntry (str "db.password") 2 None 5].

Definition toy_events : list Event :=
  [mkEvent 1 (Some (mkTimestamp 100 0)) (Some (Event_KeyRotated (mkKeyRotated (str "web.tls") 3)));
   mkEvent 3 None (Some (Event_Revoked (mkRevoked (str "example.org") (str "j1"))))].

Definition toy_NewStream {Req Ev} (m : stream_method Req Ev) :
    () -> context -> Req -> Z -> result error (list Ev) * Z :=
  match m in stream_method Req Ev return () -> context -> Req -> Z -> result error (list Ev) * Z with
  | SecretService_ListCatalog => fun _ _ _ t => (Ok toy_catalog, t + 1)
  | AdminService_Watch => fun _ _ _ t => (Ok toy_events, t + 1)
  end.

#[export] Instance toy_grpc : Grpc := {
  B := Z;
  Conn := ();
  Stream := list;
  now t := t;
  NewClient _ _ := Ok ();
  Conn_Close _ := None;
  Invoke := @toy_Invoke;
  NewStream := @toy_NewStream;
  Recv Ev s t := match s with [] => (Err EOF, t + 1) | e :: s => (Ok (e, s), t + 1) end;
}.

Definition toy_client : Client (Gr := toy_grpc) := mkClient (Gr := toy_grpc) () DefaultTimeout.

Lemma toy_broker_holds suite : suite ∈ [SuiteMLKEM512; SuiteMLKEM768; SuiteMLKEM1024] ->
  broker_holds (Gr := toy_grpc) (P := mem_platform Z) (K := toy_circl) toy_client toy_key_id suite toy_seed.
Proof.
  intros Hs ctx [ek nonce ct] aad cek b H. exists (b + 1).
  destruct (H (mem_world Z 0 [] 0)) as (w' & E). cbn [Invoke toy_grpc toy_Invoke].
  unfold toy_Unwrap. cbn [UnwrapEnvelopeRequest_Envelope UnwrapEnvelopeRequest_Aad
    KemEnvelope_KemAlgorithm KemEnvelope_EncapsulatedKey KemEnvelope_Nonce KemEnvelope_Ciphertext
    EncapsulatedKey Nonce WrappedCEK from_option id].
  apply (f_equal fst) in E. change (mem_world (@B toy_grpc)) with (mem_world Z) in E.
  change (@B toy_grpc) with Z in E.
  rewrite !elem_of_cons in Hs.
  destruct Hs as [->|[->|[->|Hs]]]; [..|by apply not_elem_of_nil in Hs];
    rewrite decide_False by done; cbn [fst] in E;
    lazymatch type of E with context [openCEKLocal _ ?s] => change (toy_suite_of _) with s end;
    by rewrite E.
Qed.

(** ** Well-known types, JSON and cancellation *)

Lemma wraps_add w a b : wraps w (wraps w a + b) = wraps w (a + b).
Proof.
  unfold wraps. replace ((a + 2 ^ (w - 1)) `mod` 2 ^ w - 2 ^ (w - 1) + b + 2 ^ (w - 1))
    with ((a + 2 ^ (w - 1)) `mod` 2 ^ w + b) by lia.
  destruct (decide (2 ^ w = 0)) as [->|H]; [rewrite !Z.mod_0_r; lia|].
  rewrite Zplus_mod_idemp_l. do 2 f_equal. lia.
Qed.

#[export] Instance toy_well_known : WellKnown := {
  durationpb_New d := mkDuration (Z.quot d Second) (Z.rem d Second);
  timestamppb_New t := mkTimestamp (wraps 64 (t_sec t - unixToInternal)) (t_nsec t);
  AsTime ts := mkTime (wraps 64 (Timestamp_Seconds ts + unixToInternal)) (Timestamp_Nanos ts);
}.

#[export] Instance toy_well_known_laws : WellKnownLaws toy_well_known.
Proof.
  split; cbn.
  - intros d _. pose proof (Z.quot_rem' d Second). lia.
  - intros [s n] Hs _. cbn in *. rewrite wraps_add.
    replace (s - unixToInternal + unixToInternal) with s by lia.
    by rewrite wraps_small by lia.
Qed.

(** A value is the text of its encoding, if it has one. *)
#[export] Instance toy_json : JsonEncoder := {
  Value := option bytes;
  json_Marshal v := match v with Some l => Ok l | None => Err (Foreign 3) end;
}.

#[export] Instance toy_cancellation : Cancellation (Gr := toy_grpc) := {
  CancelFunc := ();
  context_WithCancel ctx t := (ctx, (), t);
  cancel _ t := t;
}.

#[export] Instance toy_cancellation_laws : CancellationLaws (C := toy_cancellation).
Proof. split; cbn; [by intros ? ? ? ? ? [= <- _ _]|done]. Qed.
