(* ===== verification/SealedConcrete.v ===== *)
(** Concrete instances of the interfaces of package [sealedinvocation], with
    their laws: a toy CBOR, which writes the tree of a value bit by bit, and toy
    X25519, Ed25519 and hashes. *)

From stdpp Require Import countable.
From S2P Require Import Prelude GoTime GoText GoError IO Crypto Cbor Sealed Concrete.

(** ** Values as trees *)

Definition leaf : Type := (Z + bytes)%type.
Definition tree : Type := gen_tree leaf.

Fixpoint to_tree (v : gval) : tree :=
  match v with
  | GNil => GenNode 0 []
  | GUint64 z => GenNode 1 [GenLeaf (inl z)]
  | GInt64 z => GenNode 2 [GenLeaf (inl z)]
  | GBytes b => GenNode 3 [GenLeaf (inr b)]
  | GString s => GenNode 4 [GenLeaf (inr s)]
  | GInts l => GenNode 5 (map (fun z => GenLeaf (inl z)) l)
  | GList l => GenNode 6 (map to_tree l)
  | GMap kv => GenNode 7 (map (fun p => GenNode 0 [GenLeaf (inl p.1); to_tree p.2]) kv)
  | GMapAny kv => GenNode 8 (map (fun p => GenNode 0 [to_tree p.1; to_tree p.2]) kv)
  | GTag t v => GenNode 9 [GenLeaf (inl t); to_tree v]
  | GOther id => GenNode 10 [GenLeaf (inl (Z.of_N id))]
  end.

Definition tree_int (t : tree) : Z := match t with GenLeaf (inl z) => z | _ => 0 end.

Fixpoint from_tree (t : tree) : gval :=
  match t with
  | GenNode 1 [GenLeaf (inl z)] => GUint64 z
  | GenNode 2 [GenLeaf (inl z)] => GInt64 z
  | GenNode 3 [GenLeaf (inr b)] => GBytes b
  | GenNode 4 [GenLeaf (inr s)] => GString s
  | GenNode 5 l => GInts (map tree_int l)
  | GenNode 6 l => GList (map from_tree l)
  | GenNode 7 l => GMap (map (fun t => match t with
      | GenNode _ [k; v] => (tree_int k, from_tree v) | _ => (0, GNil) end) l)
  | GenNode 8 l => GMapAny (map (fun t => match t with
      | GenNode _ [k; v] => (from_tree k, from_tree v) | _ => (GNil, GNil) end) l)
  | GenNode 9 [GenLeaf (inl t); v] => GTag t (from_tree v)
  | GenNode 10 [GenLeaf (inl z)] => GOther (Z.to_N z)
  | _ => GNil
  end.

Lemma from_to_tree v : from_tree (to_tree v) = v.
Proof.
  revert v. fix IH 1. intros [| | | | |l|l|kv|kv|t x|id]; try reflexivity; cbn.
  - f_equal. rewrite map_map. apply map_id.
  - f_equal. rewrite map_map. induction l as [|x l IHl]; [reflexivity|]. cbn in *.
    by rewrite IH, IHl.
  - f_equal. rewrite map_map. induction kv as [|[k x] kv IHl]; [reflexivity|]. cbn in *. by rewrite IH, IHl.
  - f_equal. rewrite map_map. induction kv as [|[k x] kv IHl]; [reflexivity|]. cbn in *.
    by rewrite (IH k), (IH x), IHl.
  - by rewrite IH.
  - by rewrite N2Z.id.
Qed.

(** ** Trees as bytes *)

Fixpoint pos_bytes (p : positive) : bytes :=
  match p with xH => [] | xO p => x00 :: pos_bytes p | xI p => x01 :: pos_bytes p end.
Fixpoint bytes_pos (l : bytes) : positive :=
  match l with
  | [] => xH
  | b :: l => if decide (b = x00) then xO (bytes_pos l) else xI (bytes_pos l)
  end.
Lemma bytes_pos_bytes p : bytes_pos (pos_bytes p) = p.
Proof. induction p as [p IH|p IH|]; cbn; by rewrite ?IH. Qed.

Definition write (v : gval) : bytes := pos_bytes (encode (to_tree v)).
Definition read (l : bytes) : option gval := from_tree <$> decode (bytes_pos l).

Lemma read_write v : read (write v) = Some v.
Proof.
  unfold read, write. rewrite bytes_pos_bytes, decode_encode. simpl. by rewrite from_to_tree.
Qed.

(** ** The toy CBOR *)

(** What a value decodes to. *)
Fixpoint any_of (v : gval) : gval :=
  match v with
  | GInt64 z => any_int z
  | GInts l => GList (map any_int l)
  | GList l => GList (map any_of l)
  | GMap kv => GMapAny (map (fun p => (any_int p.1, any_of p.2)) kv)
  | GMapAny kv => GMapAny (map (fun p => (any_of p.1, any_of p.2)) kv)
  | GTag t v => GTag t (any_of v)
  | _ => v
  end.

Definition key_of (v : gval) : option Z :=
  match v with GUint64 z | GInt64 z => Some z | _ => None end.
Definition entries_of (v : gval) : option (list (Z * gval)) :=
  match v with GMapAny kv => mapM (fun p => k ← key_of p.1; Some (k, p.2)) kv | _ => None end.

Definition malformed : error := Foreign 200.
Definition or_malformed {A} (o : option A) : result error A :=
  match o with Some a => Ok a | None => Err malformed end.

#[export] Instance toy_cbor : Cbor := {
  EncMode := Ok ();
  DecMode := Ok ();
  encoder_Marshal v := Ok (write (any_of v));
  Unmarshal_Tag raw := match read raw with Some (GTag t v) => Ok (t, v) | _ => Err malformed end;
  Unmarshal_Map raw := or_malformed (read raw ≫= entries_of);
  Unmarshal_Sign1 raw :=
    match read raw with
    | Some (GList [GBytes p; u; GBytes pl; GBytes s]) =>
        or_malformed (u ← entries_of u; Some (mkSign1 p u (Some pl) s))
    | _ => Err malformed
    end;
  Unmarshal_Encrypt raw :=
    match read raw with
    | Some (GList [GBytes p; u; GBytes c; GList [GList [GBytes rp; ru; x]]]) =>
        or_malformed (u ← entries_of u; ru ← entries_of ru;
          Some (mkCoseEncrypt p u c [mkRecipient rp ru x]))
    | _ => Err malformed
    end;
}.

Lemma any_int_any z : any_of (any_int z) = any_int z.
Proof. unfold any_int. case_decide as H; cbn; [done|]. unfold any_int. by rewrite decide_False. Qed.

Lemma each_Forall2 {A B} (Q : A -> Prop) (R : A -> B -> Prop) (f : A -> B) l :
  (forall x, Q x -> R x (f x)) -> each Q l -> Forall2 R l (map f l).
Proof. intros H. induction l; cbn; constructor; naive_solver. Qed.

Lemma decoded_any_of n v : encodable n v -> decoded v (any_of v).
Proof.
  revert v. induction n as [|n IH]; intros [| | | | |l|l|kv|kv|t x|id] H; try done; cbn [any_of];
    try constructor.
  - eapply each_Forall2; [exact IH|apply H].
  - eapply decoded_map; [reflexivity|]. eapply each_Forall2; [|apply H].
    intros [k x] [_ Hx]. split; [done|]. by apply IH.
  - apply IH, H.
Qed.

Lemma any_of_decoded n v v' : encodable n v -> decoded v v' -> any_of v' = v'.
Proof.
  revert v v'. induction n as [|n IH]; intros v v' H D;
    inversion D as [| | | | |l|l l' Hf|kv kv0 kv' Hp Hf|t x x' Hx]; subst; try done;
    try apply any_int_any.
  - exfalso. destruct H. lia.
  - cbn. f_equal. rewrite map_map. apply map_ext. apply any_int_any.
  - cbn. f_equal. destruct H as [_ H]. clear D. induction Hf as [|a b l l' Hab Hf IHf]; [done|].
    destruct H as [Ha H]. cbn. by rewrite (IH a b Ha Hab), (IHf H).
  - cbn. f_equal. destruct H as (_ & _ & H).
    assert (Forall (fun p => int64 p.1 /\ encodable n p.2) kv0) as H0.
    { rewrite Hp. clear -H. induction kv as [|p kv IHk]; [constructor|]. destruct H. constructor; auto. }
    clear -IH Hf H0. induction Hf as [|[a x] [b y] l l' [Hab Hxy] Hf IHf]; [done|].
    apply Forall_cons in H0 as [[_ Hx] H0]. cbn in *. subst b.
    by rewrite any_int_any, (IH x y), IHf.
  - cbn. f_equal. apply (IH x); [apply H|done].
Qed.

Lemma entries_decoded kv v : decoded (GMap kv) v ->
  exists kv', entries_of v = Some kv' /\ decoded_entries kv kv'.
Proof.
  inversion 1 as [| | | | | | |kv1 kv0 kvA Hp Hf|]; subst.
  assert (exists kv', entries_of (GMapAny kvA) = Some kv' /\
    Forall2 (fun p q => p.1 = q.1 /\ decoded p.2 q.2) kv0 kv') as (kv' & E & Hf').
  { clear Hp H. induction Hf as [|[a x] [b y] l l' [Hab Hxy] Hf (kv' & E & IHf)].
    - by exists [].
    - cbn in *. subst b. exists ((a, y) :: kv'). rewrite E. split; [|constructor; [by split|done]].
      unfold any_int. by case_decide. }
  exists kv'. split; [done|]. by exists kv0.
Qed.

#[export] Instance toy_cbor_laws : CborLaws toy_cbor.
Proof.
  refine {| encodes raw v := exists v', decoded v v' /\ raw = write v' |};
    cbn [EncMode DecMode encoder_Marshal Unmarshal_Tag Unmarshal_Map Unmarshal_Sign1 Unmarshal_Encrypt toy_cbor].
  - done.
  - intros v H. exists (write (any_of v)). split; [done|]. exists (any_of v). split; [|done].
    by eapply decoded_any_of.
  - intros v v' He D. exists (write v'). rewrite (any_of_decoded _ _ _ He D). split; [done|]. by exists v'.
  - intros raw t v (v' & D & ->). rewrite read_write. inversion D; subst. eauto.
  - intros raw kv (v' & D & ->). rewrite read_write. unfold mbind, option_bind.
    destruct (entries_decoded _ _ D) as (kv' & -> & Hd). by exists kv'.
  - intros raw p u pl s (v' & D & ->). rewrite read_write.
    inversion D as [| | | | | |l l' Hf| |]; subst.
    repeat match goal with H : Forall2 _ (_ :: _) _ |- _ => apply Forall2_cons_inv_l in H as (? & ? & ? & ? & ->)
      | H : Forall2 _ [] _ |- _ => apply Forall2_nil_inv_l in H as -> end.
    repeat match goal with H : decoded (GBytes _) _ |- _ => inversion H; clear H; subst end.
    match goal with H : decoded (GMap _) _ |- _ => destruct (entries_decoded _ _ H) as (u' & E & Hd) end.
    exists u'. by rewrite E.
  - intros raw p u c rp ru (v' & D & ->). rewrite read_write.
    inversion D as [| | | | | |l l' Hf| |]; subst.
    repeat match goal with H : Forall2 _ (_ :: _) _ |- _ => apply Forall2_cons_inv_l in H as (? & ? & ? & ? & ->)
      | H : Forall2 _ [] _ |- _ => apply Forall2_nil_inv_l in H as ->
      | H : decoded (GBytes _) _ |- _ => inversion H; clear H; subst
      | H : decoded GNil _ |- _ => inversion H; clear H; subst
      | H : decoded (GList _) _ |- _ => inversion H; clear H; subst end.
    match goal with H : decoded (GMap u) _ |- _ => destruct (entries_decoded _ _ H) as (u' & E & Hd) end.
    match goal with H : decoded (GMap ru) _ |- _ => destruct (entries_decoded _ _ H) as (ru' & E' & Hd') end.
    exists u', ru'. by rewrite E, E'.
Qed.

(** ** Toy primitives

    Keys are numbers, agreement is their product; a signature is a checksum of
    the seed and the message. *)

Definition toy_sign (seed m : bytes) : bytes := be_put 64 (checksum (seed ++ m)).

#[export] Instance toy_cose : Cose := {
  X25519Key := Z;
  NewPrivateKey b := if decide (len b = 32) then Ok (be_get b) else Err (Foreign 201);
  PublicKey_Bytes k := be_put 32 k;
  NewPublicKey b := if decide (len b = 32) then Ok b else Err (Foreign 202);
  ECDH k pub := Ok (be_put 32 (k * be_get pub));
  ed25519_Public seed := seed;
  ed25519_Sign := toy_sign;
  ed25519_Verify public m s := bool_decide (s = toy_sign public m);
  sha3_Sum256 m := be_put 32 (checksum m);
  hkdf_New_ReadFull s info n := Ok (be_put (Z.to_nat n) (checksum (s ++ info)));
}.

Lemma be_put_mul a b : be_put 32 (a * be_get (be_put 32 b)) = be_put 32 (a * b).
Proof.
  unfold be_get. rewrite be_get_put_acc, Z.mul_0_l, Z.add_0_l.
  rewrite <-(be_put_mod 32 (a * b)), <-(be_put_mod 32 (a * _)). f_equal.
  by rewrite Zmult_mod_idemp_r.
Qed.

#[export] Instance toy_cose_laws : CoseLaws toy_cose.
Proof.
  split; cbn [NewPrivateKey PublicKey_Bytes NewPublicKey ECDH ed25519_Public ed25519_Sign ed25519_Verify
    hkdf_New_ReadFull toy_cose].
  - intros b H. exists (be_get b). by rewrite decide_True.
  - intros k. unfold len. by rewrite length_be_put.
  - intros b H. by rewrite decide_True.
  - intros k1 k2. exists (be_put 32 (k1 * k2)). rewrite !be_put_mul. split; [done|]. by rewrite Z.mul_comm.
  - auto.
  - intros seed m _. by apply bool_decide_eq_true_2.
  - intros s info. exists (be_put (Z.to_nat 32) (checksum (s ++ info))). split; [done|].
    unfold len. by rewrite length_be_put.
Qed.
