(* ===== verification/StreamWitnesses.v ===== *)
(** Concrete runs of the theorems of package [stream]. *)

From stdpp Require Import relations.
From S2P Require Import Prelude GoError IO Crypto Format Chunks ChunkSpec Errors Pb Client Aead Kem.
From S2P Require Import Stream StreamLemmas KemLemmas StreamSafety StreamSteps StreamProps StreamAgree StreamAgreeProps Concrete.

Definition hello : bytes := str "hello".
Definition seed64 : bytes := replicate 64 x07.

(** A writing call that reads [hello] two bytes at a time. *)
Definition w_hello : world (mem_platform ()) := mem_world () 1 hello ().

Lemma AEAD_roundtrip_witness :
  exists key out w', EncryptAEAD 6 SuiteAES256GCM GenerateCEK 2 w_hello = (Ok key, w') /\
    written (w_dst w') = written (w_dst w_hello) ++ out /\
    (forall k, provided GenerateCEK = Some k -> key = k) /\
    forall v : world (mem_platform ()), delivers (w_src v) out -> reliable (w_dst v) ->
      exists v', DecryptAEAD 6 key v = (Ok (), v') /\
        written (w_dst v') = written (w_dst v) ++ hello.
Proof.
  apply (AEAD_roundtrip 6 SuiteAES256GCM GenerateCEK 2 hello w_hello).
  - left. reflexivity.
  - intros k [=].
  - unfold MaxChunkSize. lia.
  - apply mem_delivers.
  - apply mem_reliable.
  - apply mem_entropic.
  - simpl. lia.
Defined.

Lemma MLKEM_roundtrip_local_run :
  exists out w', EncryptMLKEM 6 SuiteMLKEM768 seed64 2 w_hello = (Ok (), w') /\
    written (w_dst w') = written (w_dst w_hello) ++ out /\
    forall ctx (v : world (mem_platform ())), delivers (w_src v) out -> reliable (w_dst v) ->
      exists v', DecryptMLKEM 6 ctx (NewLocalSeedCEKRecovery seed64 SuiteMLKEM768) v = (Ok (), v') /\
        written (w_dst v') = written (w_dst v) ++ hello.
Proof.
  apply (MLKEM_roundtrip_local 6 SuiteMLKEM768 seed64 seed64 2 hello w_hello).
  - exists 1088. reflexivity.
  - reflexivity.
  - unfold MaxChunkSize. lia.
  - apply mem_delivers.
  - apply mem_reliable.
  - apply mem_entropic.
  - simpl. lia.
Defined.

(** ** Authenticity: a truncated stream *)

Definition cek0 : bytes := replicate 32 x2a.
Definition h0 : streamHeader := mkHeader SuiteAES256GCM 2 (replicate 16 x01) (replicate 32 x02).
Definition mk0 : bytes :=
  match deriveMessageKey (streamSalt h0) cek0 (suiteID h0) (streamID h0) with Ok k => k | Err _ => [] end.
Definition c0 : chunkCrypto := context_of h0 mk0.
Definition session0 : session := (c0, [str "he"; str "ll"; str "o"]).
Definition recs0 : list bytes := seal_records (mkToyAead 1 mk0) c0 0 [str "he"; str "ll"; str "o"].

(** The first two of the three records. *)
Definition truncated : bytes :=
  writeFixedHeader [] SuiteAES256GCM 2 (streamID h0) (streamSalt h0) ++ frame (take 2 recs0).

Definition w_truncated : world (mem_platform ()) := mem_world () 6 truncated ().

Lemma session0_wf : session_wf session0.
Proof.
  split; [split; [unfold MaxChunkSize; simpl; lia|reflexivity]|]. split; [reflexivity|].
  exists hello. change hello with (str "he" ++ str "ll" ++ str "o").
  repeat (apply chunking_more; [reflexivity|done|]). apply chunking_last. simpl. lia.
Qed.

Lemma truncated_unforged : unforged (C := toy_crypto) c0 [session0] (drop 61 truncated).
Proof.
  assert (records (cc_chunkSize c0 + TagLen) (drop 61 truncated) = take 2 recs0) as Er
    by (vm_compute; reflexivity).
  intros i rec fin pt Hi Ho. rewrite Er in Hi.
  exists session0. split; [by apply list_elem_of_here|].
  destruct i as [|[|i]]; [| |vm_compute in Hi; discriminate Hi].
  - exists 0%nat. assert (rec = nth 0 recs0 []) as -> by (vm_compute in Hi |- *; congruence).
    destruct fin; [vm_compute in Ho; discriminate Ho|].
    assert (pt = str "he") as -> by (vm_compute in Ho |- *; congruence).
    split_and!; vm_compute; reflexivity.
  - exists 1%nat. assert (rec = nth 1 recs0 []) as -> by (vm_compute in Hi |- *; congruence).
    destruct fin; [vm_compute in Ho; discriminate Ho|].
    assert (pt = str "ll") as -> by (vm_compute in Ho |- *; congruence).
    split_and!; vm_compute; reflexivity.
Qed.

Lemma truncated_header : header_at truncated = Ok h0.
Proof. vm_compute. reflexivity. Qed.

Lemma distinct_one (s : session) : distinct_streams [s].
Proof. intros s1 s2 ->%list_elem_of_singleton ->%list_elem_of_singleton. done. Qed.

Lemma DecryptAEAD_authentic_witness :
  released_one_stream [session0] truncated w_truncated
    (DecryptAEAD 10 cek0 w_truncated).1 (DecryptAEAD 10 cek0 w_truncated).2 /\
  (DecryptAEAD 10 cek0 w_truncated).1 = Err ErrAuthFailed /\
  written (w_dst (DecryptAEAD 10 cek0 w_truncated).2) = str "he".
Proof.
  split; [|split; vm_compute; reflexivity].
  apply (DecryptAEAD_authentic 10 cek0 [session0] truncated w_truncated).
  - intros s ->%list_elem_of_singleton. exact session0_wf.
  - apply distinct_one.
  - apply mem_delivers.
  - vm_compute. reflexivity.
  - rewrite truncated_header. intros h mk [= <-] E.
    assert (mk = mk0) as -> by (vm_compute in E |- *; congruence). exact truncated_unforged.
  - apply surjective_pairing.
Defined.

(** ** Through the broker *)

Definition broker_platform : Platform (@B toy_grpc) := mem_platform (@B toy_grpc).
Definition w_hello_broker : world broker_platform := mem_world (@B toy_grpc) 1 hello 0.

Lemma MLKEM_roundtrip_broker_witness :
  exists out (w' : world broker_platform), EncryptMLKEM (P := broker_platform) 6 SuiteMLKEM512 toy_seed 2 w_hello_broker = (Ok (), w') /\
    written (w_dst w') = written (w_dst w_hello_broker) ++ out /\
    forall ctx (v : world broker_platform), delivers (w_src v) out -> reliable (w_dst v) ->
      exists v', DecryptMLKEM (P := broker_platform) 6 ctx
          (NewBrokerCEKRecovery (Gr := toy_grpc) toy_client toy_key_id SuiteMLKEM512) v = (Ok (), v') /\
        written (w_dst v') = written (w_dst v) ++ hello.
Proof.
  apply (MLKEM_roundtrip_broker (Gr := toy_grpc) 6 SuiteMLKEM512 toy_seed toy_seed 2 hello
    w_hello_broker toy_client toy_key_id).
  - exists 768. reflexivity.
  - reflexivity.
  - apply toy_broker_holds. by left.
  - unfold MaxChunkSize. lia.
  - apply mem_delivers.
  - apply mem_reliable.
  - apply mem_entropic.
  - simpl. lia.
Defined.

(** ** Two runs *)

(** The broker opens what the seed opens, and nothing else. *)
Lemma toy_broker_mirrors suite : suite ∈ [SuiteMLKEM512; SuiteMLKEM768; SuiteMLKEM1024] ->
  broker_mirrors (Gr := toy_grpc) (P := broker_platform) toy_client toy_key_id suite toy_seed.
Proof.
  intros Hs ctx [ek nonce ct] aad w. cbn [Invoke toy_grpc toy_Invoke].
  unfold toy_Unwrap. cbn [UnwrapEnvelopeRequest_Envelope UnwrapEnvelopeRequest_Aad
    KemEnvelope_KemAlgorithm KemEnvelope_EncapsulatedKey KemEnvelope_Nonce KemEnvelope_Ciphertext
    EncapsulatedKey Nonce WrappedCEK from_option id].
  destruct (openCEKLocal_world (P := broker_platform) toy_seed suite (mkKEMEnvelope ek nonce ct) aad w
    (mem_world Z 0 [] 0)) as [-> _].
  rewrite !elem_of_cons in Hs.
  destruct Hs as [->|[->|[->|Hs]]]; [..|by apply not_elem_of_nil in Hs];
    rewrite decide_False by done; cbn [fst];
    lazymatch goal with |- context [@openCEKLocal _ _ _ _ _ ?s] => change (toy_suite_of _) with s end;
    by destruct (openCEKLocal _ _ _ _ _).1.
Qed.

(** A hostile input, one byte at a time and all at once. *)
Definition w_slow : world broker_platform := mem_world (@B toy_grpc) 0 truncated 0.
Definition w_fast : world broker_platform := mem_world (@B toy_grpc) 200 truncated 0.

Lemma reader_independence_witness :
  (entry_run (Gr := toy_grpc) 10 (Call_DecryptAEAD cek0) w_slow).1 =
    (entry_run (Gr := toy_grpc) 10 (Call_DecryptAEAD cek0) w_fast).1 /\
  agree (entry_run (Gr := toy_grpc) 10 (Call_DecryptAEAD cek0) w_slow).2
    (entry_run (Gr := toy_grpc) 10 (Call_DecryptAEAD cek0) w_fast).2.
Proof.
  apply (reader_independence (Gr := toy_grpc) 10 (Call_DecryptAEAD cek0) w_slow w_fast).
  split; try reflexivity.
  - exists truncated. split; apply (mem_delivers (@B toy_grpc)).
  - split; apply (mem_reliable (@B toy_grpc)).
Defined.

(** An honest ML-KEM container. *)
Definition w_container : world broker_platform :=
  mem_world (@B toy_grpc) 3 (written (w_dst (EncryptMLKEM (P := broker_platform) 6 SuiteMLKEM512 toy_seed 2 w_hello_broker).2)) 0.

Lemma recovery_transparent_witness :
  let l := DecryptMLKEM (P := broker_platform) 6 (mkContext None)
    (NewLocalSeedCEKRecovery toy_seed SuiteMLKEM512) w_container in
  let b := DecryptMLKEM (P := broker_platform) 6 (mkContext None)
    (NewBrokerCEKRecovery (Gr := toy_grpc) toy_client toy_key_id SuiteMLKEM512) w_container in
  (same_files l.2 b.2 /\
    (l.1 = b.1 \/ is_ok l.1 = false /\ is_ok b.1 = false /\ w_dst l.2 = w_dst w_container)) /\
  l.1 = Ok () /\ written (w_dst b.2) = hello.
Proof.
  split; [|split; vm_compute; reflexivity].
  apply (recovery_transparent (Gr := toy_grpc) (P := broker_platform) 6 (mkContext None) (mkContext None) SuiteMLKEM512 toy_seed
    toy_client toy_key_id w_container w_container).
  - apply toy_broker_mirrors. by left.
  - done.
Defined.

(** ** Authenticity of an ML-KEM stream

    The recovery hands out the key of the other stream: the records of
    [truncated] follow a KEM header. *)

#[local] Instance fixed_recovery : CEKRecovery (mem_platform ()) () :=
  { RecoverCEK _ _ _ _ := fun w => (Ok cek0, w) }.

Definition h1 : streamHeader := mkHeader SuiteMLKEM512 2 (replicate 16 x03) (replicate 32 x04).
Definition mk1 : bytes :=
  match deriveMessageKey (streamSalt h1) cek0 (suiteID h1) (streamID h1) with Ok k => k | Err _ => [] end.
Definition c1 : chunkCrypto := context_of h1 mk1.
Definition session1 : session := (c1, [str "hi"]).
Definition recs1 : list bytes := seal_records (mkToyAead 1 mk1) c1 0 [str "hi"].
Definition env1 : KEMEnvelope := mkKEMEnvelope (replicate 768 x00) (replicate 12 x00) (replicate 48 x00).
Definition kem_input : bytes :=
  writeFixedHeader [] SuiteMLKEM512 2 (streamID h1) (streamSalt h1) ++ serializeKEMHeader env1 ++
  frame recs1.
Definition w_kem : world (mem_platform ()) := mem_world () 100 kem_input ().

Lemma kem_header_at : header_at kem_input = Ok h1.
Proof. vm_compute. reflexivity. Qed.

Lemma serialize_rest s e1 e2 r1 r2 : envelope_wf s e1 -> envelope_wf s e2 ->
  serializeKEMHeader e1 ++ r1 = serializeKEMHeader e2 ++ r2 -> r1 = r2.
Proof.
  intros [H1 H2 H3] [H4 H5 H6] E. rewrite H1 in H4. injection H4 as H4.
  apply app_split_eq in E as [_ E]; [done|].
  unfold serializeKEMHeader, len in *. rewrite !length_app, !length_be_put. lia.
Qed.

Lemma kem_unforged : unforged (C := toy_crypto) c1 [session1] (frame recs1).
Proof.
  assert (records (cc_chunkSize c1 + TagLen) (frame recs1) = recs1) as Er
    by (vm_compute; reflexivity).
  intros i rec fin pt Hi Ho. rewrite Er in Hi.
  exists session1. split; [by apply list_elem_of_here|].
  destruct i as [|i]; [|vm_compute in Hi; discriminate Hi].
  exists 0%nat. assert (rec = nth 0 recs1 []) as -> by (vm_compute in Hi |- *; congruence).
  destruct fin; [|vm_compute in Ho; discriminate Ho].
  assert (pt = str "hi") as -> by (vm_compute in Ho |- *; congruence).
  split_and!; vm_compute; reflexivity.
Qed.

Lemma DecryptMLKEM_authentic_witness :
  released_one_stream [session1] kem_input w_kem
    (DecryptMLKEM 10 (mkContext None) () w_kem).1 (DecryptMLKEM 10 (mkContext None) () w_kem).2 /\
  (DecryptMLKEM 10 (mkContext None) () w_kem).1 = Ok () /\
  written (w_dst (DecryptMLKEM 10 (mkContext None) () w_kem).2) = str "hi".
Proof.
  split; [|split; vm_compute; reflexivity].
  apply (DecryptMLKEM_authentic 10 (mkContext None) () [session1] kem_input w_kem).
  - intros s ->%list_elem_of_singleton. split; [split; [unfold MaxChunkSize; simpl; lia|reflexivity]|].
    split; [reflexivity|]. exists (str "hi"). apply chunking_last. simpl. lia.
  - apply distinct_one.
  - apply mem_delivers.
  - vm_compute. reflexivity.
  - done.
  - rewrite kem_header_at. intros h env rest cek mk [= <-] He Hin [w1 [= <-]] E.
    assert (mk = mk1) as -> by (vm_compute in E |- *; congruence).
    assert (rest = frame recs1) as ->; [|exact kem_unforged].
    apply (serialize_rest SuiteMLKEM512 env env1); [done|by constructor|].
    rewrite <-Hin. reflexivity.
  - apply surjective_pairing.
Defined.

(** ** The format *)

Lemma additional_data_separation_witness :
  buildChunkAAD SuiteAES256GCM (streamID h0) 1 false 2 2 <>
    buildChunkAAD SuiteAES256GCM (streamID h0) 1 true 2 2 /\
  buildCEKWrapAAD SuiteAES256GCM (streamID h0) <> buildCEKWrapAAD SuiteAES256GCM (streamID h1).
Proof.
  split.
  - assert (H := additional_data_separation SuiteAES256GCM (streamID h0) 1 false 2 2
      SuiteAES256GCM (streamID h0) 1 true 2 2 eq_refl eq_refl).
    intros E. apply H in E; [|lia..]. destruct E as (_ & _ & _ & Hf & _). discriminate Hf.
  - assert (H := additional_data_separation SuiteAES256GCM (streamID h0) 1 false 2 2
      SuiteAES256GCM (streamID h1) 1 true 2 2 eq_refl eq_refl).
    intros E. apply H in E; [|lia..]. destruct E as (_ & Hf). discriminate Hf.
Defined.

Definition w_kem_header : world (mem_platform ()) := mem_world () 100 (serializeKEMHeader env1 ++ hello) ().

Lemma kem_header_roundtrip_run :
  exists r, readKEMEnvelope SuiteMLKEM512 w_kem_header = (Ok env1, set_src w_kem_header r) /\
    delivers r hello.
Proof.
  apply (kem_header_roundtrip SuiteMLKEM512 w_kem_header (serializeKEMHeader env1 ++ hello)).
  - apply mem_delivers.
  - by constructor.
  - reflexivity.
Defined.

Definition w_records : world (mem_platform ()) := mem_world () 6 (frame recs0) ().

Lemma readChunks_accepts_witness :
  exists recs, frame recs0 = frame recs /\ opens c0 0 recs hello.
Proof.
  apply (readChunks_accepts 100 c0 (frame recs0) hello w_records).
  - unfold MaxChunkSize. simpl. lia.
  - apply mem_delivers.
  - apply mem_reliable.
  - apply Nat.leb_le. vm_compute. reflexivity.
  - eexists. split; vm_compute; reflexivity.
Defined.

Lemma EncryptAEAD_format_witness :
  exists key id salt mk a cs w', EncryptAEAD 6 SuiteChaCha20Poly1305 (ProvidedCEK (Some cek0)) 2 w_hello
      = (Ok key, w') /\
    stream_drawn (ProvidedCEK (Some cek0)) 0 key id salt (w_rng w') /\
    let h := mkHeader SuiteChaCha20Poly1305 2 id salt in
    let out := writeFixedHeader [] SuiteChaCha20Poly1305 2 id salt ++
               frame (seal_records a (context_of h mk) 0 cs) in
    written (w_dst w') = written (w_dst w_hello) ++ out /\
    deriveMessageKey salt key SuiteChaCha20Poly1305 id = Ok mk /\
    newAEAD aeadChaCha20Poly1305 mk = Ok a /\
    chunking 2 cs hello /\
    len out = FixedHeaderLen + len hello + 20 * chunk_count (len hello) 2.
Proof.
  apply (EncryptAEAD_format 6 SuiteChaCha20Poly1305 (ProvidedCEK (Some cek0)) 2 hello w_hello).
  - by right.
  - by intros k [= <-].
  - unfold MaxChunkSize. lia.
  - apply mem_delivers.
  - apply mem_reliable.
  - apply mem_entropic.
  - simpl. lia.
Defined.

(** ** Secrets *)

(** A writer that takes nothing: the call fails with its content key in memory,
    and the message key wiped. *)
Definition w_closed : world broker_platform :=
  World (P := broker_platform) (mkReader 1 hello) (mkWriter (Some 0%nat) []) 0 [] 0.

Definition encrypt_call : entry_call (Gr := toy_grpc) := Call_EncryptAEAD SuiteAES256GCM GenerateCEK 2.

Lemma secrets_wiped_witness :
  (entry_run (Gr := toy_grpc) 6 encrypt_call w_closed).1 = Err (Foreign 1) /\
  exists key wiped, w_secrets (entry_run (Gr := toy_grpc) 6 encrypt_call w_closed).2 = [key; wiped] /\
    ~ zeroed key /\ zeroed wiped.
Proof.
  split; [vm_compute; reflexivity|].
  destruct (entry_run (Gr := toy_grpc) 6 encrypt_call w_closed) as [r w'] eqn:E. cbn [snd].
  destruct (secrets_wiped (Gr := toy_grpc) 6 encrypt_call w_closed w' r E) as (left & wiped & Hs & Hz & [Hl _] & _).
  assert (exists key, content_key SuiteAES256GCM GenerateCEK 2 w_closed = [key] /\ ~ zeroed key) as (key & Hk & Hn).
  { eexists. split; [vm_compute; reflexivity|]. intros Hz0. apply Forall_inv_tail, Forall_inv in Hz0. discriminate. }
  rewrite Hk in Hl. subst left. change (w_secrets w_closed) with (@nil bytes) in Hs. cbn [app] in Hs.
  assert (length (w_secrets w') = 2%nat) as Hlen.
  { apply (f_equal (fun p => length (w_secrets p.2))) in E. cbn [snd] in E. rewrite <-E. vm_compute. reflexivity. }
  rewrite Hs in Hlen. destruct wiped as [|z [|? ?]]; [done| |done]. exists key, z. split; [exact Hs|]. split; [exact Hn|].
  by apply Forall_inv in Hz.
Defined.

(** ** Termination and refusals *)

Definition garbage : bytes := be_put 4 18 ++ replicate 18 x00 ++ be_put 4 7.
Definition w_garbage : world (mem_platform ()) := mem_world () 3 garbage ().

Lemma readChunks_total_witness :
  exists res w', readChunks 26 c0 w_garbage = (res, w') /\ res <> Err OutOfFuel /\
    forall k, readChunks (26 + k) c0 w_garbage = (res, w').
Proof.
  apply (readChunks_total 26 c0 garbage w_garbage).
  - apply mem_delivers.
  - apply mem_reliable.
  - apply Nat.leb_le. vm_compute. reflexivity.
Defined.

Lemma refusals_witness :
  (exists e, EncryptAEAD 6 SuiteMLKEM512 GenerateCEK 2 w_hello = (Err e, w_hello) /\
    Is e ErrSuiteMismatch = true) /\
  (exists e, EncryptAEAD 6 SuiteAES256GCM GenerateCEK 0 w_hello = (Err e, w_hello) /\
    Is e ErrBadChunkSize = true) /\
  EncryptAEAD 6 SuiteAES256GCM (ProvidedCEK (Some hello)) 2 w_hello = (Err ErrBadCEKLength, w_hello) /\
  (exists e, EncryptMLKEM 6 SuiteAES256GCM seed64 2 w_hello = (Err e, w_hello) /\ Is e ErrSuiteMismatch = true) /\
  (exists e, EncryptMLKEM 6 SuiteMLKEM768 seed64 (MaxChunkSize + 1) w_hello = (Err e, w_hello) /\
    Is e ErrBadChunkSize = true) /\
  DecryptAEAD 6 hello w_hello = (Err ErrBadCEKLength, w_hello).
Proof.
  split_and!.
  - apply (refusals 6 SuiteMLKEM512 GenerateCEK 2 [] [] w_hello). by intros [[=]|[=]].
  - apply (refusals 6 SuiteAES256GCM GenerateCEK 0 [] [] w_hello); [by left|lia].
  - apply (refusals 6 SuiteAES256GCM (ProvidedCEK (Some hello)) 2 [] [] w_hello);
      [by left|unfold MaxChunkSize; lia|]. intros H. by specialize (H hello eq_refl).
  - apply (refusals 6 SuiteAES256GCM GenerateCEK 2 seed64 [] w_hello). reflexivity.
  - apply (refusals 6 SuiteMLKEM768 GenerateCEK (MaxChunkSize + 1) seed64 [] w_hello); [by exists 1088|lia].
  - apply (refusals 6 SuiteAES256GCM GenerateCEK 2 [] hello w_hello). by vm_compute.
Defined.

Lemma suite_confusion_run :
  exists r, delivers r (serializeKEMHeader env1 ++ frame recs1) /\
    exists e, DecryptAEAD 10 cek0 w_kem = (Err e, set_src w_kem r) /\ Is e ErrSuiteMismatch = true.
Proof.
  apply (suite_confusion 10 (mkContext None) () cek0 h1 (serializeKEMHeader env1 ++ frame recs1) w_kem).
  - constructor; [by exists aeadAES256GCM|unfold MaxChunkSize; simpl; lia|reflexivity|reflexivity].
  - reflexivity.
  - apply (mem_delivers () 100 kem_input).
Defined.

Lemma readRecord_bounds_run :
  readRecord 5 4 w_hello = (Err ErrChunkTooLarge, w_hello).
Proof.
  apply (readRecord_bounds 5 4 hello w_hello).
  - lia.
  - apply mem_delivers.
  - lia.
Defined.

(** ** Every moment of a call *)

Lemma length_frame_le recs : (length recs <= length (frame recs))%nat.
Proof.
  induction recs as [|r recs IH]; [done|]. rewrite frame_cons, !length_app, length_be_put. cbn [length]. lia.
Qed.

Lemma nonces_never_reused_witness :
  exists s, rtc (step [] c1) (mkRun Fresh 0 [] w_hello) s /\ outcome s = Ok () /\
    NoDup (se_nonce <$> rn_sealed s).
Proof.
  destruct (nonces_never_reused [] c1 w_hello) as [H1 H2].
  destruct (writeChunks 9 [] c1 w_hello) as [res w'] eqn:E.
  destruct (H1 9%nat res w' E) as (s & Hs & Hw & Ho).
  assert (res = Ok ()) as -> by (apply (f_equal fst) in E; vm_compute in E; by symmetry).
  assert (length (written (w_dst w')) = 65%nat) as Hl
    by (apply (f_equal snd) in E; cbn [snd] in E; subst w'; vm_compute; reflexivity).
  exists s. split; [exact Hs|]. split; [exact Ho|].
  destruct (H2 s Hs) as (_ & Hn & _ & q & Hq & _ & Hall). apply Hn.
  rewrite (Hall Ho), Hw in Hq. cbn [app] in Hq. rewrite Hq in Hl.
  pose proof (length_frame_le (se_record <$> rn_sealed s)) as Hf. rewrite length_fmap in Hf.
  change (written (w_dst w_hello)) with (@nil byte) in Hl. cbn [app] in Hl. unfold len. lia.
Defined.

(** ** A stalled reader *)

(** A platform whose reader stalls for ever in front of its bytes. *)
#[local] Instance stalling : Platform () := {
  R := bytes;
  W := mem_writer;
  G := Z;
  Read r _ := ([], None, r);
  Write := mem_Write;
  written := wr_bytes;
  rand_Read := mem_rand;
}.

#[local] Instance stalling_laws : PlatformLaws stalling.
Proof. split; [apply (mem_platform_laws ())|apply (mem_platform_laws ())]. Qed.

#[local] Instance stalling_circl : Circl stalling := {
  Scheme := (); KemPublicKey := (); KemPrivateKey := ();
  mlkem512_Scheme := (); mlkem768_Scheme := (); mlkem1024_Scheme := ();
  SeedSize _ := 64; DeriveKeyPair _ _ := ((), ());
  UnmarshalBinaryPublicKey _ _ := Err (Foreign 2); MarshalBinary _ := Err (Foreign 2);
  Encapsulate _ _ g := (Err (Foreign 2), g); Decapsulate _ _ _ := Err (Foreign 2);
}.

Definition w_stalled : world stalling := World (P := stalling) hello (mkWriter None []) 0 [] ().

Lemma EncryptAEAD_stalled_reader_run :
  exists key id salt out w', EncryptAEAD 6 SuiteAES256GCM GenerateCEK 2 w_stalled = (Ok key, w') /\
    w_src w' = w_src w_stalled /\ written (w_dst w') = written (w_dst w_stalled) ++ out /\
    stream_of (mkHeader SuiteAES256GCM 2 id salt) key [] [] out.
Proof.
  apply (EncryptAEAD_stalled_reader 6 SuiteAES256GCM GenerateCEK 2 w_stalled).
  - by left.
  - intros k [=].
  - unfold MaxChunkSize. lia.
  - done.
  - apply (mem_reliable ()).
  - apply (mem_entropic ()).
  - lia.
Defined.
