(* ===== verification/StreamFaultWitnesses.v ===== *)
(** Concrete runs of [StreamFaultProps]: a writer that fills up, and a reader
    that stalls in the middle. *)

From S2P Require Import Prelude GoError IO Crypto Format Chunks ChunkSpec Errors Pb Client Kem Stream.
From S2P Require Import StreamAgree StreamLemmas StreamFaults StreamReaders StreamFaultProps Concrete.

(** ** A writer that fills up *)

#[local] Instance logged : Platform (@B toy_grpc) := recorded (mem_platform (@B toy_grpc)).
#[local] Instance logged_circl : Circl logged := recorded_circl _ toy_circl.

(** Room for the header and the first record of [hello] in pieces of two bytes. *)
Definition w_small : world logged :=
  World (P := logged) (mkReader 1 (str "hello"), []) (mkWriter (Some 90%nat) [], []) (0, []) [] 0.

Definition encrypt_hello : entry_call (Gr := toy_grpc) := Call_EncryptAEAD SuiteAES256GCM GenerateCEK 2.

Lemma faults_reported_witness :
  (entry_run 6 encrypt_hello w_small).1 = Err (Foreign 1) /\
  exists t, traced w_small t (entry_run 6 encrypt_hello w_small).2 /\ faulted t (Foreign 1).
Proof.
  destruct (entry_run 6 encrypt_hello w_small) as [r w'] eqn:E.
  pose proof E as E'. vm_compute in E'. cbn [fst snd].
  destruct (faults_reported 6 encrypt_hello w_small w' r E) as (t & Ht & Hr & _).
  assert (r = Err (Foreign 1)) as -> by (apply (f_equal fst) in E'; symmetry; exact E').
  split; [done|]. exists t. split; [done|].
  destruct Hr as [(_ & Hf & _)|(e & [= <-] & Hf)]; [|exact Hf].
  apply traced_writes in Ht. apply (f_equal snd) in E'. cbn [snd] in E'. rewrite <-E' in Ht.
  cbn in Ht. rewrite <-Ht in Hf. repeat (apply Forall_cons in Hf as [? Hf]; try done).
Defined.

(** ** A reader that stalls in the middle *)

(** A reader that follows a script: each entry is what one call delivers, cut
    to the buffer. *)
Definition script_Read (s : list bytes) (n : nat) : bytes * option error * list bytes :=
  match s with
  | [] => ([], Some EOF, [])
  | d :: s => if decide (length d <= n)%nat then (d, None, s) else (take n d, None, drop n d :: s)
  end.

Definition scripted : Platform () := {|
  R := list bytes;
  W := mem_writer;
  G := Z;
  Read := script_Read;
  Write := mem_Write;
  written := wr_bytes;
  rand_Read := mem_rand;
|}.

Lemma scripted_laws : PlatformLaws scripted.
Proof. split; [apply (mem_platform_laws ())|apply (mem_platform_laws ())]. Qed.

#[local] Instance script_log : Platform () := recorded scripted.
#[local] Instance script_log_laws : PlatformLaws script_log := recorded_laws scripted (PL := scripted_laws).

(** The toy KEM, with coins made of the public key. *)
#[local] Instance script_circl : Circl script_log := {
  Scheme := toy_scheme;
  KemPublicKey := bytes;
  KemPrivateKey := bytes;
  mlkem512_Scheme := Toy512;
  mlkem768_Scheme := Toy768;
  mlkem1024_Scheme := Toy1024;
  SeedSize _ := 64;
  DeriveKeyPair _ seed := (seed, seed);
  UnmarshalBinaryPublicKey _ b := if decide (len b = 64) then Ok b else Err (Foreign 2);
  MarshalBinary pk := Ok pk;
  Encapsulate s pk g :=
    let ss := be_put 32 (checksum pk) in (Ok (ss ++ replicate (toy_ct_len s - 32) x00, ss), g);
  Decapsulate _ sk ct := Ok (take 32 ct);
}.

#[local] Instance script_circl_laws : CirclLaws script_circl.
Proof.
  split.
  - intros scheme seed pk sk Hs [= <- <-]. exists seed. cbn in *. by rewrite decide_True.
  - intros scheme pk g Hg. by eexists _, _, g.
  - intros scheme seed pk sk g ct ss g' Hs [= <- <-] [= <- <- <-]. reflexivity.
  - intros pk g ct ss g'. split_and!; intros [= <- <- <-]; reflexivity.
Qed.

Lemma script_within_buffer : within_buffer (P := script_log).
Proof.
  intros [s l] n d e r'. cbn. destruct s as [|d0 s]; cbn; [by intros [= <- <- <-]; simpl; lia|].
  case_decide; intros [= <- <- <-]; [done|]. rewrite length_take. lia.
Qed.

(** [hel], then nothing for once, then [lo]. *)
Definition w_stalls : world script_log :=
  World (P := script_log) ([str "hel"; []; str "lo"], []) (mkWriter None [], []) (0, []) [] ().

Lemma encrypt_any_reader_witness :
  exists key w', EncryptAEAD 6 SuiteAES256GCM GenerateCEK 4 w_stalls = (Ok key, w') /\
    forall v : world script_log, delivers (w_src v) (written (w_dst w')) -> reliable (w_dst v) ->
      exists v', DecryptAEAD 200 key v = (Err ErrAuthFailed, v').
Proof.
  destruct (EncryptAEAD 6 SuiteAES256GCM GenerateCEK 4 w_stalls) as [r w'] eqn:E.
  pose proof E as E'. vm_compute in E'. destruct r as [key|e]; [|by apply (f_equal fst) in E'].
  exists key, w'. split; [done|]. intros v Hv Hd.
  destruct (encrypt_any_reader 6 SuiteAES256GCM 4 w_stalls w' script_within_buffer) as [Hany _].
  destruct (Hany GenerateCEK key E) as (evs & out & Hr & W & Hdec).
  change (reads (w_src w_stalls)) with (@nil read_event) in Hr.
  change (written (w_dst w_stalls)) with (@nil byte) in W. cbn [app] in Hr, W.
  specialize (Hdec 200%nat v). rewrite <-W, <-Hr in Hdec.
  apply (f_equal snd) in E'. cbn [snd] in E'. rewrite <-E' in *.
  apply Hdec; [vm_compute; lia|done|done].
Defined.
