(* ===== verification/ClientWitnesses.v ===== *)
(** Concrete runs of the theorems about the client's core. *)

From S2P Require Import Prelude GoError Errors Pb Client Keytype Aead Signing Secret Invocation.
From S2P Require Import Crypto Concrete ClientProps.

Definition denied : Status := mkStatus 7 (str "denied")
  [DOther 4; DBrokerErrorInfo (mkBrokerErrorInfo (str "POLICY_DENIED") (str "sign"))].

Lemma FromError_spec_witness :
  exists se, FromError (Some (EGrpc denied)) = Some (EStatusError se) /\ Code se = 7 /\
    Message se = str "denied" /\ Reason se = str "POLICY_DENIED".
Proof.
  destruct (FromError_spec (EGrpc denied)) as (_ & _ & H).
  destruct (H denied eq_refl) as (se & E & _ & Hc & Hm & Hr & _). exists se. auto.
Defined.

Lemma FromError_renormalise_run :
  FromError (FromError (Some (EGrpc denied))) =
    Some (EStatusError (mkStatusError 7 [] [] (str "denied"))).
Proof.
  exact (proj1 (FromError_renormalise
    (mkStatusError 7 (str "POLICY_DENIED") (str "sign") (str "denied")) "" [])).
Defined.

Lemma Dial_spec_witness :
  exists dialOpts,
    user_options [OptDial [WithAuthority (str "evil")]; OptTimeout 5; OptTimeout 9] `prefix_of` dialOpts /\
    last_of authority_of dialOpts = Some (str "localhost") /\
    Dial (str "/run/basil.sock")
      (to_option <$> [OptDial [WithAuthority (str "evil")]; OptTimeout 5; OptTimeout 9]) =
      Ok (mkClient () 9).
Proof.
  destruct (Dial_spec (str "/run/basil.sock")
    [OptDial [WithAuthority (str "evil")]; OptTimeout 5; OptTimeout 9]) as (_ & H).
  destruct (H ltac:(done)) as (dialOpts & Hp & _ & Ha & _ & Hd). exists dialOpts.
  split; [exact Hp|]. split; [exact Ha|]. exact Hd.
Defined.

Lemma toy_decrypts : broker_decrypts toy_client.
Proof.
  intros ctx ctx' keyID alg pt aad env b b1 b2. cbn. unfold toy_Encrypt, toy_Decrypt.
  cbn [EncryptRequest_KeyId EncryptRequest_Plaintext EncryptRequest_Aad DecryptRequest_KeyId
    DecryptRequest_Envelope DecryptRequest_Aad].
  case_decide; [|done]. intros [= <- <-].
  cbn [CiphertextEnvelope_Nonce CiphertextEnvelope_Ciphertext]. rewrite decide_True by done.
  pose proof (Open_Seal (C := toy_crypto) toy_broker_aead (be_put 12 b) pt (toy_aad aad) eq_refl) as E.
  cbn [Open Seal toy_crypto] in E. rewrite E. eexists. reflexivity.
Qed.

Lemma toy_unwraps : broker_unwraps toy_client.
Proof.
  intros ctx ctx' keyID kem alg pt aad env b b1 b2. cbn. unfold toy_Wrap, toy_Unwrap.
  cbn [WrapEnvelopeRequest_KemAlgorithm WrapEnvelopeRequest_Plaintext WrapEnvelopeRequest_Aad
    WrapEnvelopeRequest_EnvelopeAlgorithm UnwrapEnvelopeRequest_Envelope UnwrapEnvelopeRequest_Aad].
  case_decide; [|done]. intros [= <- <-].
  cbn [KemEnvelope_KemAlgorithm KemEnvelope_Nonce KemEnvelope_Ciphertext].
  rewrite decide_True by done.
  pose proof (Open_Seal (C := toy_crypto) toy_broker_aead (be_put 12 b) pt (toy_aad aad) eq_refl) as E.
  cbn [Open Seal toy_crypto] in E. rewrite E. eexists. reflexivity.
Qed.

Definition ctx0 : context := mkContext None.

Lemma envelope_roundtrip_run :
  (exists ct b3, Encrypt toy_client ctx0 toy_key_id 2 (str "hi") None 0 = (Ok ct, 1) /\
    Decrypt toy_client ctx0 toy_key_id (Some ct) None 1 = (Ok (str "hi"), b3)) /\
  (exists env b3, WrapEnvelope toy_client ctx0 toy_key_id 4 2 (str "hi") (Some []) 0 = (Ok env, 1) /\
    UnwrapEnvelope toy_client ctx0 toy_key_id (Some env) (Some []) 1 = (Ok (str "hi"), b3)).
Proof.
  split.
  - destruct (envelope_roundtrip toy_client ctx0 ctx0 toy_key_id 2 4 (str "hi") None 0 1 1
      toy_decrypts toy_unwraps) as (H & _).
    eexists. destruct (H _ eq_refl) as (b3 & E). exists b3. split; [reflexivity|exact E].
  - destruct (envelope_roundtrip toy_client ctx0 ctx0 toy_key_id 2 4 (str "hi") (Some []) 0 1 1
      toy_decrypts toy_unwraps) as (_ & H).
    eexists. destruct (H _ eq_refl) as (b3 & E). exists b3. split; [reflexivity|exact E].
Defined.

Lemma ListCatalog_spec_run :
  ListCatalog 3 toy_client ctx0 None 0 = (Ok (map catalogEntryFromProto toy_catalog), 4).
Proof.
  apply (ListCatalog_spec 3 toy_client ctx0 None 0 toy_catalog 1 toy_catalog EOF 4).
  - reflexivity.
  - eapply yields_more; [reflexivity|]. eapply yields_more; [reflexivity|].
    apply yields_end. reflexivity.
  - simpl. lia.
Defined.

Definition good_entry : Entry := mkEntry (str "a") 1 (Some (Ed25519SeedMaterial (replicate 32 x00))).
Definition bad_entry : Entry := mkEntry (str "b") 1 None.

Lemma ImportSet_spec_run :
  ImportSet toy_client ctx0 [good_entry; bad_entry; good_entry] 0 =
    (Err (Errorf "basil: ImportSet entry %d (%q) requires non-nil key material"
       [AInt 1; AStr (str "b")]), 0).
Proof.
  apply (proj1 (ImportSet_spec toy_client ctx0 0) [good_entry] bad_entry [good_entry]
    [Ed25519SeedMaterial (replicate 32 x00)]); reflexivity.
Defined.

Lemma keyType_closed_run : keyTypeFromProto (keyTypeToProto 12) = 12 /\ keyTypeFromProto 13 = 0.
Proof. split; [apply (keyType_closed 12); lia|apply (keyType_closed 13); lia]. Defined.

Lemma invocation_closed_run :
  (exists e, GetInvocationChallenge toy_client ctx0 (str "short") [] 5 = (Err e, 5)) /\
  Invoke InvocationService_GetInvocationChallenge (conn toy_client) (effective toy_client ctx0 5)
    (mkGetInvocationChallengeRequest (replicate 32 x01) None) [] 5 =
    (Ok (mkGetInvocationChallengeResponse (be_put 32 5) 7 65), 6).
Proof.
  split.
  - apply (invocation_closed toy_client ctx0 (str "short") [] 5 5). by vm_compute.
  - apply (invocation_closed toy_client ctx0 (replicate 32 x01) [] 5 6)
      with (ch := mkInvocationChallenge (be_put 32 5) 7 65). reflexivity.
Defined.
