(* ===== verification/ServiceWitnesses.v ===== *)
(** Concrete runs of the theorems about the minting and administration methods. *)

From S2P Require Import Prelude GoTime GoText GoError Errors Pb Client Minting Admin.
From S2P Require Import Concrete ServiceProps.

Definition some_ctx : context := mkContext None.

(** The document [{"a": 1}], between white space of both kinds. *)
Definition some_body : bytes := quoted "a" ++ str ": 1".
Definition some_doc : bytes := x7b :: some_body ++ [x7d].
Definition some_pre : list bytes := [[x20]; [xc2; xa0]].
Definition some_post : list bytes := [[x0a]].
Definition some_text : bytes := concat some_pre ++ some_doc ++ concat some_post.

Lemma claims_document_witness :
  objectJSON (Some (AnyString some_text)) "jwt claims" = Ok some_doc /\
  exists e, MintJwt toy_client some_ctx
    (mkJwtRequest (str "k") [] 0 (Some (AnyOther (H := toy_json) None))) 0 = (Err e, 0).
Proof.
  split.
  - destruct (claims_document (AnyString some_text) "jwt claims" some_pre some_body some_post)
      as (_ & H & _).
    apply H; [reflexivity| | |vm_compute; reflexivity].
    + repeat constructor; apply (bool_decide_unpack _); vm_compute; exact I.
    + repeat constructor; apply (bool_decide_unpack _); vm_compute; exact I.
  - destruct (claims_document (Gr := toy_grpc) (AnyString []) "" [] [] []) as (_ & _ & H & _).
    apply H. exists (AnyOther (H := toy_json) None). split; reflexivity.
Defined.

Lemma lifetimes_exact_run :
  pb_nanos <$> durationOrNil 1500000000 = Some 1500000000 /\
  MintJwt toy_client some_ctx (mkJwtRequest (str "k") (str "s") (-5) None) 0 =
    MintJwt toy_client some_ctx (mkJwtRequest (str "k") (str "s") 0 None) 0.
Proof.
  split.
  - apply (lifetimes_exact 1500000000 zeroTime toy_client some_ctx (mkJwtRequest [] [] 0 None) 0);
      [lia|split; cbn; unfold Second; lia].
  - apply (lifetimes_exact (-5) zeroTime toy_client some_ctx
      (mkJwtRequest (str "k") (str "s") 7 None) 0); [lia|split; cbn; unfold Second; lia|lia].
Defined.

Definition some_signers : list AllowedSigner :=
  [AllowedSignerKeyID (str "root"); AllowedSignerNatsPublicKey (str "A1")].

Lemma some_signers_usable : Forall usable some_signers.
Proof. apply Forall_cons; split; [by left|]. apply Forall_cons; split; [by right|done]. Qed.

Lemma ValidateNatsJwt_spec_witness :
  (exists e, ValidateNatsJwt toy_client some_ctx
     (mkValidateRequest (str "t") (some_signers ++ [mkAllowedSigner [] []]) 0) 5 = (Err e, 5)) /\
  (exists v, ValidateNatsJwt toy_client some_ctx (mkValidateRequest (str "t") some_signers 1) 5 =
     (Ok v, 6) /\ nv_ExpiresAt v = mkTime (3605 + unixToInternal) 0).
Proof.
  split.
  - apply (proj1 (ValidateNatsJwt_spec toy_client some_ctx
      (mkValidateRequest (str "t") (some_signers ++ [mkAllowedSigner [] []]) 0) 5))
      with (pre := some_signers) (s := mkAllowedSigner [] []) (post := []).
    + reflexivity.
    + exact some_signers_usable.
    + intros [H|H]; apply H; reflexivity.
  - eexists. split.
    + destruct (ValidateNatsJwt_spec toy_client some_ctx (mkValidateRequest (str "t") some_signers 1) 5)
        as (_ & H & _).
      rewrite H; [reflexivity|exact some_signers_usable].
    + destruct (ValidateNatsJwt_spec toy_client some_ctx (mkValidateRequest (str "t") some_signers 1) 5)
        as (_ & _ & H).
      destruct (H (mkValidateNatsJwtResponse true 1 (str "U1") (str "A1") [] 1 3605 5))
        as (_ & _ & _ & _ & _ & _ & [E _] & _).
      apply E. cbn. unfold unixToInternal. lia.
Defined.

(** A loop body that keeps what it is given and stops after two pairs. *)
Definition collect (p : option WatchEvent * option error) (y : list (option WatchEvent * option error))
    : bool * list (option WatchEvent * option error) :=
  (bool_decide (length y < 1)%nat, y ++ [p]).

Definition some_stream : WatchStream (Gr := toy_grpc) (Ca := toy_cancellation) :=
  mkWatchStream (Gr := toy_grpc) (Ca := toy_cancellation) toy_events ().

Lemma Events_trace_witness :
  exists b1, Events 3 (pure_body collect) some_stream [] 7 =
    (Ok (map (fun ev => (Some (eventFromProto ev), None)) toy_events), b1).
Proof.
  destruct (Events_trace collect some_stream 7 toy_events EOF 10 [] 3) as (b1 & E & _).
  - eapply yields_more; [reflexivity|]. eapply yields_more; [reflexivity|].
    apply yields_end. reflexivity.
  - simpl. lia.
  - exists b1. rewrite E. reflexivity.
Defined.

Lemma Watch_open_run :
  exists s, Watch toy_client some_ctx [1; 3] 7 = (Ok s, 8) /\ ws_stream s = toy_events.
Proof.
  destruct (Watch_open toy_client some_ctx [1; 3] 7) as (sctx & f & b1 & E & _ & H).
  injection E as <- <- <-. destruct H as (s & Es & Ew & _). exists s. split; [exact Es|exact Ew].
Defined.

Lemma decisions_and_details_run :
  explainDecision 7 = str "UNKNOWN(7)" /\ explainDecision 7 <> explainDecision (-7).
Proof.
  split; [reflexivity|]. intros E. apply (decisions_and_details 7 (-7) 1 None None) in E.
  discriminate.
Defined.
