(* ===== verification/ProgramWitnesses.v ===== *)
(** Concrete runs of the theorems about the client's methods as a whole, the
    secret store, the enumerations, basil-sign, secrets-and-aead and web-service. *)

From stdpp Require Import gmap pretty.
From S2P Require Import Prelude GoTime GoText GoError Errors Pb Client Keytype Aead Signing Secret SecretStore.
From S2P Require Import Minting Admin Enums Methods Program Http ExWeb Concrete ProgramProps WebProps.
From S2P Require CmdSign ExSecrets.

(** ** A broker with a store

    Its state is the clock and the secrets. It refuses calls of its secret and AEAD
    services whose deadline has passed, and a new version that would not fit
    into 32 bits. A ciphertext spells out the additional
    data before the plaintext; a signature is the message. *)

Fixpoint spell (l : bytes) : bytes :=
  match l with [] => [x00] | b :: l => x01 :: b :: spell l end.
Fixpoint read (l : bytes) : option (bytes * bytes) :=
  match l with
  | x00 :: pt => Some ([], pt)
  | x01 :: b :: l => (fun p => (b :: p.1, p.2)) <$> read l
  | _ => None
  end.

Lemma read_spell l pt : read (spell l ++ pt) = Some (l, pt).
Proof. induction l as [|b l IH]; [done|]. cbn. by rewrite IH. Qed.

Lemma toy_aad_inj a1 a2 : toy_aad a1 = toy_aad a2 -> a1 = a2.
Proof. destruct a1, a2; cbn; congruence. Qed.

Definition vault : Type := Z * store.

Definition vault_Decrypt (req : DecryptRequest) : result error DecryptResponse :=
  match read (from_option CiphertextEnvelope_Ciphertext [] (DecryptRequest_Envelope req)) with
  | Some (a, pt) => if decide (a = toy_aad (DecryptRequest_Aad req)) then Ok (mkDecryptResponse pt) else toy_denied
  | None => toy_denied
  end.

(** A call at time [t]: its deadline, and the versions of [id] if it adds one. *)
Definition in_time (ctx : context) (t : Z) : bool :=
  match Deadline ctx with Some d => bool_decide (t < d) | None => true end.
Definition room (st : store) (id : bytes) : bool := bool_decide (len (versions st id) + 1 < 2 ^ 32).

Definition vault_Set (id v : bytes) (st : store) : result error SetSecretResponse * store :=
  if room st id then (Ok (mkSetSecretResponse (len (versions st id) + 1)), push st id v) else (toy_denied, st).

Definition vault_Get (id : bytes) (version : option Z) (st : store) : result error GetSecretResponse :=
  match lookup_version st id version with
  | Some s => Ok (mkGetSecretResponse (secret_Value s) (secret_Version s))
  | None => toy_denied
  end.

Definition vault_Rotate (id : bytes) (st : store) : result error RotateSecretResponse * store :=
  match last (versions st id) with
  | Some v =>
      if room st id then (Ok (mkRotateSecretResponse (len (versions st id) + 1)), push st id (x00 :: v))
      else (toy_denied, st)
  | None => (toy_denied, st)
  end.

Definition guarded {A} (ctx : context) (f : store -> result error A * store) (b : vault) : result error A * vault :=
  let '(t, st) := b in
  if in_time ctx t then let '(r, st) := f st in (r, (t + 1, st)) else (toy_denied, (t + 1, st)).

Definition vault_Invoke {Req Resp} (m : method Req Resp) :
    () -> context -> Req -> list CallOption -> vault -> result error Resp * vault :=
  match m in method Req Resp return
    () -> context -> Req -> list CallOption -> vault -> result error Resp * vault with
  | SecretService_SetSecret => fun _ ctx req _ =>
      guarded ctx (vault_Set (SetSecretRequest_SecretId req) (SetSecretRequest_Value req))
  | SecretService_GetSecret => fun _ ctx req _ =>
      guarded ctx (fun st => (vault_Get (GetSecretRequest_SecretId req) (GetSecretRequest_Version req) st, st))
  | SecretService_RotateSecret => fun _ ctx req _ => guarded ctx (vault_Rotate (RotateSecretRequest_SecretId req))
  | AeadService_Encrypt => fun _ ctx req _ => guarded ctx (fun st =>
      (Ok (mkEncryptResponse (Some (mkCiphertextEnvelope (EncryptRequest_Algorithm req) 1 []
         (spell (toy_aad (EncryptRequest_Aad req)) ++ EncryptRequest_Plaintext req)))), st))
  | AeadService_Decrypt => fun _ ctx req _ => guarded ctx (fun st => (vault_Decrypt req, st))
  | SigningService_GetPublicKey => fun _ _ req _ '(t, st) =>
      (Ok (mkGetPublicKeyResponse (GetPublicKeyRequest_KeyId req) KeyTypeEd25519 (replicate 32 x09) 1), (t + 1, st))
  | SigningService_Sign => fun _ _ req _ '(t, st) => (Ok (mkSignResponse (SignRequest_Message req)), (t + 1, st))
  | SigningService_Verify => fun _ _ req _ '(t, st) =>
      (Ok (mkVerifyResponse (bool_decide (VerifyRequest_Signature req = VerifyRequest_Message req))), (t + 1, st))
  | _ => fun _ _ _ _ '(t, st) => (toy_unimplemented, (t + 1, st))
  end.

#[local] Instance vault_grpc : Grpc := {
  B := vault;
  Conn := ();
  Stream := list;
  now b := b.1;
  NewClient _ _ := Ok ();
  Conn_Close _ := None;
  Invoke := @vault_Invoke;
  NewStream _ _ _ _ _ _ b := (toy_unimplemented, b);
  Recv _ _ b := (Err EOF, b);
}.

Definition vault_client : Client (Gr := vault_grpc) := mkClient (Gr := vault_grpc) () DefaultTimeout.

(** Each call takes a unit of time. The store is served while [n] calls, and the
    three of the round trip after them, are in time, and no counter runs over. *)
Definition vault_live (n : nat) (ctx : context) (b : vault) : Prop :=
  forall d, Deadline ctx = Some d -> b.1 + Z.of_nat n <= d.
Definition vault_holds (n : nat) (ctx : context) (b : vault) (st : store) : Prop :=
  b.2 = st /\ vault_live (n + 3) ctx b /\ forall id, len (versions st id) + Z.of_nat n < 2 ^ 32.

Lemma guarded_live {A} (n : nat) (ctx : context) (f : store -> result error A * store) (t : Z) (st : store) : vault_live (S n) ctx (t, st) ->
  guarded ctx f (t, st) = ((f st).1, (t + 1, (f st).2)) /\ forall st', vault_live n ctx (t + 1, st').
Proof.
  intros H. unfold guarded. assert (in_time ctx t = true) as ->.
  { unfold in_time. unfold vault_live in H. destruct (Deadline ctx) as [d|]; [|done]. apply bool_decide_eq_true_2.
    specialize (H d eq_refl). cbn [fst] in H. lia. }
  destruct (f st). split; [done|]. intros st' d E. specialize (H d E). cbn [fst] in *. lia.
Qed.

Lemma vault_room (n : nat) (ctx : context) (t : Z) (st : store) (id : bytes) : vault_holds (S n) ctx (t, st) st -> room st id = true.
Proof. intros (_ & _ & H). apply bool_decide_eq_true_2. specialize (H id). lia. Qed.

Lemma vault_holds_same (n : nat) (ctx : context) (t : Z) (st : store) : vault_holds (S n) ctx (t, st) st -> vault_holds n ctx (t + 1, st) st.
Proof.
  intros (_ & Hl & Hr). split; [done|]. split.
  - intros d E. specialize (Hl d E). cbn [fst] in *. lia.
  - intros id. specialize (Hr id). lia.
Qed.

Lemma vault_holds_push (n : nat) (ctx : context) (t : Z) (st : store) (id v : bytes) :
  vault_holds (S n) ctx (t, st) st -> vault_holds n ctx (t + 1, push st id v) (push st id v).
Proof.
  intros H. pose proof (vault_holds_same n ctx t st H) as (_ & Hl & _). destruct H as (_ & _ & Hr).
  split; [done|]. split; [exact Hl|]. intros id'. specialize (Hr id'). rewrite versions_push.
  case_decide; [rewrite len_app; change (len [v]) with 1|]; lia.
Qed.

Lemma vault_secrets : SecretService vault_client vault_holds.
Proof.
  split; intros n ctx id.
  - intros v [t st] st' H. pose proof H as (<- & Hl & _). cbn [snd] in *.
    destruct (guarded_live (n + 3) ctx (vault_Set id v) t st Hl) as [E _].
    unfold vault_Set in E. rewrite (vault_room n ctx t st id H) in E. eexists.
    split; [exact E|]. by apply vault_holds_push.
  - intros version [t st] st' H. pose proof H as (<- & Hl & _). cbn [snd] in *.
    destruct (guarded_live (n + 3) ctx (fun st => (vault_Get id version st, st)) t st Hl) as [E _].
    cbn [fst snd] in E. exists (t + 1, st). split; [by apply vault_holds_same|].
    unfold vault_Get in E. destruct (lookup_version st id version); [exact E|]. eexists. exact E.
  - intros [t st] st' H. pose proof H as (<- & Hl & _). cbn [snd] in *.
    destruct (guarded_live (n + 3) ctx (vault_Rotate id) t st Hl) as [E _].
    unfold vault_Rotate in E. destruct (last (versions st id)) as [v|] eqn:El.
    + rewrite (vault_room n ctx t st id H) in E. cbn [fst snd] in E. exists (t + 1, push st id (x00 :: v)).
      rewrite decide_False by (intros Hn; by rewrite Hn in El). exists (x00 :: v).
      split; [intros [= Hv]; apply (f_equal length) in Hv; cbn in Hv; lia|]. split; [by apply vault_holds_push|exact E].
    + exists (t + 1, st). apply last_None in El. rewrite decide_True by done.
      split; [by apply vault_holds_same|]. eexists. exact E.
Qed.

Lemma vault_aead keyID : AeadService vault_client keyID vault_live.
Proof.
  split. intros n ctx alg pt aad [t st] H.
  destruct (guarded_live n ctx (fun st => (Ok (mkEncryptResponse (Some (mkCiphertextEnvelope alg 1 []
    (spell (toy_aad aad) ++ pt)))), st)) t st H) as [E Hl].
  eexists _, (t + 1, st). split; [exact E|]. split; [by destruct aad|]. split; [apply Hl|].
  intros n' ctx' aad' [t' st'] H'. exists (t' + 1, st').
  match goal with |- context [mkDecryptRequest keyID ?env aad'] =>
    destruct (guarded_live n' ctx' (fun st => (vault_Decrypt (mkDecryptRequest keyID env aad'), st)) t' st' H') as [E' Hl'] end.
  split; [apply Hl'|]. cbn [fst snd] in E'. destruct (decide (aad' = aad)) as [->|Hne].
  - etrans; [exact E'|]. unfold vault_Decrypt. cbn [DecryptRequest_Envelope DecryptRequest_Aad from_option
      CiphertextEnvelope_Ciphertext]. by rewrite read_spell, decide_True.
  - eexists. etrans; [exact E'|]. unfold vault_Decrypt. cbn [DecryptRequest_Envelope DecryptRequest_Aad from_option
      CiphertextEnvelope_Ciphertext]. rewrite read_spell, decide_False; [done|]. intros Ea. by apply toy_aad_inj in Ea.
Qed.

Lemma vault_signing keyID : SigningService vault_client keyID.
Proof.
  split.
  - intros ctx [t st]. by eexists _, (t + 1, st).
  - intros ctx message [t st]. exists message, (t + 1, st). split; [done|].
    intros ctx' [t' st']. exists (t' + 1, st'). cbn. by rewrite bool_decide_eq_true_2.
Qed.

(** ** The runs *)

Definition empty_vault : vault := (100, ∅).

#[local] Instance go_enums : Protoimpl := {
  EnumStringOf names n := match find (fun p => bool_decide (p.1 = n)) names with
                          | Some p => str p.2
                          | None => str (pretty n)
                          end;
}.

#[local] Instance go_enums_laws : ProtoimplLaws go_enums.
Proof.
  split; cbn.
  - intros names n s. induction names as [|[k t] names IH]; [by intros _ ?%not_elem_of_nil|].
    intros [Hk Hn]%NoDup_cons [E|H]%elem_of_cons; cbn [find fst].
    + injection E as -> ->. by rewrite bool_decide_eq_true_2.
    + rewrite bool_decide_eq_false_2; [by apply IH|]. intros ->. apply Hk, list_elem_of_fmap. by exists (n, s).
  - intros names n. induction names as [|[k t] names IH]; [done|]. intros [Hk Hn]%not_elem_of_cons. cbn [find fst].
    cbn in Hk. rewrite bool_decide_eq_false_2 by congruence. by apply IH.
Qed.

Definition aead_enum : enum :=
  mkEnum AeadAlgorithm_name AeadAlgorithm_value AeadAlgorithm_String
    [AeadAlgorithmUnspecified; AeadAlgorithmChaCha20Poly1305; AeadAlgorithmAES256GCM].

Lemma enum_strings_witness :
  AeadAlgorithm_String AeadAlgorithmAES256GCM = str "AEAD_ALGORITHM_AES_256_GCM" /\
  AeadAlgorithm_String (-3) = str "-3".
Proof.
  assert (aead_enum ∈ enums) as H.
  { unfold enums. do 5 right. left. }
  split.
  - apply (proj1 (proj2 (proj2 (enum_strings aead_enum 2 0 H)))). do 2 right. left.
  - change (str "-3") with (str (pretty (-3))).
    apply (proj1 (proj2 (proj2 (proj2 (enum_strings aead_enum (-3) 0 H))))).
    apply (bool_decide_unpack _). vm_compute. exact I.
Defined.

Definition vault_process : process (@B vault_grpc) := mkProcess (S := @B vault_grpc) empty_vault [].
Definition no_env : bytes -> bytes := fun _ => [].

Lemma secrets_example_witness : exists p', ExSecrets.main (Gr := vault_grpc) no_env vault_process = (0, p').
Proof.
  destruct (secrets_example (Gr := vault_grpc) no_env vault_process) as [_ H].
  apply (H vault_client vault_holds vault_live ∅); [reflexivity|exact vault_secrets|apply vault_aead| |].
  - intros b st (_ & Hl & _). exact Hl.
  - split; [reflexivity|]. split; [|intros id; vm_compute; reflexivity]. intros d [= <-]. vm_compute. discriminate.
Defined.

Definition some_flags : CmdSign.flags :=
  CmdSign.mkFlags (str "/run/basil.sock") (str "web.tls") (str "hello from basil-go") (10 * Second).

Lemma basil_sign_spec_witness :
  (exists p', CmdSign.main (Gr := vault_grpc) some_flags vault_process = (0, p')) /\
  exists e, CmdSign.main (Gr := vault_grpc) CmdSign.default_flags vault_process =
    (1, mkProcess (S := @B vault_grpc) empty_vault [Usage; ErrLine "basil-sign:" e]).
Proof.
  split.
  - destruct (basil_sign_spec (Gr := vault_grpc) some_flags vault_process) as (_ & H & _).
    apply (H vault_client); [done..|apply vault_signing].
  - destruct (basil_sign_spec (Gr := vault_grpc) CmdSign.default_flags vault_process) as (_ & _ & H).
    apply H. by left.
Defined.

(** ** Methods and routes, against the toy broker *)

(** A refused request, an answer, and an error of the broker. *)
Lemma rpc_contract_witness :
  (exists e, run (Gr := toy_grpc) (Api_Import (str "k") 1 None) toy_client (mkContext None) 5 = (Err e, 5)) /\
  run (Gr := toy_grpc) (Api_NewKey (str "k") KeyTypeMLKEM768) toy_client (mkContext None) 5 =
    (Ok (mkKeyHandle (str "k") toy_seed), 6) /\
  exists e se, run (Gr := toy_grpc) Api_Status toy_client (mkContext None) 5 = (Err e, 6) /\
    AsStatusError e = Some se /\ Code se = 12.
Proof.
  split_and!.
  - destruct (rpc_contract (Gr := toy_grpc) (Api_Import (str "k") 1 None) toy_client (mkContext None) 5) as [_ H].
    eexists. exact H.
  - destruct (rpc_contract (Gr := toy_grpc) (Api_NewKey (str "k") KeyTypeMLKEM768) toy_client (mkContext None) 5) as [_ H].
    exact H.
  - destruct (rpc_contract (Gr := toy_grpc) Api_Status toy_client (mkContext None) 5) as [_ H].
    destruct H as (e & E & se & Ha & Hc). exists e, se. split; [exact E|]. split; [exact Ha|exact Hc].
Defined.

#[local] Instance demo_values : GoValues (J := toy_json) := {
  VString s := Some s;
  VInt _ := None;
  VBool _ := None;
  VMap l := Some ([x7b] ++ quoted "scope" ++ str ":" ++ quoted "demo" ++ [x7d]);
}.

Definition demo_service : service (Gr := toy_grpc) := mkService (Gr := toy_grpc) toy_client (str "web.signing_key").
Definition request_of (method path : string) : Request :=
  mkRequest (str method) (str path) (str path) [] (mkContext None).

Lemma web_service_routes_witness :
  (exists t, ServeHTTP (newMux (Gr := toy_grpc) demo_service) (request_of "POST" "/%74oken") 5 =
    (Handled (mkHttpResponse 200 t), 6)) /\
  (ServeHTTP (newMux (Gr := toy_grpc) demo_service) (request_of "GET" "/token") 5).2 = 5 /\
  (ServeHTTP (newMux (Gr := toy_grpc) demo_service) (request_of "HEAD" "/./healthz") 5) =
    (Redirected (str "/healthz") [], 5).
Proof.
  split_and!.
  - pose proof (web_service_routes (Gr := toy_grpc) demo_service (request_of "POST" "/%74oken") 5) as H.
    destruct (ServeHTTP _ _ _) as [a b']. destruct H as (H & _ & _).
    destruct H as [-> ->]; [|by eexists].
    split; [done|]. split; [split; [done|right; vm_compute; reflexivity]|vm_compute; reflexivity].
  - pose proof (web_service_routes (Gr := toy_grpc) demo_service (request_of "GET" "/token") 5) as H.
    destruct (ServeHTTP _ _ _) as [a b']. destruct H as (_ & H & _). apply H. by intros [[=] _].
  - pose proof (web_service_routes (Gr := toy_grpc) demo_service (request_of "HEAD" "/./healthz") 5) as H.
    destruct (ServeHTTP _ _ _) as [a b']. destruct H as (_ & H & _).
    destruct H as [-> ->]; [by intros [[=] _]|vm_compute; reflexivity].
Defined.
