(* ===== verification/NixWitnesses.v ===== *)
(** Concrete runs of the theorems about the Nix cache methods, over the wire
    format of protobuf. *)

From S2P Require Import Prelude GoText GoError Errors Pb Client Nix NixCodec NixLemmas NixProps Crypto Concrete.

(** ** The wire format: base-128 varints of at most ten bytes, least significant
    group first; tags; length-prefixed bytes *)

Fixpoint varint (fuel : nat) (shift acc : Z) (l : bytes) : Z * Z :=
  match fuel, l with
  | S fuel, b :: l =>
      let acc := acc + Z.shiftl (Z.land (byte_val b) 127) shift in
      if decide (byte_val b < 128) then (wrapu 64 acc, 1)
      else let (v, n) := varint fuel (shift + 7) acc l in (v, if decide (n < 0) then n else n + 1)
  | _, _ => (0, -1)
  end.

Lemma varint_length fuel shift acc l v n : varint fuel shift acc l = (v, n) -> 0 <= n -> 1 <= n <= len l.
Proof.
  revert shift acc l v n. induction fuel as [|fuel IH]; intros shift acc l v n E Hn; destruct l as [|b l];
    cbn [varint] in E; try (injection E as _ <-; lia).
  rewrite len_cons. pose proof (len_nonneg l). case_decide; [injection E as _ <-; lia|].
  destruct (varint fuel _ _ l) as [v' n'] eqn:E'. case_decide; injection E as _ <-; [lia|].
  pose proof (IH _ _ _ _ _ E' ltac:(lia)). lia.
Qed.

Lemma varint_nonneg fuel shift acc l v n : varint fuel shift acc l = (v, n) -> 0 <= v.
Proof.
  revert shift acc l v n. induction fuel as [|fuel IH]; intros shift acc l v n E; destruct l as [|b l];
    cbn [varint] in E; try (injection E as <- _; lia).
  case_decide; [injection E as <- _; apply wrapu_range; lia|].
  destruct (varint fuel _ _ l) as [v' n'] eqn:E'. injection E as <- _. by eapply IH.
Qed.

Definition wire_ConsumeTag (raw : bytes) : Z * Z * Z :=
  let (v, n) := varint 10 0 0 raw in (Z.shiftr v 3, Z.land v 7, n).

Definition wire_ConsumeBytes (raw : bytes) : bytes * Z :=
  let (v, n) := varint 10 0 0 raw in
  if decide (n < 0) then ([], n)
  else let rest := drop (Z.to_nat n) raw in
       if decide (len rest < v) then ([], -1) else (take (Z.to_nat v) rest, n + v).

Definition put_bytes (number : Z) (v : bytes) : bytes :=
  byte_of (number * 8 + 2) :: byte_of (len v) :: v.

(** An encoder for short messages. *)
Definition wire_Marshal (m : message) : result error bytes :=
  match m with
  | MDescribeRequest r => Ok (put_bytes 1 (DescribeNixCacheKeyRequest_KeyId r) ++
      put_bytes 2 (DescribeNixCacheKeyRequest_BatchId r) ++
      put_bytes 3 (DescribeNixCacheKeyRequest_RequestId r))
  | _ => Err (Foreign 3)
  end.

#[local] Instance wire : Protobuf := {
  ConsumeTag := wire_ConsumeTag;
  ConsumeBytes := wire_ConsumeBytes;
  ConsumeVarint := varint 10 0 0;
  ParseError n := Foreign (Z.to_N (- n));
  proto_Marshal := wire_Marshal;
  proto_Unmarshal _ m := Ok m;
}.

#[local] Instance wire_laws : ProtobufLaws wire.
Proof.
  split.
  - intros raw num typ n. cbn. unfold wire_ConsumeTag. destruct (varint 10 0 0 raw) as [v k] eqn:E.
    intros [= _ _ <-]. eapply varint_length, E.
  - intros raw v n E0 Hn. change (wire_ConsumeBytes raw = (v, n)) in E0. unfold wire_ConsumeBytes in E0.
    revert E0. destruct (varint 10 0 0 raw) as [x k] eqn:E. intros E0.
    case_decide; [injection E0 as _ <-; lia|].
    pose proof (varint_length _ _ _ _ _ _ E ltac:(lia)) as H1. cbv zeta in E0.
    case_decide as Hx; injection E0 as _ <-; [lia|].
    pose proof (varint_nonneg _ _ _ _ _ _ E).
    unfold len in *. rewrite length_drop in Hx. lia.
  - intros raw v n. apply (varint_length 10 0 0 raw v n).
Qed.

Definition batch : bytes := replicate 16 x01.
Definition request : bytes := replicate 16 x02.
Definition describe_request : message :=
  MDescribeRequest (mkDescribeNixCacheKeyRequest (str "cache/main") batch request).

(** The fields in another order than their numbers. *)
Definition shuffled : bytes := put_bytes 3 request ++ put_bytes 1 (str "cache/main") ++ put_bytes 2 batch.

Lemma preflight_accepts_witness :
  exists s maximum fields fs, nixCacheMessageSchema describe_request = Ok (s, maximum, fields) /\
    len shuffled <= maximum /\ wire_fields shuffled fs /\ Forall (valid_field s) fs /\
    fs.*1 ≡ₚ seqZ 1 fields.
Proof.
  apply (preflight_accepts shuffled describe_request). vm_compute. reflexivity.
Defined.

Lemma preflight_terminates_run :
  preflightNixCacheProto (put_bytes 1 (str "k") ++ put_bytes 1 (str "k")) describe_request <> Err OutOfFuel.
Proof. apply preflight_terminates. Defined.

Lemma codec_strict_run :
  exists m, inl describe_request = inl m :> message + string /\
    proto_Marshal m = Ok (put_bytes 1 (str "cache/main") ++ put_bytes 2 batch ++ put_bytes 3 request) /\
    preflightNixCacheProto (put_bytes 1 (str "cache/main") ++ put_bytes 2 batch ++ put_bytes 3 request) m
      = Ok ().
Proof.
  apply (codec_strict (put_bytes 1 (str "cache/main") ++ put_bytes 2 batch ++ put_bytes 3 request)
    (inl describe_request)). vm_compute. reflexivity.
Defined.

Lemma size_maxima_run :
  exists vs, Forall2 valid_value (schema_kinds nixDescribeRequest) vs /\ message_size vs = 295.
Proof. apply (size_maxima describe_request nixDescribeRequest 295 3). reflexivity. Defined.

Lemma request_validation_run :
  Forall2 valid_value (schema_kinds nixDescribeRequest)
    [WBytes (str "cache/main"); WBytes batch; WBytes request].
Proof.
  apply (request_validation (str "cache/main") batch request []); [done|done|].
  vm_compute. reflexivity.
Defined.

Lemma SignNixCacheFingerprint_checked_run :
  exists sig b', SignNixCacheFingerprint toy_client (mkContext None) (str "cache/main") (str "1;/nix/store")
      batch request 3 = (Ok sig, b') /\
    len (Signature sig) = 64 /\ key_ok (sig_Key sig).
Proof.
  eexists _, _. split; [vm_compute; reflexivity|].
  split; eapply (proj2 (SignNixCacheFingerprint_checked toy_client (mkContext None) (str "cache/main")
    (str "1;/nix/store") batch request 3)); vm_compute; reflexivity.
Defined.

Lemma nix_key_methods_checked_run :
  exists k b', DescribeNixCacheKey toy_client (mkContext None) (str "cache/main") batch request 3 =
      (Ok k, b') /\ key_ok k.
Proof.
  eexists _, _. split; [vm_compute; reflexivity|].
  eapply (proj1 (nix_key_methods_checked toy_client (mkContext None) (str "cache/main") batch request 3 4));
    vm_compute; reflexivity.
Defined.
