(* ===== verification/SealedWitnesses.v ===== *)
(** Concrete runs of the theorems about package [sealedinvocation]. *)

From S2P Require Import Prelude GoTime GoText GoError IO Crypto Cbor Sealed SealedLemmas SealedFlow SealedProps.
From S2P Require Import Concrete SealedConcrete.

(** Half past one on some morning of 2026, and a call at that time. *)
Definition today : Time := mkTime (1780000000 + unixToInternal) 500000000.
Definition w_today : world (mem_platform Time) := mem_world Time 0 [] today.

Definition recipient_number : Z := 77.
Definition recipient_key : X25519Key := recipient_number.
Definition some_params : RequestParams :=
  mkRequestParams (str "application/cbor") (str "body") (str "ci") (str "basil") zeroTime 0 (str "m-1")
    (str "sender") (replicate 32 x05) (str "broker") (be_put 32 recipient_number) (str "back") []
    (Some (replicate 32 x06)).

Lemma some_params_ok : request_ok some_params.
Proof.
  unfold request_ok. split; [split; vm_compute; discriminate|]. split; [intros c [= <-]; reflexivity|].
  split; [reflexivity|]. split; [vm_compute; reflexivity|]. split; [discriminate|].
  split_and!; vm_compute; reflexivity.
Qed.

Lemma today_calendar : calendar today.
Proof. split; [split; vm_compute; congruence|split; vm_compute; congruence]. Qed.

Lemma BuildRequest_sealed_witness :
  (exists msg w', BuildRequest some_params w_today = (Ok (mkRequest msg (str "m-1")), w') /\
     sealed_as msg (str "application/cbor") (str "body")
       (mkClaims (str "ci") (str "basil") 1780000120 1780000000 (str "m-1") (str "sender") (str "back") []
         None None (Some (replicate 32 x06))) (str "sender") (replicate 32 x05) (str "broker") recipient_key).
Proof.
  destruct (BuildRequest_sealed some_params recipient_key w_today) as (_ & H).
  apply (H some_params_ok eq_refl (mem_entropic Time 0) today_calendar).
  split; vm_compute; [discriminate|reflexivity].
Defined.

(** The response of the broker to the request [rq]. *)
Definition rq : bytes := str "the request bytes".
Definition answer : claims :=
  mkClaims [] [] 1780000060 1780000000 (str "r-1") (str "broker-key") [] [] (Some (str "m-1"))
    (Some (sha3_Sum256 rq)) None.

Lemma answer_ok : claims_ok answer.
Proof. unfold claims_ok, int64. cbn. split_and!; try done; lia. Qed.

Definition opening (msg public : bytes) : ResponseParams :=
  mkResponseParams msg rq (str "m-1") [] zeroTime 0 0 (str "broker-key") public (str "back")
    (be_put 32 recipient_number).

Lemma opening_key msg public : NewPrivateKey (sp_RecipientPrivate (opening msg public)) = Ok recipient_key.
Proof. vm_compute. reflexivity. Qed.

Lemma opening_answers msg public : answers (opening msg public) (now_of (opening msg public) w_today) answer.
Proof. split; [reflexivity|]. split; [reflexivity|]. split; [reflexivity|]. vm_compute. reflexivity. Qed.

Lemma response_roundtrip_witness :
  exists msg w', buildSealed (str "text/plain") (str "done") answer (str "broker-key") (replicate 32 x08)
      (str "back") (be_put 32 recipient_number) w_today = (Ok msg, w') /\
    OpenResponse (opening msg (replicate 32 x08)) w_today =
      (Ok (mkResponse (str "done") (str "text/plain")), w_today) /\
    OpenResponse (opening msg (str "short")) w_today =
      (Err (Panicked "ed25519: bad public key length"), w_today).
Proof.
  destruct (response_roundtrip (str "text/plain") (str "done") answer (replicate 32 x08) recipient_key w_today
    (str "broker-key") (str "back") answer_ok ltac:(vm_compute; reflexivity) ltac:(discriminate) eq_refl
    (mem_entropic Time 0)) as (msg & w' & E & H).
  exists msg, w'. split; [exact E|]. split.
  - apply (H (opening msg (replicate 32 x08)) w_today eq_refl eq_refl eq_refl (opening_key _ _)).
    + reflexivity.
    + apply opening_answers.
    + left. reflexivity.
  - apply (H (opening msg (str "short")) w_today eq_refl eq_refl eq_refl (opening_key _ _)).
    vm_compute. discriminate.
Defined.

(** A response that is accepted. *)
Lemma accepted : exists msg, OpenResponse (opening msg (replicate 32 x08)) w_today =
  (Ok (mkResponse (str "done") (str "text/plain")), w_today).
Proof.
  destruct (buildSealed_ok (str "text/plain") (str "done") answer (str "broker-key") (replicate 32 x08)
    (str "back") recipient_key w_today answer_ok ltac:(vm_compute; reflexivity) ltac:(discriminate) eq_refl
    (mem_entropic Time 0)) as (msg & w' & _ & sign1 & raw & Ev & El & Ho & _).
  exists msg. apply (OpenResponse_run (opening msg (replicate 32 x08)) w_today sign1 raw _ _ answer recipient_key Ev El Ho (opening_key _ _)).
  - apply opening_answers.
  - left. reflexivity.
Qed.

Lemma OpenResponse_sound_witness :
  exists msg enc, answers (opening msg (replicate 32 x08)) today (em_claims enc) /\
    em_contentType enc = str "text/plain" /\ em_recipientKeyID enc = str "back".
Proof.
  destruct accepted as (msg & E). exists msg.
  destruct (OpenResponse_sound _ _ _ _ E)
    as (_ & p & raw & s & tbs & enc & _ & _ & _ & _ & Ha & _ & Hc & Hr & _).
  exists enc. split; [exact Ha|]. split; [symmetry; exact Hc|exact Hr].
Defined.

Lemma response_window_witness :
  validateResponseClaims answer (mkTime (1780000121 + unixToInternal) 0) Minute (5 * Minute) <> Ok () /\
  validateResponseClaims answer (mkTime (1780000120 + unixToInternal) 0) Minute (5 * Minute) = Ok ().
Proof.
  split.
  - intros E. apply response_window in E; [|vm_compute; reflexivity..].
    destruct E as (_ & _ & _ & E & _). vm_compute in E. apply E. reflexivity.
  - apply response_window; [vm_compute; reflexivity..|].
    split_and!; try (vm_compute; congruence); by eexists.
Defined.

(** A request sent back, and a response taken for that to another request. *)
Lemma no_confusion_witness :
  (exists msg w', BuildRequest some_params w_today = (Ok (mkRequest msg (str "m-1")), w') /\
     is_ok (OpenResponse (opening msg (replicate 32 x05)) w_today).1 = false) /\
  exists msg, forall other resp v, sp_Message other = msg -> OpenResponse other v = (Ok resp, v) ->
    sp_RequestMessageID other = str "m-1".
Proof.
  split.
  - destruct (no_confusion some_params recipient_key w_today (mkResponse [] []) (mkResponse [] [])
      (opening [] []) (opening [] []) w_today w_today w_today w_today) as [H _].
    destruct (H some_params_ok eq_refl (mem_entropic Time 0) today_calendar) as (msg & w' & E & Hno).
    { split; vm_compute; [discriminate|reflexivity]. }
    exists msg, w'. split; [exact E|]. by apply Hno.
  - destruct accepted as (msg & E). exists msg. intros other resp v Hm Eo.
    destruct (no_confusion some_params recipient_key w_today resp (mkResponse (str "done") (str "text/plain"))
      other (opening msg (replicate 32 x08)) v w_today v w_today) as [_ H].
    by apply H.
Defined.
