(* ===== verification/SpiffeWitnesses.v ===== *)
(** A Workload API that serves two SVIDs and denies bundles, and concrete runs of
    the theorems about package [spiffe] on it. *)

From stdpp Require Import gmap.
From S2P Require Import Prelude Slices GoTime GoText GoError Errors Crypto Concrete Client Spiffe SpiffeProps.

(** Slices grow to twice what is needed; the outside is a clock; a value is a
    text. *)
#[local] Instance doubling : GoRuntime := { growslice_spare n := n }.

#[local] Instance toy_workload : WorkloadApi := {
  E := Z;
  clock t := t;
  WlClient := list ClientOption;
  X509SVID := bytes;
  JWTSVID := bytes;
  X509Bundles := ();
  JWTBundles := ();
  X509Context := ();
  X509Source := list ClientOption;
  JWTSource := list ClientOption;
  X509ContextWatcher := ();
  JWTBundleWatcher := ();
  workloadapi_New _ opts t := (Ok opts, t + 1);
  workloadapi_NewX509Source _ opts t := (Ok opts, t + 1);
  workloadapi_NewJWTSource _ opts t := (Err (Foreign 9), t + 1);
  wl_Close _ t := (None, t);
  wl_FetchX509SVID _ _ t := (str "svid-a", None, t + 1);
  wl_FetchX509SVIDs _ _ t := ([str "svid-a"; str "svid-b"], None, t + 1);
  wl_FetchX509Bundles _ _ t := ((), Some (EGrpc (mkStatus 7 (str "denied") [])), t + 1);
  wl_FetchX509Context _ _ t := ((), None, t + 1);
  wl_FetchJWTSVID _ _ p t := (Audience p, None, t + 1);
  wl_FetchJWTSVIDs _ _ p t := (Audience p :: ExtraAudiences p, None, t + 1);
  wl_FetchJWTBundles _ _ t := ((), None, t + 1);
  wl_ValidateJWTSVID _ _ token _ t := (token, None, t + 1);
  wl_WatchX509Context _ _ _ t := (Some (EGrpc (mkStatus 1 (str "canceled") [])), t + 1);
  wl_WatchJWTBundles _ _ _ t := (None, t + 1);
}.

(** The caller's options: an array of three, of which one slice shows the
    first and keeps the room of the other two. *)
Definition caller_heap : heap ClientOption :=
  [[OtherClientOption 1; WithAddr (str "unix:///evil"); OtherClientOption 3]].
Definition whole : goslice := mkSlice 0 0 3 3.
Definition first : goslice := mkSlice 0 0 1 3.

Definition toy_process : spworld := mkSpworld 100 caller_heap {[4%nat]} 7.

Lemma toy_timers : timers_wf toy_process.
Proof. intros i. cbn. rewrite elem_of_singleton. intros ->. lia. Qed.

Definition toy_spiffe : Client := mkClient [] 50.

Lemma workload_calls_witness :
  (exists w', FetchX509SVID toy_spiffe (mkContext None) toy_process = ((str "svid-a", None), w') /\
    sw_timers w' = {[4%nat]}) /\
  (exists se w', FetchX509Bundles toy_spiffe (mkContext (Some 3)) toy_process =
    (((), Some (EStatusError se)), w') /\ Code se = 7).
Proof.
  destruct (workload_calls toy_spiffe (mkContext None) toy_process toy_timers) as [H _].
  destruct (workload_calls toy_spiffe (mkContext (Some 3)) toy_process toy_timers) as [H2 _].
  destruct (H _ _ _ one_shot_X509SVID) as (ctx' & v & err & w' & Ef & Em & _ & _ & _ & Ht & _).
  destruct (H2 _ _ _ one_shot_X509Bundles) as (ctx2 & v2 & err2 & w2 & Ef2 & Em2 & _ & _ & Hs & _).
  cbn in Ef, Ef2. injection Ef as <- <- _. injection Ef2 as <- <- _. split.
  - exists w'. rewrite Em. split; [reflexivity|exact Ht].
  - destruct (Hs _ _ eq_refl eq_refl) as (se & Es & Hc). exists se, w2. rewrite Em2, Es. by split.
Defined.

Lemma whole_wf : slice_wf caller_heap whole.
Proof. split; [cbn; lia|]. right. eexists. split; [reflexivity|cbn; lia]. Qed.

Lemma first_wf : slice_wf caller_heap first.
Proof. split; [cbn; lia|]. right. eexists. split; [reflexivity|cbn; lia]. Qed.

Lemma Dial_pinned_witness :
  exists opts w', Dial (mkContext None) (str "/run/basil.sock")
      (to_option <$> [OptClient whole; OptTimeout 5]) toy_process = (Ok (mkClient opts 5), w') /\
    last_of addr_of opts = Some (str "unix:///run/basil.sock") /\
    caller_heap `prefix_of` sw_heap w'.
Proof.
  destruct (Dial_pinned (mkContext None) (str "/run/basil.sock") [OptClient whole; OptTimeout 5]
    toy_process) as [_ H].
  - intros s Hs. apply elem_of_cons in Hs as [[= ->]|Hs]; [exact whole_wf|].
    apply list_elem_of_singleton in Hs. done.
  - destruct (H ltac:(done)) as (opts & r & e & h' & _ & [Ha _] & En & Hp & res & E & Hr).
    cbn in En. injection En as <- <-. subst res. exists opts. eexists. split; [exact E|].
    split; [exact Ha|exact Hp].
Defined.

Lemma sources_append_witness :
  exists opts w', NewX509Source (mkContext None) (str "/run/basil.sock") first toy_process =
      (Ok opts, w') /\
    opts = OtherClientOption 1 :: fixed_options (str "/run/basil.sock") /\
    read (sw_heap w') whole = opts.
Proof.
  destruct (sources_append (mkContext None) (str "/run/basil.sock") first toy_process first_wf)
    as [(r & e & h' & res & En & _ & Em & Hr & _ & Hc) _].
  cbn in En. injection En as <- <-. subst res. eexists _, _. split; [exact Em|].
  split; [reflexivity|]. destruct (Hc ltac:(cbn; lia)) as (H1 & H2 & H3).
  pose proof (H3 0%nat 0%nat ltac:(cbn; lia) ltac:(right; left; cbn; lia)) as H0.
  unfold cell in *. cbn [sw_heap]. unfold read.
  cbn [sl_array sl_off sl_len first whole] in *. destruct (h' !! 0%nat) as [a|]; [|done].
  cbn in H0, H1, H2 |- *. destruct a as [|x [|y [|z a]]]; try done.
  injection H0 as ->. injection H1 as ->. injection H2 as ->. reflexivity.
Defined.
