(* ===== verification/StreamFileWitnesses.v ===== *)
(** Concrete runs for the example [stream-file-encryption]: a disk in memory, the
    toy broker, and the toy AEAD, whose checksum detects the flipped byte. *)

From stdpp Require Import gmap.
From S2P Require Import Prelude GoTime GoPath GoError IO Crypto Format Chunks ChunkSpec Errors Pb Client Keytype.
From S2P Require Import Signing Kem Stream StreamLemmas KemLemmas Program ExStreamFile StreamFileProps Concrete.

(** ** The checksum *)

Definition modulus : Z := 2 ^ 127 - 1.
Definition checksum_step (h : Z) (b : byte) : Z := (h * 257 + byte_val b + 1) `mod` modulus.

Lemma modulus_small : modulus <= 256 ^ Z.of_nat 16.
Proof. by vm_compute. Qed.

Lemma checksum_step_range h b : 0 <= checksum_step h b < modulus.
Proof. by apply Z.mod_pos_bound. Qed.

Lemma modulus_coprime x : (x * 257) `mod` modulus = 0 -> x `mod` modulus = 0.
Proof.
  intros H. apply Z.mod_divide in H; [|done]. apply Z.mod_divide; [done|].
  apply (Z.gauss _ 257); [by rewrite Z.mul_comm|]. vm_compute. reflexivity.
Qed.

Lemma checksum_injective l h1 h2 : 0 <= h1 < modulus -> 0 <= h2 < modulus ->
  foldl checksum_step h1 l = foldl checksum_step h2 l -> h1 = h2.
Proof.
  revert h1 h2. induction l as [|b l IH]; intros h1 h2 H1 H2; [done|]. cbn [foldl]. intros E.
  apply IH in E; auto using checksum_step_range. unfold checksum_step in E.
  assert (((h1 - h2) * 257) `mod` modulus = 0) as Hd.
  { replace ((h1 - h2) * 257) with (h1 * 257 + byte_val b + 1 - (h2 * 257 + byte_val b + 1)) by lia.
    rewrite Zminus_mod, E, Z.sub_diag. done. }
  apply modulus_coprime in Hd. apply Z.mod_divide in Hd as [q Hq]; [|done]. unfold modulus in *. lia.
Qed.

(** One byte changed, in the same place: another checksum. *)
Lemma checksum_flip pre x y post : pre <> [] -> x <> y ->
  checksum (pre ++ x :: post) <> checksum (pre ++ y :: post).
Proof.
  intros Hp Hxy E. change (foldl checksum_step 1 (pre ++ x :: post) = foldl checksum_step 1 (pre ++ y :: post)) in E.
  rewrite !foldl_app in E. cbn [foldl] in E. apply checksum_injective in E; auto using checksum_step_range.
  set (h := foldl checksum_step 1 pre) in E. unfold checksum_step in E.
  apply Hxy, (inj byte_val). pose proof (byte_val_range x). pose proof (byte_val_range y).
  assert ((byte_val x - byte_val y) `mod` modulus = 0) as Hd.
  { replace (byte_val x - byte_val y) with (h * 257 + byte_val x + 1 - (h * 257 + byte_val y + 1)) by ring.
    rewrite Zminus_mod, E, Z.sub_diag. done. }
  apply Z.mod_divide in Hd as [q Hq]; [|done]. unfold modulus in Hq. lia.
Qed.

Lemma flip_differs b : byte_of (Z.lxor (byte_val b) 255) <> b.
Proof. by destruct b; vm_compute. Qed.

Lemma checksum_range l : l <> [] -> 0 <= checksum l < modulus.
Proof.
  intros H. destruct (exists_last H) as (l' & b & ->). change (0 <= foldl checksum_step 1 (l' ++ [b]) < modulus).
  rewrite foldl_app. apply checksum_step_range.
Qed.

Lemma toy_Open_bad a nonce pt tag aad : length tag = 16%nat -> tag <> toy_tag a nonce pt aad ->
  toy_Open a nonce (pt ++ tag) aad = None.
Proof.
  intros Hl Ht. unfold toy_Open. rewrite length_app, Hl, Nat.add_sub, take_app_length.
  apply decide_False. unfold toy_Seal. intros E. apply app_inv_head in E. by apply Ht.
Qed.

Lemma length_toy_tag a nonce pt aad : length (toy_tag a nonce pt aad) = 16%nat.
Proof. apply length_be_put. Qed.

Lemma toy_flip_detected : flip_detected.
Proof.
  intros a nonce pt aad _. change (toy_Open a nonce (flip_byte 0 (toy_Seal a nonce pt aad)) aad = None).
  unfold toy_Seal. destruct pt as [|b pt].
  - apply (toy_Open_bad a nonce [] (flip_byte 0 (toy_tag a nonce [] aad))); [by rewrite length_flip_byte, length_toy_tag|].
    pose proof (length_toy_tag a nonce [] aad) as Hl. destruct (toy_tag a nonce [] aad) as [|t tag]; [done|].
    intros E. injection E as E. by apply (flip_differs t).
  - apply (toy_Open_bad a nonce (byte_of (Z.lxor (byte_val b) 255) :: pt) (toy_tag a nonce (b :: pt) aad));
      [apply length_toy_tag|].
    unfold toy_tag. intros E. apply be_put_inj in E.
    2-3: pose proof modulus_small; match goal with |- 0 <= checksum ?l < _ =>
      pose proof (checksum_range l ltac:(done)); lia end.
    set (pre := byte_of (Z.of_N (toy_alg a)) :: toy_key a ++ nonce ++ be_put 8 (len aad) ++ aad).
    assert (forall l, byte_of (Z.of_N (toy_alg a)) :: toy_key a ++ nonce ++ be_put 8 (len aad) ++ aad ++ l = pre ++ l)
      as Hpre by (intros l; unfold pre; by rewrite <-app_comm_cons, <-!app_assoc).
    rewrite !Hpre in E. apply checksum_flip in E; [done|done|]. apply not_eq_sym, flip_differs.
Qed.

(** ** The disk and the program *)

#[local] Instance toy_files : Files (mem_platform Z) := {
  open_reader content := mkReader 4095 content;
  create_writer := mkWriter None [];
  file_Close _ := None;
  creatable _ := true;
  open_error path := Foreign 30;
  create_error path := Foreign 31;
  sha256_Sum content := be_put 32 (checksum content);
}.

Lemma toy_files_ok dir : files_ok (P := mem_platform (@B toy_grpc)) (F := toy_files) dir.
Proof. split; try done; intros; [apply mem_delivers|apply mem_reliable|apply mem_entropic]. Qed.

Lemma toy_custody : custody (P := mem_platform (@B toy_grpc)) (K := toy_circl) toy_client toy_key_id toy_seed toy_seed.
Proof.
  split.
  - intros ctx b. eexists _, _. reflexivity.
  - intros ctx b. eexists _, _. by split.
  - reflexivity.
  - apply toy_broker_holds. by right; left.
Qed.

Definition toy_env (name : bytes) : bytes :=
  if decide (name = str "BASIL_KEM_KEY_ID") then toy_key_id else [].

Definition fresh : machine := mkMachine (P := mem_platform (@B toy_grpc)) ∅ (0 : Z) (0 : Z).

Lemma stream_file_example_witness :
  exists p' pt, main (P := mem_platform (@B toy_grpc)) (S (Z.to_nat fileSize)) toy_env (str "/tmp/w")
      (mkProcess fresh []) = (0, p') /\
    ps_out p' = pass_lines (loadConfig toy_env (str "/tmp/w")) 64 /\ len pt = 4194304 /\
    m_files (ps_state p') !! str "/tmp/w/mlkem.out" = Some pt.
Proof.
  destruct (stream_file_example (P := mem_platform (@B toy_grpc)) (S (Z.to_nat fileSize)) toy_env (str "/tmp/w")
    toy_client toy_seed toy_seed (mkProcess fresh [])) as (p' & pt & E & Ho & Hl & Hm).
  - apply toy_files_ok.
  - exact toy_flip_detected.
  - apply Nat.lt_succ_diag_r.
  - reflexivity.
  - exact toy_custody.
  - exists p', pt. split; [exact E|]. split; [exact Ho|]. split; [exact Hl|].
    apply (Hm (str "mlkem.out")). by right; right.
Defined.
