(* ===== verification/CourierWitnesses.v ===== *)
(** Concrete runs for the example [nats-cose-courier]: a bridge that comes up five
    seconds late, and one that carries every request to a toy broker. *)

From S2P Require Import Prelude GoTime GoText GoError IO Crypto Errors Cbor Sealed SealedLemmas SealedFlow.
From S2P Require Import Keytype Program ExCourier CourierProps Concrete SealedConcrete.

(** ** The retry loop

    The network is a clock that counts nanoseconds; the bridge echoes requests
    from [bridge_up] on, and lets them time out before. *)

Definition start : Z := (1780000000 + unixToInternal) * Second.
Definition bridge_up : Z := start + 5 * Second.

Definition late_net : Nats := {|
  Net := Z;
  NatsConn := ();
  Msg := bytes;
  net_Now n := mkTime (n / Second) (n `mod` Second);
  time_Sleep d n := n + d;
  nats_Connect _ n := (Ok (), n);
  nats_Request _ _ payload d n := if decide (bridge_up <= n) then (Ok payload, n + 1) else (Err (Foreign 40), n + d);
  nats_Close _ n := n;
  msg_Data m := m;
  Header_Values _ _ := [];
  cbor_Marshal _ := Err (Foreign 41);
  cbor_Unmarshal _ := Err (Foreign 41);
|}.

Lemma late_nanos n : nanos (net_Now (Nats := late_net) n) = n.
Proof. unfold nanos. cbn. pose proof (Z.div_mod n Second ltac:(done)). lia. Qed.

Lemma late_clock : clock_ok (Na := late_net) 0.
Proof.
  split.
  - intros n. cbn. by apply Z.mod_pos_bound.
  - intros nc subject payload d n r n' Hd. rewrite !late_nanos. cbn [nats_Request late_net].
    destruct (decide (bridge_up <= n)); intros [= <- <-]; (split; [lia|]); [done|intros; lia].
  - intros d n Hd. rewrite !late_nanos. cbn. lia.
Qed.

Lemma late_answers payload : answers_from (Na := late_net) bridge_up () (str "basil.invoke") payload.
Proof.
  intros n. rewrite late_nanos. intros Hn. cbn. rewrite decide_True by done. by eexists _, _.
Qed.

Lemma requestWithRetry_live_witness :
  exists reply n', requestWithRetry (Na := late_net) 134 () (str "basil.invoke") (str "hello") start = (Ok reply, n').
Proof.
  destruct (requestWithRetry_live (Na := late_net) 0 134 () (str "basil.invoke") (str "hello") start late_clock)
    as [_ H].
  - split; [|by apply Z.mod_pos_bound]. vm_compute. by split.
  - lia.
  - apply (H bridge_up); [apply late_answers|]. rewrite late_nanos. vm_compute. discriminate.
Defined.

(** It is the fourth request that is answered. *)
Example late_reply : requestWithRetry (Na := late_net) 134 () (str "basil.invoke") (str "hello") start =
  (Ok (str "hello"), start + 3 * (2 * Second + pause) + 1).
Proof. vm_compute. reflexivity. Qed.

(** ** An honest bridge

    The clock stands still. The bridge opens nothing: it answers any payload with
    the response the broker gives to the request those bytes are. *)

Definition noon : Time := mkTime (1780000000 + unixToInternal) 0.
Definition broker_seed : bytes := replicate 32 x09.
Definition target_seed : bytes := replicate 32 x44.
Definition broker_key : X25519Key := be_get (replicate 32 x11).
Definition program_key : X25519Key := be_get (replicate 32 x22).

Definition signed_response : signInvocationResponse :=
  mkSignInvocationResponse (mkInvocationStatus statusOK (str "") None false) 3
    (ed25519_Sign target_seed defaultRequestBody).

Definition response_claims (request : bytes) : claims :=
  mkClaims [] [] 1780000060 1780000000 (str "response-1") (str "broker.signing") [] []
    (Some (str "go-nats-bridge-request")) (Some (sha3_Sum256 request)) None.

Definition bridge (request : bytes) : bytes :=
  match buildSealed signResponseContentType (str "signed") (response_claims request) (str "broker.signing")
    broker_seed (str "response.sealing") (PublicKey_Bytes program_key) (mem_world Time 0 [] noon) with
  | (Ok msg, _) => msg
  | (Err _, _) => []
  end.

#[local] Instance bridged_net : Nats := {
  Net := ();
  NatsConn := ();
  Msg := bytes;
  net_Now _ := noon;
  time_Sleep _ n := n;
  nats_Connect _ n := (Ok (), n);
  nats_Request _ _ payload _ n := (Ok (bridge payload), n);
  nats_Close _ n := n;
  msg_Data m := m;
  Header_Values _ _ := [];
  cbor_Marshal r := Ok (sir_KeyID r ++ sir_Message r ++ [byte_of (sir_Algorithm r)]);
  cbor_Unmarshal m := if decide (m = str "signed") then Ok signed_response else Err (Foreign 42);
}.

Lemma bridge_honest : honest_bridge () (str "basil.invoke") broker_key program_key broker_seed target_seed.
Proof.
  intros body msg t [] _ _.
  destruct (buildSealed_ok signResponseContentType (str "signed") (response_claims msg) (str "broker.signing")
    broker_seed (str "response.sealing") program_key (mem_world Time 0 [] noon)) as (reply & w' & E & Hs).
  - unfold claims_ok, int64. cbn. split_and!; try done; lia.
  - by vm_compute.
  - done.
  - done.
  - apply (mem_entropic Time).
  - exists (bridge msg), (), (str "signed"), (response_claims msg), signed_response.
    assert (reply = bridge msg) as -> by (unfold bridge; by rewrite E).
    split; [reflexivity|]. split; [reflexivity|]. split; [exact Hs|]. split_and!; try reflexivity.
Qed.

Definition courier_env (name : bytes) : bytes :=
  if decide (name = str "EXAMPLE_MODE") then []
  else if decide (name = str "BASIL_NATS_SUBJECT") then str "basil.invoke"
  else if decide (name = str "BASIL_REQUEST_RECIPIENT_PUBLIC_HEX") then
    hex_EncodeToString (PublicKey_Bytes broker_key)
  else if decide (name = str "BASIL_BROKER_SIGNING_PUBLIC_HEX") then hex_EncodeToString (ed25519_Public broker_seed)
  else if decide (name = str "BASIL_TARGET_SIGNING_PUBLIC_HEX") then hex_EncodeToString (ed25519_Public target_seed)
  else str "nats://127.0.0.1:4222".

Definition at_noon : process courier := mkProcess (mkCourier (P := mem_platform Time) () (0 : Z)) [].

Lemma some_setting : exists body,
  honest_setting courier_env broker_key program_key broker_seed target_seed body (ps_state at_noon).
Proof.
  eexists. constructor.
  - discriminate.
  - discriminate.
  - discriminate.
  - split; [vm_compute; discriminate|]. apply hex_Decode_Encode.
  - split; [vm_compute; discriminate|]. apply hex_Decode_Encode.
  - split; [vm_compute; discriminate|]. apply hex_Decode_Encode.
  - reflexivity.
  - reflexivity.
  - reflexivity.
  - apply (mem_entropic Time).
  - split; [|reflexivity]. split; vm_compute; split; congruence.
  - exists (), (). split; [reflexivity|]. split; [split; vm_compute; split; congruence|]. apply bridge_honest.
Qed.

Definition no_input : @R _ (mem_platform Time) := mkReader 0 [].
Definition no_output : @W _ (mem_platform Time) := mkWriter None [].

Lemma courier_honest_witness :
  exists response p', main 134 no_input no_output courier_env at_noon = (0, p') /\
    ps_out p' = [pass_line response].
Proof.
  destruct some_setting as (body & H).
  destruct (courier_honest 134 no_input no_output courier_env _ _ _ _ _ at_noon H ltac:(lia))
    as (response & p' & E & Ho).
  exists response, p'. split; [exact E|exact Ho].
Defined.

Lemma courier_sound_witness :
  exists now reply request response, verified now reply request (ed25519_Public broker_seed)
    (ed25519_Public target_seed) response.
Proof.
  destruct some_setting as (body & H).
  destruct (run_honest 134 no_input no_output courier_env _ _ _ _ _ at_noon H ltac:(lia))
    as (response & p' & E & _).
  destruct (courier_sound 134 no_input no_output courier_env at_noon p' ltac:(discriminate) E)
    as (r & b & t & bd & request & reply & resp & nc & n1 & n2 & _ & [_ Hb] & [_ Ht] & _ & _ & _ & _ & _ & Hv & _).
  exists (net_Now n2), reply, request, resp.
  assert (b = ed25519_Public broker_seed) as <-.
  { assert (courier_env (str "BASIL_BROKER_SIGNING_PUBLIC_HEX") = hex_EncodeToString (ed25519_Public broker_seed))
      as Ee by reflexivity. rewrite Ee, hex_Decode_Encode in Hb. congruence. }
  assert (t = ed25519_Public target_seed) as <-.
  { assert (courier_env (str "BASIL_TARGET_SIGNING_PUBLIC_HEX") = hex_EncodeToString (ed25519_Public target_seed))
      as Ee by reflexivity. rewrite Ee, hex_Decode_Encode in Ht. congruence. }
  exact Hv.
Defined.
