(* ===== verification/TelemetryWitnesses.v ===== *)
(** A concrete run for the example [cose-nats-telemetry]: a broker with the four
    keys, a disk, a NATS server with one queue, and a COSE message that is the
    payload and the signature. *)

From stdpp Require Import gmap.
From S2P Require Import Prelude GoTime GoPath GoText GoError Errors Pb Client Keytype Signing Cbor Sealed Minting.
From S2P Require Import Program ExTelemetry TelemetryProps Concrete SealedConcrete.

Definition the_seed : bytes := replicate 32 x31.
Definition the_token : bytes := str "user-token".

Definition mint_reply (token : string) (t : Z) : result error CredentialResponse * Z :=
  (Ok (mkCredentialResponse (str token) (Some (mkTimestamp (1780000600 + t) 0))), t + 1).

(** All keys are the one of [the_seed]. *)
Definition minting_Invoke {Req Resp} (m : method Req Resp) :
    () -> context -> Req -> list CallOption -> Z -> result error Resp * Z :=
  match m in method Req Resp return
    () -> context -> Req -> list CallOption -> Z -> result error Resp * Z with
  | SigningService_Sign => fun _ _ req _ t =>
      (Ok (mkSignResponse (ed25519_Sign the_seed (SignRequest_Message req))), t + 1)
  | SigningService_GetPublicKey => fun _ _ req _ t =>
      (Ok (mkGetPublicKeyResponse (GetPublicKeyRequest_KeyId req) KeyTypeEd25519NKey (ed25519_Public the_seed) 1), t + 1)
  | NatsService_MintNatsOperator => fun _ _ _ _ t => mint_reply "operator-token" t
  | NatsService_SignNatsJwt => fun _ _ _ _ t => mint_reply "account-token" t
  | NatsService_MintNatsUser => fun _ _ _ _ t => mint_reply "user-token" t
  | _ => fun _ _ _ _ t => (Err (Foreign 50), t + 1)
  end.

#[local] Instance minting_grpc : Grpc := {
  B := Z;
  Conn := ();
  Stream := list;
  now t := t;
  NewClient _ _ := Ok ();
  Conn_Close _ := None;
  Invoke := @minting_Invoke;
  NewStream _ _ _ _ _ _ t := (Err (Foreign 50), t);
  Recv _ s t := (Err (Foreign 50), t);
}.

#[local] Instance some_values : GoValues := {
  VString s := Some ([x22] ++ s ++ [x22]);
  VInt _ := Some (str "0");
  VBool _ := Some (str "true");
  VMap _ := Some (str "{}");
}.

#[local] Instance plain_nkeys : NKeys := {
  nkeys_Encode p b := Ok (match p with PrefixByteOperator => str "O" | PrefixByteAccount => str "A"
                          | PrefixByteUser => str "U" end ++ b)
}.

#[local] Instance reversed_maps : MapRange := {
  range_map V l := rev l;
  range_map_perm V l := Permutation_sym (Permutation_rev l);
}.

#[local] Instance memory_disk : Disk := {
  D := gmap bytes bytes;
  os_MkdirAll _ _ d := (None, d);
  os_WriteFile path content _ d := (None, <[path := content]> d);
  os_ReadFile path d := match d !! path with Some content => Ok content | None => Err (Foreign 51) end;
}.

#[local] Instance plain_cose : GoCose := {
  Algorithm := ();
  AlgorithmEdDSA := ();
  Verifier := bytes;
  Sign1Message := bytes * bytes;
  NewVerifier _ pub := if decide (len pub = 32) then Ok pub else Err (Foreign 52);
  header := ();
  HeaderAlgorithm _ := ();
  HeaderKeyID _ := ();
  cose_Sign1 S _ sign _ payload s :=
    match sign payload s with
    | (Ok sig, s) => (Ok (payload ++ sig), s)
    | (Err e, s) => (Err e, s)
    end;
  msg_UnmarshalCBOR raw :=
    let n := (length raw - 64)%nat in Ok (take n raw, drop n raw);
  msg_Verify msg v := if ed25519_Verify v msg.1 msg.2 then None else Some (Foreign 53);
  msg_Payload msg := msg.1;
}.

(** The server accepts the token and a signature of its nonce. *)
#[local] Instance one_queue : NatsBus := {
  Net := list bytes;
  NatsConn := ();
  Subscription := bytes;
  nats_Connect _ opts '(n, b) :=
    match opt_userCB opts, opt_sigCB opts (str "nonce") b with
    | Ok token, (Ok sig, b) =>
        if decide (token = the_token) then
          if ed25519_Verify (ed25519_Public the_seed) (str "nonce") sig then (Ok (), (n, b))
          else (Err (Foreign 54), (n, b))
        else (Err (Foreign 54), (n, b))
    | _, (_, b) => (Err (Foreign 54), (n, b))
    end;
  nats_Close _ n := n;
  SubscribeSync _ subj _ := (Ok subj, []);
  Flush _ n := (None, n);
  Publish _ _ data n := (None, n ++ [data]);
  NextMsg _ _ n := match n with [] => (Err (Foreign 55), []) | data :: n => (Ok data, n) end;
}.

Lemma toy_bus url : bus_ok (fun _ _ => True) id (fun n _ => n) url the_token (ed25519_Public the_seed).
Proof.
  split.
  - intros opts n b Ht Hs. destruct (Hs (str "nonce") b) as (sig & b' & E & V).
    exists (), n, b'. cbn [nats_Connect one_queue]. rewrite Ht, E, decide_True, V by done. done.
  - intros c subj n _. exists subj, []. done.
  - intros c n _. by exists n.
  - intros c subj data n _. exists (n ++ [data]). done.
  - intros sub d n data rest -> _. by exists rest.
Qed.

Lemma flip_last_differs l : l <> [] -> flip_last l <> l.
Proof.
  intros H. destruct (exists_last H) as (l' & b & ->). rewrite flip_last_app by done.
  intros E. apply app_inv_head in E. cbn in E. injection E as E. revert E. by destruct b; vm_compute.
Qed.

Lemma toy_ed25519 : ed25519_ok.
Proof.
  split.
  - intros seed m. change (len (be_put 64 (checksum (seed ++ m))) = 64). unfold len. by rewrite length_be_put.
  - intros seed m _. cbn. apply bool_decide_eq_false_2, flip_last_differs. unfold toy_sign.
    intros E. apply (f_equal length) in E. by rewrite length_be_put in E.
Qed.

Lemma toy_go_cose : go_cose_ok.
Proof.
  split.
  - intros pub H. exists pub. cbn. by rewrite decide_True.
  - intros keyID payload _. exists payload, payload. cbv zeta. split.
    + intros S sign s sig s' E _. cbn. by rewrite E.
    + intros sig Hl. exists (payload, sig). split; [|split; [reflexivity|]].
      * cbn. assert (length (payload ++ sig) - 64 = length payload)%nat as ->
          by (rewrite length_app; unfold len in Hl; lia).
        by rewrite take_app_length, drop_app_length.
      * intros pub v. cbn. case_decide; [|done]. intros [= <-]. by case_bool_decide.
Qed.

Lemma toy_disk dir : disk_ok dir.
Proof.
  split; cbn.
  - intros name content _ d d' _ [= <-]. by rewrite lookup_insert_eq.
  - intros name other content _ d e d' Hn Ho Hne [= _ <-]. rewrite lookup_insert_ne; [done|].
    intros E. by apply Join_inj in E.
Qed.

Definition minting_client : Client := mkClient () DefaultTimeout.

Lemma toy_signing : signing_broker minting_client (fun _ => the_seed).
Proof.
  split; [intros; eexists; reflexivity|intros; eexists _, _; by split|reflexivity].
Qed.

Definition in_mode (m : bytes) (name : bytes) : bytes := if decide (name = str "EXAMPLE_MODE") then m else [].

Definition empty_machine : process machine := mkProcess (mkMachine (0 : Z) (∅ : gmap bytes bytes) ([] : list bytes)) [].

Lemma telemetry_example_witness :
  exists p1 signed p3, run (loadConfig (in_mode (str "provision"))) empty_machine = (Done (), p1) /\
    os_ReadFile (str "/tmp/basil-cose-nats/fixtures/user.jwt") (m_disk (ps_state p1)) = Ok the_token /\
    main (in_mode (str "telemetry")) p1 = (0, p3) /\ ps_out p3 = ps_out p1 ++ telemetry_lines signed /\
    run (loadConfig (in_mode (str "telemetry"))) p1 = (Done (), p3) /\
    checked (loadConfig (in_mode (str "telemetry"))) minting_client (ps_state p1) (ps_state p3).
Proof.
  destruct (run (loadConfig (in_mode (str "provision"))) empty_machine) as [r p1] eqn:E.
  assert (r = Done ()) as -> by (apply (f_equal fst) in E; vm_compute in E; by symmetry).
  destruct (telemetry_example (in_mode (str "provision")) (in_mode (str "telemetry")) empty_machine p1 eq_refl eq_refl
    eq_refl (toy_disk _) E) as (client & o & a & u & oj & aj & uj & _ & [Hu] & [_ Hm] & _ & Hc & H).
  cbv zeta in Hu. destruct Hu as (b1 & b2 & b3 & b4 & b5 & _ & _ & _ & _ & _ & Hu).
  assert (cred_Token uj = the_token) as Ht by (unfold MintNatsUser, NatsClient_MintNatsUser in Hu; rewrite mint_eq in Hu; by injection Hu as <- _).
  destruct (H p1 minting_client (fun _ => the_seed) (fun _ _ => True) id (fun n _ => n)) as (signed & p3 & Er & Em & Ho).
  - reflexivity.
  - reflexivity.
  - exact toy_signing.
  - exact toy_ed25519.
  - exact toy_go_cose.
  - rewrite Ht. apply toy_bus.
  - destruct (Hc p1 p3 Er) as (c2 & Hd & Hk). injection Hd as <-.
    exists p1, signed, p3. split; [reflexivity|]. split.
    { rewrite Ht in Hm. apply (Hm (str "user.jwt")). unfold fixtures. rewrite !elem_of_cons. tauto. }
    split; [exact Em|]. split; [exact Ho|]. split; [exact Er|]. exact Hk.
Defined.
